(* ===== verification/_CoqProject ===== *)
-Q . S2P
Prelude.v
CString.v
Bytes.v
Utility.v
WsFrame.v
DataStore.v
Cache.v
CacheWatch.v
ServerBase.v
NonTls.v
NonTlsLoop.v
NonTlsProps.v
TcpServer.v
WebBase.v
WebSockets.v
Http.v
Callbacks.v
WsProps.v
BroadcastProps.v
FileProps.v
Config.v
Central.v
CentralProps.v
ThreadProps.v
ThreadInv.v
Program.v
Progress.v
Tls.v
TlsProps.v
TlsWrite.v
Setup.v
Serve.v
Main.v
