(* ===== verification/Prelude.v ===== *)
(** * liburing_server: a verification development

    The program is a web server on io_uring.  A TCP server per thread, plain or
    TLS, runs an event loop over the completions of its ring and calls back into a web server,
    which answers HTTP requests with files and speaks the websocket protocol.  The program
    thread has a ring of its own; it posts broadcasts to the server threads and is told when
    a thread no longer needs their buffers.  The development translates these parts to
    functions on explicit states and proves what makes them correct.

    ** How the code is modelled

    Stateful code is written in the monad [M S A := S → result (A * S)] of this file.  A
    [fault] is what a C++ function may do instead of returning: the accesses that are
    undefined behaviour (out of bounds, null, the front of an empty queue, after a free), an
    uncaught exception, and [utility::fatal_error].  A theorem that a run gives [Ok] therefore says
    that the code is defined there, too.  [int], [unsigned] and [size_t] are [Z], with
    [to_i32], [to_u32] and [to_u64] where the code converts or may wrap around.  A
    [std::vector] is a list with checked accesses ([vget], [vset], [vslice], [vsplice]),
    [std::set] and [unordered_set] are [gset], maps are [gmap]; the order in which an
    [unordered_set] is iterated is an argument ([IterOrder]).

    System calls and libraries are arguments of the definitions: the results of [open], [fstat],
    [ioctl], [inotify] (the record [env] of WebBase.v), of the socket calls (Setup.v), of reads of the
    configuration (Config.v), [malloc] (DataStore.v), SHA1 and base64 of OpenSSL
    ([env]), and wolfSSL (the record [wolfssl] of Tls.v, whose calls may call back any number
    of times).  The vendored lock-free queue is a FIFO list.

    io_uring is the list [ring] of the requests in progress.  A completion names one of
    them by position, with its result and the bytes read: completions come in any order,
    and reads and writes may be partial.  The kernel's part is [kernel_io]; [wire] records
    what was written to each descriptor.

    ** Files

    - Prelude.v: this header, the faults and monads, vectors, widths, and their lemmas,
      hints and tactics; CString.v: [strtok_r] and C strings; Bytes.v: byte order; Utility.v:
      header/utility.h and helper/utility.cpp.
    - WsFrame.v: the websocket codec of web_server/websockets.tcc ([make_ws_frame],
      [decode_websocket_frame], and [get_ws_frames] as [parse_ws_frames]).
    - DataStore.v: header/data_store.h; Cache.v: header/web_server/cache.h; CacheWatch.v: which of
      its items inotify can mark, that what was inserted is found, and that clients use items that exist.
    - ServerBase.v: requests, clients and write queues of header/server.h, and
      tcp_server/server_base.tcc with its event loop [start], [loop], [loop_step].  The class
      [ServerType] holds what the loop calls of [server<T>].
    - NonTls.v, NonTlsLoop.v, NonTlsProps.v: tcp_server/server_non_tls.cpp, the invariant
      [loop_inv] of its event loop, and the theorems on it.
    - TcpServer.v: the interface of the web server to the TCP server: the classes
      [TcpServer] (operations), [TcpServerLaws] (what they promise on the messages queued per
      connection) and [TcpCloseLaws] (closing without I/O).  The plain server is an instance
      of all three, the TLS server of the first two, whatever wolfSSL does.
    - Tls.v, TlsProps.v, TlsWrite.v: tcp_server/server_tls.cpp and wolfssl_callbacks.cpp.
    - WebBase.v, WebSockets.v, Http.v, Callbacks.v: [basic_web_server], the websocket and the
      HTTP part of web_server.tcc and websockets.tcc, and callbacks.tcc; WsProps.v,
      BroadcastProps.v and FileProps.v prove them against [TcpServerLaws].
    - Config.v: [start_server] and the parsing of .config; Setup.v: [setup_listener], the
      constructors, and what a thread does before its loop.
    - Central.v, CentralProps.v: the program thread of central_web_server.cpp ([run]), and the
      system it makes with the server threads; ThreadProps.v: the event loops of the threads
      refine the steps it gives them; ThreadInv.v: the invariant [thread_ok] of a thread, kept by every
      round of its loop; Program.v: the steps of the program as it runs ([program_step]: rounds of the program
      thread, starts and rounds of the threads, [kill_server]); Progress.v: rounds that are not on
      requests and files do not fault.
    - Serve.v: a request from its arrival to the closed connection, over the event loop of the
      plain server with the callbacks of the web server.
    - Main.v: [main] of main.cpp, [server_data], and the program it starts.

    ** What the theorems show

    Event loop (NonTlsProps).  With callbacks that keep to a contract
    ([GoodCallbacks]) no sequence of completions makes the loop fault; the connection table
    stays consistent; the bytes of a connection go out in order and once each, in partial
    writes or whole; a [multi_write] lives as long as a queue refers to it; every submitted
    request is well typed, and its memory is live until the kernel is done with it.

    A request (Serve).  The layers together: a GET that arrives on an idle connection is answered with
    the headers and the whole file on that connection's descriptor, which is then closed, however
    the kernel splits the reads of the file and the writes of the response.

    Interface (TcpServer, TlsProps).  A message written to a connection is queued there, in
    order, and nothing else changes: for the plain server, and for the TLS server with
    any library in the place of wolfSSL.

    TLS (TlsProps, TlsWrite).  The receive callback hands out the received bytes in order; the loop over
    [wolfSSL_read] ends; with a library that works as wolfSSL is documented to ([write_protocol]) the
    bytes of a message reach the connection whole, in order, however little the kernel takes
    at a time, and the message is reported when all are sent.

    Web server.  The cache refines a list in the order of use ([fetch_refines_lru],
    [insert_refines_lru]), its lock numbers count users and what is in use is kept.  A GET is answered
    with the headers and the file, read in any pieces.  Frames round-trip through the codec
    and the RFC 6455 grammar; messages reach the application; the handshake is answered;
    websocket indexes are never shared.  A broadcast posted to a thread is reported back exactly once.

    Program thread (CentralProps).  The data store refines a map of items with use counts.  In
    every interleaving of the program thread and the server threads the buffer of a queued
    broadcast is a live item with the broadcast's bytes; the uses of an item are
    the threads that have not reported it; the program thread never faults.  A round of
    the event loop of a plain server, with the callbacks of the web server, is a sequence of
    the steps the system allows a thread ([thread_round_refines] of ThreadProps.v), if the thread is
    in order, and it stays in order ([thread_stays_in_order] of Program.v): its writes and queued
    broadcasts, the cache, and the websockets, each of which is on an active connection of its own.  A round
    may handle the completions of [completion_ok] (ThreadInv.v): those that do not arrive late for
    a connection that was closed in the meantime, unless their ID shows it.  What the code does with the others
    are the theorems on faults below.

    Starting (Config, Setup).  The in-place parser of the configuration is equivalent to
    splitting lines into fields; settings round-trip; the threads only read the map they share; the
    listening socket is the first address that can be bound.

    The program (Main).  [main] starts the configured number of threads with new servers, in the state the
    theorems on the system start from; from there on the program thread never faults, and
    with plain servers a queued broadcast points to live memory
    ([program_broadcasts_live]) and every thread is in order until it is told to end
    ([program_threads_in_order]), from the first step of [run] on.  Completions that do not hand a thread the
    data of a client or a file never make it fault ([program_threads_never_fault]).

    Faults of the code are theorems as well, at the input that causes them: frame
    headers that hang the splitting loop, fragments put together in reverse, outdated cache
    entries, malformed requests, directories, closing TLS connections, reading files that grow
    or shrink, file reads that outlive their connection, waits that a signal interrupts,
    notifications that coalesce, connections that are ended twice.

    ** Fuel

    Loops that are not structural take fuel, and a run that uses it up is the fault
    [OutOfFuel], so that an [Ok] never hides a loop cut short.  [strtok_all] and [read_headers]
    take one round more than there are bytes (a token is not empty); [parse_ws_frames] a
    round per byte of the buffer and one ([split_frames_terminates]: every frame takes bytes, unless
    its length wraps around, which is [zero_length_header_hangs]); [drain] the
    length of the queue; [tls_read_all] a round per byte of room and one.

    ** Assumptions

    Memory bounds: vectors are shorter than 2^63, messages and files than 2^31 where the
    code uses [int], items of the data store fewer than 2^31 - 2.  The host is little-endian.
    A descriptor the kernel returns is not one in use.  The theorems name what they need.

    ** Not modelled

    A full submission queue: the code does not check [io_uring_get_sqe] for null, but submits every
    request at once.  The workers that rings share appear as the descriptor they are attached to.
    Mutexes: a constructor is one step, and the threads' are taken in order.  Steps of threads are atomic; a
    thread is interleaved between its events.  In CentralProps.v what touches no
    broadcast is the step [other_step]; that a thread does nothing else is proved for the plain
    server, and is an assumption on a TLS server.  The counts of eventfds are left out: a
    completion of one is any number of bytes.  wolfSSL, OpenSSL, the vendored queue and the
    kernel are parameters.  Logging and the build files are left out.

    ** Open

    Safety of the event loop of the TLS server, as NonTlsProps.v has it for the plain one:
    closing faults ([tls_close_faults]), so it has to be stated for connections with a
    queue.  The contract [GoodCallbacks] for the callbacks of Callbacks.v, which would join the
    theorem that the event loop never faults and those on the web server: the callbacks do fault, at the requests
    of [malformed_request_faults] and at directories, so that the contract has to be restated for the data that
    HTTP allows.  [program_threads_never_fault] has it for the callbacks that do not read such
    data, given that the memory behind the writes in progress is there, which the cache does not
    guarantee when files change. *)

From Stdlib Require Import ZArith Lia Ascii.
From Stdlib Require String.
From stdpp Require Import base gmap strings list fin_maps sets.

#[local] Open Scope Z_scope.

(** ** Characters and literals

    A C++ [char], an element of a [std::string] or of a [std::vector<char>], is
    an [ascii]; [cval] is its value as an [unsigned char] and [cchar] the
    conversion of an integer to [char] (the low eight bits are kept). *)

Abbreviation char := ascii (only parsing).

Definition cval (c : char) : Z := Z.of_N (N_of_ascii c).

Definition cchar (z : Z) : char := ascii_of_N (Z.to_N (z mod 256)).

Definition cxor (a b : char) : char := cchar (Z.lxor (cval a) (cval b)).

Definition lit (s : string) : list char := String.list_ascii_of_string s.
Arguments lit s%_string_scope.

Definition nul : char := cchar 0.

(** ** Faults and the result monad

    What a C++ function may do instead of returning.  [OutOfBounds],
    [NullDeref], [EmptyFront] and [UseAfterFree] are undefined behaviour of the
    code, [Uncaught] is an exception that leaves [main], [FatalError] is
    [utility::fatal_error].  [OutOfFuel] is not a behaviour of the code: a loop
    of the model stopped before the loop of the code does. *)

Inductive fault :=
| OutOfBounds
| NullDeref
| EmptyFront
| UseAfterFree
| Uncaught (what : list char)
| FatalError (msg : list char)
| OutOfFuel.

#[export] Instance fault_eq_dec : EqDecision fault.
Proof. solve_decision. Defined.

Inductive result (A : Type) :=
| Ok (a : A)
| Err (f : fault).
Arguments Ok {A} a.
Arguments Err {A} f.

#[export] Instance result_eq_dec `{EqDecision A} : EqDecision (result A).
Proof. solve_decision. Defined.

#[export] Instance result_ret : MRet result := @Ok.
#[export] Instance result_bind : MBind result := λ A B k m,
  match m with Ok a => k a | Err f => Err f end.
#[export] Instance result_fmap : FMap result := λ A B g m,
  match m with Ok a => Ok (g a) | Err f => Err f end.

(** The state monad of the stateful components: a computation either changes
    the state and returns a value or faults. *)

Definition M (S A : Type) : Type := S → result (A * S).

#[export] Instance M_ret {S} : MRet (M S) := λ A a s, Ok (a, s).
#[export] Instance M_bind {S} : MBind (M S) := λ A B k m s,
  match m s with Ok (a, s') => k a s' | Err f => Err f end.

Definition mget {S} : M S S := λ s, Ok (s, s).
Definition mput {S} (s : S) : M S unit := λ _, Ok (tt, s).
Definition mmodify {S} (g : S → S) : M S unit := λ s, Ok (tt, g s).
Definition mlift {S A} (r : result A) : M S A := λ s,
  match r with Ok a => Ok (a, s) | Err f => Err f end.
Definition mfault {S A} (f : fault) : M S A := λ _, Err f.
Definition mwhen {S} (b : bool) (m : M S unit) : M S unit :=
  if b then m else mret tt.

(** [for (auto x : l) body(x);] *)
Fixpoint mfor {S A} (l : list A) (body : A → M S unit) : M S unit :=
  match l with
  | [] => mret tt
  | x :: l' => body x ≫= λ _, mfor l' body
  end.

(** [m] started in a state with [P] ends without a fault, in a state with [Q]. *)
Definition triple {S A} (P : S → Prop) (m : M S A) (Q : A → S → Prop) : Prop :=
  ∀ s, P s → ∃ a s', m s = Ok (a, s') ∧ Q a s'.

(** Every run of [m] that ends without a fault relates its states by [R]; [R] may be that an
    invariant is preserved. *)
Definition keeps {S A} (R : relation S) (m : M S A) : Prop := ∀ s a s', m s = Ok (a, s') → R s s'.
Definition preserves {S} (I : S → Prop) : relation S := λ s s', I s → I s'.

(** ** Machine integers *)

Definition to_i8 (z : Z) : Z := (z + 2 ^ 7) mod 2 ^ 8 - 2 ^ 7.
Definition to_u16 (z : Z) : Z := z mod 2 ^ 16.
Definition to_u32 (z : Z) : Z := z mod 2 ^ 32.
Definition to_u64 (z : Z) : Z := z mod 2 ^ 64.
Definition to_i32 (z : Z) : Z := (z + 2 ^ 31) mod 2 ^ 32 - 2 ^ 31.

(** ** Vectors

    [operator[]] of a [std::vector] or of an array, with an [int] or [size_t]
    index: out of range it is undefined behaviour, in the model a fault. *)

Definition len {A} (l : list A) : Z := Z.of_nat (length l).

Definition vget {A} (l : list A) (i : Z) : result A :=
  if decide (0 ≤ i) then
    match l !! Z.to_nat i with Some x => Ok x | None => Err OutOfBounds end
  else Err OutOfBounds.

Definition vset {A} (l : list A) (i : Z) (x : A) : result (list A) :=
  if decide (0 ≤ i < len l) then Ok (<[Z.to_nat i := x]> l) else Err OutOfBounds.

Definition vupd {A} (l : list A) (i : Z) (g : A → A) : result (list A) :=
  vget l i ≫= λ x, vset l i (g x).

(** The bytes [l[i], ..., l[i+n-1]], as [memcpy] reads them. *)
Definition vslice {A} (l : list A) (i n : Z) : result (list A) :=
  if decide (0 ≤ i ∧ 0 ≤ n ∧ i + n ≤ len l)
  then Ok (take (Z.to_nat n) (drop (Z.to_nat i) l)) else Err OutOfBounds.

(** [memcpy(&l[i], src, src.size())]. *)
Definition vsplice {A} (l : list A) (i : Z) (src : list A) : result (list A) :=
  if decide (0 ≤ i ∧ i + len src ≤ len l)
  then Ok (take (Z.to_nat i) l ++ src ++ drop (Z.to_nat i + length src) l)
  else Err OutOfBounds.

(** [v.resize(n)]: new elements are value-initialised. *)
Definition vresize {A} (d : A) (l : list A) (n : Z) : list A :=
  take (Z.to_nat n) l ++ replicate (Z.to_nat n - length l) d.

(** [v.insert(v.end(), src.begin(), src.end())] is [++]; [v[i..]] is [drop]. *)

(** [std::vector<char>(n)] throws when [n] is over [max_size()]. *)
Definition new_vector (n : Z) : result (list char) :=
  if 2 ^ 63 - 1 <? n then Err (Uncaught (lit "std::length_error"))
  else Ok (replicate (Z.to_nat n) nul).

(** [*s.begin()] of a [std::set<int>]: the least element. *)
Definition set_begin (s : gset Z) : option Z :=
  set_fold (λ x acc, match acc with None => Some x | Some y => Some (Z.min x y) end)
    None s.

(** The iteration order of a [std::unordered_set] depends on its history, so the
    operations that walk one take the order they meet as an argument: any
    function that lists the elements of the set. *)
Class IterOrder (iter : gset Z → list Z) : Prop :=
  iter_perm s : iter s ≡ₚ elements s.

#[export] Instance iter_elements : IterOrder elements.
Proof. intros s. reflexivity. Qed.

(** [*s.cbegin()] of a [std::unordered_set<int>] *)
Definition unordered_begin (iter : gset Z → list Z) (s : gset Z) : option Z := head (iter s).

(** * Lemmas *)

(** ** Characters *)

Lemma cval_bound c : 0 ≤ cval c < 256.
Proof.
  unfold cval. pose proof (N_ascii_bounded c). lia.
Qed.

Lemma cchar_cval c : cchar (cval c) = c.
Proof.
  pose proof (cval_bound c). unfold cchar, cval in *.
  rewrite Z.mod_small by lia. rewrite N2Z.id. apply ascii_N_embedding.
Qed.

Lemma cval_cchar z : cval (cchar z) = z mod 256.
Proof.
  unfold cchar, cval. pose proof (Z.mod_pos_bound z 256).
  rewrite N_ascii_embedding by lia. lia.
Qed.

#[export] Instance cval_inj : Inj (=) (=) cval.
Proof. intros a b H. rewrite <-(cchar_cval a), <-(cchar_cval b). by f_equal. Qed.

Lemma lxor_byte_mod a b :
  0 ≤ a < 256 → 0 ≤ b < 256 → Z.lxor a b mod 256 = Z.lxor a b.
Proof.
  intros Ha Hb. change 256 with (2 ^ 8) in *.
  rewrite <-(Z.mod_small a (2 ^ 8)), <-(Z.mod_small b (2 ^ 8)) by lia.
  apply Z.bits_inj'. intros n Hn. rewrite Z.lxor_spec.
  destruct (decide (n < 8)).
  - by rewrite Z.mod_pow2_bits_low, Z.lxor_spec by lia.
  - by rewrite !Z.mod_pow2_bits_high by lia.
Qed.

Lemma cval_cxor a k : cval (cxor a k) = Z.lxor (cval a) (cval k).
Proof. unfold cxor. rewrite cval_cchar. apply lxor_byte_mod; apply cval_bound. Qed.

(** XOR-ing twice with the same key byte gives the byte back. *)
Lemma cxor_cxor a k : cxor (cxor a k) k = a.
Proof.
  apply (inj cval). by rewrite !cval_cxor, Z.lxor_assoc, Z.lxor_nilpotent, Z.lxor_0_r.
Qed.

(** ** The monads *)

Lemma result_bind_Ok {A B} (m : result A) (k : A → result B) b :
  m ≫= k = Ok b ↔ ∃ a, m = Ok a ∧ k a = Ok b.
Proof. 
  destruct m as [a|f]; simpl; split.
  - by eauto.
  - intros (a' & Ha & Hk). by injection Ha as ->.
  - done.
  - intros (a' & Ha & _). done.
Qed.

Lemma M_bind_Ok {S A B} (m : M S A) (k : A → M S B) s b s' :
  (m ≫= k) s = Ok (b, s') ↔ ∃ a s1, m s = Ok (a, s1) ∧ k a s1 = Ok (b, s').
Proof.
  unfold mbind, M_bind. destruct (m s) as [[a s1]|f]; split.
  - by eauto.
  - intros (a' & s2 & Ha & Hk). by injection Ha as -> ->.
  - done.
  - intros (a' & s2 & Ha & _). done.
Qed.

Lemma M_bind_run {S A B} (m : M S A) (k : A → M S B) s a s1 :
  m s = Ok (a, s1) → (m ≫= k) s = k a s1.
Proof. unfold mbind, M_bind. by intros ->. Qed.

Lemma mlift_run {S A} (r : result A) (st : S) a : r = Ok a → mlift r st = Ok (a, st).
Proof. intros ->. done. Qed.

Lemma mfor_app {S A} (l1 l2 : list A) (body : A → M S unit) s :
  mfor (l1 ++ l2) body s = (mfor l1 body ≫= λ _, mfor l2 body) s.
Proof.
  revert s. induction l1 as [|x l1 IH]; intros s; [done|].
  simpl. unfold mbind, M_bind in *. destruct (body x s) as [[[] s1]|]; [|done]. apply IH.
Qed.

(** A state predicate kept by every iteration is kept by the loop. *)
Lemma mfor_inv {S A} (P : S → Prop) (l : list A) (body : A → M S unit) s u s' :
  (∀ x s u s', x ∈ l → P s → body x s = Ok (u, s') → P s') →
  P s → mfor l body s = Ok (u, s') → P s'.
Proof.
  revert s. induction l as [|x l IH]; simpl; intros s Hbody HP Hrun.
  - by injection Hrun as _ <-.
  - apply M_bind_Ok in Hrun as ([] & s1 & H1 & H2).
    eapply IH; [| |exact H2].
    + intros y s0 u0 s0' Hy. apply Hbody. set_solver.
    + eapply Hbody; [|exact HP|exact H1]. set_solver.
Qed.

Lemma triple_ret {S A} (P : S → Prop) (a : A) Q :
  (∀ s, P s → Q a s) → triple P (mret a) Q.
Proof. intros H s HP. exists a, s. by split; [|apply H]. Qed.

Lemma triple_bind {S A B} (P : S → Prop) (m : M S A) Q (k : A → M S B) R :
  triple P m Q → (∀ a, triple (Q a) (k a) R) → triple P (m ≫= k) R.
Proof.
  intros Hm Hk s HP. destruct (Hm s HP) as (a & s1 & E & HQ).
  destruct (Hk a s1 HQ) as (b & s2 & E2 & HR). exists b, s2. split; [|done].
  by rewrite (M_bind_run _ _ _ _ _ E).
Qed.

Lemma triple_conseq {S A} (P P' : S → Prop) (m : M S A) Q Q' :
  triple P' m Q' → (∀ s, P s → P' s) → (∀ a s, Q' a s → Q a s) → triple P m Q.
Proof. intros H HP HQ s Hs. destruct (H s (HP s Hs)) as (a & s' & E & Ha). eauto. Qed.

Lemma triple_when {S} (P : S → Prop) b (m : M S unit) (Q : S → Prop) :
  (b = true → triple P m (λ _, Q)) → (b = false → ∀ s, P s → Q s) → triple P (mwhen b m) (λ _, Q).
Proof. destruct b; intros H1 H2; [by apply H1|]. apply triple_ret. by apply H2. Qed.

Lemma triple_mfor {S A} (P : S → Prop) (l : list A) (body : A → M S unit) :
  (∀ x, x ∈ l → triple P (body x) (λ _, P)) → triple P (mfor l body) (λ _, P).
Proof.
  induction l as [|x l IH]; intros H; simpl; [by apply triple_ret|].
  eapply triple_bind; [apply H; set_solver|]. intros u. apply IH. set_solver.
Qed.

(** *** What every run keeps *)

#[export] Instance preserves_preorder {S} (I : S → Prop) : PreOrder (preserves I).
Proof. unfold preserves. split; [by intros s|]. intros s1 s2 s3 H1 H2 H. auto. Qed.

Section Keeps.
Context {S : Type} {R : relation S} `{!PreOrder R}.

Lemma keeps_ret {A} (a : A) : keeps R (mret a).
Proof. by intros s b s' [= _ <-]. Qed.

Lemma keeps_fault {A} f : keeps R (mfault f : M S A).
Proof. done. Qed.

Lemma keeps_lift {A} (r : result A) : keeps R (mlift r).
Proof. intros s a s'. unfold mlift. destruct r; [|done]. by intros [= _ <-]. Qed.

Lemma keeps_get : keeps R mget.
Proof. by intros s a s' [= _ <-]. Qed.

Lemma keeps_modify g : (∀ s, R s (g s)) → keeps R (mmodify g).
Proof. intros H s a s' [= _ <-]. apply H. Qed.

Lemma keeps_bind {A B} (m : M S A) (k : A → M S B) : keeps R m → (∀ a, keeps R (k a)) → keeps R (m ≫= k).
Proof.
  intros Hm Hk s b s' (a & s1 & H1 & H2)%M_bind_Ok. transitivity s1; [by eapply Hm|by eapply Hk].
Qed.

Lemma keeps_put {B} g (k : S → unit → M S B) :
  (∀ s, R s (g s)) → (∀ s u, keeps R (k s u)) → keeps R (mget ≫= λ s, mput (g s) ≫= k s).
Proof.
  intros Hg Hk s b s' (a & s1 & [= -> ->] & H)%M_bind_Ok. apply M_bind_Ok in H as (u & s2 & [= _ <-] & H).
  transitivity (g s1); [apply Hg|by eapply Hk].
Qed.

Lemma keeps_when b (m : M S unit) : keeps R m → keeps R (mwhen b m).
Proof. destruct b; [done|]. intros _. apply keeps_ret. Qed.

Lemma keeps_mfor {A} (l : list A) (body : A → M S unit) : (∀ x, x ∈ l → keeps R (body x)) → keeps R (mfor l body).
Proof.
  induction l as [|x l IH]; intros H; simpl; [apply keeps_ret|].
  apply keeps_bind; [apply H; set_solver|]. intros _. apply IH. set_solver.
Qed.
End Keeps.

Lemma keeps_weaken {S A} (R R' : relation S) (m : M S A) : (∀ s s', R s s' → R' s s') → keeps R m → keeps R' m.
Proof. intros H Hm s a s' Hr. by eapply H, Hm. Qed.

(** What follows may rely on what an invariant says of the result. *)
Lemma keeps_bind_result {S A B} (I : S → Prop) (P : A → Prop) (m : M S A) (k : A → M S B) :
  (∀ s a s', I s → m s = Ok (a, s') → I s' ∧ P a) → (∀ a, P a → keeps (preserves I) (k a)) →
  keeps (preserves I) (m ≫= k).
Proof.
  intros Hm Hk s b s' (a & s1 & H1 & H2)%M_bind_Ok Hs. destruct (Hm s a s1 Hs H1) as [Hs1 Ha].
  by apply (Hk a Ha s1 b s' H2).
Qed.

(** ** Machine integers *)

Lemma to_u64_small z : 0 ≤ z < 2 ^ 64 → to_u64 z = z.
Proof. apply Z.mod_small. Qed.
Lemma to_u32_small z : 0 ≤ z < 2 ^ 32 → to_u32 z = z.
Proof. apply Z.mod_small. Qed.
Lemma to_u16_small z : 0 ≤ z < 2 ^ 16 → to_u16 z = z.
Proof. apply Z.mod_small. Qed.
Lemma to_i32_small z : - 2 ^ 31 ≤ z < 2 ^ 31 → to_i32 z = z.
Proof. intros H. unfold to_i32. rewrite Z.mod_small; lia. Qed.
Lemma to_i8_small z : - 2 ^ 7 ≤ z < 2 ^ 7 → to_i8 z = z.
Proof. intros H. unfold to_i8. rewrite Z.mod_small; lia. Qed.
Lemma to_i32_range z : - 2 ^ 31 ≤ to_i32 z < 2 ^ 31.
Proof. unfold to_i32. pose proof (Z.mod_pos_bound (z + 2 ^ 31) (2 ^ 32)). lia. Qed.

(** ** Vectors *)

Lemma len_nonneg {A} (l : list A) : 0 ≤ len l.
Proof. unfold len. lia. Qed.
Lemma len_nil {A} : len (@nil A) = 0.
Proof. done. Qed.
Lemma len_cons {A} (x : A) l : len (x :: l) = 1 + len l.
Proof. unfold len. simpl. lia. Qed.
Lemma len_app {A} (l1 l2 : list A) : len (l1 ++ l2) = len l1 + len l2.
Proof. unfold len. rewrite length_app. lia. Qed.

Lemma len_0_nil {A} (l : list A) : len l = 0 → l = [].
Proof. destruct l; [done|]. rewrite len_cons. pose proof (len_nonneg l). lia. Qed.

Lemma vget_lookup {A} (l : list A) (i : Z) x :
  vget l i = Ok x ↔ 0 ≤ i ∧ l !! Z.to_nat i = Some x.
Proof.
  unfold vget. case_decide; [|naive_solver].
  destruct (l !! Z.to_nat i); naive_solver.
Qed.

Lemma vget_range {A} (l : list A) i x : vget l i = Ok x → 0 ≤ i < len l.
Proof.
  intros [? Hl%lookup_lt_Some]%vget_lookup. unfold len. lia.
Qed.

Lemma vget_is_Ok {A} (l : list A) i : 0 ≤ i < len l → ∃ x, vget l i = Ok x.
Proof.
  unfold len. intros [H0 H1]. destruct (lookup_lt_is_Some_2 l (Z.to_nat i)) as [x Hx]; [lia|].
  exists x. by apply vget_lookup.
Qed.

Lemma vget_oob {A} (l : list A) i : ¬ 0 ≤ i < len l → vget l i = Err OutOfBounds.
Proof.
  unfold vget, len. intros H. case_decide; [|done].
  rewrite lookup_ge_None_2 by lia. done.
Qed.

Lemma vget_nat {A} (l : list A) (n : nat) x :
  l !! n = Some x → vget l (Z.of_nat n) = Ok x.
Proof. intros H. apply vget_lookup. rewrite Nat2Z.id. split; [lia|done]. Qed.

Lemma vget_app_l {A} (l1 l2 : list A) i :
  i < len l1 → vget (l1 ++ l2) i = vget l1 i.
Proof.
  intros H. unfold vget. case_decide; [|done].
  rewrite lookup_app_l; [done|]. unfold len in H. lia.
Qed.

Lemma vget_app_r {A} (l1 l2 : list A) i :
  len l1 ≤ i → vget (l1 ++ l2) i = vget l2 (i - len l1).
Proof.
  intros H. pose proof (len_nonneg l1). unfold vget. rewrite !decide_True by lia.
  unfold len in *. rewrite lookup_app_r by lia.
  by replace (Z.to_nat i - length l1)%nat with (Z.to_nat (i - Z.of_nat (length l1))) by lia.
Qed.

Lemma vget_cons_0 {A} (x : A) l : vget (x :: l) 0 = Ok x.
Proof. done. Qed.

Lemma vget_cons_pos {A} (x : A) l i : 0 < i → vget (x :: l) i = vget l (i - 1).
Proof. intros H. apply (vget_app_r [x] l). rewrite len_cons, len_nil. lia. Qed.

Lemma vset_Ok {A} (l l' : list A) i x :
  vset l i x = Ok l' ↔ 0 ≤ i < len l ∧ l' = <[Z.to_nat i := x]> l.
Proof. unfold vset. case_decide; naive_solver. Qed.

Lemma vset_is_Ok {A} (l : list A) i x :
  0 ≤ i < len l → vset l i x = Ok (<[Z.to_nat i := x]> l).
Proof. intros H. unfold vset. by rewrite decide_True. Qed.

Lemma vset_len {A} (l l' : list A) i x : vset l i x = Ok l' → len l' = len l.
Proof. intros [_ ->]%vset_Ok. unfold len. by rewrite length_insert. Qed.

Lemma vget_vset_eq {A} (l l' : list A) i x : vset l i x = Ok l' → vget l' i = Ok x.
Proof.
  intros [Hi ->]%vset_Ok. apply vget_lookup. split; [lia|].
  apply list_lookup_insert_eq. unfold len in Hi. lia.
Qed.

Lemma vget_vset_ne {A} (l l' : list A) i j x :
  i ≠ j → vset l i x = Ok l' → vget l' j = vget l j.
Proof.
  intros Hij [Hi ->]%vset_Ok. unfold vget. case_decide; [|done].
  rewrite list_lookup_insert_ne; [done|]. lia.
Qed.

Lemma vget_insert_ne {A} (l : list A) i j x :
  0 ≤ i → i ≠ j → vget (<[Z.to_nat i := x]> l) j = vget l j.
Proof.
  intros Hi Hij. unfold vget. case_decide; [|done].
  rewrite list_lookup_insert_ne; [done|]. lia.
Qed.

Lemma vget_insert_eq {A} (l : list A) i x :
  0 ≤ i < len l → vget (<[Z.to_nat i := x]> l) i = Ok x.
Proof. intros Hi. apply (vget_vset_eq l _ i x). by apply vset_is_Ok. Qed.

Lemma vset_middle {A} (l1 l2 : list A) x y i :
  i = len l1 → vset (l1 ++ x :: l2) i y = Ok (l1 ++ y :: l2).
Proof.
  intros ->. rewrite vset_is_Ok by (rewrite len_app, len_cons; pose proof (len_nonneg l1); pose proof (len_nonneg l2); lia). f_equal. unfold len. rewrite Nat2Z.id.
  rewrite insert_app_r_alt by lia. by rewrite Nat.sub_diag.
Qed.

Lemma vget_insert_inv {A} (l : list A) i j x y :
  0 ≤ i < len l → vget (<[Z.to_nat i := y]> l) j = Ok x →
  (j = i ∧ x = y) ∨ (j ≠ i ∧ vget l j = Ok x).
Proof.
  intros Hi Hx. destruct (decide (j = i)) as [->|Hne].
  - rewrite vget_insert_eq in Hx by done. injection Hx as <-. by left.
  - rewrite vget_insert_ne in Hx by (done || lia). by right.
Qed.

Lemma len_insert {A} (l : list A) i x : len (<[i := x]> l) = len l.
Proof. unfold len. by rewrite length_insert. Qed.

Lemma vupd_Ok {A} (l l' : list A) i g :
  vupd l i g = Ok l' ↔ ∃ x, vget l i = Ok x ∧ l' = <[Z.to_nat i := g x]> l.
Proof.
  unfold vupd. rewrite result_bind_Ok. split.
  - intros (x & Hx & [_ ->]%vset_Ok). eauto.
  - intros (x & Hx & ->). exists x. split; [done|]. apply vset_is_Ok. by eapply vget_range.
Qed.

Lemma vupd_is_Ok {A} (l : list A) i g x :
  vget l i = Ok x → vupd l i g = Ok (<[Z.to_nat i := g x]> l).
Proof. intros H. apply vupd_Ok. eauto. Qed.

Lemma vget_vupd {A} (l l' : list A) i j g :
  vupd l i g = Ok l' → vget l' j = if decide (i = j) then g <$> vget l j else vget l j.
Proof.
  intros (x & Hx & ->)%vupd_Ok. pose proof (vget_range _ _ _ Hx) as Hr. case_decide.
  - subst j. rewrite Hx. by apply vget_insert_eq.
  - apply vget_insert_ne; [lia|done].
Qed.

Lemma vget_fmap_same {A B} (f : A → B) l l' k x :
  f <$> l' = f <$> l → vget l' k = Ok x → ∃ y, vget l k = Ok y ∧ f y = f x.
Proof.
  intros E [Hk Hx]%vget_lookup. assert ((f <$> l) !! Z.to_nat k = Some (f x)) as H
    by by rewrite <-E, list_lookup_fmap, Hx.
  rewrite list_lookup_fmap in H. apply fmap_Some in H as (y & Hy & ->). exists y. split; [by apply vget_lookup|done].
Qed.

Lemma len_fmap_same {A B} (f : A → B) l l' : f <$> l' = f <$> l → len l' = len l.
Proof. intros E%(f_equal length). rewrite !length_fmap in E. unfold len. by rewrite E. Qed.

Lemma fmap_insert_same {A B} (f : A → B) l k x y :
  vget l k = Ok x → f y = f x → f <$> <[Z.to_nat k := y]> l = f <$> l.
Proof.
  intros [_ Hx]%vget_lookup E. rewrite list_fmap_insert, E. apply list_insert_id. by rewrite list_lookup_fmap, Hx.
Qed.

Lemma vupd_len {A} (l l' : list A) i g : vupd l i g = Ok l' → len l' = len l.
Proof. intros (x & _ & ->)%vupd_Ok. unfold len. by rewrite length_insert. Qed.

Lemma vslice_Ok {A} (l r : list A) i n :
  vslice l i n = Ok r ↔
  0 ≤ i ∧ 0 ≤ n ∧ i + n ≤ len l ∧ r = take (Z.to_nat n) (drop (Z.to_nat i) l).
Proof. unfold vslice. case_decide; naive_solver. Qed.

(** The slice that a middle part of a list occupies is that part. *)
Lemma vslice_app {A} (l1 l2 l3 : list A) i n :
  i = len l1 → n = len l2 → vslice (l1 ++ l2 ++ l3) i n = Ok l2.
Proof.
  intros -> ->. apply vslice_Ok. rewrite !len_app.
  pose proof (len_nonneg l1). pose proof (len_nonneg l2). pose proof (len_nonneg l3).
  split_and!; [lia..|]. unfold len. rewrite !Nat2Z.id.
  by rewrite drop_app_length, take_app_length.
Qed.

Lemma vslice_prefix {A} (l1 l2 : list A) n : n = len l1 → vslice (l1 ++ l2) 0 n = Ok l1.
Proof. apply (vslice_app [] l1 l2). done. Qed.

Lemma vsplice_app {A} (l1 old l3 src : list A) i :
  i = len l1 → length src = length old →
  vsplice (l1 ++ old ++ l3) i src = Ok (l1 ++ src ++ l3).
Proof.
  intros -> Hlen. unfold vsplice. rewrite decide_True.
  - unfold len. rewrite Nat2Z.id, take_app_length, Hlen, <-length_app.
    by rewrite (app_assoc l1 old l3), drop_app_length.
  - rewrite !len_app. pose proof (len_nonneg l1). pose proof (len_nonneg l3).
    unfold len. lia.
Qed.

Lemma vsplice_nil {A} (l : list A) i : 0 ≤ i ≤ len l → vsplice l i [] = Ok l.
Proof.
  intros Hi. rewrite <-(take_drop (Z.to_nat i) l) at 1.
  rewrite (vsplice_app (take (Z.to_nat i) l) [] (drop (Z.to_nat i) l) []); [|..|done].
  - by rewrite app_nil_l, take_drop.
  - unfold len in *. rewrite length_take. lia.
Qed.

Lemma vsplice_len {A} (l src l' : list A) k : vsplice l k src = Ok l' → len l' = len l.
Proof.
  unfold vsplice. case_decide as H; [|done]. intros [= <-]. unfold len in *. rewrite !length_app.
  rewrite length_take, length_drop. lia.
Qed.

Lemma vresize_grow {A} (d : A) l n :
  len l ≤ n → vresize d l n = l ++ replicate (Z.to_nat n - length l) d.
Proof. intros H. unfold vresize, len in *. by rewrite take_ge by lia. Qed.

Lemma vresize_len {A} (d : A) l n : 0 ≤ n → len (vresize d l n) = n.
Proof.
  intros H. unfold vresize, len. rewrite length_app, length_take, length_replicate. lia.
Qed.

(** ** Sets *)

Lemma set_begin_spec s :
  match set_begin s with
  | None => s = ∅
  | Some m => m ∈ s ∧ ∀ x, x ∈ s → m ≤ x
  end.
Proof.
  unfold set_begin.
  apply (set_fold_ind_L (λ r s, match r with
    | None => s = ∅ | Some m => m ∈ s ∧ ∀ x, x ∈ s → m ≤ x end)); [done|].
  intros x X [m|] Hx; [intros [Hm Hmin]|intros ->].
  - split; [destruct (Z.min_spec x m) as [[_ ->]|[_ ->]]; set_solver|].
    intros y [->%elem_of_singleton|Hy]%elem_of_union; [lia|]. specialize (Hmin y Hy). lia.
  - split; [set_solver|]. intros y. set_solver.
Qed.

Lemma iter_elem iter `{!IterOrder iter} s x : x ∈ iter s ↔ x ∈ s.
Proof. by rewrite (iter_perm s), elem_of_elements. Qed.

Lemma iter_NoDup iter `{!IterOrder iter} s : NoDup (iter s).
Proof. rewrite (iter_perm s). apply NoDup_elements. Qed.

Lemma unordered_begin_Some iter `{!IterOrder iter} s x : unordered_begin iter s = Some x → x ∈ s.
Proof.
  unfold unordered_begin. intros H. apply (iter_elem iter).
  destruct (iter s); [done|]. injection H as ->. set_solver.
Qed.

Lemma unordered_begin_None iter `{!IterOrder iter} s : unordered_begin iter s = None ↔ s = ∅.
Proof.
  unfold unordered_begin. split.
  - intros H. apply set_eq. intros x. rewrite <-(iter_elem iter).
    destruct (iter s); [set_solver|done].
  - intros ->. pose proof (iter_perm (iter := iter) ∅) as H.
    rewrite elements_empty in H. by apply Permutation_nil_r in H as ->.
Qed.

(** ** Automation *)

(** The tactic [solve_keeps] goes through a computation by its constructs, with the lemmas of the
    hint database [keeps] on the operations it calls. *)
Create HintDb keeps.

Ltac keeps_step :=
  match goal with
  | |- keeps _ (mget ≫= λ w, mput _ ≫= _) => apply keeps_put; [by split|intros ? ?]
  | |- keeps _ (mwhen _ _) => apply keeps_when
  | |- keeps _ (mmodify _) => apply keeps_modify; intros ?; first [by split|case_match; by split]
  | |- keeps _ (match ?x with _ => _ end) => destruct x
  | |- keeps _ (_ ≫= _) => apply keeps_bind; [|intros ?]
  | |- _ => first [apply keeps_ret|apply keeps_fault|apply keeps_lift|apply keeps_get]
  | |- _ => progress (auto with keeps nocore)
  end.
Ltac solve_keeps := repeat keeps_step.

Create HintDb lius.
Create Rewrite HintDb lius.

#[export] Hint Rewrite @len_app @len_cons @len_nil @len_insert : lius.
#[export] Hint Resolve cval_bound len_nonneg : lius.

(** Turns every hypothesis that says how a monadic computation ended into the
    hypotheses that say how its steps ended. *)
Ltac inv_ok :=
  repeat match goal with
  | H : Ok _ = Ok _ |- _ => injection H as H; try subst
  | H : Err _ = Ok _ |- _ => discriminate H
  | H : Ok _ = Err _ |- _ => discriminate H
  | H : mret _ = Ok _ |- _ => injection H as H; try subst
  | H : mret _ _ = Ok _ |- _ => injection H as H; try subst
  | H : (_, _) = (_, _) |- _ => injection H as ? ?; try subst
  | H : (@mbind result _ _ _ _ _) = Ok _ |- _ =>
      apply result_bind_Ok in H; destruct H as (? & ? & H)
  | H : (@mbind (M _) _ _ _ _ _) _ = Ok (_, _) |- _ =>
      apply M_bind_Ok in H; destruct H as (? & ? & ? & H)
  end.

(** Runs the steps of a monadic computation whose results are known. *)
Ltac step_ok := repeat (change (Ok ?a ≫= ?k) with (k a); cbv beta iota zeta).

(** Length arithmetic: normalises [len] and calls [lia] with the facts that
    lengths are not negative and that characters are bytes. *)
Ltac len_facts :=
  repeat match goal with
  | |- context [len ?l] =>
      lazymatch goal with H : 0 ≤ len l |- _ => fail | _ => pose proof (len_nonneg l) end
  | _ : context [len ?l] |- _ =>
      lazymatch goal with H : 0 ≤ len l |- _ => fail | _ => pose proof (len_nonneg l) end
  | |- context [cval ?c] =>
      lazymatch goal with H : 0 ≤ cval c < 256 |- _ => fail | _ => pose proof (cval_bound c) end
  | _ : context [cval ?c] |- _ =>
      lazymatch goal with H : 0 ≤ cval c < 256 |- _ => fail | _ => pose proof (cval_bound c) end
  end.

Ltac len_norm :=
  repeat first [rewrite len_app | rewrite len_cons | progress change (@len ?A []) with 0].

Ltac len_lia := autorewrite with lius in *; len_facts; lia.
