(* ===== verification/CString.v ===== *)
(** * C strings

    The functions of <cstring> and <string> that the web server parses requests
    and its configuration with.  Memory is the list of bytes from a pointer to the
    end of its allocation: reading on for a NUL that is not there is a fault. *)

From S2P Require Import Prelude.
From Stdlib Require Import ZArith Lia.
From stdpp Require Import base gmap strings list fin_maps sets pretty.

#[local] Open Scope Z_scope.

(** ** Definitions *)

(** The end of a header line. *)
Definition crlf : list char := [cchar 13; cchar 10].

Definition space : char := cchar 32.

(** [c_str()] *)
Definition c_str (s : list char) : list char := s ++ [nul].

(** The string a [char*] points to. *)
Fixpoint c_string (mem : list char) : result (list char) :=
  match mem with
  | [] => Err OutOfBounds
  | c :: mem =>
      if decide (c = nul) then Ok []
      else c_string mem ≫= λ s, mret (c :: s)
  end.

(** [strtok_r]: the delimiters before the token, the token, and [saveptr] after
    it.  The result is [None] for the null pointer.  (The NUL that [strtok_r]
    writes behind the token is never read again.) *)
Fixpoint skip_delims (delims mem : list char) : result (list char) :=
  match mem with
  | [] => Err OutOfBounds
  | c :: mem' =>
      if decide (c = nul) then Ok mem
      else if decide (c ∈ delims) then skip_delims delims mem' else Ok mem
  end.

Fixpoint scan_token (delims mem : list char) : result (list char * list char) :=
  match mem with
  | [] => Err OutOfBounds
  | c :: mem' =>
      if decide (c = nul) then Ok ([], mem)
      else if decide (c ∈ delims) then Ok ([], mem')
      else scan_token delims mem' ≫= λ '(t, r), mret (c :: t, r)
  end.

Definition strtok_r (delims mem : list char) : result (option (list char) * list char) :=
  skip_delims delims mem ≫= λ mem,
  match mem with
  | [] => Err OutOfBounds
  | c :: _ =>
      if decide (c = nul) then mret (None, mem)
      else scan_token delims mem ≫= λ '(t, r), mret (Some t, r)
  end.

(** [while((p = strtok_r(...)))]: all tokens. *)
Fixpoint strtok_all (fuel : nat) (delims mem : list char) : result (list (list char)) :=
  match fuel with
  | O => Err OutOfFuel
  | S fuel =>
      strtok_r delims mem ≫= λ '(t, r),
      match t with
      | None => mret []
      | Some t => strtok_all fuel delims r ≫= λ ts, mret (t :: ts)
      end
  end.

(** [s.find(sub) != npos] *)
Fixpoint contains (sub s : list char) : bool :=
  bool_decide (take (length sub) s = sub) ||
  match s with [] => false | _ :: s => contains sub s end.

(** [s.substr(n)] throws when [n] is past the end. *)
Definition substr (s : list char) (n : Z) : result (list char) :=
  if len s <? n then Err (Uncaught (lit "std::out_of_range")) else Ok (drop (Z.to_nat n) s).

(** [std::to_string] *)
Definition to_string (n : Z) : list char := String.list_ascii_of_string (pretty n).

(** ** Specification *)

(** The fields between delimiters, empty ones left out. *)
Fixpoint fields_from (delims acc s : list char) : list (list char) :=
  match s with
  | [] => match acc with [] => [] | _ => [acc] end
  | c :: s =>
      if decide (c ∈ delims)
      then match acc with [] => fields_from delims [] s | _ => acc :: fields_from delims [] s end
      else fields_from delims (acc ++ [c]) s
  end.

Definition fields (delims s : list char) : list (list char) := fields_from delims [] s.

(** ** Lemmas *)

Lemma c_string_spec s rest : nul ∉ s → c_string (s ++ nul :: rest) = Ok s.
Proof.
  induction s as [|c s IH]; intros Hn; [done|]. simpl.
  rewrite decide_False by set_solver. rewrite IH by set_solver. done.
Qed.

Lemma c_string_none s : nul ∉ s → c_string s = Err OutOfBounds.
Proof.
  induction s as [|c s IH]; intros Hn; simpl; [done|].
  rewrite decide_False by set_solver. rewrite IH by set_solver. done.
Qed.

Lemma scan_token_delim delims t d rest :
  nul ∉ t → Forall (λ c, c ∉ delims) t → d ∈ delims → d ≠ nul →
  scan_token delims (t ++ d :: rest) = Ok (t, rest).
Proof.
  intros Hn Ht Hd Hdn. induction Ht as [|c t Hc Ht IH]; simpl.
  - by rewrite decide_False, decide_True.
  - rewrite decide_False by set_solver. rewrite decide_False by done.
    rewrite IH by set_solver. done.
Qed.

Lemma scan_token_end delims t rest :
  nul ∉ t → Forall (λ c, c ∉ delims) t → scan_token delims (t ++ nul :: rest) = Ok (t, nul :: rest).
Proof.
  intros Hn Ht. induction Ht as [|c t Hc Ht IH]; [done|]. simpl.
  rewrite decide_False by set_solver. rewrite decide_False by done.
  rewrite IH by set_solver. done.
Qed.

(** A token followed by a delimiter, or by the end of the string. *)
Lemma strtok_r_token delims c t d rest :
  nul ∉ c :: t → Forall (λ c, c ∉ delims) (c :: t) → d ∈ delims → d ≠ nul →
  strtok_r delims ((c :: t) ++ d :: rest) = Ok (Some (c :: t), rest).
Proof.
  intros Hn Ht Hd Hdn. unfold strtok_r. cbn [app skip_delims].
  pose proof (proj1 (Forall_cons _ _ _) Ht) as [Hc _].
  rewrite decide_False by set_solver. rewrite decide_False by done. step_ok.
  rewrite decide_False by set_solver.
  change (c :: t ++ d :: rest) with ((c :: t) ++ d :: rest).
  by rewrite scan_token_delim.
Qed.

Lemma strtok_r_last delims c t rest :
  nul ∉ c :: t → Forall (λ c, c ∉ delims) (c :: t) →
  strtok_r delims ((c :: t) ++ nul :: rest) = Ok (Some (c :: t), nul :: rest).
Proof.
  intros Hn Ht. unfold strtok_r. cbn [app skip_delims].
  pose proof (proj1 (Forall_cons _ _ _) Ht) as [Hc _].
  rewrite decide_False by set_solver. rewrite decide_False by done. step_ok.
  rewrite decide_False by set_solver.
  change (c :: t ++ nul :: rest) with ((c :: t) ++ nul :: rest).
  by rewrite scan_token_end.
Qed.

Lemma strtok_r_skip delims d rest :
  d ∈ delims → d ≠ nul → strtok_r delims (d :: rest) = strtok_r delims rest.
Proof. intros Hd Hdn. unfold strtok_r. simpl. by rewrite decide_False, decide_True. Qed.

Lemma strtok_r_end delims rest : strtok_r delims (nul :: rest) = Ok (None, nul :: rest).
Proof. done. Qed.

Lemma fields_from_token delims acc t s :
  Forall (λ c, c ∉ delims) t → fields_from delims acc (t ++ s) = fields_from delims (acc ++ t) s.
Proof.
  intros Ht. revert acc. induction Ht as [|c t Hc Ht IH]; intros acc; simpl.
  - by rewrite app_nil_r.
  - by rewrite decide_False, IH, <-app_assoc.
Qed.

(** A string is a run of non-delimiters and then ends or goes on with a delimiter. *)
Lemma split_token (delims s : list char) :
  ∃ t r, s = t ++ r ∧ Forall (λ c, c ∉ delims) t ∧ match r with [] => True | d :: _ => d ∈ delims end.
Proof.
  induction s as [|c s (t & r & -> & Ht & Hr)]; [by exists [], []|].
  destruct (decide (c ∈ delims)).
  - exists [], (c :: t ++ r). by split_and!.
  - exists (c :: t), r. split_and!; [done|by constructor|done].
Qed.

Lemma strtok_r_skips delims ds rest :
  nul ∉ ds → Forall (λ c, c ∈ delims) ds → strtok_r delims (ds ++ rest) = strtok_r delims rest.
Proof.
  intros Hn Hds. induction Hds as [|d ds Hd Hds IH]; [done|]. simpl.
  rewrite strtok_r_skip by set_solver. apply IH. set_solver.
Qed.

Lemma fields_skips delims ds s : Forall (λ c, c ∈ delims) ds → fields delims (ds ++ s) = fields delims s.
Proof.
  unfold fields. induction 1 as [|d ds Hd Hds IH]; [done|]. simpl. by rewrite decide_True.
Qed.

Lemma split_delims (delims s : list char) :
  ∃ ds r, s = ds ++ r ∧ Forall (λ c, c ∈ delims) ds ∧ match r with [] => True | c :: _ => c ∉ delims end.
Proof.
  induction s as [|c s (ds & r & -> & Hds & Hr)]; [by exists [], []|].
  destruct (decide (c ∈ delims)).
  - exists (c :: ds), r. split_and!; [done|by constructor|done].
  - exists [], (c :: ds ++ r). by split_and!.
Qed.

Lemma fields_token delims c t d s :
  Forall (λ c, c ∉ delims) (c :: t) → d ∈ delims →
  fields delims ((c :: t) ++ d :: s) = (c :: t) :: fields delims s.
Proof.
  intros Ht Hd. unfold fields. rewrite fields_from_token by done. simpl. by rewrite decide_True.
Qed.

Lemma fields_last delims c t :
  Forall (λ c, c ∉ delims) (c :: t) → fields delims (c :: t) = [c :: t].
Proof.
  intros Ht. unfold fields. rewrite <-(app_nil_r (c :: t)) at 1. by rewrite fields_from_token.
Qed.

(** One call of [strtok_r] on a string: its first field, and the rest. *)
Lemma strtok_r_fields delims s rest :
  nul ∉ s →
  (fields delims s = [] ∧ ∃ m, strtok_r delims (s ++ nul :: rest) = Ok (None, m)) ∨
  (∃ t s', fields delims s = t :: fields delims s' ∧ t ≠ [] ∧ nul ∉ s' ∧ (length s' < length s)%nat ∧
     strtok_r delims (s ++ nul :: rest) = Ok (Some t, s' ++ nul :: rest)).
Proof.
  intros Hn. destruct (split_delims delims s) as (ds & s1 & -> & Hds & Hs1).
  rewrite <-app_assoc, strtok_r_skips, fields_skips, length_app by (done || set_solver).
  destruct s1 as [|c s1]; [left; split; [done|by eexists]|].
  destruct (split_token delims s1) as (t & r & -> & Ht & Hr).
  assert (Forall (λ c, c ∉ delims) (c :: t)) as Hct by by constructor.
  right. destruct r as [|d r].
  - exists (c :: t), []. rewrite app_nil_r in *. rewrite strtok_r_last by (done || set_solver).
    rewrite fields_last by done. split_and!; [done|done|set_solver|simpl; lia|done].
  - exists (c :: t), r. change (c :: t ++ d :: r) with ((c :: t) ++ d :: r). rewrite <-app_assoc.
    change ((d :: r) ++ nul :: rest) with (d :: r ++ nul :: rest).
    rewrite strtok_r_token by (done || set_solver). rewrite fields_token by done.
    split_and!; [done|done|set_solver| |done]. simpl. rewrite length_app. simpl. lia.
Qed.

(** The tokens of a NUL-terminated string are its fields. *)
Lemma strtok_all_fields delims s rest fuel :
  nul ∉ s → (length s < fuel)%nat →
  strtok_all fuel delims (s ++ nul :: rest) = Ok (fields delims s).
Proof.
  revert s. induction fuel as [|fuel IH]; intros s Hn Hf; [lia|]. simpl.
  destruct (strtok_r_fields delims s rest Hn) as [[-> [m ->]]|(t & s' & -> & _ & Hn' & Hl & ->)]; [done|].
  step_ok. by rewrite IH by (done || lia).
Qed.

Lemma scan_token_none delims t :
  nul ∉ t → Forall (λ c, c ∉ delims) t → scan_token delims t = Err OutOfBounds.
Proof.
  intros Hn Ht. induction Ht as [|c t Hc Ht IH]; [done|]. simpl.
  rewrite decide_False by set_solver. rewrite decide_False by done.
  rewrite IH by set_solver. done.
Qed.

Lemma strtok_r_none delims c t :
  nul ∉ c :: t → Forall (λ c, c ∉ delims) (c :: t) → strtok_r delims (c :: t) = Err OutOfBounds.
Proof.
  intros Hn Ht. unfold strtok_r. cbn [skip_delims].
  pose proof (proj1 (Forall_cons _ _ _) Ht) as [Hc _].
  rewrite decide_False by set_solver. rewrite decide_False by done. step_ok.
  rewrite decide_False by set_solver. by rewrite scan_token_none.
Qed.

(** Without a NUL the last token is read past the end of the memory. *)
Lemma strtok_all_overread delims s fuel :
  nul ∉ s → (length s < fuel)%nat → strtok_all fuel delims s = Err OutOfBounds.
Proof.
  revert s. induction fuel as [|fuel IH]; intros s Hn Hf; [lia|]. simpl.
  destruct (split_delims delims s) as (ds & s1 & -> & Hds & Hs1).
  rewrite length_app in Hf. rewrite strtok_r_skips by (done || set_solver).
  destruct s1 as [|c s1]; [done|].
  destruct (split_token delims s1) as (t & r & -> & Ht & Hr).
  assert (Forall (λ c, c ∉ delims) (c :: t)) as Hct by by constructor.
  simpl in Hf. rewrite length_app in Hf. destruct r as [|d r].
  - rewrite app_nil_r in *. rewrite strtok_r_none by (done || set_solver). done.
  - change (c :: t ++ d :: r) with ((c :: t) ++ d :: r).
    rewrite strtok_r_token by (done || set_solver). step_ok.
    simpl in Hf. rewrite IH by (set_solver || lia). done.
Qed.

Lemma contains_spec sub s : contains sub s = true ↔ ∃ l r, s = l ++ sub ++ r.
Proof.
  induction s as [|c s IH]; simpl; rewrite orb_true_iff, bool_decide_eq_true.
  - split.
    + intros [H|?]; [|done]. exists [], []. rewrite take_nil in H. by rewrite <-H.
    + intros (l & r & H). left. symmetry in H. apply app_nil in H as [-> H].
      apply app_nil in H as [-> ->]. done.
  - rewrite IH. split.
    + intros [H|(l & r & ->)]; [|by exists (c :: l), r].
      exists [], (drop (length sub) (c :: s)). simpl. rewrite <-H at 1. by rewrite take_drop.
    + intros ([|x l] & r & H); simpl in H.
      * left. rewrite H. by rewrite take_app_length.
      * right. injection H as -> ->. by exists l, r.
Qed.

(** The last field of a string is what follows its last delimiter. *)
Lemma fields_from_last delims acc s d t :
  d ∈ delims → Forall (λ c, c ∉ delims) t → t ≠ [] →
  last (fields_from delims acc (s ++ d :: t)) = Some t.
Proof.
  intros Hd Ht Hne.
  assert (fields_from delims [] t = [t]) as Et.
  { destruct t as [|c t]; [done|]. by apply fields_last. }
  revert acc. induction s as [|c s IH]; intros acc; simpl.
  - rewrite decide_True by done. by destruct acc; rewrite Et.
  - case_decide; [|apply IH]. destruct acc as [|a acc]; [apply IH|].
    rewrite last_cons, IH. done.
Qed.
