(* ===== verification/Bytes.v ===== *)
(** * Byte order

    The multi-byte loads and stores of the websocket code (a [u_short] or a
    [u_long] read or written through a cast pointer) on a little-endian host, and the conversions [ntohs], [htons],
    [be64toh] and [htobe64], which swap the bytes there.  [le_val] reads a list of
    bytes as a little-endian number, [be_bytes] is the network order the
    websocket protocol asks for; the lemmas relate the two. *)

From S2P Require Import Prelude.
From Stdlib Require Import ZArith Lia.
From stdpp Require Import base list.

#[local] Open Scope Z_scope.

(** ** Definitions *)

Fixpoint le_val (bs : list char) : Z :=
  match bs with
  | [] => 0
  | b :: bs' => cval b + 256 * le_val bs'
  end.

Fixpoint le_bytes (n : nat) (z : Z) : list char :=
  match n with
  | O => []
  | S n' => cchar z :: le_bytes n' (z / 256)
  end.

Definition be_val (bs : list char) : Z := le_val (rev bs).
Definition be_bytes (n : nat) (z : Z) : list char := rev (le_bytes n z).

(** Reversing the [n] bytes of a number. *)
Definition bswap (n : nat) (z : Z) : Z := le_val (rev (le_bytes n z)).

Definition ntohs (z : Z) : Z := bswap 2 z.
Definition htons (z : Z) : Z := bswap 2 z.
Definition be64toh (z : Z) : Z := bswap 8 z.
Definition htobe64 (z : Z) : Z := bswap 8 z.

(** A load through a cast pointer to an unsigned type of [n] bytes. *)
Definition load_le (n : nat) (buf : list char) (i : Z) : result Z :=
  le_val <$> vslice buf i (Z.of_nat n).

(** ** Lemmas *)

Lemma length_le_bytes n z : length (le_bytes n z) = n.
Proof. revert z. induction n as [|n IH]; intros z; simpl; [done|]. by rewrite IH. Qed.

Lemma length_be_bytes n z : length (be_bytes n z) = n.
Proof. unfold be_bytes. by rewrite length_rev, length_le_bytes. Qed.

Lemma le_val_bound bs : 0 ≤ le_val bs < 256 ^ len bs.
Proof.
  induction bs as [|b bs IH]; simpl; [done|].
  rewrite len_cons, Z.pow_add_r by (try apply len_nonneg; lia).
  pose proof (cval_bound b). lia.
Qed.

Lemma le_val_le_bytes n z : le_val (le_bytes n z) = z mod 256 ^ Z.of_nat n.
Proof.
  revert z. induction n as [|n IH]; intros z; cbn [le_val le_bytes].
  - by rewrite Z.mod_1_r.
  - rewrite IH, cval_cchar, Nat2Z.inj_succ, Z.pow_succ_r by lia.
    rewrite Z.rem_mul_r by lia. lia.
Qed.

Lemma le_bytes_le_val bs : le_bytes (length bs) (le_val bs) = bs.
Proof.
  induction bs as [|b bs IH]; simpl; [done|].
  pose proof (cval_bound b). f_equal.
  - apply (inj cval). rewrite cval_cchar.
    rewrite (Z.mul_comm 256), Z.mod_add, Z.mod_small by lia. done.
  - rewrite (Z.mul_comm 256), Z.div_add, Z.div_small by lia. done.
Qed.

(** Swapping the bytes of a little-endian load gives the big-endian value. *)
Lemma bswap_le_val n bs : length bs = n → bswap n (le_val bs) = be_val bs.
Proof. intros <-. unfold bswap. by rewrite le_bytes_le_val. Qed.

(** Storing a swapped number writes it in network order. *)
Lemma le_bytes_bswap n z : le_bytes n (bswap n z) = be_bytes n z.
Proof.
  unfold bswap, be_bytes.
  rewrite <-(length_be_bytes n z) at 1. apply le_bytes_le_val.
Qed.

Lemma be_val_be_bytes n z : 0 ≤ z < 256 ^ Z.of_nat n → be_val (be_bytes n z) = z.
Proof.
  intros Hz. unfold be_val, be_bytes. rewrite rev_involutive, le_val_le_bytes.
  by apply Z.mod_small.
Qed.

Lemma be_val_bound bs : 0 ≤ be_val bs < 256 ^ len bs.
Proof.
  unfold be_val. pose proof (le_val_bound (rev bs)) as H.
  unfold len in *. by rewrite length_rev in H.
Qed.

Lemma bswap_zero n z : 0 ≤ z < 256 ^ Z.of_nat n → bswap n z = 0 → z = 0.
Proof.
  intros Hz H. rewrite <-(be_val_be_bytes n z Hz), <-le_bytes_bswap, H.
  unfold be_val. clear. assert (∀ k, le_bytes k 0 = replicate k nul) as ->.
  { intros k. induction k as [|k IH]; simpl; [done|].
    change (0 / 256) with 0. by rewrite IH. }
  pose proof (reverse_replicate n nul) as Hrev. unfold reverse in Hrev.
  rewrite <-rev_alt in Hrev. rewrite Hrev. clear Hrev.
  induction n as [|n IH]; simpl; [done|]. rewrite IH. done.
Qed.

Lemma load_le_app n (l1 bs l2 : list char) i :
  i = len l1 → length bs = n → load_le n (l1 ++ bs ++ l2) i = Ok (le_val bs).
Proof.
  intros -> <-. unfold load_le. by rewrite (vslice_app l1 bs l2).
Qed.

#[export] Hint Rewrite length_le_bytes length_be_bytes : lius.
