(* ===== verification/Utility.v ===== *)
(** * The helpers of header/utility.h and helper/utility.cpp

    [get_file_size] and the two overloads of [remove_first_n_elements].  The
    system calls [fstat] and [ioctl] are arguments: they answer for the file the
    descriptor names. *)

From S2P Require Import Prelude.
From Stdlib Require Import ZArith Lia.
From stdpp Require Import base strings list.

#[local] Open Scope Z_scope.

(** ** Definitions *)

(** [st_mode] as far as [get_file_size] looks at it, and [st_size]. *)
Inductive file_kind := BlockDevice | RegularFile | OtherFile.

Record stat_struct := { st_kind : file_kind; st_size : Z }.

(** [utility::fatal_error]: the program exits. *)
Definition fatal_error {A} (error_message : list char) : result A :=
  Err (FatalError error_message).

Definition get_file_size (fstat : option stat_struct) (ioctl : option Z) : result Z :=
  match fstat with
  | None => fatal_error (lit "file stat")
  | Some file_stat =>
      match st_kind file_stat with
      | BlockDevice =>
          match ioctl with
          | None => fatal_error (lit "file stat ioctl")
          | Some size_bytes => Ok (to_u64 size_bytes)
          end
      | RegularFile => Ok (to_u64 (st_size file_stat))
      | OtherFile => Ok (to_u64 (-1))
      end
  end.

(** [memmove(&data[0], &data[n], count)]. *)
Definition memmove_front (data : list char) (n count : Z) : result (list char) :=
  vslice data n count ≫= λ src, vsplice data 0 src.

(** The overload for vectors, [num_elements_to_remove] an [int]: the new size is
    computed in [size_t]. *)
Definition remove_first_n_elements (data : list char) (num_elements_to_remove : Z)
  : result (list char) :=
  let new_size := to_u64 (len data - num_elements_to_remove) in
  memmove_front data num_elements_to_remove new_size ≫= λ data',
  mret (vresize nul data' new_size).

(** The overload for buffers: the block [data] points to, after the move, and
    the new block [ret_buff] points to. *)
Definition remove_first_n_elements_ptr
    (data : list char) (length num_elements_to_remove : Z)
  : result (list char * list char) :=
  let new_size := length - num_elements_to_remove in
  memmove_front data num_elements_to_remove new_size ≫= λ data',
  vslice data' 0 new_size ≫= λ ret_buff,
  mret (data', ret_buff).

(** ** Lemmas *)

Lemma memmove_front_app (l1 l2 l3 : list char) n count :
  n = len l1 → count = len l2 →
  ∃ tl, memmove_front (l1 ++ l2 ++ l3) n count = Ok (l2 ++ tl).
Proof.
  intros Hn Hc. unfold memmove_front. rewrite (vslice_app l1 l2 l3) by done.
  change (Ok l2 ≫= ?k) with (k l2). cbv beta.
  assert (∃ old rest, l1 ++ l2 ++ l3 = old ++ rest ∧ length old = length l2) as
    (old & rest & -> & Hold).
  { exists (take (length l2) (l1 ++ l2 ++ l3)), (drop (length l2) (l1 ++ l2 ++ l3)).
    rewrite take_drop. split; [done|]. rewrite length_take, !length_app. lia. }
  exists rest. by apply (vsplice_app [] old rest).
Qed.

(** The vector overload drops the first elements. *)
Lemma remove_first_n_elements_spec (data : list char) n :
  0 ≤ n ≤ len data → len data < 2 ^ 64 →
  remove_first_n_elements data n = Ok (drop (Z.to_nat n) data).
Proof.
  intros Hn Hlen. unfold remove_first_n_elements. rewrite to_u64_small by lia.
  destruct (memmove_front_app (take (Z.to_nat n) data) (drop (Z.to_nat n) data) []
    n (len data - n)) as (tl & Hmove).
  { unfold len in *. rewrite length_take. lia. }
  { unfold len in *. rewrite length_drop. lia. }
  rewrite app_nil_r, take_drop in Hmove. rewrite Hmove.
  change (Ok ?a ≫= ?k) with (k a). cbv beta. unfold mret, result_ret. f_equal.
  unfold vresize. unfold len in *.
  rewrite take_app_le by (rewrite length_drop; lia).
  rewrite take_ge by (rewrite length_drop; lia).
  rewrite (proj2 (Nat.sub_0_le _ _)); [by rewrite app_nil_r|].
  rewrite length_app, length_drop. lia.
Qed.

(** The buffer overload leaves, in a block of exactly that size, what followed
    the removed elements. *)
Lemma remove_first_n_elements_ptr_spec (l1 l2 l3 : list char) length n :
  n = len l1 → length = len l1 + len l2 →
  ∃ data', remove_first_n_elements_ptr (l1 ++ l2 ++ l3) length n = Ok (data', l2).
Proof.
  intros Hn Hl. unfold remove_first_n_elements_ptr.
  destruct (memmove_front_app l1 l2 l3 n (length - n)) as (tl & ->); [done|lia|].
  exists (l2 ++ tl). change (Ok ?a ≫= ?k) with (k a). cbv beta.
  by rewrite vslice_prefix by lia.
Qed.
