(* ===== verification/WsFrame.v ===== *)
(** * The websocket frame codec of web_server/websockets.tcc

    [get_ws_frame_length], [make_ws_frame] and [decode_websocket_frame] as the
    code writes them (loads through cast pointers, a vector filled in place, a
    vector unmasked in place), and the buffering half of [get_ws_frames]:
    completing a pending frame ([assemble_pending]), cutting complete frames off
    the front of the buffer ([split_frames]) and keeping what is left
    ([stash_remaining]).  The part of [get_ws_frames] that calls the server is
    in WebServer.v.

    [server_frame] and [client_frame] are the wire formats of RFC 6455 the codec
    is proved against. *)

From S2P Require Import Prelude Bytes Utility.
From Stdlib Require Import ZArith Lia.
From stdpp Require Import base strings list.

#[local] Open Scope Z_scope.

(** ** Data *)

Inductive websocket_non_control_opcodes :=
| text_frame
| binary_frame
| close_connection_opcode
| ping
| pong.

Definition opcode_value (o : websocket_non_control_opcodes) : Z :=
  match o with
  | text_frame => 1
  | binary_frame => 2
  | close_connection_opcode => 8
  | ping => 9
  | pong => 10
  end.

(** [receiving_data_info]: a partly received frame; [rd_length] is its length,
    [-1] when it is not known yet. *)
Record receiving_data_info := { rd_length : Z; rd_buffer : list char }.

Definition no_receiving_data : receiving_data_info := {| rd_length := -1; rd_buffer := [] |}.

(** ** Operations *)

(** The length of the frame [buffer] starts with; a [ulong]. *)
Definition get_ws_frame_length (buffer : list char) : result Z :=
  vget buffer 1 ≫= λ b1,
  let packet_length := Z.land (cval b1) 127 in
  (if packet_length =? 126 then
     load_le 2 buffer 2 ≫= λ v, mret (to_u64 (ntohs v + 2))
   else if packet_length =? 127 then
     load_le 8 buffer 2 ≫= λ v, mret (to_u64 (be64toh v + 8))
   else mret packet_length) ≫= λ packet_length,
  mret (to_u64 (packet_length + 6)).

Definition make_ws_frame (packet_msg : list char) (opcode : websocket_non_control_opcodes)
  : result (list char) :=
  let msg_size := len packet_msg in
  let '(offset, payload_len_char, payload_len_short, payload_len_long) :=
    if msg_size <? 126 then (2, cchar msg_size, 0, 0)
    else if msg_size <? 65536 then (2 + 2, nul, htons (to_u16 msg_size), 0)
    else (2 + 8, nul, 0, htobe64 msg_size) in
  let data := replicate (Z.to_nat (offset + msg_size)) nul in
  vset data 0 (cchar (Z.lor 128 (opcode_value opcode))) ≫= λ data,
  (if msg_size <? 126 then vset data 1 payload_len_char
   else if negb (payload_len_short =? 0) then
     vset data 1 (cchar 126) ≫= λ data, vsplice data 2 (le_bytes 2 payload_len_short)
   else
     vset data 1 (cchar 127) ≫= λ data, vsplice data 2 (le_bytes 8 payload_len_long))
  ≫= λ data,
  if len data =? 2 then mret data else vsplice data offset packet_msg.

(** The unmasking loop of [decode_websocket_frame]: [data] is read at [i] and
    written at [i - header], in place. *)
Fixpoint unmask_loop (fuel : nat) (i header : Z) (masking_key data : list char)
  : result (list char) :=
  match fuel with
  | O => Err OutOfFuel
  | S fuel =>
      if i <? len data then
        vget data i ≫= λ c,
        vget masking_key ((i - header) mod 4) ≫= λ k,
        vset data (i - header) (cxor c k) ≫= λ data,
        unmask_loop fuel (i + 1) header masking_key data
      else mret data
  end.

(** Decodes one full frame: -1 not masked, -3 close, 3 pong, 2 ping, -2 a
    fragment that is not the last, 1 a message or its last fragment. *)
Definition decode_websocket_frame (data : list char) : result (Z * list char) :=
  vget data 0 ≫= λ b0,
  vget data 1 ≫= λ b1,
  let fin := Z.land (cval b0) 128 =? 128 in
  let opcode := Z.land (cval b0) 15 in
  let mask := Z.land (cval b1) 128 =? 128 in
  if negb mask then mret (-1, [])
  else if opcode =? 8 then mret (-3, [])
  else if opcode =? 10 then mret (3, [])
  else
    let length := Z.land (cval b1) 127 in
    (if length =? 126 then load_le 2 data 2 ≫= λ _, mret 2
     else if length =? 127 then load_le 8 data 2 ≫= λ _, mret 8
     else mret 0) ≫= λ offset,
    vget data (2 + offset) ≫= λ k0,
    vget data (3 + offset) ≫= λ k1,
    vget data (4 + offset) ≫= λ k2,
    vget data (5 + offset) ≫= λ k3,
    unmask_loop (S (List.length data)) (6 + offset) (6 + offset) [k0; k1; k2; k3] data
    ≫= λ data,
    let data := vresize nul data (to_u64 (len data - (6 + offset))) in
    if opcode =? opcode_value ping then mret (2, data)
    else if negb fin then mret (-2, data)
    else mret (1, data).

(** The first part of [get_ws_frames], lines 263 to 302: there is a pending
    frame.  [None]: the two reads together are shorter than ten bytes, the caller
    asks for the connection to be closed.  Otherwise the buffer that is left, its
    length, the frames found and the new pending frame. *)
Definition assemble_pending (buffer : list char) (length : Z) (pending : receiving_data_info)
  : result (option (list char * Z * list (list char) * receiving_data_info)) :=
  if 0 <? len (rd_buffer pending) then
    (if rd_length pending =? -1 then
       if to_u64 (len (rd_buffer pending) + length) <? 10 then mret None
       else
         vslice buffer 0 (10 - len (rd_buffer pending)) ≫= λ new,
         get_ws_frame_length (new ++ rd_buffer pending ++ replicate 10 nul) ≫= λ l,
         mret (Some {| rd_length := to_i32 l; rd_buffer := rd_buffer pending |})
     else mret (Some pending)) ≫= λ o,
    match o with
    | None => mret None
    | Some pending =>
        let required_length := to_u64 (rd_length pending - len (rd_buffer pending)) in
        if required_length <? to_u64 length then
          vslice buffer 0 required_length ≫= λ part,
          remove_first_n_elements_ptr buffer length (to_i32 required_length) ≫= λ p,
          mret (Some (p.2, to_i32 (length - required_length),
                      [rd_buffer pending ++ part], no_receiving_data))
        else
          vslice buffer 0 length ≫= λ part,
          if required_length =? to_u64 length then
            mret (Some (buffer, 0, [rd_buffer pending ++ part], no_receiving_data))
          else
            mret (Some (buffer, 0, [],
              {| rd_length := rd_length pending; rd_buffer := rd_buffer pending ++ part |}))
    end
  else mret (Some (buffer, length, [], pending)).

(** The loop of lines 305 to 317. *)
Fixpoint split_frames (fuel : nat) (buffer : list char) (remaining_length : Z)
    (frames : list (list char)) : result (list char * Z * list (list char)) :=
  match fuel with
  | O => Err OutOfFuel
  | S fuel =>
      if 5 <? remaining_length then
        get_ws_frame_length buffer ≫= λ packet_length,
        if packet_length <=? to_u64 remaining_length then
          vslice buffer 0 packet_length ≫= λ frame,
          remove_first_n_elements_ptr buffer remaining_length (to_i32 packet_length) ≫= λ p,
          split_frames fuel p.2 (to_i32 (to_u64 (remaining_length - packet_length)))
            (frames ++ [frame])
        else mret (buffer, remaining_length, frames)
      else mret (buffer, remaining_length, frames)
  end.

(** Lines 320 to 328: what is left is the beginning of a frame. *)
Definition stash_remaining (buffer : list char) (remaining_length : Z)
    (pending : receiving_data_info) : result receiving_data_info :=
  if 0 <? remaining_length then
    vslice buffer 0 remaining_length ≫= λ part,
    (if 10 <? remaining_length then
       get_ws_frame_length buffer ≫= λ l, mret (to_i32 l)
     else mret (-1)) ≫= λ l,
    mret {| rd_length := l; rd_buffer := part |}
  else mret pending.

(** The three parts in order: everything of [get_ws_frames] that does not call
    the server.  [None] is the early return of line 269. *)
Definition parse_ws_frames (fuel : nat) (buffer : list char) (length : Z)
    (pending : receiving_data_info)
  : result (option (list (list char) * receiving_data_info)) :=
  assemble_pending buffer length pending ≫= λ o,
  match o with
  | None => mret None
  | Some (buffer, remaining_length, frames, pending) =>
      split_frames fuel buffer remaining_length frames ≫= λ '(buffer, remaining_length, frames),
      stash_remaining buffer remaining_length pending ≫= λ pending,
      mret (Some (frames, pending))
  end.

(** ** The wire formats of RFC 6455 *)

Definition ws_len_code (n : Z) : Z :=
  if n <? 126 then n else if n <? 65536 then 126 else 127.

Definition ws_len_ext (n : Z) : list char :=
  if n <? 126 then [] else if n <? 65536 then be_bytes 2 n else be_bytes 8 n.

(** A frame from the server: final, not masked. *)
Definition server_frame (opcode : Z) (msg : list char) : list char :=
  cchar (128 + opcode) :: cchar (ws_len_code (len msg)) :: ws_len_ext (len msg) ++ msg.

Fixpoint ws_mask (key : list char) (i : nat) (payload : list char) : list char :=
  match payload with
  | [] => []
  | c :: payload' => cxor c (default nul (key !! (i mod 4)%nat)) :: ws_mask key (S i) payload'
  end.

(** A frame from a client: masked with a four byte key. *)
Definition client_frame (fin : bool) (opcode : Z) (key payload : list char) : list char :=
  cchar ((if fin then 128 else 0) + opcode) :: cchar (128 + ws_len_code (len payload)) ::
  ws_len_ext (len payload) ++ key ++ ws_mask key 0 payload.

(** A message a client sends, and its frame. *)
Record client_msg := {
  cm_fin : bool;
  cm_opcode : Z;
  cm_key : list char;
  cm_payload : list char
}.

Definition msg_frame (m : client_msg) : list char :=
  client_frame (cm_fin m) (cm_opcode m) (cm_key m) (cm_payload m).

Definition client_msg_wf (m : client_msg) : Prop :=
  0 ≤ cm_opcode m < 16 ∧ len (cm_key m) = 4 ∧ len (cm_payload m) < 2 ^ 63.

(** The result code of [decode_websocket_frame] for an opcode and a FIN bit. *)
Definition decode_code (fin : bool) (opcode : Z) : Z :=
  if opcode =? 8 then -3 else if opcode =? 10 then 3
  else if opcode =? 9 then 2 else if fin then 1 else -2.

(** A frame whose header declares its own length. *)
Definition frame_ok (f : list char) : Prop :=
  get_ws_frame_length f = Ok (len f) ∧ 6 ≤ len f.

(** * Lemmas *)

Lemma length_ws_mask key i p : length (ws_mask key i p) = length p.
Proof. revert i. induction p as [|c p IH]; intros i; simpl; [done|]. by rewrite IH. Qed.

Lemma len_ws_mask key i p : len (ws_mask key i p) = len p.
Proof. unfold len. by rewrite length_ws_mask. Qed.

Lemma ws_mask_lookup key i p k :
  ws_mask key i p !! k =
  (λ c, cxor c (default nul (key !! ((i + k) mod 4)%nat))) <$> p !! k.
Proof.
  revert i k. induction p as [|c p IH]; intros i k; [done|].
  destruct k as [|k]; simpl; [by rewrite Nat.add_0_r|].
  rewrite IH. by replace (S i + k)%nat with (i + S k)%nat by lia.
Qed.

(** Masking is its own inverse. *)
Lemma ws_mask_involutive key i p : ws_mask key i (ws_mask key i p) = p.
Proof.
  revert i. induction p as [|c p IH]; intros i; simpl; [done|].
  by rewrite cxor_cxor, IH.
Qed.

Lemma land_low_bits n z : 0 ≤ n → Z.land z (Z.ones n) = z mod 2 ^ n.
Proof. apply Z.land_ones. Qed.

Lemma ws_len_code_range n : 0 ≤ n → 0 ≤ ws_len_code n < 128.
Proof. intros H. unfold ws_len_code. repeat case_match; lia. Qed.

Lemma cval_len_code n b :
  0 ≤ n → (b = 0 ∨ b = 128) → Z.land (cval (cchar (b + ws_len_code n))) 127 = ws_len_code n.
Proof.
  intros Hn Hb. pose proof (ws_len_code_range n Hn). rewrite cval_cchar.
  rewrite (Z.mod_small _ 256) by lia. change 127 with (Z.ones 7).
  rewrite land_low_bits by lia. change (2 ^ 7) with 128.
  destruct Hb as [-> | ->]; [by rewrite Z.mod_small by lia|].
  rewrite <-Z.add_mod_idemp_l, Z_mod_same_full by lia. by rewrite Z.mod_small by lia.
Qed.

Lemma len_ws_len_ext n :
  len (ws_len_ext n) = if n <? 126 then 0 else if n <? 65536 then 2 else 8.
Proof. unfold ws_len_ext, len. repeat case_match; by rewrite ?length_be_bytes. Qed.

Lemma load_be n (l1 l2 : list char) (z i : Z) :
  i = len l1 → load_le n (l1 ++ be_bytes n z ++ l2) i = Ok (le_val (be_bytes n z)).
Proof. intros ->. apply load_le_app; [done|]. apply length_be_bytes. Qed.

Lemma swap_be n z : 0 ≤ z < 256 ^ Z.of_nat n → bswap n (le_val (be_bytes n z)) = z.
Proof. intros Hz. rewrite bswap_le_val by apply length_be_bytes. by apply be_val_be_bytes. Qed.

(** The declared length of a header with length [n] is the one of a masked
    frame with a payload of [n] bytes. *)
Lemma get_ws_frame_length_header (b0 : char) b n rest :
  0 ≤ n < 2 ^ 63 → (b = 0 ∨ b = 128) →
  get_ws_frame_length (b0 :: cchar (b + ws_len_code n) :: ws_len_ext n ++ rest)
  = Ok (n + 6 + len (ws_len_ext n)).
Proof.
  intros Hn Hb. unfold get_ws_frame_length.
  rewrite vget_cons_pos, vget_cons_0 by lia. change (Ok ?a ≫= ?k) with (k a). cbv beta zeta.
  rewrite cval_len_code, len_ws_len_ext by (lia || done). unfold ws_len_code, ws_len_ext.
  destruct (n <? 126) eqn:E1; [|destruct (n <? 65536) eqn:E2].
  - replace (n =? 126) with false by lia. replace (n =? 127) with false by lia.
    change (mret ?a ≫= ?k) with (k a : result Z). cbv beta.
    unfold mret, result_ret. f_equal. rewrite to_u64_small; lia.
  - change (b0 :: ?c :: ?l) with ([b0; c] ++ l).
    rewrite (load_be 2 [b0; _]) by done.
    change (126 =? 126) with true. change (Ok ?a ≫= ?k) with (k a). cbv beta iota.
    unfold ntohs. rewrite swap_be by (change (256 ^ Z.of_nat 2) with 65536; lia).
    unfold mret, result_ret, mbind, result_bind. f_equal.
    rewrite !to_u64_small by (rewrite ?to_u64_small; lia). lia.
  - change (b0 :: ?c :: ?l) with ([b0; c] ++ l).
    rewrite (load_be 8 [b0; _]) by done.
    change (127 =? 126) with false. change (127 =? 127) with true.
    change (Ok ?a ≫= ?k) with (k a). cbv beta iota.
    unfold be64toh. rewrite swap_be by (change (256 ^ Z.of_nat 8) with (2 ^ 64); lia).
    unfold mret, result_ret, mbind, result_bind. f_equal.
    rewrite !to_u64_small by (rewrite ?to_u64_small; lia). lia.
Qed.

Lemma client_frame_eq fin opcode key payload :
  client_frame fin opcode key payload =
  [cchar ((if fin then 128 else 0) + opcode); cchar (128 + ws_len_code (len payload))] ++
  ws_len_ext (len payload) ++ key ++ ws_mask key 0 payload.
Proof. done. Qed.

Lemma len_client_frame fin opcode key payload :
  len key = 4 →
  len (client_frame fin opcode key payload) = len payload + 6 + len (ws_len_ext (len payload)).
Proof. intros Hk. rewrite client_frame_eq. rewrite !len_app, len_ws_mask, !len_cons, len_nil. lia. Qed.

Lemma get_ws_frame_length_client_app fin opcode key payload rest :
  len key = 4 → len payload < 2 ^ 63 →
  get_ws_frame_length (client_frame fin opcode key payload ++ rest) =
  Ok (len (client_frame fin opcode key payload)).
Proof.
  intros Hk Hp. rewrite len_client_frame by done. unfold client_frame. simpl app.
  rewrite <-!app_assoc. apply get_ws_frame_length_header; [|by right].
  pose proof (len_nonneg payload). lia.
Qed.

Lemma frame_ok_client fin opcode key payload :
  len key = 4 → len payload < 2 ^ 63 → frame_ok (client_frame fin opcode key payload).
Proof.
  intros Hk Hp. split.
  - rewrite <-(app_nil_r (client_frame _ _ _ _)) at 1. by apply get_ws_frame_length_client_app.
  - rewrite len_client_frame by done. len_lia.
Qed.

Lemma result_bind_run {A B} (m : result A) (k : A → result B) a : m = Ok a → m ≫= k = k a.
Proof. by intros ->. Qed.

Lemma replicate_cons2 (n : Z) :
  2 ≤ n → replicate (Z.to_nat n) nul = [nul; nul] ++ replicate (Z.to_nat (n - 2)) nul.
Proof. intros H. replace (Z.to_nat n) with (2 + Z.to_nat (n - 2))%nat by lia. done. Qed.

Lemma replicate_split (n m : Z) :
  0 ≤ n → 0 ≤ m →
  replicate (Z.to_nat (n + m)) nul = replicate (Z.to_nat n) nul ++ replicate (Z.to_nat m) nul.
Proof. intros. by rewrite Z2Nat.inj_add, replicate_add by lia. Qed.

(** Filling a fresh vector: two header bytes, an extension, the message. *)
Lemma fill_frame (b0 b1 : char) (ext msg : list char) :
  (vset (replicate (Z.to_nat (2 + len ext + len msg)) nul) 0 b0 ≫= λ d,
   (vset d 1 b1 ≫= λ d, vsplice d 2 ext) ≫= λ d,
   if len d =? 2 then mret d else vsplice d (2 + len ext) msg)
  = Ok (b0 :: b1 :: ext ++ msg).
Proof.
  pose proof (len_nonneg ext) as He. pose proof (len_nonneg msg) as Hm.
  rewrite replicate_cons2 by lia.
  replace (2 + len ext + len msg - 2) with (len ext + len msg) by lia.
  rewrite replicate_split by lia.
  set (r1 := replicate (Z.to_nat (len ext)) nul). set (r2 := replicate (Z.to_nat (len msg)) nul).
  assert (length r1 = length ext) as Hr1 by (unfold r1, len; rewrite length_replicate; lia).
  assert (length r2 = length msg) as Hr2 by (unfold r2, len; rewrite length_replicate; lia).
  rewrite vset_is_Ok by len_lia. change (Ok ?a ≫= ?k) with (k a). cbv beta.
  rewrite vset_is_Ok by (change (Z.to_nat 0) with 0%nat; simpl; len_lia).
  change (Ok ?a ≫= ?k) with (k a). cbv beta.
  change (Z.to_nat 0) with 0%nat. change (Z.to_nat 1) with 1%nat. simpl app. simpl insert.
  change (b0 :: b1 :: r1 ++ r2) with ([b0; b1] ++ r1 ++ r2).
  rewrite (vsplice_app [b0; b1] r1 r2 ext 2) by done.
  change (Ok ?a ≫= ?k) with (k a). cbv beta.
  destruct (_ =? 2) eqn:E.
  - apply Z.eqb_eq in E. assert (len r2 = len msg) by (unfold len; lia).
    rewrite !len_app, !len_cons, len_nil in E.
    by rewrite (len_0_nil ext), (len_0_nil msg), (len_0_nil r2) by lia.
  - simpl app. change (b0 :: b1 :: ext ++ r2) with (([b0; b1] ++ ext) ++ r2).
    rewrite <-(app_nil_r r2) at 1. rewrite vsplice_app; [by rewrite app_nil_r| |done].
    rewrite len_app, !len_cons, len_nil. lia.
Qed.

Lemma lor_128 z : 0 ≤ z < 128 → Z.lor 128 z = 128 + z.
Proof.
  intros Hz. symmetry. rewrite Z.add_nocarry_lxor, Z.lxor_lor; [done|..];
    apply Z.bits_inj'; intros n Hn; rewrite Z.land_spec, Z.bits_0;
    change 128 with (2 ^ 7); (destruct (decide (n = 7)) as [->|];
      [rewrite <-(Z.mod_small z (2 ^ 7)) by lia; by rewrite Z.mod_pow2_bits_high, andb_false_r by lia
      |by rewrite Z.pow2_bits_false by lia]).
Qed.

Lemma opcode_value_range o : 0 ≤ opcode_value o < 16.
Proof. destruct o; simpl; lia. Qed.

(** Writing nothing is no change. *)
Lemma result_bind_ext {A B} (m : result A) (k1 k2 : A → result B) :
  (∀ a, m = Ok a → k1 a = k2 a) → m ≫= k1 = m ≫= k2.
Proof. destruct m; simpl; [|done]. intros H. by apply H. Qed.

(** The same without an extension, written by one store less. *)
Lemma fill_short_frame (b0 b1 : char) (msg : list char) :
  (vset (replicate (Z.to_nat (2 + len msg)) nul) 0 b0 ≫= λ d,
   vset d 1 b1 ≫= λ d, if len d =? 2 then mret d else vsplice d 2 msg)
  = Ok (b0 :: b1 :: msg).
Proof.
  change (b0 :: b1 :: msg) with (b0 :: b1 :: [] ++ msg).
  rewrite <-(fill_frame b0 b1 [] msg). change (2 + len []) with 2.
  apply result_bind_ext. intros d [_ ->]%vset_Ok.
  destruct (vset _ 1 b1) as [d'|] eqn:E; [|done].
  change (Ok ?a ≫= ?k) with (k a). cbv beta. rewrite vsplice_nil; [done|].
  apply vset_Ok in E as [Hr ->]. unfold len in *. rewrite !length_insert in *. lia.
Qed.

(** The vector filled in place is the RFC frame. *)
Lemma make_ws_frame_spec msg o :
  len msg < 2 ^ 64 → make_ws_frame msg o = Ok (server_frame (opcode_value o) msg).
Proof.
  intros Hm. pose proof (len_nonneg msg). pose proof (opcode_value_range o).
  unfold make_ws_frame, server_frame, ws_len_code, ws_len_ext.
  rewrite lor_128 by lia.
  destruct (len msg <? 126) eqn:E1; [|destruct (len msg <? 65536) eqn:E2].
  - by rewrite fill_short_frame.
  - rewrite to_u16_small by lia. destruct (htons (len msg) =? 0) eqn:E0.
    { assert (len msg = 0); [|lia]. apply (bswap_zero 2); [|by apply Z.eqb_eq].
      change (256 ^ Z.of_nat 2) with 65536. lia. }
    simpl negb. cbv iota. unfold htons. rewrite le_bytes_bswap.
    replace (2 + 2) with (2 + len (be_bytes 2 (len msg)))
      by (unfold len at 1; rewrite length_be_bytes; lia).
    apply fill_frame.
  - simpl negb. cbv iota. unfold htobe64. rewrite le_bytes_bswap.
    replace (2 + 8) with (2 + len (be_bytes 8 (len msg)))
      by (unfold len at 1; rewrite length_be_bytes; lia).
    apply fill_frame.
Qed.

(** One store of the unmasking loop extends the part already unmasked. *)
Lemma unmask_store (um d0 : list char) (j : nat) c :
  um !! j = Some c → (j < length d0)%nat →
  <[j := c]> (take j um ++ drop j d0) = take (S j) um ++ drop (S j) d0.
Proof.
  intros Hc Hj. pose proof (lookup_lt_Some _ _ _ Hc) as Hum.
  rewrite insert_app_r_alt by (rewrite length_take; lia).
  rewrite length_take, Nat.min_l, Nat.sub_diag by lia.
  destruct (drop j d0) as [|x tl] eqn:E.
  - apply (f_equal length) in E. rewrite length_drop in E. simpl in E. lia.
  - rewrite (take_S_r _ _ c) by done. rewrite <-app_assoc. simpl. do 2 f_equal.
    by rewrite <-Nat.add_1_r, <-drop_drop, E.
Qed.

(** The loop unmasks in place: it leaves the unmasked payload in front of
    whatever the vector held behind it. *)
Lemma unmask_loop_spec (key hd masked : list char) fuel (j : nat) :
  len key = 4 → (length masked - j < fuel)%nat → (j ≤ length masked)%nat →
  let d0 := hd ++ masked in
  let um := ws_mask key 0 masked in
  unmask_loop fuel (len hd + Z.of_nat j) (len hd) key (take j um ++ drop j d0)
  = Ok (um ++ drop (length masked) d0).
Proof.
  intros Hk. revert j. induction fuel as [|fuel IH]; intros j Hf Hj d0 um; [lia|].
  assert (length um = length masked) as Hum by apply length_ws_mask.
  assert (length d0 = (length hd + length masked)%nat) as Hd0 by apply length_app.
  assert (length (take j um ++ drop j d0) = length d0) as Hlen.
  { rewrite length_app, length_take, length_drop. lia. }
  cbn [unmask_loop]. unfold len at 2. rewrite Hlen.
  destruct (len hd + Z.of_nat j <? Z.of_nat (length d0)) eqn:E; unfold len in E.
  - destruct (lookup_lt_is_Some_2 masked j) as [m Hm]; [lia|].
    assert (vget (take j um ++ drop j d0) (len hd + Z.of_nat j) = Ok m) as ->.
    { apply vget_lookup. unfold len. split; [lia|].
      replace (Z.to_nat _) with (length hd + j)%nat by lia.
      rewrite lookup_app_r by (rewrite length_take; lia).
      rewrite length_take, lookup_drop.
      replace (j + (length hd + j - j `min` length um))%nat with (length hd + j)%nat by lia.
      unfold d0. rewrite lookup_app_r by lia. by replace (length hd + j - length hd)%nat with j by lia. }
    change (Ok ?a ≫= ?k) with (k a). cbv beta.
    replace (len hd + Z.of_nat j - len hd) with (Z.of_nat j) by lia.
    change 4 with (Z.of_nat 4). rewrite <-Nat2Z.inj_mod.
    destruct (lookup_lt_is_Some_2 key (j mod 4)%nat) as [kc Hkc].
    { unfold len in Hk. pose proof (Nat.mod_upper_bound j 4). lia. }
    rewrite (vget_nat _ _ _ Hkc). change (Ok ?a ≫= ?k) with (k a). cbv beta.
    rewrite vset_is_Ok by (unfold len; lia). change (Ok ?a ≫= ?k) with (k a). cbv beta.
    rewrite Nat2Z.id, unmask_store by
      (lia || (unfold um; by rewrite ws_mask_lookup, Hm, Nat.add_0_l, Hkc)).
    replace (len hd + Z.of_nat j + 1) with (len hd + Z.of_nat (S j)) by lia.
    apply IH; lia.
  - assert (j = length masked) as -> by lia.
    rewrite take_ge by lia. done.
Qed.

Lemma land_bit7 z : 0 ≤ z < 128 → Z.land (128 + z) 128 = 128 ∧ Z.land z 128 = 0.
Proof.
  intros Hz. rewrite <-lor_128 by lia. split.
  - apply Z.bits_inj'. intros n Hn. rewrite Z.land_spec, Z.lor_spec.
    by destruct (Z.testbit 128 n), (Z.testbit z n).
  - apply Z.bits_inj'. intros n Hn. rewrite Z.land_spec, Z.bits_0. change 128 with (2 ^ 7) in *.
    destruct (decide (n = 7)) as [->|].
    + rewrite <-(Z.mod_small z (2 ^ 7)) by lia. by rewrite Z.mod_pow2_bits_high by lia.
    + rewrite Z.pow2_bits_false by lia. apply andb_false_r.
Qed.

Lemma fin_bit (fin : bool) op :
  0 ≤ op < 16 →
  let b0 := cval (cchar ((if fin then 128 else 0) + op)) in
  (Z.land b0 128 =? 128) = fin ∧ Z.land b0 15 = op.
Proof.
  intros Hop b0. unfold b0. rewrite cval_cchar.
  rewrite (Z.mod_small _ 256) by (destruct fin; lia).
  destruct (land_bit7 op) as [H1 H0]; [lia|]. split.
  - destruct fin; [by rewrite H1|]. rewrite Z.add_0_l, H0. done.
  - change 15 with (Z.ones 4). rewrite Z.land_ones by lia. change (2 ^ 4) with 16.
    destruct fin; [|rewrite Z.add_0_l; by apply Z.mod_small].
    rewrite <-Z.add_mod_idemp_l by lia. by apply Z.mod_small.
Qed.

(** The mask bit and the length code of a client frame's second byte. *)
Lemma mask_byte n :
  0 ≤ n →
  let b1 := cval (cchar (128 + ws_len_code n)) in
  (Z.land b1 128 =? 128) = true ∧ Z.land b1 127 = ws_len_code n.
Proof.
  intros Hn b1. unfold b1. split; [|apply cval_len_code; [done|by right]].
  pose proof (ws_len_code_range n Hn). rewrite cval_cchar, (Z.mod_small _ 256) by lia.
  destruct (land_bit7 (ws_len_code n)) as [-> _]; [lia|done].
Qed.

(** The extended length is present exactly when the code announces it. *)
Lemma decode_offset (b0 b1 : char) n rest :
  0 ≤ n →
  (if ws_len_code n =? 126 then
     load_le 2 (b0 :: b1 :: ws_len_ext n ++ rest) 2 ≫= λ _, mret 2
   else if ws_len_code n =? 127 then
     load_le 8 (b0 :: b1 :: ws_len_ext n ++ rest) 2 ≫= λ _, mret 8
   else mret 0) = Ok (len (ws_len_ext n)).
Proof.
  intros Hn. rewrite len_ws_len_ext. unfold ws_len_code, ws_len_ext.
  change (b0 :: b1 :: ?l) with ([b0; b1] ++ l).
  destruct (n <? 126) eqn:E1; [|destruct (n <? 65536) eqn:E2].
  - replace (n =? 126) with false by lia. by replace (n =? 127) with false by lia.
  - change (126 =? 126) with true. by rewrite (load_be 2 [b0; b1]).
  - change (127 =? 126) with false. change (127 =? 127) with true.
    by rewrite (load_be 8 [b0; b1]).
Qed.

Lemma vget_middle {A} (l1 l2 l3 : list A) i j :
  0 ≤ j < len l2 → i = len l1 + j → vget (l1 ++ l2 ++ l3) i = vget l2 j.
Proof.
  intros Hj ->. rewrite vget_app_r by lia.
  replace (len l1 + j - len l1) with j by lia. apply vget_app_l. lia.
Qed.

(** Dropping the header and unmasking give the payload back. *)
Lemma unmask_resize hd key payload :
  len key = 4 → len payload < 2 ^ 63 →
  (unmask_loop (S (length (hd ++ ws_mask key 0 payload))) (len hd) (len hd) key
     (hd ++ ws_mask key 0 payload) ≫= λ data,
   mret (vresize nul data (to_u64 (len data - len hd)))) = Ok payload.
Proof.
  intros Hk Hp. set (masked := ws_mask key 0 payload).
  assert (length masked = length payload) as Hm by apply length_ws_mask.
  pose proof (unmask_loop_spec key hd masked (S (length (hd ++ masked))) 0 Hk) as H.
  assert (ws_mask key 0 masked = payload) as Hun by apply ws_mask_involutive.
  cbn zeta in H. rewrite Hun, Z.add_0_r, drop_0, app_nil_l in H.
  rewrite H by (rewrite ?length_app; lia). clear H.
  change (Ok ?a ≫= ?k) with (k a). cbv beta. unfold mret, result_ret. f_equal.
  assert (len (payload ++ drop (length masked) (hd ++ masked)) - len hd = len payload) as ->.
  { unfold len in *. rewrite length_app, length_drop, length_app. lia. }
  rewrite to_u64_small by (pose proof (len_nonneg payload); lia).
  unfold vresize, len. rewrite Nat2Z.id, take_app_length, length_app.
  rewrite (proj2 (Nat.sub_0_le _ _)) by lia. apply app_nil_r.
Qed.

(** Decoding a client frame, for every opcode and FIN bit. *)
Lemma decode_client_frame fin op key payload :
  0 ≤ op < 16 → len key = 4 → len payload < 2 ^ 63 →
  decode_websocket_frame (client_frame fin op key payload) =
  Ok (decode_code fin op, if (op =? 8) || (op =? 10) then [] else payload).
Proof.
  intros Hop Hk Hp. pose proof (len_nonneg payload) as Hn.
  destruct key as [|k0 [|k1 [|k2 [|k3 [|]]]]]; try (exfalso; clear -Hk; unfold len in Hk; simpl in Hk; lia).
  set (key := [k0; k1; k2; k3]) in *.
  destruct (fin_bit fin op Hop) as [Hfin Hopc].
  destruct (mask_byte (len payload) Hn) as [Hmask Hcode]. cbn zeta in *.
  unfold decode_websocket_frame, client_frame.
  set (c0 := cchar ((if fin then 128 else 0) + op)) in *.
  set (c1 := cchar (128 + ws_len_code (len payload))) in *.
  rewrite vget_cons_0, vget_cons_pos, vget_cons_0 by lia.
  repeat (change (Ok ?a ≫= ?k) with (k a); cbv beta zeta).
  rewrite Hfin, Hopc, Hmask, Hcode, decode_offset by done. cbn [negb]. unfold decode_code.
  destruct (op =? 8) eqn:E8; [done|]. destruct (op =? 10) eqn:E10; [done|]. cbn [orb].
  change (Ok ?a ≫= ?k) with (k a). cbv beta.
  set (ext := ws_len_ext (len payload)). set (masked := ws_mask key 0 payload).
  change (c0 :: c1 :: ext ++ key ++ masked) with (([c0; c1] ++ ext) ++ key ++ masked).
  set (h0 := [c0; c1] ++ ext). assert (len h0 = 2 + len ext) as Hh0.
  { unfold h0. by rewrite len_app, !len_cons, len_nil. }
  rewrite (vget_middle h0 key masked (2 + len ext) 0), (vget_middle h0 key masked (3 + len ext) 1),
    (vget_middle h0 key masked (4 + len ext) 2), (vget_middle h0 key masked (5 + len ext) 3) by lia.
  change (vget key 0) with (Ok k0). change (vget key 1) with (Ok k1).
  change (vget key 2) with (Ok k2). change (vget key 3) with (Ok k3).
  repeat (change (Ok ?a ≫= ?k) with (k a); cbv beta).
  rewrite (app_assoc h0 key). set (hd := h0 ++ key).
  assert (6 + len ext = len hd) as -> by (unfold hd; rewrite len_app; lia).
  change [k0; k1; k2; k3] with key.
  pose proof (unmask_resize hd key payload Hk Hp) as Hum. fold masked in Hum.
  apply result_bind_Ok in Hum as (d & -> & [= Hd]).
  change (Ok ?a ≫= ?k) with (k a). cbv beta zeta. rewrite Hd.
  change (opcode_value ping) with 9. destruct (op =? 9); [done|]. by destruct fin.
Qed.

(** ** Splitting *)

Lemma vslice_app_l {A} (l1 l2 r : list A) i n :
  vslice l1 i n = Ok r → vslice (l1 ++ l2) i n = Ok r.
Proof.
  intros (Hi & Hn & Hr & ->)%vslice_Ok. apply vslice_Ok. rewrite len_app.
  pose proof (len_nonneg l2). split_and!; [lia..|]. unfold len in *.
  by rewrite drop_app_le, take_app_le by (rewrite ?length_drop; lia).
Qed.

Lemma load_le_app_l n l1 l2 i v : load_le n l1 i = Ok v → load_le n (l1 ++ l2) i = Ok v.
Proof.
  unfold load_le. destruct (vslice l1 i (Z.of_nat n)) as [r|] eqn:E; [|done].
  by rewrite (vslice_app_l _ _ _ _ _ E).
Qed.

(** The header is read from the front: what follows does not matter. *)
Lemma get_ws_frame_length_app l1 l2 n :
  get_ws_frame_length l1 = Ok n → get_ws_frame_length (l1 ++ l2) = Ok n.
Proof.
  unfold get_ws_frame_length. intros H. apply result_bind_Ok in H as (b1 & Hb1 & H).
  rewrite (vget_app_l l1) by (apply vget_range in Hb1; lia). rewrite Hb1. step_ok.
  apply result_bind_Ok in H as (pl & Hpl & H).
  destruct (_ =? 126); [|destruct (_ =? 127)].
  - apply result_bind_Ok in Hpl as (v & Hv & Hpl). rewrite (load_le_app_l _ _ _ _ _ Hv).
    step_ok. by rewrite Hpl.
  - apply result_bind_Ok in Hpl as (v & Hv & Hpl). rewrite (load_le_app_l _ _ _ _ _ Hv).
    step_ok. by rewrite Hpl.
  - by rewrite Hpl.
Qed.

Lemma get_ws_frame_length_range b n : get_ws_frame_length b = Ok n → 0 ≤ n < 2 ^ 64.
Proof.
  unfold get_ws_frame_length. intros H. inv_ok. unfold to_u64.
  apply Z.mod_pos_bound. lia.
Qed.

(** One iteration of the loop on a buffer that starts with a whole frame. *)
Lemma split_frames_step fuel f rest slack n acc :
  get_ws_frame_length (f ++ rest ++ slack) = Ok (len f) →
  n = len f + len rest → 5 < n < 2 ^ 31 →
  split_frames (S fuel) (f ++ rest ++ slack) n acc =
  split_frames fuel rest (len rest) (acc ++ [f]).
Proof.
  intros Hl Hn Hlt. len_facts. cbn [split_frames]. replace (5 <? n) with true by lia.
  rewrite Hl. step_ok. rewrite to_u64_small by lia. replace (len f <=? n) with true by lia.
  rewrite vslice_prefix by done. step_ok. rewrite (to_i32_small (len f)) by lia.
  destruct (remove_first_n_elements_ptr_spec f rest slack n (len f)) as (d & ->); [lia..|].
  step_ok. cbn [snd]. rewrite to_u64_small, to_i32_small by lia.
  by replace (n - len f) with (len rest) by lia.
Qed.

(** What is left in the buffer cannot be cut into a frame. *)
Definition incomplete (tl : list char) : Prop :=
  len tl ≤ 5 ∨ ∃ n, get_ws_frame_length tl = Ok n ∧ len tl < n.

Lemma split_frames_stop fuel tl slack acc :
  incomplete tl → len tl < 2 ^ 31 →
  split_frames (S fuel) (tl ++ slack) (len tl) acc = Ok (tl ++ slack, len tl, acc).
Proof.
  intros Hinc Hlt. len_facts. cbn [split_frames].
  destruct Hinc as [H5|(n & Hn & Hlen)].
  - by replace (5 <? len tl) with false by lia.
  - destruct (5 <? len tl); [|done]. rewrite (get_ws_frame_length_app _ slack _ Hn). step_ok.
    rewrite to_u64_small by lia. by replace (n <=? len tl) with false by lia.
Qed.

(** The loop cuts exactly the complete frames and keeps the rest. *)
Lemma split_frames_complete frs : ∀ fuel tl slack acc n,
  Forall frame_ok frs → incomplete tl → (length frs < fuel)%nat →
  n = len (concat frs) + len tl → n < 2 ^ 31 →
  ∃ slack', split_frames fuel (concat frs ++ tl ++ slack) n acc
            = Ok (tl ++ slack', len tl, acc ++ frs).
Proof.
  induction frs as [|f frs IH]; intros fuel tl slack acc n Hok Hinc Hf Hn Hlt;
    (destruct fuel as [|fuel]; [simpl in Hf; lia|]); cbn [concat] in *.
  - exists slack. rewrite len_nil in Hn. rewrite app_nil_r, app_nil_l. subst n.
    rewrite Z.add_0_l in *. by apply split_frames_stop.
  - apply Forall_cons in Hok as [[Hl H6] Hok]. rewrite len_app in Hn. len_facts.
    rewrite <-app_assoc, (app_assoc (concat frs)).
    rewrite split_frames_step by (try (apply get_ws_frame_length_app; done); rewrite ?len_app; lia).
    destruct (IH fuel tl [] (acc ++ [f]) (len (concat frs ++ tl))) as (slack' & Hs);
      [done|done|simpl in Hf; lia|by rewrite len_app|rewrite len_app; lia|].
    exists slack'. rewrite app_nil_r in Hs. rewrite Hs, <-app_assoc. done.
Qed.

(** A header that declares zero bytes (a 64-bit length of [2^64 - 14]) is cut
    off for ever: no number of iterations ends the loop. *)
Lemma split_frames_zero hdr : ∀ fuel mid slack acc,
  get_ws_frame_length hdr = Ok 0 → len hdr = 10 → len mid + 10 < 2 ^ 31 →
  split_frames fuel (hdr ++ mid ++ slack) (10 + len mid) acc = Err OutOfFuel.
Proof.
  induction fuel as [|fuel IH]; intros mid slack acc H0 H10 Hlt; [done|]. len_facts.
  change (hdr ++ mid ++ slack) with ([] ++ hdr ++ mid ++ slack). rewrite (app_assoc hdr).
  rewrite (split_frames_step fuel [] (hdr ++ mid) slack);
    [| |rewrite len_app, H10, len_nil; lia|lia].
  2: { rewrite app_nil_l. by do 2 apply get_ws_frame_length_app. }
  rewrite len_app, H10. rewrite <-(app_nil_r mid) at 1. by apply IH.
Qed.

(** The loop needs no more iterations than there are bytes, unless it meets a
    header that declares zero bytes. *)
Lemma split_frames_enough_fuel fuel : ∀ buffer n acc,
  0 ≤ n ≤ len buffer → n < 2 ^ 31 → (Z.to_nat n < fuel)%nat →
  split_frames fuel buffer n acc = Err OutOfFuel →
  ∃ k : nat, get_ws_frame_length (drop k buffer) = Ok 0.
Proof.
  induction fuel as [|fuel IH]; intros buffer n acc Hn Hlt Hf Hrun; [lia|].
  cbn [split_frames] in Hrun. destruct (5 <? n) eqn:E5; [|done].
  destruct (get_ws_frame_length buffer) as [L|f] eqn:EL.
  2: { unfold get_ws_frame_length in EL. simpl in Hrun. injection Hrun as ->.
       revert EL. unfold load_le, vslice, vget.
       repeat (case_match; simplify_eq/=; try done). }
  pose proof (get_ws_frame_length_range _ _ EL) as HL. revert Hrun. step_ok.
  rewrite to_u64_small by lia. destruct (L <=? n) eqn:ELn; [|done].
  destruct (decide (L = 0)) as [->|HL0]; [intros _; exists 0%nat; by rewrite drop_0|].
  pose proof (take_drop (Z.to_nat L) buffer) as Hsplit.
  pose proof (take_drop (Z.to_nat (n - L)) (drop (Z.to_nat L) buffer)) as Hsplit2.
  set (f := take (Z.to_nat L) buffer) in *. set (b1 := drop (Z.to_nat L) buffer) in *.
  set (rest := take (Z.to_nat (n - L)) b1) in *. set (slack := drop (Z.to_nat (n - L)) b1) in *.
  assert (len f = L) as Hlf by (unfold f, len in *; rewrite length_take; lia).
  assert (len rest = n - L) as Hlr.
  { unfold rest, b1, len in *. rewrite length_take, length_drop. lia. }
  assert (buffer = f ++ rest ++ slack) as Hbuf by (by rewrite Hsplit2, Hsplit).
  rewrite Hbuf, vslice_prefix by done. step_ok. rewrite (to_i32_small L) by lia.
  destruct (remove_first_n_elements_ptr_spec f rest slack n L) as (d & ->); [lia..|].
  step_ok. cbn [snd]. rewrite to_u64_small, to_i32_small by lia. intros Hrun.
  apply IH in Hrun as [k Hk]; [|lia..].
  exists (Z.to_nat L + k)%nat. rewrite <-drop_drop, <-Hbuf. fold b1. rewrite <-Hsplit2.
  destruct (decide (k ≤ length rest)%nat).
  - rewrite drop_app_le by done. by apply get_ws_frame_length_app.
  - rewrite drop_ge in Hk by lia. by vm_compute in Hk.
Qed.

(** ** Pending frames *)

Definition pending_for (f p : list char) : receiving_data_info :=
  {| rd_length := len f; rd_buffer := p |}.

(** The rest of a frame whose length is known completes it. *)
Lemma assemble_pending_finish p q rest slack n :
  p ≠ [] → q ≠ [] → n = len q + len rest → len p + n < 2 ^ 31 →
  ∃ slack', assemble_pending (q ++ rest ++ slack) n (pending_for (p ++ q) p)
    = Ok (Some (rest ++ slack', len rest, [p ++ q], no_receiving_data)).
Proof.
  intros Hp Hq Hn Hlt. len_facts.
  assert (0 < len p) by (destruct p; [done|rewrite len_cons; len_lia]).
  assert (0 < len q) by (destruct q; [done|rewrite len_cons; len_lia]).
  unfold assemble_pending, pending_for. cbn [rd_length rd_buffer].
  replace (0 <? len p) with true by lia.
  rewrite len_app. replace (len p + len q =? -1) with false by lia.
  change (mret ?a ≫= ?k) with (k a : result _). cbv beta iota. cbn [rd_length rd_buffer].
  replace (len p + len q - len p) with (len q) by lia. rewrite !to_u64_small by lia.
  destruct (len q <? n) eqn:E.
  - rewrite vslice_prefix by done. step_ok. rewrite (to_i32_small (len q)) by lia.
    destruct (remove_first_n_elements_ptr_spec q rest slack n (len q)) as (d & ->); [lia..|].
    step_ok. cbn [snd]. exists []. rewrite app_nil_r, to_i32_small by lia.
    by replace (n - len q) with (len rest) by lia.
  - rewrite (len_0_nil rest) by lia. rewrite vslice_prefix by lia. step_ok.
    replace (len q =? n) with true by lia. by exists (q ++ [] ++ slack).
Qed.

(** More than ten bytes of a frame are kept together with its length. *)
Lemma stash_remaining_known p q slack pending :
  get_ws_frame_length p = Ok (len (p ++ q)) → 10 < len p → len (p ++ q) < 2 ^ 31 →
  stash_remaining (p ++ slack) (len p) pending = Ok (pending_for (p ++ q) p).
Proof.
  intros Hl Hp Hlt. len_facts. unfold stash_remaining. replace (0 <? len p) with true by lia.
  rewrite vslice_prefix by done. step_ok. replace (10 <? len p) with true by lia.
  rewrite (get_ws_frame_length_app _ _ _ Hl). step_ok. by rewrite to_i32_small by lia.
Qed.

Lemma incomplete_prefix f p q :
  frame_ok f → f = p ++ q → q ≠ [] → get_ws_frame_length p = Ok (len f) → incomplete p.
Proof.
  intros [Hl H6] -> Hq Hp. right. exists (len (p ++ q)). split; [done|].
  rewrite len_app. destruct q; [done|]. rewrite len_cons. len_lia.
Qed.

(** A frame prefix of ten bytes or more declares what the frame declares. *)
Lemma get_ws_frame_length_prefix p q n :
  get_ws_frame_length (p ++ q) = Ok n → 10 ≤ len p → get_ws_frame_length p = Ok n.
Proof.
  intros H Hp. destruct (get_ws_frame_length p) as [m|f] eqn:E.
  - by rewrite (get_ws_frame_length_app _ q _ E) in H.
  - exfalso. unfold get_ws_frame_length in E.
    destruct (vget_is_Ok p 1) as [b Hb]; [lia|]. rewrite Hb in E. revert E. step_ok.
    assert (∀ n : nat, (n ≤ 8)%nat → ∃ v, load_le n p 2 = Ok v) as Hload.
    { intros k Hk. unfold load_le, vslice. rewrite decide_True by lia. eauto. }
    destruct (Hload 2%nat) as [v2 ->]; [lia|]. destruct (Hload 8%nat) as [v8 ->]; [lia|].
    step_ok. by repeat case_match.
Qed.

(** A reference parser of the server's frames, as a client reads them. *)
Definition parse_server_frame (f : list char) : option (Z * list char) :=
  match f with
  | b0 :: b1 :: r =>
      let code := cval b1 in
      let k := if code =? 126 then 2%nat else if code =? 127 then 8%nat else 0%nat in
      let n := if code <? 126 then code else be_val (take k r) in
      if (128 <=? cval b0) && (len (drop k r) =? n)
      then Some (cval b0 - 128, drop k r) else None
  | _ => None
  end.

Lemma parse_server_frame_spec op msg :
  0 ≤ op < 16 → len msg < 2 ^ 63 → parse_server_frame (server_frame op msg) = Some (op, msg).
Proof.
  intros Hop Hm. unfold server_frame, parse_server_frame. pose proof (len_nonneg msg) as Hn.
  pose proof (ws_len_code_range (len msg) Hn). rewrite !cval_cchar, !(Z.mod_small _ 256) by lia.
  replace (128 <=? 128 + op) with true by lia. replace (128 + op - 128) with op by lia.
  unfold ws_len_code, ws_len_ext.
  destruct (len msg <? 126) eqn:E1; [|destruct (len msg <? 65536) eqn:E2].
  - rewrite E1. replace (len msg =? 126) with false by lia.
    replace (len msg =? 127) with false by lia.
    rewrite drop_0. simpl app. by rewrite Z.eqb_refl.
  - change (126 =? 126) with true. change (126 <? 126) with false. cbv iota.
    rewrite take_app_length', drop_app_length' by (by rewrite length_be_bytes).
    rewrite be_val_be_bytes by (change (256 ^ Z.of_nat 2) with 65536; lia).
    by rewrite Z.eqb_refl.
  - change (127 =? 126) with false. change (127 =? 127) with true.
    change (127 <? 126) with false. cbv iota.
    rewrite take_app_length', drop_app_length' by (by rewrite length_be_bytes).
    rewrite be_val_be_bytes by (change (256 ^ Z.of_nat 8) with (2 ^ 64); lia).
    by rewrite Z.eqb_refl.
Qed.

(** The whole of a read that holds complete frames and an incomplete one. *)
Lemma parse_ws_frames_fresh frs tl slack n fuel :
  Forall frame_ok frs → incomplete tl → n = len (concat frs) + len tl → n < 2 ^ 31 →
  (length frs < fuel)%nat →
  ∃ slack', parse_ws_frames fuel (concat frs ++ tl ++ slack) n no_receiving_data =
    (stash_remaining (tl ++ slack') (len tl) no_receiving_data ≫= λ pending,
     Ok (Some (frs, pending))).
Proof.
  intros Hok Hinc Hn Hlt Hf. unfold parse_ws_frames, assemble_pending.
  change (0 <? len (rd_buffer no_receiving_data)) with false. cbv iota.
  change (mret ?a ≫= ?k) with (k a : result _). cbv beta iota.
  destruct (split_frames_complete frs fuel tl slack [] n) as (slack' & ->); [done..|].
  exists slack'. step_ok. done.
Qed.

Lemma stash_remaining_nil slack pending : stash_remaining slack 0 pending = Ok pending.
Proof. done. Qed.

Lemma length_le_concat frs : Forall frame_ok frs → Z.of_nat (length frs) ≤ len (concat frs).
Proof.
  induction 1 as [|f frs [_ H6] _ IH]; [done|]. simpl. rewrite len_app. lia.
Qed.

Lemma msg_frames_ok msgs : Forall client_msg_wf msgs → Forall frame_ok (msg_frame <$> msgs).
Proof.
  intros H. apply Forall_fmap. eapply Forall_impl; [exact H|].
  intros m (_ & ? & ?). by apply frame_ok_client.
Qed.

(** * Properties *)

(** C24: [make_ws_frame] never writes out of the vector it allocates, and what it
    writes is the RFC 6455 frame, in each of the three length encodings: a
    client that parses the frame gets the opcode and the message back. *)
Theorem make_ws_frame_roundtrip msg o :
  len msg < 2 ^ 63 →
  ∃ f, make_ws_frame msg o = Ok f ∧ f = server_frame (opcode_value o) msg ∧
       parse_server_frame f = Some (opcode_value o, msg).
Proof.
  intros Hm. exists (server_frame (opcode_value o) msg).
  split_and!; [apply make_ws_frame_spec; lia|done|].
  apply parse_server_frame_spec; [apply opcode_value_range|done].
Qed.

Lemma make_ws_frame_roundtrip_witness :
  len (lit "haha") < 2 ^ 63 ∧
  ∃ f, make_ws_frame (lit "haha") text_frame = Ok f ∧
       f = server_frame (opcode_value text_frame) (lit "haha") ∧
       parse_server_frame f = Some (opcode_value text_frame, lit "haha").
Proof. split; [vm_compute; done|]. apply make_ws_frame_roundtrip. vm_compute. done. Defined.

(** C23: A read that holds any number of whole client frames (any opcode, FIN bit,
    key and payload) is cut at the frame boundaries, nothing is left pending, and
    decoding each frame in place gives the code of its opcode and its unmasked
    payload. *)
Theorem client_frames_roundtrip msgs slack n :
  Forall client_msg_wf msgs →
  n = len (concat (msg_frame <$> msgs)) → n < 2 ^ 31 →
  parse_ws_frames (S (Z.to_nat n)) (concat (msg_frame <$> msgs) ++ slack) n no_receiving_data
    = Ok (Some (msg_frame <$> msgs, no_receiving_data)) ∧
  Forall (λ m, decode_websocket_frame (msg_frame m) =
    Ok (decode_code (cm_fin m) (cm_opcode m),
        if (cm_opcode m =? 8) || (cm_opcode m =? 10) then [] else cm_payload m)) msgs.
Proof.
  intros Hwf Hn Hlt. pose proof (msg_frames_ok _ Hwf) as Hok.
  pose proof (length_le_concat _ Hok) as Hle. split.
  - destruct (parse_ws_frames_fresh (msg_frame <$> msgs) [] slack n (S (Z.to_nat n)))
      as (slack' & Hp); [done|by left|rewrite len_nil; lia|done|lia|].
    rewrite app_nil_l in Hp. rewrite Hp. by rewrite app_nil_l, len_nil, stash_remaining_nil.
  - eapply Forall_impl; [exact Hwf|]. intros m (? & ? & ?). by apply decode_client_frame.
Qed.

Definition hello_msg : client_msg :=
  {| cm_fin := true; cm_opcode := 1; cm_key := cchar <$> [55; 250; 33; 61];
     cm_payload := lit "Hello" |}.

Definition ping_msg : client_msg :=
  {| cm_fin := true; cm_opcode := 9; cm_key := cchar <$> [1; 2; 3; 4];
     cm_payload := replicate 200 (cchar 7) |}.

Lemma client_frames_roundtrip_witness :
  Forall client_msg_wf [hello_msg; ping_msg] ∧
  parse_ws_frames (S (Z.to_nat 219)) (concat (msg_frame <$> [hello_msg; ping_msg]) ++ []) 219
    no_receiving_data
    = Ok (Some (msg_frame <$> [hello_msg; ping_msg], no_receiving_data)).
Proof.
  assert (Forall client_msg_wf [hello_msg; ping_msg]) as Hwf.
  { repeat constructor; vm_compute; done. }
  split; [exact Hwf|].
  apply (client_frames_roundtrip [hello_msg; ping_msg] [] 219 Hwf); vm_compute; done.
Defined.

(** A frame that arrives in two reads, the first holding more than ten of
    its bytes, is put back together: the frames before it come out of the first
    read, the frame and those after it out of the second. *)
Theorem two_reads_reassemble frs1 p q frs2 slack1 slack2 n1 n2 :
  Forall frame_ok frs1 → frame_ok (p ++ q) → Forall frame_ok frs2 →
  10 < len p → q ≠ [] →
  n1 = len (concat frs1) + len p → n2 = len q + len (concat frs2) →
  n1 < 2 ^ 31 → len p + n2 < 2 ^ 31 →
  parse_ws_frames (S (Z.to_nat n1)) (concat frs1 ++ p ++ slack1) n1 no_receiving_data
    = Ok (Some (frs1, pending_for (p ++ q) p)) ∧
  parse_ws_frames (S (Z.to_nat n2)) (q ++ concat frs2 ++ slack2) n2 (pending_for (p ++ q) p)
    = Ok (Some ((p ++ q) :: frs2, no_receiving_data)).
Proof.
  intros Hok1 Hf Hok2 Hp Hq Hn1 Hn2 Hlt1 Hlt2. len_facts.
  assert (get_ws_frame_length p = Ok (len (p ++ q))) as Hpl
    by (apply (get_ws_frame_length_prefix p q); [apply Hf|lia]).
  pose proof (length_le_concat _ Hok1). pose proof (length_le_concat _ Hok2). split.
  - destruct (parse_ws_frames_fresh frs1 p slack1 n1 (S (Z.to_nat n1))) as (slack' & ->);
      [done|by eapply incomplete_prefix|done|done|lia|].
    rewrite (stash_remaining_known p q); [done|done|done|]. rewrite len_app. lia.
  - unfold parse_ws_frames.
    destruct (assemble_pending_finish p q (concat frs2) slack2 n2) as (sl & ->);
      [by intros ->|done|done|done|]. step_ok.
    destruct (split_frames_complete frs2 (S (Z.to_nat n2)) [] sl [p ++ q] (len (concat frs2)))
      as (sl' & Hs); [done|by left|lia|rewrite len_nil; lia|lia|].
    rewrite app_nil_l in Hs. rewrite Hs. done.
Qed.

Lemma two_reads_reassemble_witness :
  let f := msg_frame ping_msg in
  parse_ws_frames (S (Z.to_nat 31)) (concat [msg_frame hello_msg] ++ take 20 f ++ []) 31
    no_receiving_data
    = Ok (Some ([msg_frame hello_msg], pending_for (take 20 f ++ drop 20 f) (take 20 f))) ∧
  parse_ws_frames (S (Z.to_nat 188)) (drop 20 f ++ concat [] ++ []) 188
    (pending_for (take 20 f ++ drop 20 f) (take 20 f))
    = Ok (Some ([take 20 f ++ drop 20 f], no_receiving_data)).
Proof.
  intros f. apply two_reads_reassemble.
  - constructor; [split; vm_compute; done|constructor].
  - split; vm_compute; done.
  - constructor.
  - vm_compute; done.
  - vm_compute; done.
  - vm_compute; done.
  - vm_compute; done.
  - vm_compute; done.
  - vm_compute; done.
Defined.



(** A masked text frame header whose 64-bit length is [2^64 - 14]. *)
Definition zero_length_header : list char :=
  cchar <$> [129; 255; 255; 255; 255; 255; 255; 255; 255; 242].

(** A frame header that declares [2^64 - 14] bytes of payload wraps the
    [ulong] frame length to zero, so the splitting loop of [get_ws_frames] cuts
    an empty frame off for ever: with that header at the front of what is left
    of a read, behind any complete frames, no number of iterations suffices. *)
Theorem zero_length_header_hangs frs mid slack fuel n :
  Forall frame_ok frs → n = len (concat frs) + 10 + len mid → n < 2 ^ 31 →
  parse_ws_frames fuel (concat frs ++ zero_length_header ++ mid ++ slack) n no_receiving_data
  = Err OutOfFuel.
Proof.
  intros Hok Hn Hlt. unfold parse_ws_frames, assemble_pending.
  change (0 <? len (rd_buffer no_receiving_data)) with false. cbv iota.
  change (mret ?a ≫= ?k) with (k a : result _). cbv beta iota.
  enough (∀ acc slack, split_frames fuel (concat frs ++ zero_length_header ++ mid ++ slack) n acc
    = Err OutOfFuel) as H by (by rewrite H).
  clear slack. revert fuel n Hn Hlt. induction Hok as [|f frs [Hl H6] Hok IH];
    intros fuel n Hn Hlt acc slack; cbn [concat] in *; autorewrite with lius in Hn; len_facts.
  - replace n with (10 + len mid) by lia. rewrite app_nil_l.
    apply split_frames_zero; [by vm_compute|done|lia].
  - destruct fuel as [|fuel]; [done|].
    rewrite <-app_assoc, (app_assoc zero_length_header), (app_assoc (concat frs)).
    assert (len (concat frs ++ zero_length_header ++ mid) = n - len f) as Hrest.
    { rewrite !len_app. change (len zero_length_header) with 10. lia. }
    rewrite split_frames_step by (lia || by apply get_ws_frame_length_app).
    rewrite Hrest. rewrite <-(app_nil_r mid). apply IH; rewrite ?app_nil_r; lia.
Qed.

Lemma zero_length_header_hangs_witness :
  parse_ws_frames 1000 (concat [msg_frame hello_msg] ++ zero_length_header ++ [] ++ []) 21
    no_receiving_data = Err OutOfFuel.
Proof.
  apply zero_length_header_hangs; [|vm_compute; done|vm_compute; done].
  constructor; [split; vm_compute; done|constructor].
Defined.

(** The loop reads a header as soon as six bytes are left, but a 64-bit
    length takes ten: a complete frame followed by six to nine bytes of a frame
    with a 64-bit length is read past the end of the block that
    [remove_first_n_elements] allocated for them. *)
Theorem header_overread f b0 b1 hd slack fuel n :
  frame_ok f → Z.land (cval b1) 127 = 127 → 4 ≤ len hd < 8 →
  n = len f + 2 + len hd → n < 2 ^ 31 → (2 ≤ fuel)%nat →
  parse_ws_frames fuel (f ++ (b0 :: b1 :: hd) ++ slack) n no_receiving_data = Err OutOfBounds.
Proof.
  intros [Hl H6] Hb1 Hhd Hn Hlt Hfuel. unfold parse_ws_frames, assemble_pending.
  change (0 <? len (rd_buffer no_receiving_data)) with false. cbv iota.
  change (mret ?a ≫= ?k) with (k a : result _). cbv beta iota.
  destruct fuel as [|[|fuel]]; [lia..|].
  rewrite split_frames_step by
    (rewrite ?len_cons; try (apply get_ws_frame_length_app; done); lia).
  cbn [split_frames]. rewrite !len_cons. replace (5 <? 1 + (1 + len hd)) with true by lia.
  enough (get_ws_frame_length (b0 :: b1 :: hd) = Err OutOfBounds) as -> by done.
  unfold get_ws_frame_length. rewrite vget_cons_pos, vget_cons_0 by lia. step_ok. rewrite Hb1.
  change (127 =? 126) with false. change (127 =? 127) with true. cbv iota.
  unfold load_le, vslice. rewrite decide_False; [done|]. rewrite !len_cons. lia.
Qed.

Lemma header_overread_witness :
  let hd := [nul; nul; nul; nul] in
  parse_ws_frames 5 (msg_frame hello_msg ++ (cchar 130 :: cchar 255 :: hd) ++ []) 17
    no_receiving_data = Err OutOfBounds.
Proof.
  intros hd. apply header_overread; [split; vm_compute; done|vm_compute; done| |vm_compute; done..|lia].
  vm_compute. split; done.
Defined.

(** A frame whose first read ends before its tenth byte is not put back
    together: the length is computed from the new bytes followed by the pending
    ones, that is in the wrong order.  The eleven byte frame of the text Hello
    is lost for every split point from one to nine. *)
Theorem short_first_read_loses_frame k :
  (1 ≤ k ≤ 9)%nat →
  let f := msg_frame hello_msg in
  ∃ pending pending',
    parse_ws_frames 12 (take k f) (Z.of_nat k) no_receiving_data = Ok (Some ([], pending)) ∧
    rd_buffer pending = take k f ∧
    parse_ws_frames 12 (drop k f) (len f - Z.of_nat k) pending = Ok (Some ([], pending')) ∧
    rd_length pending' ≠ len f.
Proof.
  intros Hk f. destruct k as [|k]; [lia|].
  do 9 (destruct k as [|k];
    [do 2 eexists; split_and!; [vm_compute; reflexivity|vm_compute; reflexivity
      |vm_compute; reflexivity|vm_compute; done]|]). lia.
Qed.

Lemma short_first_read_loses_frame_witness :
  (1 ≤ 1 ≤ 9)%nat ∧
  ∃ pending pending',
    parse_ws_frames 12 (take 1 (msg_frame hello_msg)) (Z.of_nat 1) no_receiving_data
      = Ok (Some ([], pending)) ∧
    rd_buffer pending = take 1 (msg_frame hello_msg) ∧
    parse_ws_frames 12 (drop 1 (msg_frame hello_msg)) (len (msg_frame hello_msg) - Z.of_nat 1)
      pending = Ok (Some ([], pending')) ∧
    rd_length pending' ≠ len (msg_frame hello_msg).
Proof. split; [lia|]. apply (short_first_read_loses_frame 1). lia. Defined.
