(* ===== verification/DataStore.v ===== *)
(** * header/data_store.h

    [data_store], which owns the buffers that are broadcast to the server
    threads, and [data_store_raw], the same for [malloc]ed blocks.  Both keep a
    vector of items with a use count and the set of the free indexes.

    The specification is a map from the live indexes to the buffer and the uses
    it has left: inserting adds a fresh index, freeing takes one use away and
    removes the index with the last. *)

From S2P Require Import Prelude.
From Stdlib Require Import ZArith Lia.
From stdpp Require Import base gmap strings list fin_maps sets.

#[local] Open Scope Z_scope.

(** ** data_store *)

Record data_store := { ds_vec : list (list char * Z); ds_free : gset Z }.

Definition empty_store : data_store := {| ds_vec := []; ds_free := ∅ |}.

Definition free_item (st : data_store) (idx : Z) : result data_store :=
  vget (ds_vec st) idx ≫= λ item,
  let uses := item.2 - 1 in
  vset (ds_vec st) idx (item.1, uses) ≫= λ vec,
  if uses =? 0 then
    vset vec idx ([], -1) ≫= λ vec,
    mret {| ds_vec := vec; ds_free := {[idx]} ∪ ds_free st |}
  else mret {| ds_vec := vec; ds_free := ds_free st |}.

(** The head of [make_item] and of [insert_item]: a free index, or a new one. *)
Definition fresh_idx (iter : gset Z → list Z) (st : data_store) : Z * data_store :=
  match unordered_begin iter (ds_free st) with
  | Some idx => (idx, {| ds_vec := ds_vec st; ds_free := ds_free st ∖ {[idx]} |})
  | None =>
      let vec := ds_vec st ++ [([], 0)] in
      (len vec - 1, {| ds_vec := vec; ds_free := ds_free st |})
  end.

(** The buffer returned points into the item: its index and size. *)
Definition make_item (iter : gset Z → list Z) (st : data_store) (size uses : Z)
  : result ((Z * Z) * data_store) :=
  let '(idx, st) := fresh_idx iter st in
  vupd (ds_vec st) idx (λ item, (vresize nul item.1 size, item.2)) ≫= λ vec,
  mret ((idx, size), {| ds_vec := vec; ds_free := ds_free st |}).

Definition insert_item (iter : gset Z → list Z) (st : data_store) (buff : list char) (uses : Z)
  : result ((Z * Z) * data_store) :=
  let '(idx, st) := fresh_idx iter st in
  vset (ds_vec st) idx (buff, uses) ≫= λ vec,
  mret ((idx, len buff), {| ds_vec := vec; ds_free := ds_free st |}).

Definition get_item (st : data_store) (idx : Z) : result (list char) :=
  vget (ds_vec st) idx ≫= λ item, mret item.1.

(** ** data_store_raw

    A pointer is [None] for the null pointer or the number of a block;
    [raw_heap] holds the blocks of the allocator that are live.  [malloc] is an
    argument: the block it returns. *)

Record data_store_raw := {
  raw_vec : list (option Z * Z);
  raw_free : gset Z;
  raw_heap : gset Z
}.

(** [free(ptr)]: freeing a block twice is undefined. *)
Definition free_block (heap : gset Z) (ptr : option Z) : result (gset Z) :=
  match ptr with
  | None => Ok heap
  | Some p => if decide (p ∈ heap) then Ok (heap ∖ {[p]}) else Err UseAfterFree
  end.

Definition raw_free_item (st : data_store_raw) (idx : Z) : result data_store_raw :=
  vget (raw_vec st) idx ≫= λ item,
  let uses := item.2 - 1 in
  vset (raw_vec st) idx (item.1, uses) ≫= λ vec,
  if uses =? 0 then
    free_block (raw_heap st) item.1 ≫= λ heap,
    vset vec idx (None, -1) ≫= λ vec,
    mret {| raw_vec := vec; raw_free := {[idx]} ∪ raw_free st; raw_heap := heap |}
  else mret {| raw_vec := vec; raw_free := raw_free st; raw_heap := raw_heap st |}.

Definition raw_fresh_idx (iter : gset Z → list Z) (st : data_store_raw) : Z * data_store_raw :=
  match unordered_begin iter (raw_free st) with
  | Some idx =>
      (idx, {| raw_vec := raw_vec st; raw_free := raw_free st ∖ {[idx]};
               raw_heap := raw_heap st |})
  | None =>
      let vec := raw_vec st ++ [(None, 0)] in
      (len vec - 1, {| raw_vec := vec; raw_free := raw_free st; raw_heap := raw_heap st |})
  end.

Definition raw_insert_item (iter : gset Z → list Z) (st : data_store_raw) (ptr : option Z)
    (uses : Z) : result (Z * data_store_raw) :=
  let '(idx, st) := raw_fresh_idx iter st in
  vset (raw_vec st) idx (ptr, uses) ≫= λ vec,
  mret (idx, {| raw_vec := vec; raw_free := raw_free st; raw_heap := raw_heap st |}).

(** [malloced]: the block [std::malloc(size)] returns. *)
Definition raw_allocate_item (iter : gset Z → list Z) (st : data_store_raw) (malloced : Z)
    (uses : Z) : result ((option Z * Z) * data_store_raw) :=
  let '(idx, st) := raw_fresh_idx iter st in
  let ptr := Some malloced in
  vset (raw_vec st) idx (ptr, uses) ≫= λ vec,
  mret ((ptr, idx), {| raw_vec := vec; raw_free := raw_free st;
                       raw_heap := {[malloced]} ∪ raw_heap st |}).

Definition raw_get_item (st : data_store_raw) (idx : Z) : result (option Z) :=
  vget (raw_vec st) idx ≫= λ item, mret item.1.

(** ** Specification *)

(** The live items: buffer and uses left, by index. *)
Abbreviation spec_store := (gmap Z (list char * Z)).

Definition spec_free (m : spec_store) (idx : Z) : spec_store :=
  match m !! idx with
  | Some (b, u) => if u =? 1 then delete idx m else <[idx := (b, u - 1)]> m
  | None => m
  end.

(** The free indexes hold cleared items, the others are the live items of the
    map, with at least one use left. *)
Record store_rel (st : data_store) (m : spec_store) : Prop := {
  sr_free : ∀ i, i ∈ ds_free st → vget (ds_vec st) i = Ok ([], -1);
  sr_live : ∀ i x, m !! i = Some x ↔ (i ∉ ds_free st ∧ vget (ds_vec st) i = Ok x);
  sr_uses : ∀ i b u, m !! i = Some (b, u) → 1 ≤ u
}.

(** The operations of the store's clients, as the code runs them and on the map. *)
Inductive store_op := OpInsert (buff : list char) (uses : Z) | OpFree (idx : Z).

Inductive store_step : data_store → store_op → data_store → Prop :=
| step_insert iter st b u idx size st' :
    IterOrder iter → 1 ≤ u → insert_item iter st b u = Ok ((idx, size), st') →
    store_step st (OpInsert b u) st'
| step_free st i st' :
    free_item st i = Ok st' → i ∉ ds_free st → store_step st (OpFree i) st'.

Inductive spec_step : spec_store → store_op → spec_store → Prop :=
| spec_step_insert m idx b u :
    m !! idx = None → 1 ≤ u → spec_step m (OpInsert b u) (<[idx := (b, u)]> m)
| spec_step_free m idx b u :
    m !! idx = Some (b, u) → spec_step m (OpFree idx) (spec_free m idx).

Inductive run {S O : Type} (step : S → O → S → Prop) : S → list O → S → Prop :=
| run_nil s : run step s [] s
| run_snoc s os s1 o s2 : run step s os s1 → step s1 o s2 → run step s (os ++ [o]) s2.

#[export] Instance store_op_eq_dec : EqDecision store_op.
Proof. solve_decision. Defined.

#[export] Instance is_free_of_dec idx (o : store_op) :
  Decision (match o with OpFree i => i = idx | _ => False end).
Proof. destruct o; solve_decision. Defined.

(** The uses of item [idx] a sequence of operations gives up. *)
Definition uses_given (idx : Z) (ops : list store_op) : Z :=
  len (filter (λ o, match o with OpFree i => i = idx | _ => False end) ops).

(** What the raw store owns: the live items' blocks are live in the allocator,
    and no two items own the same block. *)
Record raw_wf (st : data_store_raw) : Prop := {
  rw_free : ∀ i, i ∈ raw_free st → vget (raw_vec st) i = Ok (None, -1);
  rw_live : ∀ i p u, vget (raw_vec st) i = Ok (Some p, u) → p ∈ raw_heap st ∧ 1 ≤ u;
  rw_inj : ∀ i j p u v, vget (raw_vec st) i = Ok (Some p, u) →
    vget (raw_vec st) j = Ok (Some p, v) → i = j
}.

(** * Lemmas *)

Lemma store_rel_empty : store_rel empty_store ∅.
Proof.
  split; simpl.
  - set_solver.
  - intros i x. rewrite lookup_empty. split; [done|]. intros [_ H].
    apply vget_range in H. unfold len in H. simpl in H. lia.
  - intros i b u. by rewrite lookup_empty.
Qed.

Lemma fresh_idx_spec iter `{!IterOrder iter} st m idx st' :
  store_rel st m → fresh_idx iter st = (idx, st') →
  m !! idx = None ∧ 0 ≤ idx < len (ds_vec st') ∧ idx ∉ ds_free st' ∧
  ds_free st' ⊆ ds_free st ∧
  (∀ i, i ≠ idx → (i ∈ ds_free st' ↔ i ∈ ds_free st) ∧
                  vget (ds_vec st') i = vget (ds_vec st) i) ∧
  (len (ds_vec st') = len (ds_vec st) ∨ idx = len (ds_vec st)).
Proof.
  intros [Hfree Hlive Huses]. unfold fresh_idx.
  destruct (unordered_begin iter (ds_free st)) as [i0|] eqn:E; intros [= <- <-]; simpl.
  - apply unordered_begin_Some in E; [|done].
    pose proof (vget_range _ _ _ (Hfree _ E)). split_and!; [|lia|lia| |set_solver|set_solver|by left].
    + destruct (m !! i0) eqn:Em; [|done]. apply Hlive in Em as [? _]. done.
    + set_solver.
  - apply unordered_begin_None in E; [|done]. rewrite E in *.
    rewrite len_app, len_cons, len_nil.
    replace (len (ds_vec st) + (1 + 0) - 1) with (len (ds_vec st)) by lia.
    pose proof (len_nonneg (ds_vec st)).
    split_and!; [|lia|lia|set_solver|set_solver| |by right].
    + destruct (m !! len (ds_vec st)) eqn:Em; [|done].
      apply Hlive in Em as [_ Em%vget_range]. lia.
    + intros i Hi. split; [done|].
      destruct (decide (i < len (ds_vec st))); [by apply vget_app_l|].
      rewrite !vget_oob; len_norm; [done|lia|lia].
Qed.

Lemma insert_item_rel iter `{!IterOrder iter} st m b u :
  store_rel st m → 1 ≤ u →
  ∃ idx st', insert_item iter st b u = Ok ((idx, len b), st') ∧
    m !! idx = None ∧ store_rel st' (<[idx := (b, u)]> m).
Proof.
  intros Hrel Hu. unfold insert_item. destruct (fresh_idx iter st) as [idx st1] eqn:E.
  pose proof (fresh_idx_spec iter st m idx st1 Hrel E) as (Hm & Hr & Hnf & Hsub & Hother & _).
  rewrite vset_is_Ok by lia. step_ok. eexists idx, _. split; [done|]. split; [done|].
  destruct Hrel as [Hfree Hlive Huses]. split; simpl.
  - intros i Hi. assert (i ≠ idx) as Hne by set_solver.
    rewrite vget_insert_ne by (done || lia). destruct (Hother i Hne) as [_ ->]. set_solver.
  - intros i x. destruct (decide (i = idx)) as [->|Hne].
    + rewrite lookup_insert_eq.
      rewrite vget_insert_eq by lia.
      naive_solver.
    + rewrite lookup_insert_ne by done. rewrite vget_insert_ne by (done || lia).
      destruct (Hother i Hne) as [-> ->]. apply Hlive.
  - intros i b' u'. destruct (decide (i = idx)) as [->|Hne].
    + rewrite lookup_insert_eq. by intros [= <- <-].
    + rewrite lookup_insert_ne by done. apply Huses.
Qed.

Lemma free_item_rel st m i b u :
  store_rel st m → m !! i = Some (b, u) →
  ∃ st', free_item st i = Ok st' ∧ store_rel st' (spec_free m i).
Proof.
  intros [Hfree Hlive Huses] Hi. pose proof (Huses _ _ _ Hi).
  destruct (proj1 (Hlive _ _) Hi) as [Hnf Hv]. pose proof (vget_range _ _ _ Hv) as Hr.
  unfold free_item, spec_free. rewrite Hv, Hi. step_ok. cbn [fst snd].
  rewrite vset_is_Ok by lia. step_ok.
  destruct (u =? 1) eqn:E1; [replace (u - 1 =? 0) with true by lia|
    replace (u - 1 =? 0) with false by lia].
  - rewrite vset_is_Ok by (rewrite len_insert; lia). step_ok.
    eexists. split; [done|]. rewrite list_insert_insert_eq. split; simpl.
    + intros j Hj. destruct (decide (j = i)) as [->|Hne].
      * apply vget_insert_eq. lia.
      * rewrite vget_insert_ne by (done || lia). apply Hfree. set_solver.
    + intros j x. destruct (decide (j = i)) as [->|Hne].
      * rewrite lookup_delete_eq. set_solver.
      * rewrite lookup_delete_ne by done. rewrite vget_insert_ne by (done || lia).
        rewrite Hlive. set_solver.
    + intros j b' u'. rewrite lookup_delete_Some. intros [_ ?]. eauto.
  - eexists. split; [done|]. split; simpl.
    + intros j Hj. assert (j ≠ i) by set_solver. rewrite vget_insert_ne by (done || lia). eauto.
    + intros j x. destruct (decide (j = i)) as [->|Hne].
      * rewrite lookup_insert_eq.
        rewrite vget_insert_eq by lia.
        naive_solver.
      * rewrite lookup_insert_ne by done. rewrite vget_insert_ne by (done || lia). apply Hlive.
    + intros j b' u'. destruct (decide (j = i)) as [->|Hne].
      * rewrite lookup_insert_eq. intros [= <- <-]. lia.
      * rewrite lookup_insert_ne by done. eauto.
Qed.

(** ** Simulation *)

Lemma store_step_sim st op st' m :
  store_step st op st' → store_rel st m → ∃ m', spec_step m op m' ∧ store_rel st' m'.
Proof.
  intros Hstep Hrel. destruct Hstep as [iter st b u idx size st' Hit Hu Hins|st i st' Hfree Hlive].
  - destruct (insert_item_rel iter st m b u Hrel Hu) as (idx' & st2 & Hins' & Hm & Hrel').
    rewrite Hins in Hins'. injection Hins' as -> -> ->. eexists. split; [|done]. by constructor.
  - pose proof Hfree as Hv. unfold free_item in Hv.
    apply result_bind_Ok in Hv as ([b u] & Hv & _).
    assert (m !! i = Some (b, u)) as Hm by (by apply (sr_live _ _ Hrel)).
    destruct (free_item_rel st m i b u Hrel Hm) as (st2 & Hf2 & Hrel').
    rewrite Hfree in Hf2. injection Hf2 as ->. eexists. split; [|done]. by econstructor.
Qed.

Lemma store_run_sim st ops st' m :
  run store_step st ops st' → store_rel st m → ∃ m', run spec_step m ops m' ∧ store_rel st' m'.
Proof.
  intros Hrun Hrel. induction Hrun as [st|st os st1 o st2 Hrun IH Hstep].
  - exists m. split; [constructor|done].
  - destruct (IH Hrel) as (m1 & Hm1 & Hrel1).
    destruct (store_step_sim _ _ _ _ Hstep Hrel1) as (m2 & Hs & Hrel2).
    exists m2. split; [by econstructor|done].
Qed.

Lemma uses_given_snoc idx ops o :
  uses_given idx (ops ++ [o]) =
  uses_given idx ops + (if decide (o = OpFree idx) then 1 else 0).
Proof.
  unfold uses_given. rewrite filter_app, len_app. f_equal.
  rewrite filter_cons, filter_nil. destruct o as [b u|i].
  - by rewrite !decide_False by (done || by intros []).
  - destruct (decide (i = idx)) as [->|Hne].
    + by rewrite !decide_True.
    + by rewrite !decide_False by congruence.
Qed.

Lemma uses_given_nonneg idx ops : 0 ≤ uses_given idx ops.
Proof. apply len_nonneg. Qed.

(** In the map, an item keeps its buffer as long as uses are left. *)
Lemma spec_run_lookup m ops m' idx b u :
  run spec_step m ops m' → m !! idx = Some (b, u) → uses_given idx ops < u →
  m' !! idx = Some (b, u - uses_given idx ops).
Proof.
  intros Hrun Hm. induction Hrun as [m|m os m1 o m2 Hrun IH Hstep]; intros Hlt.
  - rewrite Hm. unfold uses_given. rewrite filter_nil, Z.sub_0_r. done.
  - rewrite uses_given_snoc in *. pose proof (uses_given_nonneg idx os).
    destruct Hstep as [m1 j b' u' Hj Hu'|m1 j b' u' Hj].
    + rewrite decide_False in * by done. rewrite Z.add_0_r in *.
      specialize (IH Hm Hlt). rewrite lookup_insert_ne; [done|]. intros ->. congruence.
    + unfold spec_free. rewrite Hj. destruct (decide (OpFree j = OpFree idx)) as [[= ->]|Hne].
      * specialize (IH Hm ltac:(lia)). rewrite IH in Hj. injection Hj as <- <-.
        rewrite (proj2 (Z.eqb_neq _ _)) by lia. rewrite lookup_insert_eq. do 2 f_equal. lia.
      * rewrite Z.add_0_r in *. specialize (IH Hm Hlt). assert (j ≠ idx) by congruence.
        destruct (u' =? 1); by rewrite ?lookup_delete_ne, ?lookup_insert_ne.
Qed.

(** ** Items that are never freed *)

Lemma free_item_nonpos st idx b u st' :
  vget (ds_vec st) idx = Ok (b, u) → u ≤ 0 → free_item st idx = Ok st' →
  vget (ds_vec st') idx = Ok (b, u - 1) ∧ ds_free st' = ds_free st.
Proof.
  intros Hv Hu. pose proof (vget_range _ _ _ Hv). unfold free_item. rewrite Hv. step_ok.
  cbn [fst snd]. rewrite vset_is_Ok by lia. step_ok.
  replace (u - 1 =? 0) with false by lia. intros [= <-]. split; [|done].
  apply vget_insert_eq. lia.
Qed.

Fixpoint free_times (n : nat) (st : data_store) (idx : Z) : result data_store :=
  match n with
  | O => Ok st
  | S n => free_item st idx ≫= λ st, free_times n st idx
  end.

Lemma free_times_nonpos n : ∀ st idx b u st',
  vget (ds_vec st) idx = Ok (b, u) → u ≤ 0 → free_times n st idx = Ok st' →
  vget (ds_vec st') idx = Ok (b, u - Z.of_nat n) ∧ ds_free st' = ds_free st.
Proof.
  induction n as [|n IH]; intros st idx b u st' Hv Hu; cbn [free_times].
  - intros [= <-]. by rewrite Z.sub_0_r.
  - intros H. apply result_bind_Ok in H as (st1 & H1 & H2).
    destruct (free_item_nonpos _ _ _ _ _ Hv Hu H1) as [Hv1 Hf1].
    destruct (IH _ _ _ _ _ Hv1 ltac:(lia) H2) as [-> ->]. split; [|done]. do 2 f_equal. lia.
Qed.

(** ** The raw store *)

Lemma raw_wf_empty : raw_wf {| raw_vec := []; raw_free := ∅; raw_heap := ∅ |}.
Proof.
  split; simpl; [set_solver|..]; intros *; intros H%vget_range; unfold len in H; simpl in H; lia.
Qed.

(** The entries of a store after the index was taken: the others are kept. *)
Lemma raw_fresh_idx_spec iter `{!IterOrder iter} st idx st' :
  raw_wf st → raw_fresh_idx iter st = (idx, st') →
  0 ≤ idx < len (raw_vec st') ∧ raw_heap st' = raw_heap st ∧ idx ∉ raw_free st' ∧
  raw_free st' ⊆ raw_free st ∧
  ∀ i, i ≠ idx → vget (raw_vec st') i = vget (raw_vec st) i.
Proof.
  intros [Hfree Hlive Hinj]. unfold raw_fresh_idx.
  destruct (unordered_begin iter (raw_free st)) as [i0|] eqn:E; intros [= <- <-]; simpl.
  - apply unordered_begin_Some in E; [|done]. pose proof (vget_range _ _ _ (Hfree _ E)).
    split_and!; [lia|lia|done|set_solver|set_solver|done].
  - apply unordered_begin_None in E; [|done]. rewrite E. len_norm.
    pose proof (len_nonneg (raw_vec st)).
    split_and!; [lia|lia|done|set_solver|set_solver|]. intros i Hi.
    destruct (decide (i < len (raw_vec st))); [by apply vget_app_l|].
    rewrite !vget_oob; len_norm; [done|lia|lia].
Qed.

Lemma raw_allocate_wf iter `{!IterOrder iter} st p u res st' :
  raw_wf st → p ∉ raw_heap st → 1 ≤ u →
  raw_allocate_item iter st p u = Ok (res, st') →
  raw_wf st' ∧ raw_heap st' = {[p]} ∪ raw_heap st ∧ raw_get_item st' res.2 = Ok (Some p).
Proof.
  intros Hwf Hp Hu. unfold raw_allocate_item.
  destruct (raw_fresh_idx iter st) as [idx st1] eqn:E.
  destruct (raw_fresh_idx_spec iter st idx st1 Hwf E) as (Hr & Hh & Hnf & Hsub & Hother).
  rewrite vset_is_Ok by lia. step_ok. intros [= <- <-]. destruct Hwf as [Hfree Hlive Hinj].
  assert (∀ i x, vget (<[Z.to_nat idx:=(Some p, u)]> (raw_vec st1)) i = Ok x →
    i = idx ∧ x = (Some p, u) ∨ i ≠ idx ∧ vget (raw_vec st) i = Ok x) as Hget.
  { intros i x [[-> ->]|[Hne Hx]]%vget_insert_inv; [by left| |lia].
    rewrite Hother in Hx by done. by right. }
  split; [|split; [simpl; by rewrite Hh|]].
  - split; simpl.
    + intros i Hi. assert (i ≠ idx) by set_solver.
      rewrite vget_insert_ne, Hother by (done || lia). set_solver.
    + intros i q v [[_ [= -> ->]]|[_ Hx]]%Hget; [set_solver|].
      destruct (Hlive _ _ _ Hx). set_solver.
    + intros i j q v w [[-> [= -> ->]]|[_ Hx]]%Hget [[-> Hy]|[_ Hy]]%Hget.
      * done.
      * by destruct (Hlive _ _ _ Hy).
      * injection Hy as -> ->. by destruct (Hlive _ _ _ Hx).
      * by eapply Hinj.
  - unfold raw_get_item. simpl.
    rewrite vget_insert_eq by lia.
    done.
Qed.

Lemma raw_free_wf st idx p u :
  raw_wf st → vget (raw_vec st) idx = Ok (Some p, u) →
  ∃ st', raw_free_item st idx = Ok st' ∧ raw_wf st' ∧
    raw_heap st' = (if u =? 1 then raw_heap st ∖ {[p]} else raw_heap st).
Proof.
  intros [Hfree Hlive Hinj] Hv. pose proof (vget_range _ _ _ Hv) as Hr.
  destruct (Hlive _ _ _ Hv) as [Hp Hu]. unfold raw_free_item. rewrite Hv. step_ok. cbn [fst snd].
  assert (idx ∉ raw_free st) as Hnf by (intros Hin; rewrite (Hfree _ Hin) in Hv; done).
  rewrite vset_is_Ok by lia. step_ok.
  destruct (u =? 1) eqn:E1; [replace (u - 1 =? 0) with true by lia|
    replace (u - 1 =? 0) with false by lia].
  - cbn [free_block]. rewrite decide_True by done. step_ok.
    rewrite vset_is_Ok by (rewrite len_insert; lia). step_ok.
    rewrite list_insert_insert_eq. eexists. split; [done|]. split; [|done].
    pose proof (λ i x, vget_insert_inv (raw_vec st) idx i x (None, -1) Hr) as Hget.
    split; simpl.
    + intros i Hi. destruct (decide (i = idx)) as [->|Hne].
      * apply vget_insert_eq. lia.
      * rewrite vget_insert_ne by (done || lia). set_solver.
    + intros i q v [[_ [=]]|[Hne Hx]]%Hget. destruct (Hlive _ _ _ Hx). split; [|done].
      apply elem_of_difference. split; [done|]. intros ->%elem_of_singleton.
      by apply Hne, (Hinj _ _ _ _ _ Hx Hv).
    + intros i j q v w [[_ [=]]|[_ Hx]]%Hget [[_ [=]]|[_ Hy]]%Hget. by eapply Hinj.
  - eexists. split; [done|]. split; [|done].
    assert (∀ i q v, vget (<[Z.to_nat idx:=(Some p, u - 1)]> (raw_vec st)) i = Ok (Some q, v) →
      ∃ v', vget (raw_vec st) i = Ok (Some q, v') ∧ (v' = v ∨ v = u - 1)) as Hget.
    { intros i q v [[-> [= -> ->]]|[_ Hx]]%vget_insert_inv; eauto. }
    split; simpl.
    + intros i Hi. assert (i ≠ idx) by set_solver. rewrite vget_insert_ne by (done || lia). eauto.
    + intros i q v (v' & Hx & Hv')%Hget. destruct (Hlive _ _ _ Hx). split; [done|]. lia.
    + intros i j q v w (v' & Hx & _)%Hget (w' & Hy & _)%Hget. by eapply Hinj.
Qed.

(** * Properties *)

(** C21: [data_store] refines the map of live items: whatever free index
    [insert_item] picks, each sequence of [insert_item]s and [free_item]s of live
    indexes is a sequence of the map's operations, and after it [get_item] of a
    live index returns the buffer of the map. *)
Theorem data_store_refines st ops st' m :
  store_rel st m → run store_step st ops st' →
  ∃ m', run spec_step m ops m' ∧ store_rel st' m' ∧
    ∀ i b u, m' !! i = Some (b, u) → get_item st' i = Ok b.
Proof.
  intros Hrel Hrun. destruct (store_run_sim _ _ _ _ Hrun Hrel) as (m' & Hm' & Hrel').
  exists m'. split_and!; [done|done|]. intros i b u Hi.
  apply (sr_live _ _ Hrel') in Hi as [_ Hv]. unfold get_item. by rewrite Hv.
Qed.

Definition store_one : data_store := {| ds_vec := [(lit "haha", 2)]; ds_free := ∅ |}.

Lemma insert_empty_run : run store_step empty_store [OpInsert (lit "haha") 2] store_one.
Proof.
  apply (run_snoc _ _ [] empty_store); [constructor|].
  apply (step_insert elements _ _ _ 0 4); [apply _|lia|vm_compute; reflexivity].
Qed.

Lemma data_store_refines_witness :
  ∃ m', run spec_step ∅ [OpInsert (lit "haha") 2] m' ∧ store_rel store_one m' ∧
    ∀ i b u, m' !! i = Some (b, u) → get_item store_one i = Ok b.
Proof. apply (data_store_refines empty_store); [apply store_rel_empty|apply insert_empty_run]. Defined.

(** C31: A buffer stays readable until its last use is given up: after any
    operations that give up fewer uses of [idx] than it has left, [get_item]
    still returns its buffer, and the use after the last one but one clears it
    and frees the index. *)
Theorem item_lives_until_last_use st ops st' m idx b u :
  store_rel st m → m !! idx = Some (b, u) → run store_step st ops st' →
  uses_given idx ops < u →
  get_item st' idx = Ok b ∧ idx ∉ ds_free st' ∧
  (uses_given idx ops = u - 1 →
   ∃ st2, free_item st' idx = Ok st2 ∧ get_item st2 idx = Ok [] ∧ idx ∈ ds_free st2).
Proof.
  intros Hrel Hm Hrun Hlt. destruct (store_run_sim _ _ _ _ Hrun Hrel) as (m' & Hm' & Hrel').
  pose proof (spec_run_lookup _ _ _ _ _ _ Hm' Hm Hlt) as Hidx.
  destruct (proj1 (sr_live _ _ Hrel' _ _) Hidx) as [Hnf Hv].
  split_and!; [unfold get_item; by rewrite Hv|done|]. intros Hlast.
  destruct (free_item_rel st' m' idx b _ Hrel' Hidx) as (st2 & Hf & Hrel2).
  exists st2. split; [done|]. unfold spec_free in Hrel2. rewrite Hidx in Hrel2.
  replace (u - uses_given idx ops =? 1) with true in Hrel2 by lia.
  assert (idx ∈ ds_free st2) as Hin.
  { unfold free_item in Hf. rewrite Hv in Hf. revert Hf. step_ok. cbn [fst snd].
    replace (u - uses_given idx ops - 1 =? 0) with true by lia.
    intros Hf. inv_ok. simpl. set_solver. }
  split; [|done]. unfold get_item. by rewrite (sr_free _ _ Hrel2 _ Hin).
Qed.

Lemma item_lives_until_last_use_witness :
  uses_given 0 [OpFree 0] = 2 - 1 ∧
  ∃ st', free_item store_one 0 = Ok st' ∧ get_item st' 0 = Ok (lit "haha") ∧
  ∃ st2, free_item st' 0 = Ok st2 ∧ get_item st2 0 = Ok [] ∧ 0 ∈ ds_free st2.
Proof.
  split; [done|].
  assert (store_rel store_one {[0 := (lit "haha", 2)]}) as Hrel.
  { split; simpl.
    - set_solver.
    - intros i x. destruct (decide (i = 0)) as [->|Hne].
      + rewrite lookup_singleton_eq. split; [intros [= <-]; split; [set_solver|done]|].
        intros [_ H]. vm_compute in H. by injection H as <-.
      + rewrite lookup_singleton_ne by done. split; [done|]. intros [_ H].
        apply vget_range in H. unfold len in H. simpl in H. lia.
    - intros i b u [_ [= <- <-]]%lookup_singleton_Some. lia. }
  set (st' := {| ds_vec := [(lit "haha", 1)]; ds_free := ∅ |}).
  assert (free_item store_one 0 = Ok st') as Hf by (vm_compute; reflexivity).
  destruct (item_lives_until_last_use store_one [OpFree 0] st' {[0 := (lit "haha", 2)]} 0
    (lit "haha") 2 Hrel) as (H1 & _ & H3).
  - apply lookup_singleton_eq.
  - apply (run_snoc _ _ [] store_one); [constructor|]. constructor; [done|set_solver].
  - vm_compute. done.
  - exists st'. split; [done|]. split; [done|]. apply H3. vm_compute. done.
Defined.

(** [make_item] ignores its [uses] argument: whatever it is asked for, no
    number of [free_item]s releases the item it makes. *)
Theorem make_item_never_released iter `{!IterOrder iter} st m size uses idx sz st1 n st' :
  store_rel st m → make_item iter st size uses = Ok ((idx, sz), st1) →
  free_times n st1 idx = Ok st' →
  idx ∉ ds_free st' ∧ ∃ b u, vget (ds_vec st') idx = Ok (b, u) ∧ len b = Z.max 0 size.
Proof.
  intros Hrel Hmake Hfree. unfold make_item in Hmake.
  destruct (fresh_idx iter st) as [i st0] eqn:E.
  pose proof (fresh_idx_spec iter st m i st0 Hrel E) as (_ & Hr & Hnf & _ & _ & _).
  assert (∃ u, vget (ds_vec st0) i = Ok ([], u) ∧ u ≤ 0) as (u & Hv & Hu).
  { unfold fresh_idx in E. destruct (unordered_begin iter (ds_free st)) as [i0|] eqn:Eb;
      injection E as <- <-; simpl in *.
    - apply unordered_begin_Some in Eb; [|done]. exists (-1).
      by rewrite (sr_free _ _ Hrel _ Eb).
    - exists 0. rewrite vget_app_r by (len_norm; lia). len_norm.
      by replace (len (ds_vec st) + (1 + 0) - 1 - len (ds_vec st)) with 0 by lia. }
  rewrite (vupd_is_Ok _ _ _ _ Hv) in Hmake. revert Hmake. step_ok. cbn [fst snd].
  intros [= <- <- <-].
  eapply free_times_nonpos in Hfree as [Hv' ->]; [|by apply vget_insert_eq|done].
  split; [done|]. do 2 eexists. split; [exact Hv'|].
  unfold vresize, len. rewrite take_nil, length_app, length_replicate. simpl. lia.
Qed.

Lemma make_item_never_released_witness :
  ∃ st1 st', make_item elements empty_store 3 1 = Ok ((0, 3), st1) ∧
    free_times 1 st1 0 = Ok st' ∧ 0 ∉ ds_free st'.
Proof.
  do 2 eexists. split; [vm_compute; reflexivity|]. split; [vm_compute; reflexivity|].
  eapply (make_item_never_released elements empty_store ∅ 3 1 0 3 _ 1 _ store_rel_empty);
    vm_compute; reflexivity.
Defined.

(** C32: Memory safety of [data_store_raw]: allocating and freeing keep each live
    item's block live in the allocator and owned by one item; freeing a live
    item never frees a block twice and gives the block back exactly with the
    last use. *)
Theorem raw_store_safe iter `{!IterOrder iter} st :
  raw_wf st →
  (∀ p u res st', p ∉ raw_heap st → 1 ≤ u → raw_allocate_item iter st p u = Ok (res, st') →
     raw_wf st' ∧ raw_heap st' = {[p]} ∪ raw_heap st ∧ raw_get_item st' res.2 = Ok (Some p)) ∧
  (∀ idx p u, vget (raw_vec st) idx = Ok (Some p, u) →
     ∃ st', raw_free_item st idx = Ok st' ∧ raw_wf st' ∧
       raw_heap st' = (if u =? 1 then raw_heap st ∖ {[p]} else raw_heap st)).
Proof.
  intros Hwf. split.
  - intros p u res st'. by apply raw_allocate_wf.
  - intros idx p u. by apply raw_free_wf.
Qed.

Lemma raw_store_safe_witness :
  let st := {| raw_vec := []; raw_free := ∅; raw_heap := ∅ |} in
  raw_wf st ∧
  ∃ res st', raw_allocate_item elements st 7 1 = Ok (res, st') ∧ raw_wf st' ∧
  ∃ st2, raw_free_item st' 0 = Ok st2 ∧ raw_wf st2 ∧ raw_heap st2 = raw_heap st' ∖ {[7]}.
Proof.
  intros st. assert (raw_wf st) as Hwf by apply raw_wf_empty. split; [done|].
  do 2 eexists. split; [vm_compute; reflexivity|].
  destruct (raw_store_safe elements st Hwf) as [Ha _].
  destruct (Ha 7 1 (Some 7, 0) _ ltac:(set_solver) ltac:(lia) ltac:(vm_compute; reflexivity))
    as (Hwf' & _ & _).
  split; [exact Hwf'|].
  destruct (raw_store_safe elements _ Hwf') as [_ Hf].
  apply (Hf 0 7 1). vm_compute. reflexivity.
Defined.
