(* ===== verification/Cache.v ===== *)
(** * header/web_server/cache.h

    The cache of file responses: an array of [N] items threaded into a doubly
    linked list from the least ([lowest_idx]) to the most recently used
    ([highest_idx]), with maps from file paths and inotify watches to items and
    a lock number per item.  The operations are [fetch_item], [try_insert_item],
    [inotify_event_handler] and [finished_with_item].

    The specification is the list of cached responses in the order of their last
    use; [cache_rel] relates it to the array while no item is outdated. *)

From S2P Require Import Prelude.
From Stdlib Require Import ZArith Lia.
From stdpp Require Import base gmap strings list fin_maps sets.

#[local] Open Scope Z_scope.

(** ** Data *)

(** [tcp_client] of web_server/common_structs_enums.h *)
Record tcp_client := {
  last_requested_read_filepath : list char;
  tc_ws_client_idx : Z;
  using_file : bool
}.

Definition new_tcp_client_data : tcp_client :=
  {| last_requested_read_filepath := []; tc_ws_client_idx := -1; using_file := false |}.

Definition set_using_file (b : bool) (t : tcp_client) : tcp_client :=
  {| last_requested_read_filepath := last_requested_read_filepath t;
     tc_ws_client_idx := tc_ws_client_idx t; using_file := b |}.

Record cache_item := {
  ci_buffer : list char;
  ci_lock_number : Z;
  ci_next : Z;
  ci_prev : Z;
  ci_outdated : bool;
  ci_watch : Z
}.

Definition new_cache_item : cache_item :=
  {| ci_buffer := []; ci_lock_number := 0; ci_next := -1; ci_prev := -1;
     ci_outdated := false; ci_watch := 0 |}.

Definition set_buffer (b : list char) (it : cache_item) : cache_item :=
  {| ci_buffer := b; ci_lock_number := ci_lock_number it; ci_next := ci_next it;
     ci_prev := ci_prev it; ci_outdated := ci_outdated it; ci_watch := ci_watch it |}.
Definition set_lock_number (n : Z) (it : cache_item) : cache_item :=
  {| ci_buffer := ci_buffer it; ci_lock_number := n; ci_next := ci_next it;
     ci_prev := ci_prev it; ci_outdated := ci_outdated it; ci_watch := ci_watch it |}.
Definition set_next (n : Z) (it : cache_item) : cache_item :=
  {| ci_buffer := ci_buffer it; ci_lock_number := ci_lock_number it; ci_next := n;
     ci_prev := ci_prev it; ci_outdated := ci_outdated it; ci_watch := ci_watch it |}.
Definition set_prev (n : Z) (it : cache_item) : cache_item :=
  {| ci_buffer := ci_buffer it; ci_lock_number := ci_lock_number it; ci_next := ci_next it;
     ci_prev := n; ci_outdated := ci_outdated it; ci_watch := ci_watch it |}.
Definition set_outdated (b : bool) (it : cache_item) : cache_item :=
  {| ci_buffer := ci_buffer it; ci_lock_number := ci_lock_number it; ci_next := ci_next it;
     ci_prev := ci_prev it; ci_outdated := b; ci_watch := ci_watch it |}.
Definition set_watch (w : Z) (it : cache_item) : cache_item :=
  {| ci_buffer := ci_buffer it; ci_lock_number := ci_lock_number it; ci_next := ci_next it;
     ci_prev := ci_prev it; ci_outdated := ci_outdated it; ci_watch := w |}.

(** [cache_fetch_item]; the pointer into an item's buffer is the item's index,
    [None] is the null pointer. *)
Record cache_fetch_item := { cf_found : bool; cf_size : Z; cf_buff : option Z }.

Definition fetch_miss : cache_fetch_item :=
  {| cf_found := false; cf_size := to_u64 (-1); cf_buff := None |}.

(** [class cache]; [inotify_watches] are the watches the kernel holds for
    [inotify_fd]. *)
Record cache := {
  filepath_to_cache_idx : gmap (list char) Z;
  cache_idx_to_filepath : gmap Z (list char);
  cache_buffer : list cache_item;
  free_idxs : gset Z;
  client_idx_to_cache_idx : gmap Z Z;
  highest_idx : Z;
  lowest_idx : Z;
  watch_to_cache_idx : gmap Z Z;
  inotify_fd : Z;
  inotify_watches : gset Z
}.

Definition set_cache_buffer (b : list cache_item) (c : cache) : cache :=
  {| filepath_to_cache_idx := filepath_to_cache_idx c;
     cache_idx_to_filepath := cache_idx_to_filepath c; cache_buffer := b;
     free_idxs := free_idxs c; client_idx_to_cache_idx := client_idx_to_cache_idx c;
     highest_idx := highest_idx c; lowest_idx := lowest_idx c;
     watch_to_cache_idx := watch_to_cache_idx c; inotify_fd := inotify_fd c;
     inotify_watches := inotify_watches c |}.
Definition set_client_map (m : gmap Z Z) (c : cache) : cache :=
  {| filepath_to_cache_idx := filepath_to_cache_idx c;
     cache_idx_to_filepath := cache_idx_to_filepath c; cache_buffer := cache_buffer c;
     free_idxs := free_idxs c; client_idx_to_cache_idx := m;
     highest_idx := highest_idx c; lowest_idx := lowest_idx c;
     watch_to_cache_idx := watch_to_cache_idx c; inotify_fd := inotify_fd c;
     inotify_watches := inotify_watches c |}.
Definition set_ends (low high : Z) (c : cache) : cache :=
  {| filepath_to_cache_idx := filepath_to_cache_idx c;
     cache_idx_to_filepath := cache_idx_to_filepath c; cache_buffer := cache_buffer c;
     free_idxs := free_idxs c; client_idx_to_cache_idx := client_idx_to_cache_idx c;
     highest_idx := high; lowest_idx := low;
     watch_to_cache_idx := watch_to_cache_idx c; inotify_fd := inotify_fd c;
     inotify_watches := inotify_watches c |}.
Definition set_free_idxs (s : gset Z) (c : cache) : cache :=
  {| filepath_to_cache_idx := filepath_to_cache_idx c;
     cache_idx_to_filepath := cache_idx_to_filepath c; cache_buffer := cache_buffer c;
     free_idxs := s; client_idx_to_cache_idx := client_idx_to_cache_idx c;
     highest_idx := highest_idx c; lowest_idx := lowest_idx c;
     watch_to_cache_idx := watch_to_cache_idx c; inotify_fd := inotify_fd c;
     inotify_watches := inotify_watches c |}.
Definition set_paths (fp : gmap (list char) Z) (ifp : gmap Z (list char)) (c : cache) : cache :=
  {| filepath_to_cache_idx := fp; cache_idx_to_filepath := ifp; cache_buffer := cache_buffer c;
     free_idxs := free_idxs c; client_idx_to_cache_idx := client_idx_to_cache_idx c;
     highest_idx := highest_idx c; lowest_idx := lowest_idx c;
     watch_to_cache_idx := watch_to_cache_idx c; inotify_fd := inotify_fd c;
     inotify_watches := inotify_watches c |}.
Definition set_watches (m : gmap Z Z) (ws : gset Z) (c : cache) : cache :=
  {| filepath_to_cache_idx := filepath_to_cache_idx c;
     cache_idx_to_filepath := cache_idx_to_filepath c; cache_buffer := cache_buffer c;
     free_idxs := free_idxs c; client_idx_to_cache_idx := client_idx_to_cache_idx c;
     highest_idx := highest_idx c; lowest_idx := lowest_idx c;
     watch_to_cache_idx := m; inotify_fd := inotify_fd c; inotify_watches := ws |}.

(** ** Operations *)

(** The constructor, for a cache of [n] items; [fd] is what [inotify_init]
    returned. *)
Definition new_cache (n : nat) (fd : Z) : cache :=
  {| filepath_to_cache_idx := ∅; cache_idx_to_filepath := ∅;
     cache_buffer := replicate n new_cache_item;
     free_idxs := list_to_set (seqZ 0 (Z.of_nat n));
     client_idx_to_cache_idx := ∅; highest_idx := -1; lowest_idx := -1;
     watch_to_cache_idx := ∅; inotify_fd := fd; inotify_watches := ∅ |}.

(** An assignment to a member of [cache_buffer[idx]]. *)
Definition upd_item (idx : Z) (g : cache_item → cache_item) (c : cache) : result cache :=
  vupd (cache_buffer c) idx g ≫= λ b, mret (set_cache_buffer b c).

(** [inotify_rm_watch] and the removal from [watch_to_cache_idx]. *)
Definition rm_watch (watch : Z) (c : cache) : cache :=
  set_watches (delete watch (watch_to_cache_idx c)) (inotify_watches c ∖ {[watch]}) c.

(** Lines 68 to 71 and 91 to 94: an outdated item is given up. *)
Definition drop_outdated (current_idx : Z) (c : cache) : result cache :=
  vget (cache_buffer c) current_idx ≫= λ item,
  let c := rm_watch (ci_watch item) c in
  let c := set_free_idxs ({[current_idx]} ∪ free_idxs c) c in
  upd_item current_idx (λ _, new_cache_item) c.

(** Lines 79 to 88: the item is taken out of its position in the list. *)
Definition unlink_item (current_idx : Z) (c : cache) : result cache :=
  vget (cache_buffer c) current_idx ≫= λ item,
  if negb (ci_prev item =? -1) then
    upd_item (ci_prev item) (set_next (ci_next item)) c ≫= λ c,
    vget (cache_buffer c) current_idx ≫= λ item',
    upd_item (ci_next item) (set_prev (ci_prev item')) c
  else
    upd_item (ci_next item) (set_prev (-1)) c ≫= λ c,
    vget (cache_buffer c) current_idx ≫= λ item,
    mret (set_ends (ci_next item) (highest_idx c) c).

(** Lines 99 to 103: the item becomes the most recently used one. *)
Definition promote_item (current_idx : Z) (c : cache) : result cache :=
  upd_item (highest_idx c) (set_next current_idx) c ≫= λ c,
  upd_item current_idx (set_next (-1)) c ≫= λ c,
  upd_item current_idx (set_prev (highest_idx c)) c ≫= λ c,
  mret (set_ends (lowest_idx c) current_idx c).

Definition fetch_hit (current_idx : Z) (c : cache) : result cache_fetch_item :=
  vget (cache_buffer c) current_idx ≫= λ item,
  mret {| cf_found := true; cf_size := len (ci_buffer item); cf_buff := Some current_idx |}.

Definition fetch_item (filepath : list char) (client_idx : Z) (client : tcp_client) (c : cache)
  : result (cache_fetch_item * tcp_client * cache) :=
  match filepath_to_cache_idx c !! filepath with
  | None => mret (fetch_miss, client, c)
  | Some current_idx =>
      let client := set_using_file true client in
      upd_item current_idx (λ it, set_lock_number (ci_lock_number it + 1) it) c ≫= λ c,
      let c := set_client_map (<[client_idx := current_idx]> (client_idx_to_cache_idx c)) c in
      vget (cache_buffer c) current_idx ≫= λ item,
      let outdated_file := ci_outdated item in
      if ci_next item =? -1 then
        if negb outdated_file then
          fetch_hit current_idx c ≫= λ r, mret (r, client, c)
        else
          (if negb (ci_prev item =? -1) then upd_item (ci_prev item) (set_next (-1)) c
           else mret c) ≫= λ c,
          drop_outdated current_idx c ≫= λ c, mret (fetch_miss, client, c)
      else
        unlink_item current_idx c ≫= λ c,
        if outdated_file then
          drop_outdated current_idx c ≫= λ c, mret (fetch_miss, client, c)
        else
          promote_item current_idx c ≫= λ c,
          fetch_hit current_idx c ≫= λ r, mret (r, client, c)
  end.

(** Lines 114 to 137: the index the new item goes to; -1 when the least recently
    used item is locked. *)
Definition take_idx (iter : gset Z → list Z) (c : cache) : result (Z * cache) :=
  match unordered_begin iter (free_idxs c) with
  | Some current_idx =>
      let c := set_free_idxs (free_idxs c ∖ {[current_idx]}) c in
      mret (current_idx,
            if lowest_idx c =? -1 then set_ends current_idx (highest_idx c) c else c)
  | None =>
      let lowest := lowest_idx c in
      vget (cache_buffer c) lowest ≫= λ lowest_item,
      if ci_lock_number lowest_item =? 0 then
        let new_lowest_idx := ci_next lowest_item in
        upd_item (ci_next lowest_item) (set_prev (-1)) c ≫= λ c,
        vget (cache_buffer c) lowest ≫= λ lowest_item,
        let c := rm_watch (ci_watch lowest_item) c in
        upd_item lowest (λ _, new_cache_item) c ≫= λ c,
        let path := default [] (cache_idx_to_filepath c !! lowest) in
        let c := set_paths (delete path (filepath_to_cache_idx c))
                           (delete lowest (cache_idx_to_filepath c)) c in
        mret (lowest, set_ends new_lowest_idx (highest_idx c) c)
      else mret (-1, c)
  end.

(** Lines 140 to 157: the item [current_idx] is filled and becomes the most
    recently used one; [new_watch] is what [inotify_add_watch] returned. *)
Definition place_item (current_idx new_watch : Z) (filepath buff : list char) (c : cache)
  : result cache :=
  (if negb (highest_idx c =? -1) then upd_item (highest_idx c) (set_next current_idx) c
   else mret c) ≫= λ c,
  let c := set_paths (<[filepath := current_idx]> (filepath_to_cache_idx c))
                     (<[current_idx := filepath]> (cache_idx_to_filepath c)) c in
  upd_item current_idx (set_watch new_watch) c ≫= λ c,
  let c := set_watches (<[new_watch := current_idx]> (watch_to_cache_idx c))
                       ({[new_watch]} ∪ inotify_watches c) c in
  upd_item current_idx (set_prev (highest_idx c)) c ≫= λ c,
  upd_item current_idx (set_next (-1)) c ≫= λ c,
  let c := set_ends (lowest_idx c) current_idx c in
  upd_item current_idx (set_buffer buff) c.

Definition try_insert_item (iter : gset Z → list Z) (new_watch : Z)
    (client_idx : Z) (filepath buff : list char) (c : cache) : result (bool * cache) :=
  take_idx iter c ≫= λ '(current_idx, c),
  if negb (current_idx =? -1) then
    place_item current_idx new_watch filepath buff c ≫= λ c, mret (true, c)
  else mret (false, c).

Definition inotify_event_handler (watch : Z) (c : cache) : result cache :=
  match watch_to_cache_idx c !! watch with
  | Some cache_idx =>
      if to_u64 cache_idx <? len (cache_buffer c)
      then upd_item cache_idx (set_outdated true) c
      else mret c
  | None => mret c
  end.

(** [client_idx_to_cache_idx[client_idx]] inserts 0 for a client it does not
    know. *)
Definition finished_with_item (client_idx : Z) (client : tcp_client) (c : cache)
  : result (tcp_client * cache) :=
  if using_file client then
    let cache_idx := default 0 (client_idx_to_cache_idx c !! client_idx) in
    let c := set_client_map (<[client_idx := cache_idx]> (client_idx_to_cache_idx c)) c in
    upd_item cache_idx (λ it, set_lock_number (ci_lock_number it - 1) it) c ≫= λ c,
    mret (set_using_file false client, c)
  else mret (client, c).

(** ** Specification: a list of responses, least recently used first *)

Record lru_entry := { le_path : list char; le_data : list char; le_locks : Z }.

Definition bump (n : Z) (e : lru_entry) : lru_entry :=
  {| le_path := le_path e; le_data := le_data e; le_locks := le_locks e + n |}.

(** A hit locks the entry once more and moves it to the end. *)
Fixpoint lru_fetch (path : list char) (l : list lru_entry)
  : option (lru_entry * list lru_entry) :=
  match l with
  | [] => None
  | e :: l' =>
      if decide (le_path e = path) then Some (e, l' ++ [bump 1 e])
      else match lru_fetch path l' with
           | Some (e', l'') => Some (e', e :: l'')
           | None => None
           end
  end.

(** A new entry goes to the end; a full cache gives up its first entry unless it
    is locked, and then takes no new one. *)
Definition lru_insert (cap : Z) (path data : list char) (l : list lru_entry)
  : option (list lru_entry) :=
  let e := {| le_path := path; le_data := data; le_locks := 0 |} in
  if len l <? cap then Some (l ++ [e])
  else match l with
       | e0 :: l' => if le_locks e0 =? 0 then Some (l' ++ [e]) else None
       | [] => None
       end.

(** The items [l] are linked in order, after [p] and before [n]. *)
Fixpoint dll (buf : list cache_item) (p : Z) (l : list Z) (n : Z) : Prop :=
  match l with
  | [] => True
  | i :: l' =>
      ∃ it, vget buf i = Ok it ∧ ci_prev it = p ∧ ci_next it = default n (head l') ∧
            dll buf i l' n
  end.

(** An item without its links and its watch. *)
Definition payload (it : cache_item) : list char * Z * bool :=
  (ci_buffer it, ci_lock_number it, ci_outdated it).

Definition entry_rel (pl : list (list char * Z * bool)) (ifp : gmap Z (list char))
    (i : Z) (e : lru_entry) : Prop :=
  ifp !! i = Some (le_path e) ∧ vget pl i = Ok (le_data e, le_locks e, false).

(** The array represents the responses [l]; [order] are their items. *)
Record cache_rel (N : Z) (c : cache) (order : list Z) (l : list lru_entry) : Prop := {
  cr_len : len (cache_buffer c) = N;
  cr_N : 2 ≤ N;
  cr_dup : NoDup order;
  cr_range : ∀ i, i ∈ order → 0 ≤ i < N;
  cr_free : ∀ i, i ∈ free_idxs c ↔ 0 ≤ i < N ∧ i ∉ order;
  cr_free_item : ∀ i, i ∈ free_idxs c → vget (cache_buffer c) i = Ok new_cache_item;
  cr_dll : dll (cache_buffer c) (-1) order (-1);
  cr_low : lowest_idx c = default (-1) (head order);
  cr_high : highest_idx c = default (-1) (last order);
  cr_entries : Forall2 (entry_rel (payload <$> cache_buffer c) (cache_idx_to_filepath c)) order l;
  cr_names : ∀ f i, filepath_to_cache_idx c !! f = Some i ↔
                    (i ∈ order ∧ cache_idx_to_filepath c !! i = Some f);
  cr_indexed : ∀ i f, cache_idx_to_filepath c !! i = Some f → i ∈ order
}.

(** The cache and the clients that use it.  A client fetches while it uses no
    file, and a response is inserted when its path is not cached. *)
Inductive cache_step (iter : gset Z → list Z)
  : cache * gmap Z tcp_client → cache * gmap Z tcp_client → Prop :=
| step_client k c cl :
    cl !! k = None → cache_step iter (c, cl) (c, <[k := new_tcp_client_data]> cl)
| step_fetch f k t r t' c c' cl :
    cl !! k = Some t → using_file t = false → fetch_item f k t c = Ok (r, t', c') →
    cache_step iter (c, cl) (c', <[k := t']> cl)
| step_insert w k f buff b c c' cl :
    filepath_to_cache_idx c !! f = None → try_insert_item iter w k f buff c = Ok (b, c') →
    cache_step iter (c, cl) (c', cl)
| step_finish k t t' c c' cl :
    cl !! k = Some t → finished_with_item k t c = Ok (t', c') →
    cache_step iter (c, cl) (c', <[k := t']> cl).

(** The items in use, by client. *)
Definition in_use (m : gmap Z Z) (cl : gmap Z tcp_client) : gmap Z Z :=
  map_imap (λ k t, if using_file t then m !! k else None) cl.

(** How many clients use item [i]. *)
Definition users (u : gmap Z Z) (i : Z) : Z :=
  Z.of_nat (size (filter (λ p : Z * Z, p.2 = i) u)).

(** Every lock number is the number of clients that use the item, and every
    client that uses a file uses a cached one. *)
Record lock_rel (N : Z) (st : cache * gmap Z tcp_client) (order : list Z)
    (l : list lru_entry) : Prop := {
  lr_cache : cache_rel N st.1 order l;
  lr_locks : Forall2 (λ i e, le_locks e = users (in_use (client_idx_to_cache_idx st.1) st.2) i)
    order l;
  lr_used : ∀ k t, st.2 !! k = Some t → using_file t = true →
    ∃ i, client_idx_to_cache_idx st.1 !! k = Some i ∧ i ∈ order
}.

(** The cache after a lock number changed by [n] for client [k]. *)
Definition hit_state (k cur : Z) (n : Z) (it : cache_item) (c : cache) : cache :=
  set_client_map (<[k := cur]> (client_idx_to_cache_idx c)) (set_cache_buffer
    (<[Z.to_nat cur := set_lock_number (ci_lock_number it + n) it]> (cache_buffer c)) c).

(** What a hit leaves alone. *)
Definition same_tables (c c' : cache) : Prop :=
  filepath_to_cache_idx c' = filepath_to_cache_idx c ∧
  cache_idx_to_filepath c' = cache_idx_to_filepath c ∧
  free_idxs c' = free_idxs c ∧ client_idx_to_cache_idx c' = client_idx_to_cache_idx c ∧
  watch_to_cache_idx c' = watch_to_cache_idx c ∧ inotify_watches c' = inotify_watches c.

(** The cache between [take_idx] and [place_item]: [i] is neither free nor
    linked. *)
Record hole_rel (N : Z) (c : cache) (i : Z) (order : list Z) (l : list lru_entry) : Prop := {
  hr_len : len (cache_buffer c) = N;
  hr_N : 2 ≤ N;
  hr_dup : NoDup (order ++ [i]);
  hr_range : ∀ j, j ∈ order ++ [i] → 0 ≤ j < N;
  hr_free : ∀ j, j ∈ free_idxs c ↔ 0 ≤ j < N ∧ j ∉ order ++ [i];
  hr_free_item : ∀ j, j ∈ {[i]} ∪ free_idxs c → vget (cache_buffer c) j = Ok new_cache_item;
  hr_dll : dll (cache_buffer c) (-1) order (-1);
  hr_low : lowest_idx c = default (-1) (head (order ++ [i]));
  hr_high : highest_idx c = default (-1) (last order);
  hr_entries : Forall2 (entry_rel (payload <$> cache_buffer c) (cache_idx_to_filepath c)) order l;
  hr_names : ∀ f j, filepath_to_cache_idx c !! f = Some j ↔
                    (j ∈ order ∧ cache_idx_to_filepath c !! j = Some f);
  hr_indexed : ∀ j f, cache_idx_to_filepath c !! j = Some f → j ∈ order
}.

(** How an insertion changes the items and the entries. *)
Definition insert_shape (b : bool) (f buff : list char) (o : list Z) (l : list lru_entry)
    (o' : list Z) (l' : list lru_entry) : Prop :=
  let e' := {| le_path := f; le_data := buff; le_locks := 0 |} in
  if b then
    (∃ i, i ∉ o ∧ o' = o ++ [i] ∧ l' = l ++ [e']) ∨
    (∃ i o1 e l1, o = i :: o1 ∧ l = e :: l1 ∧ le_locks e = 0 ∧ o' = o1 ++ [i] ∧ l' = l1 ++ [e'])
  else o' = o ∧ l' = l.

(** * Lemmas *)

(** ** Linked segments *)

Lemma dll_app buf p l1 l2 n :
  dll buf p (l1 ++ l2) n ↔
  dll buf p l1 (default n (head l2)) ∧ dll buf (default p (last l1)) l2 n.
Proof.
  revert p. induction l1 as [|i l1 IH]; intros p; simpl; [by split; [|intros []]|].
  rewrite last_cons.
  assert (default n (head (l1 ++ l2)) = default (default n (head l2)) (head l1)) as ->
    by by destruct l1.
  assert (default p (match last l1 with Some y => Some y | None => Some i end)
          = default i (last l1)) as -> by by destruct (last l1).
  setoid_rewrite IH. split.
  - intros (it & ? & ? & ? & ? & ?). split; [|done]. by exists it.
  - intros [(it & ? & ? & ? & ?) ?]. by exists it.
Qed.

(** Items outside a segment do not matter to it. *)
Lemma dll_frame buf p l n i x :
  0 ≤ i → i ∉ l → dll buf p l n → dll (<[Z.to_nat i := x]> buf) p l n.
Proof.
  intros Hi. revert p. induction l as [|j l IH]; intros p Hnin; simpl; [done|].
  intros (it & Hv & Hp & Hn & Hl). exists it.
  rewrite vget_insert_ne by set_solver. split_and!; [done..|]. apply IH; [set_solver|done].
Qed.

(** Changing the next index of a segment's last item. *)
Lemma dll_set_next buf p l i n n' it :
  vget buf i = Ok it → i ∉ l →
  dll buf p (l ++ [i]) n →
  dll (<[Z.to_nat i := set_next n' it]> buf) p (l ++ [i]) n'.
Proof.
  intros Hv Hnin. pose proof (vget_range _ _ _ Hv). rewrite !dll_app. simpl.
  intros [Hl (it' & Hv' & Hp & _ & _)]. rewrite Hv in Hv'. injection Hv' as <-. split.
  - apply dll_frame; [lia|done|done].
  - exists (set_next n' it). rewrite vget_insert_eq by done. done.
Qed.

(** Changing the previous index of a segment's first item. *)
Lemma dll_set_prev buf p p' i l n it :
  vget buf i = Ok it → i ∉ l →
  dll buf p (i :: l) n →
  dll (<[Z.to_nat i := set_prev p' it]> buf) p' (i :: l) n.
Proof.
  intros Hv Hnin. pose proof (vget_range _ _ _ Hv). simpl.
  intros (it' & Hv' & _ & Hn & Hl). rewrite Hv in Hv'. injection Hv' as <-.
  exists (set_prev p' it). rewrite vget_insert_eq by done. split_and!; [done..|].
  apply dll_frame; [lia|done|done].
Qed.

(** Updates that leave the links alone. *)
Lemma dll_same_links buf p l n i it it' :
  vget buf i = Ok it → ci_next it' = ci_next it → ci_prev it' = ci_prev it →
  dll buf p l n → dll (<[Z.to_nat i := it']> buf) p l n.
Proof.
  intros Hv Hn Hp. pose proof (vget_range _ _ _ Hv). revert p.
  induction l as [|j l IH]; intros p; simpl; [done|].
  intros (x & Hx & Hxp & Hxn & Hl). destruct (decide (j = i)) as [->|Hne].
  - rewrite Hv in Hx. injection Hx as <-. exists it'.
    rewrite vget_insert_eq by done. split_and!; [done|congruence|congruence|by apply IH].
  - exists x. rewrite vget_insert_ne by (done || lia). split_and!; [done..|by apply IH].
Qed.

(** ** Payloads *)

Lemma payload_insert buf i it it' :
  vget buf i = Ok it → payload it' = payload it →
  payload <$> <[Z.to_nat i := it']> buf = payload <$> buf.
Proof.
  intros Hv Hp. rewrite list_fmap_insert. apply list_insert_id.
  apply vget_lookup in Hv as [_ Hv]. rewrite list_lookup_fmap, Hv. simpl. by rewrite Hp.
Qed.

Lemma vget_payload buf i it : vget buf i = Ok it → vget (payload <$> buf) i = Ok (payload it).
Proof.
  intros [H0 Hv]%vget_lookup. apply vget_lookup. split; [done|]. by rewrite list_lookup_fmap, Hv.
Qed.

Lemma vget_payload_inv buf i x :
  vget (payload <$> buf) i = Ok x → ∃ it, vget buf i = Ok it ∧ payload it = x.
Proof.
  intros [H0 Hv]%vget_lookup. rewrite list_lookup_fmap in Hv.
  apply fmap_Some in Hv as (it & Hit & ->). exists it. split; [|done]. by apply vget_lookup.
Qed.

Lemma len_fmap {A B} (g : A → B) l : len (g <$> l) = len l.
Proof. unfold len. by rewrite length_fmap. Qed.

(** ** The list operations *)

Lemma upd_item_run i g c it :
  vget (cache_buffer c) i = Ok it →
  upd_item i g c = Ok (set_cache_buffer (<[Z.to_nat i := g it]> (cache_buffer c)) c).
Proof. intros Hv. unfold upd_item. by rewrite (vupd_is_Ok _ _ _ _ Hv). Qed.

Lemma dll_get buf p l n i : dll buf p l n → i ∈ l → ∃ it, vget buf i = Ok it.
Proof.
  revert p. induction l as [|j l IH]; intros p; simpl; [set_solver|].
  intros (it & Hv & _ & _ & Hl) [->|Hi]%elem_of_cons; eauto.
Qed.

Lemma dll_middle buf p l1 i l2 n :
  dll buf p (l1 ++ i :: l2) n →
  ∃ it, vget buf i = Ok it ∧ ci_prev it = default p (last l1) ∧ ci_next it = default n (head l2).
Proof. rewrite dll_app. simpl. intros (_ & it & ? & ? & ? & _). eauto. Qed.

Lemma dll_snoc buf p l i n it :
  dll buf p l i → vget buf i = Ok it → ci_prev it = default p (last l) → ci_next it = n →
  dll buf p (l ++ [i]) n.
Proof. intros Hl Hv Hp Hn. apply dll_app. simpl. split; [done|]. by exists it. Qed.

(** Taking [i] out: its neighbours are linked to each other. *)
Lemma dll_unlink buf l1 i h l2 :
  NoDup (l1 ++ i :: h :: l2) → dll buf (-1) (l1 ++ i :: h :: l2) (-1) →
  ∀ ith, vget buf h = Ok ith →
  let buf1 := match last l1 with
              | Some q => match vget buf q with
                          | Ok itq => <[Z.to_nat q := set_next h itq]> buf | Err _ => buf end
              | None => buf end in
  dll (<[Z.to_nat h := set_prev (default (-1) (last l1)) ith]> buf1) (-1) (l1 ++ h :: l2) (-1).
Proof.
  intros Hdup Hdll ith Hh. apply NoDup_app in Hdup as (Hd1 & Hdis & [Hi [Hhd Hd2]%NoDup_cons]%NoDup_cons).
  apply dll_app in Hdll as [H1 (iti & Hvi & Hpi & Hni & H2)]. simpl in *.
  pose proof (vget_range _ _ _ Hh) as Hhr.
  destruct (last l1) as [q|] eqn:Eq; simpl in *.
  - apply last_Some in Eq as [l1' ->]. destruct (dll_get _ _ _ _ q H1) as [itq Hq]; [set_solver|].
    rewrite Hq. pose proof (vget_range _ _ _ Hq).
    apply NoDup_app in Hd1 as (_ & Hq1 & _).
    assert (q ≠ h) by set_solver. apply dll_app. split.
    + apply dll_frame; [lia|set_solver|].
      apply (dll_set_next _ _ _ _ i); [done|set_solver|done].
    + rewrite last_snoc. apply (dll_set_prev _ i); [by rewrite vget_insert_ne by (done || lia)|done|].
      apply dll_frame; [lia|set_solver|done].
  - apply last_None in Eq as ->. simpl. by apply (dll_set_prev _ i).
Qed.

(** Appending [i] behind the last item [q]. *)
Lemma dll_append buf l q i itq iti :
  NoDup (l ++ [q]) → i ∉ l ++ [q] → dll buf (-1) (l ++ [q]) (-1) →
  vget buf q = Ok itq → ci_next iti = -1 → ci_prev iti = q → 0 ≤ i < len buf →
  dll (<[Z.to_nat i := iti]> (<[Z.to_nat q := set_next i itq]> buf)) (-1) ((l ++ [q]) ++ [i]) (-1).
Proof.
  intros Hdup Hi Hdll Hq Hn Hp Hr. pose proof (vget_range _ _ _ Hq).
  apply NoDup_app in Hdup as (_ & Hq1 & _).
  apply (dll_snoc _ _ _ _ _ iti).
  - apply dll_frame; [lia|done|]. apply (dll_set_next _ _ _ _ (-1)); [done|set_solver|done].
  - apply vget_insert_eq. by rewrite len_insert.
  - by rewrite last_snoc.
  - done.
Qed.

(** ** The abstract list *)

Lemma lru_fetch_hit path la e lb :
  Forall (λ e', le_path e' ≠ path) la → le_path e = path →
  lru_fetch path (la ++ e :: lb) = Some (e, la ++ lb ++ [bump 1 e]).
Proof.
  intros Hla He. induction Hla as [|a la Ha Hla IH]; simpl.
  - by rewrite decide_True.
  - by rewrite decide_False, IH by done.
Qed.

Lemma lru_fetch_miss path l : Forall (λ e', le_path e' ≠ path) l → lru_fetch path l = None.
Proof. induction 1 as [|a l Ha Hl IH]; simpl; [done|]. by rewrite decide_False, IH. Qed.

Lemma entry_rel_insert pl ifp i j e x :
  0 ≤ i → i ≠ j → entry_rel pl ifp j e → entry_rel (<[Z.to_nat i := x]> pl) ifp j e.
Proof. intros Hi Hne [Hf Hv]. split; [done|]. by rewrite vget_insert_ne. Qed.

Lemma entries_frame pl ifp i o l x :
  0 ≤ i → i ∉ o → Forall2 (entry_rel pl ifp) o l →
  Forall2 (entry_rel (<[Z.to_nat i := x]> pl) ifp) o l.
Proof.
  intros Hi Hnin H. induction H as [|j e o l Hj H IH]; constructor.
  - apply entry_rel_insert; [done|set_solver|done].
  - apply IH. set_solver.
Qed.

(** An item's name determines it. *)
Lemma entries_other_paths N c o l oa cur ob la e lb f :
  cache_rel N c o l → o = oa ++ cur :: ob → l = la ++ e :: lb → length oa = length la →
  filepath_to_cache_idx c !! f = Some cur →
  le_path e = f ∧ Forall (λ e', le_path e' ≠ f) la.
Proof.
  intros Hrel -> -> Hlen Hf. pose proof (cr_dup _ _ _ _ Hrel) as Hdup.
  pose proof (cr_entries _ _ _ _ Hrel) as Hent.
  pose proof (proj1 (cr_names _ _ _ _ Hrel _ _) Hf) as [_ Hcur].
  apply Forall2_app_inv in Hent as [Ha Hb]; [|done].
  apply Forall2_cons in Hb as [[He _] _]. split; [congruence|].
  apply Forall_forall. intros e' [k He']%list_elem_of_lookup Hef.
  destruct (Forall2_lookup_r _ _ _ _ _ Ha He') as (j & Hj & [Hjf _]).
  assert (j ∈ oa) as Hjoa by (apply list_elem_of_lookup; eauto).
  assert (filepath_to_cache_idx c !! f = Some j) as Hfj.
  { apply (cr_names _ _ _ _ Hrel). split; [set_solver|congruence]. }
  rewrite Hf in Hfj. injection Hfj as ->. apply NoDup_app in Hdup as (_ & Hdis & _).
  by apply (Hdis j); [|set_solver].
Qed.

Lemma NoDup_remove_mid {A} (l1 : list A) i l2 :
  NoDup (l1 ++ i :: l2) → NoDup (l1 ++ l2) ∧ i ∉ l1 ++ l2.
Proof.
  intros (H1 & Hd & [Hi H2]%NoDup_cons)%NoDup_app. split.
  - apply NoDup_app. split_and!; [done|set_solver|done].
  - intros [Hin|Hin]%elem_of_app; [|done]. by apply (Hd i); [|set_solver].
Qed.

Lemma set_ends_same b c :
  set_ends (lowest_idx c) (highest_idx c) (set_cache_buffer b c) = set_cache_buffer b c.
Proof. by destruct c. Qed.

Lemma set_cache_buffer_twice b b' c : set_cache_buffer b' (set_cache_buffer b c) = set_cache_buffer b' c.
Proof. by destruct c. Qed.

Lemma unlink_run c l1 i h l2 :
  NoDup (l1 ++ i :: h :: l2) → (∀ j, j ∈ l1 ++ i :: h :: l2 → 0 ≤ j) →
  dll (cache_buffer c) (-1) (l1 ++ i :: h :: l2) (-1) →
  lowest_idx c = default (-1) (head (l1 ++ i :: h :: l2)) →
  ∃ buf', unlink_item i c =
      Ok (set_ends (default (-1) (head (l1 ++ h :: l2))) (highest_idx c) (set_cache_buffer buf' c)) ∧
    dll buf' (-1) (l1 ++ h :: l2) (-1) ∧
    payload <$> buf' = payload <$> cache_buffer c ∧
    (∀ j, j ∉ l1 ++ h :: l2 → vget buf' j = vget (cache_buffer c) j).
Proof.
  intros Hdup Hnn Hdll Hlow. destruct (NoDup_remove_mid _ _ _ Hdup) as [Hdup' Hi].
  destruct (dll_middle _ _ _ _ _ _ Hdll) as (iti & Hvi & Hpi & Hni). simpl in Hni.
  destruct (dll_get _ _ _ _ h Hdll) as [ith Hvh]; [set_solver|].
  pose proof (dll_unlink _ _ _ _ _ Hdup Hdll ith Hvh) as Hunl. cbn zeta in Hunl.
  pose proof (vget_range _ _ _ Hvh). pose proof (vget_range _ _ _ Hvi).
  assert (h ≠ i) as Hhi by set_solver.
  unfold unlink_item. rewrite Hvi. step_ok. rewrite Hpi, Hni.
  destruct (last l1) as [q|] eqn:Eq; simpl in Hpi |- *; simpl in Hunl.
  - pose proof Eq as Eq'. apply last_Some in Eq' as [l1' El1].
    assert (q ∈ l1) as Hql1 by (rewrite El1; set_solver).
    destruct (dll_get _ _ _ _ q Hdll) as [itq Hvq]; [set_solver|]. rewrite Hvq in Hunl.
    assert (0 ≤ q) by (apply Hnn; set_solver).
    assert (q ≠ i) as Hqi by set_solver.
    assert (q ≠ h) as Hqh by (apply NoDup_app in Hdup' as (_ & Hd & _); intros ->; apply (Hd h); set_solver).
    rewrite (proj2 (Z.eqb_neq q (-1))) by lia. simpl.
    rewrite (upd_item_run _ _ _ _ Hvq). step_ok. cbn [cache_buffer set_cache_buffer].
    rewrite vget_insert_ne, Hvi by (done || lia). step_ok. rewrite Hpi.
    rewrite (upd_item_run h _ _ ith) by (cbn; by rewrite vget_insert_ne by (done || lia)).
    rewrite set_cache_buffer_twice. cbn [cache_buffer set_cache_buffer].
    eexists. split_and!; [|exact Hunl| |].
    + rewrite <-set_ends_same. do 3 f_equal. rewrite Hlow, El1. by destruct l1'.
    + rewrite (payload_insert _ h ith) by (done || by rewrite vget_insert_ne by (done || lia)).
      by rewrite (payload_insert _ q itq).
    + intros j Hj. rewrite !vget_insert_ne by (lia || set_solver). done.
  - rewrite (upd_item_run _ _ _ _ Hvh). step_ok. cbn [cache_buffer set_cache_buffer].
    rewrite vget_insert_ne, Hvi by (done || lia). step_ok. rewrite Hni.
    apply last_None in Eq as ->. simpl in *. eexists. split_and!; [done|exact Hunl| |].
    + by rewrite (payload_insert _ h ith).
    + intros j Hj. rewrite vget_insert_ne by (lia || set_solver). done.
Qed.

Lemma promote_run c o q i iti :
  NoDup (o ++ [q]) → i ∉ o ++ [q] → dll (cache_buffer c) (-1) (o ++ [q]) (-1) →
  highest_idx c = q → vget (cache_buffer c) i = Ok iti →
  ∃ buf', promote_item i c = Ok (set_ends (lowest_idx c) i (set_cache_buffer buf' c)) ∧
    dll buf' (-1) ((o ++ [q]) ++ [i]) (-1) ∧
    payload <$> buf' = payload <$> cache_buffer c ∧
    (∀ j, j ∉ (o ++ [q]) ++ [i] → vget buf' j = vget (cache_buffer c) j).
Proof.
  intros Hdup Hi Hdll Hhigh Hvi. pose proof (vget_range _ _ _ Hvi).
  destruct (dll_get _ _ _ _ q Hdll) as [itq Hvq]; [set_solver|].
  pose proof (vget_range _ _ _ Hvq). assert (q ≠ i) as Hqi by set_solver.
  unfold promote_item. rewrite Hhigh, (upd_item_run _ _ _ _ Hvq). step_ok.
  rewrite (upd_item_run i _ _ iti) by (cbn; by rewrite vget_insert_ne by (done || lia)). step_ok.
  rewrite (upd_item_run i _ _ (set_next (-1) iti))
    by (cbn; apply vget_insert_eq; by rewrite len_insert).
  step_ok. cbn [cache_buffer set_cache_buffer highest_idx lowest_idx].
  rewrite list_insert_insert_eq, !set_cache_buffer_twice, Hhigh.
  eexists. split_and!; [done| | |].
  - by apply (dll_append _ _ _ _ _ (set_prev q (set_next (-1) iti))).
  - rewrite (payload_insert _ i iti) by (done || by rewrite vget_insert_ne by (done || lia)).
    by rewrite (payload_insert _ q itq).
  - intros j Hj. rewrite !vget_insert_ne by (lia || set_solver). done.
Qed.

(** A payload changes in the array and in the list. *)
Lemma entries_at pl ifp oa cur ob la e e' lb :
  NoDup (oa ++ cur :: ob) → 0 ≤ cur < len pl → length oa = length la → le_path e' = le_path e →
  Forall2 (entry_rel pl ifp) (oa ++ cur :: ob) (la ++ e :: lb) →
  Forall2 (entry_rel (<[Z.to_nat cur := (le_data e', le_locks e', false)]> pl) ifp)
    (oa ++ cur :: ob) (la ++ e' :: lb).
Proof.
  intros Hdup Hr Hlen Hpath Hent. destruct (NoDup_remove_mid _ _ _ Hdup) as [_ Hi].
  apply Forall2_app_inv in Hent as [Ha [He Hb]%Forall2_cons]; [|done].
  apply Forall2_app; [|constructor].
  - apply entries_frame; [lia|set_solver|done].
  - destruct He as [Hf Hv]. split; [congruence|]. by rewrite vget_insert_eq.
  - apply entries_frame; [lia|set_solver|done].
Qed.

Lemma Forall2_to_end {A B} (R : A → B → Prop) la x la' lb y lb' :
  length la = length lb → Forall2 R (la ++ x :: la') (lb ++ y :: lb') →
  Forall2 R ((la ++ la') ++ [x]) ((lb ++ lb') ++ [y]).
Proof.
  intros Hlen [Ha [Hxy Hb]%Forall2_cons]%Forall2_app_inv; [|done].
  apply Forall2_app; [by apply Forall2_app|]. by constructor.
Qed.

Lemma payload_len buf buf' : payload <$> buf' = payload <$> buf → len buf' = len buf.
Proof. intros H. by rewrite <-(len_fmap payload buf'), H, len_fmap. Qed.

(** Reordering the items of a cache. *)
Lemma cache_rel_reorder N c o l buf' o' l' lo hi m :
  cache_rel N c o l → o' ≡ₚ o → len buf' = N →
  dll buf' (-1) o' (-1) → lo = default (-1) (head o') → hi = default (-1) (last o') →
  (∀ j, j ∉ o → vget buf' j = vget (cache_buffer c) j) →
  Forall2 (entry_rel (payload <$> buf') (cache_idx_to_filepath c)) o' l' →
  cache_rel N (set_ends lo hi (set_cache_buffer buf' (set_client_map m c))) o' l'.
Proof.
  intros Hrel Hperm Hlen Hdll Hlo Hhi Hframe Hent. destruct Hrel.
  split; simpl; try done.
  - by rewrite Hperm.
  - intros i. rewrite Hperm. auto.
  - intros i. rewrite Hperm. auto.
  - intros i Hi. rewrite Hframe; [auto|]. by apply cr_free0 in Hi as [_ ?].
  - intros f i. rewrite Hperm. auto.
  - intros i f Hif. rewrite Hperm. eauto.
Qed.

Lemma fetch_item_miss N c o l f k client :
  cache_rel N c o l → filepath_to_cache_idx c !! f = None →
  fetch_item f k client c = Ok (fetch_miss, client, c) ∧ lru_fetch f l = None.
Proof.
  intros Hrel Hf. unfold fetch_item. rewrite Hf. split; [done|]. apply lru_fetch_miss.
  apply Forall_forall. intros e [n He]%list_elem_of_lookup Hfe.
  destruct (Forall2_lookup_r _ _ _ _ _ (cr_entries _ _ _ _ Hrel) He) as (j & Hj & [Hjf _]).
  assert (filepath_to_cache_idx c !! f = Some j) as Hfj; [|congruence].
  apply (cr_names _ _ _ _ Hrel). split; [by eapply list_elem_of_lookup_2|congruence].
Qed.

(** Where a cached path is, in the array and in the list. *)
Lemma cache_rel_split N c o l f cur :
  cache_rel N c o l → filepath_to_cache_idx c !! f = Some cur →
  ∃ oa ob la e lb, o = oa ++ cur :: ob ∧ l = la ++ e :: lb ∧ length oa = length la ∧
    le_path e = f ∧ Forall (λ e', le_path e' ≠ f) la.
Proof.
  intros Hrel Hf. pose proof (proj1 (cr_names _ _ _ _ Hrel _ _) Hf) as [Hcur _].
  apply list_elem_of_split in Hcur as (oa & ob & ->).
  destruct (proj1 (Forall2_app_inv_l _ _ _ _) (cr_entries _ _ _ _ Hrel)) as (la & l2 & Ha & Hb & ->).
  apply Forall2_cons_inv_l in Hb as (e & lb & _ & _ & ->).
  pose proof (Forall2_length _ _ _ Ha) as Hlen.
  exists oa, ob, la, e, lb. split_and!; [done..| |];
    by destruct (entries_other_paths _ _ _ _ oa cur ob la e lb f Hrel).
Qed.

(** The item of an entry. *)
Lemma cache_rel_item N c oa cur ob la e lb :
  cache_rel N c (oa ++ cur :: ob) (la ++ e :: lb) → length oa = length la →
  ∃ it, vget (cache_buffer c) cur = Ok it ∧ payload it = (le_data e, le_locks e, false) ∧
        ci_prev it = default (-1) (last oa) ∧ ci_next it = default (-1) (head ob).
Proof.
  intros Hrel Hlen. destruct (dll_middle _ _ _ _ _ _ (cr_dll _ _ _ _ Hrel)) as (it & Hv & Hp & Hn).
  exists it. split_and!; [done| |done..].
  pose proof (cr_entries _ _ _ _ Hrel) as Hent.
  apply Forall2_app_inv in Hent as [_ [[_ He] _]%Forall2_cons]; [|done].
  apply vget_payload_inv in He as (it' & Hv' & Hpl). rewrite Hv in Hv'. by injection Hv' as <-.
Qed.

(** The lock number of a cached item changes. *)
Lemma cache_rel_lock N c oa cur ob la e lb it n m :
  cache_rel N c (oa ++ cur :: ob) (la ++ e :: lb) → length oa = length la →
  vget (cache_buffer c) cur = Ok it →
  cache_rel N
    (set_client_map m (set_cache_buffer
       (<[Z.to_nat cur := set_lock_number (ci_lock_number it + n) it]> (cache_buffer c)) c))
    (oa ++ cur :: ob) (la ++ bump n e :: lb).
Proof.
  intros Hrel Hlen Hv. pose proof (vget_range _ _ _ Hv) as Hr.
  destruct (cache_rel_item _ _ _ _ _ _ _ _ Hrel Hlen) as (it' & Hv' & Hpl & _).
  rewrite Hv in Hv'. injection Hv' as <-. injection Hpl as Hb Hl Ho.
  destruct Hrel. split; simpl; try done.
  - by rewrite len_insert.
  - intros i Hi. rewrite vget_insert_ne; [auto|lia|].
    apply cr_free0 in Hi as [_ Hi]. set_solver.
  - by eapply dll_same_links.
  - rewrite list_fmap_insert.
    replace (payload _) with (le_data (bump n e), le_locks (bump n e), false)
      by (unfold payload; simpl; congruence).
    by apply (entries_at _ _ _ _ _ _ e); [|rewrite len_fmap| | |].
Qed.

(** The two list operations of a hit on an item that is not the last one. *)
Lemma unlink_promote N c oa cur h ob la e lb :
  cache_rel N c (oa ++ cur :: h :: ob) (la ++ e :: lb) → length oa = length la →
  ∃ c1 c2, unlink_item cur c = Ok c1 ∧ promote_item cur c1 = Ok c2 ∧
    cache_rel N c2 ((oa ++ h :: ob) ++ [cur]) ((la ++ lb) ++ [e]) ∧ same_tables c c2.
Proof.
  intros Hrel Hlen. pose proof (cr_dup _ _ _ _ Hrel) as Hdup.
  destruct (NoDup_remove_mid _ _ _ Hdup) as [Hdup' Hi].
  destruct (unlink_run c oa cur h ob) as (b1 & E1 & D1 & P1 & F1);
    [done|intros j Hj; by apply (cr_range _ _ _ _ Hrel) in Hj as []|apply Hrel|apply Hrel|].
  destruct (cache_rel_item _ _ _ _ _ _ _ _ Hrel Hlen) as (it & Hv & _).
  destruct (exists_last (l := oa ++ h :: ob)) as (o & q & Eo); [by destruct oa|].
  rewrite Eo in *.
  destruct (promote_run (set_ends (default (-1) (head (o ++ [q]))) (highest_idx c)
    (set_cache_buffer b1 c)) o q cur it) as (b2 & E2 & D2 & P2 & F2); simpl; try done.
  { rewrite (cr_high _ _ _ _ Hrel), last_app, last_cons_cons, <-last_app, Eo. by rewrite last_snoc. }
  { by rewrite F1. }
  simpl in *. do 2 eexists. split_and!; [done..| |by destruct c].
  rewrite <-Eo in *.
  assert ((oa ++ h :: ob) ++ [cur] ≡ₚ oa ++ cur :: h :: ob) as Hperm by solve_Permutation.
  replace (set_ends _ _ _) with
    (set_ends (default (-1) (head (oa ++ h :: ob))) cur
       (set_cache_buffer b2 (set_client_map (client_idx_to_cache_idx c) c))) by by destruct c.
  eapply cache_rel_reorder; [done|done| |done| | | |].
  - rewrite (payload_len _ _ P2), (payload_len _ _ P1). apply Hrel.
  - by destruct oa.
  - by rewrite last_snoc.
  - intros j Hj. rewrite <-Hperm in Hj. rewrite F2, F1 by set_solver. done.
  - rewrite P2, P1. apply Forall2_to_end; [done|apply Hrel].
Qed.

Lemma fetch_item_hit N c o l f k client cur :
  cache_rel N c o l → filepath_to_cache_idx c !! f = Some cur →
  ∃ oa ob la e lb c', o = oa ++ cur :: ob ∧ l = la ++ e :: lb ∧ length oa = length la ∧
    fetch_item f k client c =
      Ok ({| cf_found := true; cf_size := len (le_data e); cf_buff := Some cur |},
          set_using_file true client, c') ∧
    lru_fetch f l = Some (e, (la ++ lb) ++ [bump 1 e]) ∧
    cache_rel N c' ((oa ++ ob) ++ [cur]) ((la ++ lb) ++ [bump 1 e]) ∧
    (∃ it, vget (cache_buffer c') cur = Ok it ∧ ci_buffer it = le_data e) ∧
    client_idx_to_cache_idx c' = <[k := cur]> (client_idx_to_cache_idx c) ∧
    filepath_to_cache_idx c' = filepath_to_cache_idx c.
Proof.
  intros Hrel Hf. destruct (cache_rel_split _ _ _ _ _ _ Hrel Hf) as
    (oa & ob & la & e & lb & -> & -> & Hlen & He & Hla).
  destruct (cache_rel_item _ _ _ _ _ _ _ _ Hrel Hlen) as (it & Hv & Hpl & Hp & Hn).
  pose proof (vget_range _ _ _ Hv) as Hr.
  pose proof (cache_rel_lock _ _ _ _ _ _ _ _ _ 1 (<[k := cur]> (client_idx_to_cache_idx c))
    Hrel Hlen Hv) as Hrel1.
  change (set_client_map _ _) with (hit_state k cur 1 it c) in Hrel1.
  pose proof (lru_fetch_hit _ la e lb Hla He) as Hlru. rewrite app_assoc in Hlru.
  exists oa, ob, la, e, lb. unfold fetch_item. rewrite Hf.
  rewrite (upd_item_run _ _ _ _ Hv). step_ok.
  change (set_client_map _ _) with (hit_state k cur 1 it c).
  assert (vget (cache_buffer (hit_state k cur 1 it c)) cur
    = Ok (set_lock_number (ci_lock_number it + 1) it)) as Hv1 by by apply vget_insert_eq.
  rewrite Hv1. step_ok. simpl ci_next. simpl ci_outdated.
  injection Hpl as Hb Hlk Hod. rewrite Hn, Hod.
  destruct ob as [|h ob]; simpl.
  - pose proof (Forall2_length _ _ _ (cr_entries _ _ _ _ Hrel)) as Hl.
    rewrite !length_app in Hl. simpl in Hl. destruct lb; [|simpl in Hl; lia].
    unfold fetch_hit. rewrite Hv1. step_ok. simpl ci_buffer. rewrite Hb.
    rewrite !app_nil_r in *. eexists. split_and!; [done..|exact Hrel1| |done|done]. eauto.
  - destruct (cache_rel_item _ _ _ _ _ _ _ _ Hrel Hlen) as (it' & Hv' & _ & _ & Hn').
    assert (h ≠ -1) as Hh.
    { assert (0 ≤ h < N); [|lia]. apply (cr_range _ _ _ _ Hrel). set_solver. }
    rewrite (proj2 (Z.eqb_neq h (-1))) by done.
    destruct (unlink_promote _ _ _ _ _ _ _ _ _ Hrel1 Hlen) as (c1 & c2 & E1 & E2 & Hrel2 & Htab).
    rewrite E1. step_ok. rewrite E2. step_ok.
    destruct (cache_rel_item N c2 (oa ++ h :: ob) cur [] (la ++ lb) (bump 1 e) [])
      as (it2 & Hv2 & Hpl2 & _); [done| |].
    { pose proof (Forall2_length _ _ _ (cr_entries _ _ _ _ Hrel2)) as Hl.
      rewrite !length_app in *. simpl in *. lia. }
    injection Hpl2 as Hb2 _ _. unfold fetch_hit. rewrite Hv2. step_ok. rewrite Hb2.
    destruct Htab as (T1 & T2 & T3 & T4 & T5 & T6).
    eexists. split_and!; [done..|exact Hrel2|by eauto|done|done].
Qed.

Lemma entry_rel_names pl ifp i f o l :
  i ∉ o → Forall2 (entry_rel pl ifp) o l → Forall2 (entry_rel pl (<[i := f]> ifp)) o l.
Proof.
  intros Hi H. induction H as [|j e o l [Hf Hv] H IH]; constructor.
  - split; [|done]. rewrite lookup_insert_ne; [done|set_solver].
  - apply IH. set_solver.
Qed.

(** The state [place_item] ends in, the buffer apart. *)
Lemma place_run c i w f buff :
  0 ≤ i < len (cache_buffer c) → vget (cache_buffer c) i = Ok new_cache_item →
  (highest_idx c ≠ -1 → i ≠ highest_idx c ∧ ∃ itq, vget (cache_buffer c) (highest_idx c) = Ok itq) →
  let iti := {| ci_buffer := buff; ci_lock_number := 0; ci_next := -1;
                ci_prev := highest_idx c; ci_outdated := false; ci_watch := w |} in
  let buf1 := match vget (cache_buffer c) (highest_idx c) with
              | Ok itq => <[Z.to_nat (highest_idx c) := set_next i itq]> (cache_buffer c)
              | Err _ => cache_buffer c end in
  place_item i w f buff c = Ok
    {| filepath_to_cache_idx := <[f := i]> (filepath_to_cache_idx c);
       cache_idx_to_filepath := <[i := f]> (cache_idx_to_filepath c);
       cache_buffer := <[Z.to_nat i := iti]> buf1;
       free_idxs := free_idxs c; client_idx_to_cache_idx := client_idx_to_cache_idx c;
       highest_idx := i; lowest_idx := lowest_idx c;
       watch_to_cache_idx := <[w := i]> (watch_to_cache_idx c);
       inotify_fd := inotify_fd c; inotify_watches := {[w]} ∪ inotify_watches c |}.
Proof.
  intros Hr Hv Hq iti buf1.
  assert ((if negb (highest_idx c =? -1) then upd_item (highest_idx c) (set_next i) c else mret c)
    = Ok (set_cache_buffer buf1 c) ∧ vget buf1 i = Ok new_cache_item) as [E Hv1].
  { destruct (Z.eqb_spec (highest_idx c) (-1)) as [Hm|Hm]; simpl.
    - subst buf1. rewrite Hm, vget_oob by lia. by destruct c.
    - destruct (Hq Hm) as (Hne & itq & Hvq). subst buf1. rewrite Hvq.
      pose proof (vget_range _ _ _ Hvq). split; [by apply upd_item_run|].
      by rewrite vget_insert_ne by (done || lia). }
  unfold place_item. rewrite E. step_ok. clearbody buf1. pose proof (vget_range _ _ _ Hv1).
  rewrite (upd_item_run i _ _ new_cache_item) by done. step_ok.
  rewrite (upd_item_run i _ _ (set_watch w new_cache_item)) by by apply vget_insert_eq. step_ok.
  cbn. rewrite list_insert_insert_eq.
  rewrite (upd_item_run i _ _ (set_prev (highest_idx c) (set_watch w new_cache_item)))
    by by apply vget_insert_eq.
  step_ok. cbn. rewrite list_insert_insert_eq.
  rewrite (upd_item_run i _ _ (set_next (-1) (set_prev (highest_idx c) (set_watch w new_cache_item))))
    by by apply vget_insert_eq.
  cbn. by rewrite list_insert_insert_eq.
Qed.

Lemma place_names (o : list Z) (i : Z) (f : list char) (fp : gmap (list char) Z) (ifp : gmap Z (list char)) :
  i ∉ o → fp !! f = None →
  (∀ (g : list char) (j : Z), fp !! g = Some j ↔ (j ∈ o ∧ ifp !! j = Some g)) →
  ∀ (g : list char) (j : Z), <[f := i]> fp !! g = Some j ↔ (j ∈ o ++ [i] ∧ <[i := f]> ifp !! j = Some g).
Proof.
  intros Hi Hf Hn g j. destruct (decide (j = i)) as [->|Hj].
  - rewrite lookup_insert_eq. split.
    + intros H. destruct (decide (g = f)) as [->|Hg]; [set_solver|].
      rewrite lookup_insert_ne in H by done. apply Hn in H as [? _]. done.
    + intros [_ [= ->]]. by rewrite lookup_insert_eq.
  - rewrite (lookup_insert_ne ifp) by done. destruct (decide (g = f)) as [->|Hg].
    + rewrite lookup_insert_eq. split; [congruence|]. intros [Hjo Hjf].
      assert (fp !! f = Some j) by (apply Hn; set_solver). congruence.
    + rewrite lookup_insert_ne by done. rewrite Hn. set_solver.
Qed.

Lemma place_rel N c i o l w f buff :
  hole_rel N c i o l → filepath_to_cache_idx c !! f = None →
  ∃ c', place_item i w f buff c = Ok c' ∧
    cache_rel N c' (o ++ [i]) (l ++ [{| le_path := f; le_data := buff; le_locks := 0 |}]) ∧
    client_idx_to_cache_idx c' = client_idx_to_cache_idx c.
Proof.
  intros [] Hf. assert (0 ≤ i < N) as Hr by set_solver.
  assert (vget (cache_buffer c) i = Ok new_cache_item) as Hv by set_solver.
  apply NoDup_app in hr_dup0 as Hdup. destruct Hdup as (Hdo & Hio' & _).
  assert (i ∉ o) as Hio by set_solver.
  pose proof (place_run c i w f buff) as Hrun. cbn zeta in Hrun.
  rewrite Hrun; [|by rewrite hr_len0|done|]; clear Hrun.
  2: { rewrite hr_high0. destruct (last o) as [q|] eqn:Eq; [|done]. simpl. intros _.
       apply last_Some in Eq as [o' ->]. split; [set_solver|].
       eapply dll_get; [done|set_solver]. }
  eexists. split; [done|]. split; [|done].
  destruct (last o) as [q|] eqn:Eq; simpl in hr_high0; rewrite hr_high0.
  - apply last_Some in Eq as [o' ->].
    destruct (dll_get _ _ _ _ q hr_dll0) as [itq Hvq]; [set_solver|]. rewrite Hvq.
    pose proof (vget_range _ _ _ Hvq). assert (q ≠ i) by set_solver.
    split; simpl; try done.
    + by rewrite !len_insert.
    + intros j Hj. rewrite !vget_insert_ne by (lia || set_solver). set_solver.
    + by apply dll_append; rewrite ?hr_len0.
    + by rewrite last_snoc.
    + apply Forall2_app.
      * rewrite list_fmap_insert. apply entries_frame; [lia|done|].
        rewrite (payload_insert _ q itq) by done. by apply entry_rel_names.
      * constructor; [|constructor]. split; [by rewrite lookup_insert_eq|].
        simpl. rewrite list_fmap_insert. apply vget_insert_eq. rewrite len_fmap, len_insert. lia.
    + by apply place_names.
    + intros j g Hj. destruct (decide (j = i)) as [->|Hne]; [set_solver|].
      rewrite lookup_insert_ne in Hj by done. set_solver.
  - apply last_None in Eq as ->. rewrite vget_oob by lia. simpl in *.
    apply Forall2_nil_inv_l in hr_entries0 as ->. split; simpl; try done.
    + by rewrite len_insert.
    + intros j Hj. rewrite vget_insert_ne by (lia || set_solver). set_solver.
    + eexists. rewrite vget_insert_eq by lia. done.
    + constructor; [|constructor]. split; [by rewrite lookup_insert_eq|].
      simpl. rewrite list_fmap_insert. apply vget_insert_eq. rewrite len_fmap. lia.
    + by apply (place_names []).
    + intros j g Hj. destruct (decide (j = i)) as [->|Hne]; [set_solver|].
      rewrite lookup_insert_ne in Hj by done. set_solver.
Qed.

(** A full cache: every index is linked. *)
Lemma full_order N c o l : cache_rel N c o l → free_idxs c = ∅ → len o = N.
Proof.
  intros Hrel Hfree. assert (o ≡ₚ seqZ 0 N) as Hp.
  { apply NoDup_Permutation; [apply Hrel|apply NoDup_seqZ|]. intros j. rewrite elem_of_seqZ.
    split; [intros Hj; apply (cr_range _ _ _ _ Hrel) in Hj; lia|].
    intros Hj. destruct (decide (j ∈ o)) as [|Hn]; [done|].
    assert (j ∈ free_idxs c) as Hjf by (apply (cr_free _ _ _ _ Hrel); split; [lia|done]).
    rewrite Hfree in Hjf. set_solver. }
  unfold len. rewrite Hp, length_seqZ. pose proof (cr_N _ _ _ _ Hrel). lia.
Qed.

Lemma take_free iter `{!IterOrder iter} N c o l i :
  cache_rel N c o l → unordered_begin iter (free_idxs c) = Some i →
  len o < N ∧ i ≠ -1 ∧
  ∃ c', take_idx iter c = Ok (i, c') ∧ hole_rel N c' i o l ∧
    filepath_to_cache_idx c' = filepath_to_cache_idx c ∧
    client_idx_to_cache_idx c' = client_idx_to_cache_idx c.
Proof.
  intros Hrel Hi. pose proof (unordered_begin_Some _ _ _ Hi) as Hif.
  pose proof (proj1 (cr_free _ _ _ _ Hrel _) Hif) as [Hr Hio].
  split; [|split; [lia|]].
  { assert (length (i :: o) ≤ length (seqZ 0 N))%nat as Hle; [|rewrite length_seqZ in Hle; unfold len; simpl in Hle; lia].
    apply submseteq_length, NoDup_submseteq; [constructor; [done|apply Hrel]|].
    intros j Hj. rewrite elem_of_seqZ. apply elem_of_cons in Hj as [->|Hj]; [lia|].
    apply (cr_range _ _ _ _ Hrel) in Hj. lia. }
  unfold take_idx. rewrite Hi. eexists. split; [done|].
  assert (NoDup (o ++ [i])) as Hd.
  { apply NoDup_app. split_and!; [apply Hrel|set_solver|apply NoDup_singleton]. }
  simpl. rewrite (cr_low _ _ _ _ Hrel). destruct Hrel. destruct o as [|j o].
  - simpl. split; [|done]. split; simpl; try done; [set_solver..|].
    intros j Hj. set_solver.
  - simpl. assert (0 ≤ j < N) by (apply cr_range0; set_solver).
    rewrite (proj2 (Z.eqb_neq j (-1))) by lia. split; [|done].
    split; simpl; try done; set_solver.
Qed.

Lemma delete_names (o : list Z) (i : Z) (f : list char) (fp : gmap (list char) Z)
    (ifp : gmap Z (list char)) :
  i ∉ o → ifp !! i = Some f →
  (∀ g j, fp !! g = Some j ↔ (j ∈ i :: o ∧ ifp !! j = Some g)) →
  ∀ (g : list char) (j : Z),
    delete f fp !! g = Some j ↔ (j ∈ o ∧ delete i ifp !! j = Some g).
Proof.
  intros Hi Hf Hn g j. assert (fp !! f = Some i) as Hfi by (apply Hn; set_solver).
  rewrite !lookup_delete_Some, Hn. split.
  - intros (Hg & [->|Hj]%elem_of_cons & Hjg); [congruence|].
    split_and!; [done|set_solver|done].
  - intros (Hj & Hij & Hjg). split_and!; [|set_solver|done].
    intros ->. assert (fp !! g = Some j) by (apply Hn; set_solver). congruence.
Qed.

Lemma take_evict iter `{!IterOrder iter} N c i h o e l :
  cache_rel N c (i :: h :: o) (e :: l) → free_idxs c = ∅ → le_locks e = 0 →
  ∃ c', take_idx iter c = Ok (i, c') ∧ hole_rel N c' i (h :: o) l ∧
    filepath_to_cache_idx c' = delete (le_path e) (filepath_to_cache_idx c) ∧
    client_idx_to_cache_idx c' = client_idx_to_cache_idx c.
Proof.
  intros Hrel Hfree Hlk.
  destruct (cache_rel_item N c [] i (h :: o) [] e l Hrel) as (it & Hv & Hpl & _ & Hn); [done|].
  simpl in Hn. injection Hpl as Hb Hl Ho.
  pose proof (proj1 (Forall2_cons _ _ _ _ _) (cr_entries _ _ _ _ Hrel)) as [[Hname _] Hent].
  pose proof (cr_range _ _ _ _ Hrel h) as Hh. pose proof (vget_range _ _ _ Hv).
  pose proof (cr_dll _ _ _ _ Hrel) as Hdll. simpl in Hdll.
  destruct Hdll as (_ & _ & _ & _ & ith & Hvh & Hph & Hnh & Hdll).
  destruct Hrel. pose proof (proj1 (NoDup_cons _ _) cr_dup0) as [Hi Hd].
  pose proof (vget_range _ _ _ Hvh). assert (h ≠ i) as Hhi by set_solver.
  pose proof (proj1 (NoDup_cons _ _) Hd) as [Hho _].
  unfold take_idx. rewrite (proj2 (unordered_begin_None iter _) Hfree).
  rewrite cr_low0. change (default (-1) (head (i :: h :: o))) with i. rewrite Hv. step_ok. rewrite Hl, Hlk, Hn. cbn [Z.eqb].
  rewrite (upd_item_run _ _ _ _ Hvh). step_ok. cbn [cache_buffer set_cache_buffer].
  rewrite vget_insert_ne, Hv by (done || lia). step_ok.
  rewrite (upd_item_run _ _ _ it) by (cbn; by rewrite vget_insert_ne by (done || lia)). step_ok.
  cbn. rewrite Hname. cbn. eexists. split; [done|]. split; [|done].
  split; cbn; try done.
  - by rewrite !len_insert.
  - change (NoDup ((h :: o) ++ [i])).
    apply NoDup_app. split_and!; [done|set_solver|apply NoDup_singleton].
  - intros j Hj. apply cr_range0. set_solver.
  - intros j. rewrite Hfree. specialize (cr_free0 j). rewrite Hfree in cr_free0.
    clear -cr_free0. set_solver.
  - intros j Hj. rewrite Hfree, union_empty_r_L, elem_of_singleton in Hj. subst j.
    apply vget_insert_eq. by rewrite len_insert.
  - change (dll ?b (-1) (h :: o) (-1)) with (dll b (-1) (h :: o) (-1)).
    apply (dll_frame _ _ (h :: o)); [lia|done|].
    apply (dll_set_prev _ i (-1) h o (-1) ith); [done|done|]. simpl. eauto.
  - rewrite list_fmap_insert. apply entries_frame; [lia|done|].
    rewrite (payload_insert _ h ith) by done.
    clear -Hent Hi. induction Hent as [|j e' o' l' [Hf Hx] _ IH]; constructor.
    + split; [|done]. rewrite lookup_delete_ne; [done|set_solver].
    + apply IH. set_solver.
  - by apply delete_names.
  - intros j f [Hj Hjf]%lookup_delete_Some.
    apply cr_indexed0, elem_of_cons in Hjf as [->|Hjf]; done.
Qed.

Lemma take_locked iter `{!IterOrder iter} N c i o e l :
  cache_rel N c (i :: o) (e :: l) → free_idxs c = ∅ → le_locks e ≠ 0 →
  take_idx iter c = Ok (-1, c).
Proof.
  intros Hrel Hfree Hlk.
  destruct (cache_rel_item N c [] i o [] e l Hrel) as (it & Hv & Hpl & _); [done|].
  injection Hpl as Hb Hl Ho. unfold take_idx.
  rewrite (proj2 (unordered_begin_None iter _) Hfree), (cr_low _ _ _ _ Hrel).
  change (default (-1) (head (i :: o))) with i. rewrite Hv. step_ok. rewrite Hl. by rewrite (proj2 (Z.eqb_neq _ _) Hlk).
Qed.

(** ** The operations implement the list *)

Lemma try_insert_run iter `{!IterOrder iter} N c o l w k f buff :
  cache_rel N c o l → filepath_to_cache_idx c !! f = None →
  ∃ b c' o' l', try_insert_item iter w k f buff c = Ok (b, c') ∧
    lru_insert N f buff l = (if b then Some l' else None) ∧
    cache_rel N c' o' l' ∧ insert_shape b f buff o l o' l' ∧ (b = false → c' = c) ∧
    client_idx_to_cache_idx c' = client_idx_to_cache_idx c.
Proof.
  intros Hrel Hf. unfold try_insert_item, lru_insert.
  assert (len l = len o) as Hlen.
  { unfold len. by rewrite (Forall2_length _ _ _ (cr_entries _ _ _ _ Hrel)). }
  destruct (unordered_begin iter (free_idxs c)) as [i|] eqn:Ei.
  - destruct (take_free iter _ _ _ _ _ Hrel Ei) as (Hlt & Hi & c1 & E1 & Hh & Hfp & Hcl).
    destruct (place_rel _ _ _ _ _ w f buff Hh) as (c2 & E2 & Hr2 & Hcl2); [by rewrite Hfp|].
    rewrite E1. step_ok. rewrite (proj2 (Z.eqb_neq _ _) Hi). cbn [negb]. rewrite E2. step_ok.
    rewrite (proj2 (Z.ltb_lt _ _)) by lia.
    exists true, c2. do 2 eexists. split_and!; [done..| |done|congruence].
    left. exists i. split_and!; [|done|done]. intros Hio. apply (hr_dup _ _ _ _ _) in Hh.
    apply NoDup_app in Hh as (_ & Hd & _). apply (Hd i); set_solver.
  - apply (unordered_begin_None iter) in Ei as Hfree.
    pose proof (full_order _ _ _ _ Hrel Hfree) as Hfull. pose proof (cr_N _ _ _ _ Hrel).
    rewrite (proj2 (Z.ltb_ge _ _)) by lia.
    destruct o as [|i [|h o]]; [len_lia..|].
    destruct l as [|e l]; [len_lia|].
    destruct (Z.eqb_spec (le_locks e) 0) as [Hlk|Hlk].
    + destruct (take_evict iter _ _ _ _ _ _ _ Hrel Hfree Hlk) as (c1 & E1 & Hh & Hfp & Hcl).
      destruct (place_rel _ _ _ _ _ w f buff Hh) as (c2 & E2 & Hr2 & Hcl2).
      { rewrite Hfp. apply lookup_delete_None. by right. }
      rewrite E1. step_ok. assert (i ≠ -1) as Hi.
      { assert (0 ≤ i < N); [|lia]. apply (cr_range _ _ _ _ Hrel). set_solver. }
      rewrite (proj2 (Z.eqb_neq _ _) Hi). cbn [negb]. rewrite E2. step_ok.
      exists true, c2. do 2 eexists. split_and!; [done..| |done|congruence].
      right. by exists i, (h :: o), e, l.
    + rewrite (take_locked iter _ _ _ _ _ _ Hrel Hfree Hlk). step_ok. cbn.
      by exists false, c, (i :: h :: o), (e :: l).
Qed.

Lemma new_cache_rel n fd : 2 ≤ Z.of_nat n → cache_rel (Z.of_nat n) (new_cache n fd) [] [].
Proof.
  intros Hn. split; cbn -[list_to_set seqZ]; try done.
  - unfold len. by rewrite length_replicate.
  - constructor.
  - set_solver.
  - intros i. rewrite elem_of_list_to_set, elem_of_seqZ.
    split; [intros ?; split; [lia|set_solver]|intros []; lia].
  - intros i. rewrite elem_of_list_to_set, elem_of_seqZ. intros Hi. apply vget_lookup.
    split; [lia|]. apply lookup_replicate. split; [done|lia].
  - intros f i. split; [by intros ?%lookup_empty_Some|intros [? _]; set_solver].
Qed.

(** ** Locks *)

Lemma in_use_set m cl k cur t :
  using_file t = true → in_use (<[k := cur]> m) (<[k := t]> cl) = <[k := cur]> (in_use m cl).
Proof.
  intros Ht. apply map_eq. intros j. unfold in_use. rewrite map_lookup_imap.
  destruct (decide (j = k)) as [->|Hne].
  - rewrite !lookup_insert_eq. simpl. by rewrite Ht.
  - rewrite !lookup_insert_ne by done. by rewrite map_lookup_imap.
Qed.

Lemma in_use_unset m cl k t :
  using_file t = false → in_use m (<[k := t]> cl) = delete k (in_use m cl).
Proof.
  intros Ht. apply map_eq. intros j. unfold in_use. rewrite map_lookup_imap.
  destruct (decide (j = k)) as [->|Hne].
  - rewrite lookup_insert_eq, lookup_delete_eq. simpl. by rewrite Ht.
  - by rewrite lookup_insert_ne, lookup_delete_ne, map_lookup_imap.
Qed.

Lemma in_use_Some m cl k i :
  in_use m cl !! k = Some i ↔ ∃ t, cl !! k = Some t ∧ using_file t = true ∧ m !! k = Some i.
Proof.
  unfold in_use. rewrite map_lookup_imap. destruct (cl !! k) as [t|]; simpl.
  - split.
    + intros H. exists t. by destruct (using_file t).
    + by intros (t' & [= <-] & -> & Hm).
  - split; [done|]. by intros (t' & ? & _).
Qed.

Lemma users_insert u k i j :
  u !! k = None → users (<[k := i]> u) j = users u j + (if decide (i = j) then 1 else 0).
Proof.
  intros Hk. unfold users. rewrite map_filter_insert. simpl. case_decide.
  - rewrite map_size_insert_None; [lia|]. apply map_lookup_filter_None. by left.
  - rewrite delete_id by done. lia.
Qed.

Lemma users_delete u k i j :
  u !! k = Some i → users (delete k u) j = users u j - (if decide (i = j) then 1 else 0).
Proof.
  intros Hk. rewrite <-(insert_delete_id u k i Hk) at 2.
  rewrite users_insert by apply lookup_delete_eq. lia.
Qed.

Lemma users_0 u i : users u i = 0 ↔ ∀ k, u !! k ≠ Some i.
Proof.
  unfold users. split.
  - intros H k Hk. assert (filter (λ p : Z * Z, p.2 = i) u = ∅) as He.
    { apply map_size_empty_inv. lia. }
    assert (filter (λ p : Z * Z, p.2 = i) u !! k = Some i) as Hf by by apply map_lookup_filter_Some.
    by rewrite He in Hf.
  - intros H. replace (filter _ u) with (∅ : gmap Z Z); [done|]. symmetry.
    apply map_empty. intros k. apply map_lookup_filter_None. right. intros j Hk Hj. simpl in Hj.
    subst j. by apply (H k).
Qed.

Lemma locks_frame (u u' : gmap Z Z) (o : list Z) (l : list lru_entry) :
  (∀ i, i ∈ o → users u' i = users u i) →
  Forall2 (λ i e, le_locks e = users u i) o l → Forall2 (λ i e, le_locks e = users u' i) o l.
Proof.
  intros Hu H. induction H as [|i e o l Hi H IH]; constructor.
  - rewrite Hu by set_solver. done.
  - apply IH. intros j Hj. apply Hu. set_solver.
Qed.

(** One item's lock number changes with its users. *)
Lemma locks_bump (u u' : gmap Z Z) oa cur ob la e lb n :
  NoDup (oa ++ cur :: ob) → length oa = length la →
  (∀ j, users u' j = users u j + (if decide (cur = j) then n else 0)) →
  Forall2 (λ i e, le_locks e = users u i) (oa ++ cur :: ob) (la ++ e :: lb) →
  Forall2 (λ i e, le_locks e = users u' i) (oa ++ cur :: ob) (la ++ bump n e :: lb).
Proof.
  intros Hdup Hlen Hu H. destruct (NoDup_remove_mid _ _ _ Hdup) as [_ Hi].
  apply Forall2_app_inv in H as [Ha [He Hb]%Forall2_cons]; [|done].
  apply Forall2_app; [|constructor].
  - apply (locks_frame u); [|done]. intros j Hj. rewrite Hu, decide_False; [lia|set_solver].
  - rewrite Hu, decide_True by done. simpl. lia.
  - apply (locks_frame u); [|done]. intros j Hj. rewrite Hu, decide_False; [lia|set_solver].
Qed.

Lemma fetch_step N f k t r t' c c' cl o l :
  lock_rel N (c, cl) o l → cl !! k = Some t → using_file t = false →
  fetch_item f k t c = Ok (r, t', c') → ∃ o' l', lock_rel N (c', <[k := t']> cl) o' l'.
Proof.
  intros [Hrel Hlk Hused] Hk Hn Hrun. simpl in *.
  destruct (filepath_to_cache_idx c !! f) as [cur|] eqn:Hf.
  - destruct (fetch_item_hit N c o l f k t cur Hrel Hf) as
      (oa & ob & la & e & lb & c1 & -> & -> & Hlen & E & _ & Hrel1 & _ & Hcl & _).
    rewrite E in Hrun. injection Hrun as <- <- <-.
    assert (in_use (client_idx_to_cache_idx c) cl !! k = None) as Hfree.
    { destruct (in_use _ _ !! k) eqn:Ek; [|done]. apply in_use_Some in Ek as (t1 & Ht1 & ? & _).
      congruence. }
    do 2 eexists. split; simpl; [exact Hrel1| |].
    + rewrite Hcl, in_use_set by done. apply Forall2_to_end; [done|].
      eapply locks_bump; [apply Hrel|done| |exact Hlk].
      intros j. by apply users_insert.
    + rewrite Hcl. intros k' t1 Ht1 Hu1. destruct (decide (k' = k)) as [->|Hne].
      * exists cur. rewrite lookup_insert_eq. set_solver.
      * rewrite lookup_insert_ne in Ht1 by done. rewrite lookup_insert_ne by done.
        destruct (Hused _ _ Ht1 Hu1) as (i & ? & ?). exists i. set_solver.
  - destruct (fetch_item_miss N c o l f k t Hrel Hf) as [E _]. rewrite E in Hrun.
    injection Hrun as <- <- <-. exists o, l. by rewrite insert_id.
Qed.

Lemma insert_step iter `{!IterOrder iter} N w k f buff b c c' cl o l :
  lock_rel N (c, cl) o l → filepath_to_cache_idx c !! f = None →
  try_insert_item iter w k f buff c = Ok (b, c') → ∃ o' l', lock_rel N (c', cl) o' l'.
Proof.
  intros [Hrel Hlk Hused] Hf Hrun. simpl in *.
  destruct (try_insert_run iter N c o l w k f buff Hrel Hf) as
    (b1 & c1 & o1 & l1 & E & _ & Hrel1 & Hshape & Hc1 & Hcl).
  rewrite E in Hrun. injection Hrun as <- <-. exists o1, l1.
  split; simpl; [done|..]; rewrite Hcl; destruct b1; simpl in Hshape.
  - destruct Hshape as [(i & Hi & -> & ->)|(i & o2 & e & l2 & -> & -> & He & -> & ->)].
    + apply Forall2_app; [done|]. constructor; [|constructor]. symmetry. apply users_0.
      intros k1 (t1 & Ht1 & Hu1 & Hm1)%in_use_Some.
      destruct (Hused _ _ Ht1 Hu1) as (j & Hj & Hjo). congruence.
    + apply Forall2_cons in Hlk as [Hlk1 Hlk]. apply Forall2_app; [done|].
      constructor; [|constructor]. simpl. congruence.
  - by destruct Hshape as [-> ->].
  - intros k1 t1 Ht1 Hu1. destruct (Hused _ _ Ht1 Hu1) as (j & Hj & Hjo). exists j.
    split; [done|].
    destruct Hshape as [(i & _ & -> & _)|(i & o2 & e & l2 & -> & -> & _ & -> & _)]; set_solver.
  - by destruct Hshape as [-> ->].
Qed.

Lemma finish_step N k t t' c c' cl o l :
  lock_rel N (c, cl) o l → cl !! k = Some t →
  finished_with_item k t c = Ok (t', c') → ∃ o' l', lock_rel N (c', <[k := t']> cl) o' l'.
Proof.
  intros [Hrel Hlk Hused] Hk Hrun. simpl in *. unfold finished_with_item in Hrun.
  destruct (using_file t) eqn:Hut; [|injection Hrun as <- <-; exists o, l; by rewrite insert_id].
  destruct (Hused _ _ Hk Hut) as (cur & Hm & Hcur).
  apply list_elem_of_split in Hcur as (oa & ob & ->).
  destruct (proj1 (Forall2_app_inv_l _ _ _ _) Hlk) as (la & l2 & Ha & Hb & ->).
  apply Forall2_cons_inv_l in Hb as (e & lb & _ & _ & ->).
  pose proof (Forall2_length _ _ _ Ha) as Hlen.
  destruct (cache_rel_item _ _ _ _ _ _ _ _ Hrel Hlen) as (it & Hv & _).
  rewrite Hm in Hrun. cbn [default from_option id] in Hrun.
  rewrite insert_id in Hrun by done. rewrite (upd_item_run _ _ _ it) in Hrun by done.
  revert Hrun. step_ok. intros [= <- <-].
  exists (oa ++ cur :: ob), (la ++ bump (-1) e :: lb). split; simpl.
  - apply (cache_rel_lock N c oa cur ob la e lb it (-1) (client_idx_to_cache_idx c) Hrel Hlen Hv).
  - rewrite in_use_unset by done. eapply locks_bump; [apply Hrel|done| |exact Hlk].
    intros j. rewrite (users_delete _ k cur); [case_decide; lia|]. apply in_use_Some. eauto.
  - intros k1 t1 Ht1 Hu1. destruct (decide (k1 = k)) as [->|Hne].
    + rewrite lookup_insert_eq in Ht1. by injection Ht1 as <-.
    + rewrite lookup_insert_ne in Ht1 by done. eauto.
Qed.

Lemma lock_rel_step iter `{!IterOrder iter} N st st' o l :
  lock_rel N st o l → cache_step iter st st' → ∃ o' l', lock_rel N st' o' l'.
Proof.
  intros Hrel Hstep. destruct Hstep.
  - exists o, l. destruct Hrel as [Hc Hl Hu]. simpl in *. split; simpl; [done|..].
    + rewrite in_use_unset, delete_id; [done| |done].
      destruct (in_use _ _ !! k) eqn:Ek; [|done]. apply in_use_Some in Ek as (t1 & ? & _). congruence.
    + intros k1 t1 Ht1 Hu1. destruct (decide (k1 = k)) as [->|Hne].
      * rewrite lookup_insert_eq in Ht1. injection Ht1 as <-. done.
      * rewrite lookup_insert_ne in Ht1 by done. eauto.
  - by eapply fetch_step.
  - by eapply insert_step.
  - by eapply finish_step.
Qed.

Lemma lock_rel_reachable iter `{!IterOrder iter} n fd st :
  2 ≤ Z.of_nat n → rtc (cache_step iter) (new_cache n fd, ∅) st →
  ∃ o l, lock_rel (Z.of_nat n) st o l.
Proof.
  intros Hn Hrtc.
  assert (∃ o l, lock_rel (Z.of_nat n) (new_cache n fd, ∅) o l) as Hinit.
  { exists [], []. split; simpl; [by apply new_cache_rel|constructor|].
    intros k t Ht. by apply lookup_empty_Some in Ht. }
  induction Hrtc as [|x y z Hxy _ IH]; [done|]. apply IH.
  destruct Hinit as (o & l & Hl). by eapply lock_rel_step.
Qed.

(** The response an item holds. *)
Definition content (c : cache) (i : Z) : result (list char) :=
  ci_buffer <$> vget (cache_buffer c) i.

Lemma entry_content N c oa i ob la e lb :
  cache_rel N c (oa ++ i :: ob) (la ++ e :: lb) → length oa = length la →
  content c i = Ok (le_data e).
Proof.
  intros Hrel Hlen. destruct (cache_rel_item _ _ _ _ _ _ _ _ Hrel Hlen) as (it & Hv & Hpl & _).
  unfold content. rewrite Hv. injection Hpl as <- _ _. done.
Qed.

Lemma Forall2_split_at {A B} (R : A → B → Prop) (o : list A) (l : list B) i :
  Forall2 R o l → i ∈ o →
  ∃ oa ob la e lb, o = oa ++ i :: ob ∧ l = la ++ e :: lb ∧ length oa = length la ∧ R i e.
Proof.
  intros H (oa & ob & ->)%list_elem_of_split.
  apply Forall2_app_inv_l in H as (la & l2 & Ha & Hb & ->).
  apply Forall2_cons_inv_l in Hb as (e & lb & He & _ & ->).
  exists oa, ob, la, e, lb. split_and!; [done..| |done]. by eapply Forall2_length.
Qed.

(** The entries of a cache determine its contents. *)
Lemma contents_kept N c c' o l o' l' i :
  cache_rel N c o l → cache_rel N c' o' l' → i ∈ o →
  (∀ e, (i, e) ∈ zip o l → ∃ e', (i, e') ∈ zip o' l' ∧ le_data e' = le_data e) →
  content c' i = content c i.
Proof.
  intros Hrel Hrel' Hi Hent.
  destruct (Forall2_split_at _ _ _ i (cr_entries _ _ _ _ Hrel) Hi) as
    (oa & ob & la & e & lb & -> & -> & Hlen & [_ Hv]).
  destruct (Hent e) as (e' & Hz & He).
  { rewrite zip_with_app by done. set_solver. }
  apply list_elem_of_lookup in Hz as [n Hz].
  apply lookup_zip_with_Some in Hz as (i1 & e1 & [= <- <-] & Ho & Hl).
  destruct (Forall2_lookup_lr _ _ _ _ _ _ (cr_entries _ _ _ _ Hrel') Ho Hl) as [_ Hv'].
  apply vget_payload_inv in Hv as (it & Hv & Hp), Hv' as (it' & Hv' & Hp').
  unfold content. rewrite Hv, Hv'. simpl. unfold payload in *. congruence.
Qed.

Lemma zip_snoc {A B} (o : list A) (l : list B) i e :
  length o = length l → zip (o ++ [i]) (l ++ [e]) = zip o l ++ [(i, e)].
Proof. intros H. by rewrite zip_with_app. Qed.

Lemma fetch_contents N c o l f k t r t' c' i :
  cache_rel N c o l → fetch_item f k t c = Ok (r, t', c') → i ∈ o →
  content c' i = content c i.
Proof.
  intros Hrel Hrun Hi. destruct (filepath_to_cache_idx c !! f) as [cur|] eqn:Hf.
  - destruct (fetch_item_hit N c o l f k t cur Hrel Hf) as
      (oa & ob & la & e & lb & c1 & -> & -> & Hlen & E & _ & Hrel1 & _).
    rewrite E in Hrun. injection Hrun as <- <- <-.
    apply (contents_kept N c c1 _ _ _ _ i Hrel Hrel1 Hi). intros e1 He1.
    pose proof (Forall2_length _ _ _ (cr_entries _ _ _ _ Hrel1)) as Hl.
    rewrite !(length_app (_ ++ _)) in Hl. simpl in Hl.
    rewrite zip_snoc by lia. rewrite zip_with_app in * by done. simpl in He1.
    apply elem_of_app in He1 as [He1|[He1|He1]%elem_of_cons].
    + exists e1. set_solver.
    + injection He1 as -> ->. exists (bump 1 e). set_solver.
    + exists e1. set_solver.
  - destruct (fetch_item_miss N c o l f k t Hrel Hf) as [E _]. rewrite E in Hrun.
    by injection Hrun as <- <- <-.
Qed.

Lemma insert_contents iter `{!IterOrder iter} N w k f buff b c c' cl o l i :
  lock_rel N (c, cl) o l → filepath_to_cache_idx c !! f = None →
  try_insert_item iter w k f buff c = Ok (b, c') → i ∈ o →
  (∃ k, in_use (client_idx_to_cache_idx c) cl !! k = Some i) →
  content c' i = content c i.
Proof.
  intros [Hrel Hlk Hused] Hf Hrun Hi [k1 Hk1]. simpl in *.
  destruct (try_insert_run iter N c o l w k f buff Hrel Hf) as
    (b1 & c1 & o1 & l1 & E & _ & Hrel1 & Hshape & Hc1 & Hcl).
  rewrite E in Hrun. injection Hrun as <- <-. destruct b1; simpl in Hshape.
  - apply (contents_kept N c c1 _ _ _ _ i Hrel Hrel1 Hi). intros e1 He1. exists e1. split; [|done].
    pose proof (Forall2_length _ _ _ (cr_entries _ _ _ _ Hrel)) as Hl.
    destruct Hshape as [(j & Hj & -> & ->)|(j & o2 & e & l2 & -> & -> & He & -> & ->)].
    + rewrite zip_snoc by done. set_solver.
    + apply Forall2_cons in Hlk as [Hlk1 _]. simpl in Hl. rewrite zip_snoc by lia.
      simpl in He1. apply elem_of_cons in He1 as [[= -> ->]|He1]; [|set_solver].
      rewrite He in Hlk1. symmetry in Hlk1. by apply users_0 with (k := k1) in Hlk1.
  - by rewrite Hc1.
Qed.

Lemma finish_contents k t t' c c' i :
  finished_with_item k t c = Ok (t', c') → content c' i = content c i.
Proof.
  unfold finished_with_item. destruct (using_file t); [|by intros [= _ <-]].
  intros H. inv_ok. unfold upd_item in *. inv_ok. simpl in *. unfold content. simpl.
  erewrite vget_vupd by done. case_decide; [|done]. by destruct (vget (cache_buffer c) i).
Qed.

(** ** Outdated items *)

Lemma drop_run i c x :
  vget (cache_buffer c) i = Ok x →
  ∃ c', drop_outdated i c = Ok c' ∧ vget (cache_buffer c') i = Ok new_cache_item ∧
    filepath_to_cache_idx c' = filepath_to_cache_idx c ∧
    client_idx_to_cache_idx c' = client_idx_to_cache_idx c.
Proof.
  intros Hv. pose proof (vget_range _ _ _ Hv). unfold drop_outdated. rewrite Hv. step_ok.
  rewrite (upd_item_run i _ _ x) by done. eexists. split; [done|]. split; [|done].
  by apply vget_insert_eq.
Qed.

(** A freshly emptied item that its path still leads to. *)
Lemma fetch_emptied f k t c cur :
  filepath_to_cache_idx c !! f = Some cur → vget (cache_buffer c) cur = Ok new_cache_item →
  ∃ c', fetch_item f k t c =
    Ok ({| cf_found := true; cf_size := 0; cf_buff := Some cur |}, set_using_file true t, c').
Proof.
  intros Hf Hv. pose proof (vget_range _ _ _ Hv). unfold fetch_item. rewrite Hf.
  rewrite (upd_item_run _ _ _ _ Hv). step_ok. cbn [cache_buffer set_cache_buffer set_client_map].
  rewrite vget_insert_eq by done. step_ok. simpl.
  unfold fetch_hit. simpl. rewrite vget_insert_eq by done. step_ok. eauto.
Qed.

(** A fetch of an outdated item that is linked. *)
Lemma fetch_outdated_run N c o l f k t cur it :
  cache_rel N c o l → filepath_to_cache_idx c !! f = Some cur →
  vget (cache_buffer c) cur = Ok it →
  ∃ c', fetch_item f k t
          (set_cache_buffer (<[Z.to_nat cur := set_outdated true it]> (cache_buffer c)) c) =
        Ok (fetch_miss, set_using_file true t, c') ∧
    vget (cache_buffer c') cur = Ok new_cache_item ∧
    filepath_to_cache_idx c' = filepath_to_cache_idx c ∧
    client_idx_to_cache_idx c' = <[k := cur]> (client_idx_to_cache_idx c).
Proof.
  intros Hrel Hf Hv. pose proof (vget_range _ _ _ Hv) as Hr.
  destruct (cache_rel_split _ _ _ _ _ _ Hrel Hf) as
    (oa & ob & la & e & lb & -> & -> & Hlen & He & Hla).
  destruct (cache_rel_item _ _ _ _ _ _ _ _ Hrel Hlen) as (it' & Hv' & Hpl & Hp & Hn).
  rewrite Hv in Hv'. injection Hv' as <-.
  unfold fetch_item. simpl. rewrite Hf.
  rewrite (upd_item_run cur _ _ (set_outdated true it)) by by apply vget_insert_eq.
  step_ok. rewrite set_cache_buffer_twice. cbn [cache_buffer set_cache_buffer set_client_map].
  rewrite list_insert_insert_eq. rewrite vget_insert_eq by done. step_ok. simpl. rewrite Hn, Hp.
  set (it1 := set_lock_number _ _).
  set (c1 := set_client_map _ _).
  assert (vget (cache_buffer c1) cur = Ok it1) as Hv1 by by apply vget_insert_eq.
  assert (∀ c2 x, vget (cache_buffer c2) cur = Ok x →
    filepath_to_cache_idx c2 = filepath_to_cache_idx c1 →
    client_idx_to_cache_idx c2 = client_idx_to_cache_idx c1 →
    ∃ c', (drop_outdated cur c2 ≫= λ c, mret (fetch_miss, set_using_file true t, c)) =
        Ok (fetch_miss, set_using_file true t, c') ∧
      vget (cache_buffer c') cur = Ok new_cache_item ∧
      filepath_to_cache_idx c' = filepath_to_cache_idx c ∧
      client_idx_to_cache_idx c' = <[k := cur]> (client_idx_to_cache_idx c)) as Hdrop.
  { intros c2 x Hx H1 H2. destruct (drop_run cur c2 x Hx) as (c3 & E3 & H3 & H4 & H5).
    rewrite E3. exists c3. split_and!; [done|done|by rewrite H4, H1|by rewrite H5, H2]. }
  assert (dll (cache_buffer c1) (-1) (oa ++ cur :: ob) (-1)) as Hdll
    by (eapply dll_same_links; [done|done|done|apply Hrel]).
  destruct ob as [|h ob]; simpl.
  - destruct (last oa) as [q|] eqn:Eq; simpl; [|by eapply Hdrop].
    apply last_Some in Eq as [oa' ->].
    destruct (dll_get _ _ _ _ q Hdll) as [itq Hq]; [set_solver|].
    pose proof (cr_dup _ _ _ _ Hrel) as Hd. apply NoDup_remove_mid in Hd as [_ Hd].
    assert (q ≠ cur) by set_solver. pose proof (vget_range _ _ _ Hq).
    rewrite (proj2 (Z.eqb_neq q (-1))) by lia. simpl. rewrite (upd_item_run _ _ _ _ Hq). step_ok.
    eapply Hdrop; [|done|done]. simpl. rewrite vget_insert_ne by (done || lia). exact Hv1.
  - assert (0 ≤ h < N) by (apply (cr_range _ _ _ _ Hrel); set_solver).
    rewrite (proj2 (Z.eqb_neq h (-1))) by lia.
    pose proof (cr_dup _ _ _ _ Hrel) as Hd.
    destruct (unlink_run c1 oa cur h ob) as (b & E & _ & _ & Hb); [done| |done|apply Hrel|].
    { intros j Hj. apply (cr_range _ _ _ _ Hrel) in Hj. lia. }
    rewrite E. step_ok. eapply Hdrop; [|done|done]. simpl. rewrite Hb; [done|].
    by apply NoDup_remove_mid in Hd as [_ ?].
Qed.

(** * Properties *)

(** C16: a fetch does what the list of responses says: a cached path is found,
    the buffer and the size it gets are those of its response, the response
    moves to the most recently used end with one more lock and the client is
    marked as using a file; a path that is not cached is not found and nothing
    changes. *)
Theorem fetch_refines_lru N c o l f k client :
  cache_rel N c o l →
  ∃ r client' c', fetch_item f k client c = Ok (r, client', c') ∧
    match lru_fetch f l with
    | Some (e, l') =>
        (∃ o', cache_rel N c' o' l') ∧ cf_found r = true ∧ cf_size r = len (le_data e) ∧
        (∃ i, cf_buff r = Some i ∧ content c' i = Ok (le_data e) ∧
              client_idx_to_cache_idx c' = <[k := i]> (client_idx_to_cache_idx c)) ∧
        client' = set_using_file true client
    | None => r = fetch_miss ∧ client' = client ∧ c' = c
    end.
Proof.
  intros Hrel. destruct (filepath_to_cache_idx c !! f) as [cur|] eqn:Hf.
  - destruct (fetch_item_hit N c o l f k client cur Hrel Hf) as
      (oa & ob & la & e & lb & c1 & _ & _ & _ & E & E' & Hrel1 & (it & Hv & Hb) & Hcl & _).
    do 3 eexists. split; [done|]. rewrite E'. split_and!; [by eauto|done|done| |done].
    exists cur. split_and!; [done| |done]. unfold content. rewrite Hv. simpl. by rewrite Hb.
  - destruct (fetch_item_miss N c o l f k client Hrel Hf) as [E ->]. eauto 10.
Qed.

(** C17: an insertion of a path that is not cached does what the list of
    responses says: while there is room the response goes to the most recently
    used end; a full cache gives up its least recently used response for it,
    or refuses and stays as it is when that response is locked. *)
Theorem insert_refines_lru iter `{!IterOrder iter} N c o l w k f buff :
  cache_rel N c o l → filepath_to_cache_idx c !! f = None →
  ∃ b c', try_insert_item iter w k f buff c = Ok (b, c') ∧
    match lru_insert N f buff l with
    | Some l' => b = true ∧ ∃ o', cache_rel N c' o' l'
    | None => b = false ∧ c' = c
    end.
Proof.
  intros Hrel Hf. destruct (try_insert_run iter N c o l w k f buff Hrel Hf) as
    (b & c' & o' & l' & E & E' & Hrel' & _ & Hc & _).
  exists b, c'. split; [done|]. rewrite E'. destruct b; [by eauto|]. by rewrite Hc.
Qed.



(** C38: a file that changed is not found by the next fetch, and its item is
    emptied while its path still leads there: the fetch after that finds an
    empty response, and the client that was told the file is not cached
    releases a lock the item no longer has. *)
Theorem outdated_response_served_empty N c o l f w k k' t t' cur it c1 :
  cache_rel N c o l → N ≤ 2 ^ 31 → filepath_to_cache_idx c !! f = Some cur →
  vget (cache_buffer c) cur = Ok it → watch_to_cache_idx c !! w = Some cur →
  inotify_event_handler w c = Ok c1 →
  ∃ c2, fetch_item f k t c1 = Ok (fetch_miss, set_using_file true t, c2) ∧
    (∃ c3, fetch_item f k' t' c2 =
       Ok ({| cf_found := true; cf_size := 0; cf_buff := Some cur |}, set_using_file true t', c3)) ∧
    (∃ c3 it3, finished_with_item k (set_using_file true t) c2 = Ok (set_using_file false t, c3) ∧
       vget (cache_buffer c3) cur = Ok it3 ∧ ci_lock_number it3 = -1).
Proof.
  intros Hrel HN Hf Hv Hw Hev. pose proof (vget_range _ _ _ Hv) as Hr.
  pose proof (cr_len _ _ _ _ Hrel) as Hlen.
  unfold inotify_event_handler in Hev. rewrite Hw, to_u64_small in Hev by lia.
  rewrite (proj2 (Z.ltb_lt _ _)), (upd_item_run _ _ _ _ Hv) in Hev by lia. injection Hev as <-.
  destruct (fetch_outdated_run N c o l f k t cur it Hrel Hf Hv) as (c2 & E & Hv2 & Hf2 & Hcl).
  pose proof (vget_range _ _ _ Hv2).
  exists c2. split; [done|]. split; [apply fetch_emptied; [by rewrite Hf2|done]|].
  unfold finished_with_item. simpl. rewrite Hcl, lookup_insert_eq. cbn [default from_option id].
  rewrite (upd_item_run cur _ _ new_cache_item) by done.
  do 2 eexists. split; [by destruct t|]. split; [by apply vget_insert_eq|done].
Qed.

(** ** Witnesses *)

(** A cache of two items that holds one response. *)
Definition demo_entry : lru_entry :=
  {| le_path := lit "a"; le_data := lit "xyz"; le_locks := 0 |}.

Definition demo_insert : result (bool * cache) :=
  try_insert_item elements 7 0 (lit "a") (lit "xyz") (new_cache 2 3).

Definition demo_cache : cache :=
  match demo_insert with Ok (_, c) => c | Err _ => new_cache 2 3 end.

Lemma demo_insert_eq : demo_insert = Ok (true, demo_cache).
Proof. vm_compute. reflexivity. Qed.

Lemma demo_rel : ∃ i, cache_rel 2 demo_cache [i] [demo_entry].
Proof.
  destruct (try_insert_run elements 2 (new_cache 2 3) [] [] 7 0 (lit "a") (lit "xyz")) as
    (b & c & o & l & E & _ & Hrel & Hs & _); [by apply (new_cache_rel 2)|done|].
  pose proof demo_insert_eq as Hd. unfold demo_insert in Hd. rewrite Hd in E.
  injection E as <- <-. destruct Hs as [(i & _ & -> & ->)|(? & ? & ? & ? & ? & _)]; [|done].
  by exists i.
Qed.

Lemma fetch_refines_lru_witness :
  ∃ r t c', fetch_item (lit "a") 5 new_tcp_client_data demo_cache = Ok (r, t, c') ∧
    cf_found r = true ∧ cf_size r = 3.
Proof.
  destruct demo_rel as [i Hrel].
  destruct (fetch_refines_lru 2 demo_cache [i] [demo_entry] (lit "a") 5 new_tcp_client_data Hrel)
    as (r & t & c' & E & H).
  exists r, t, c'. split; [exact E|]. destruct H as (_ & H1 & H2 & _). split; [exact H1|exact H2].
Defined.

Lemma insert_refines_lru_witness :
  ∃ c', try_insert_item elements 8 1 (lit "b") (lit "pq") demo_cache = Ok (true, c').
Proof.
  destruct demo_rel as [i Hrel].
  destruct (insert_refines_lru elements 2 demo_cache [i] [demo_entry] 8 1 (lit "b") (lit "pq") Hrel)
    as (b & c' & E & H); [vm_compute; reflexivity|].
  exists c'. destruct H as [Hb _]. rewrite Hb in E. exact E.
Defined.

(** Client 5 connects, the response is cached, and the client fetches it. *)
Definition demo_fetch : result (cache_fetch_item * tcp_client * cache) :=
  fetch_item (lit "a") 5 new_tcp_client_data demo_cache.

Definition demo_used : cache :=
  match demo_fetch with Ok (_, _, c) => c | Err _ => new_cache 2 3 end.

Definition demo_clients : gmap Z tcp_client :=
  <[5 := set_using_file true new_tcp_client_data]> (<[5 := new_tcp_client_data]> ∅).

Lemma demo_fetch_eq :
  demo_fetch = Ok ({| cf_found := true; cf_size := 3; cf_buff := Some 1 |},
                   set_using_file true new_tcp_client_data, demo_used).
Proof. vm_compute. reflexivity. Qed.

Lemma demo_steps : rtc (cache_step elements) (new_cache 2 3, ∅) (demo_used, demo_clients).
Proof.
  eapply rtc_l; [by apply (step_client _ 5)|].
  eapply rtc_l; [eapply (step_insert _ 7 0 (lit "a") (lit "xyz")); [done|exact demo_insert_eq]|].
  eapply rtc_l; [|apply rtc_refl].
  eapply (step_fetch _ (lit "a") 5); [by apply lookup_insert_eq|done|exact demo_fetch_eq].
Qed.


(** Another client's insertion leaves the response of client 5 alone. *)
Definition demo_insert2 : result (bool * cache) :=
  try_insert_item elements 8 1 (lit "b") (lit "pq") demo_used.

Definition demo_cache2 : cache :=
  match demo_insert2 with Ok (_, c) => c | Err _ => new_cache 2 3 end.

Lemma demo_insert2_eq : demo_insert2 = Ok (true, demo_cache2).
Proof. vm_compute. reflexivity. Qed.


Lemma outdated_response_served_empty_witness :
  ∃ c1 c2, inotify_event_handler 7 demo_cache = Ok c1 ∧
    fetch_item (lit "a") 5 new_tcp_client_data c1 =
      Ok (fetch_miss, set_using_file true new_tcp_client_data, c2).
Proof.
  destruct demo_rel as [i Hrel].
  destruct (inotify_event_handler 7 demo_cache) as [c1|] eqn:E; [|vm_compute in E; discriminate E].
  destruct (vget (cache_buffer demo_cache) 1) as [it|] eqn:Hit; [|vm_compute in Hit; discriminate Hit].
  destruct (outdated_response_served_empty 2 demo_cache [i] [demo_entry] (lit "a") 7 5 6
    new_tcp_client_data new_tcp_client_data 1 it c1 Hrel) as (c2 & H & _).
  - lia.
  - vm_compute. reflexivity.
  - exact Hit.
  - vm_compute. reflexivity.
  - exact E.
  - exists c1, c2. split; [reflexivity|exact H].
Defined.
