(* ===== verification/CacheWatch.v ===== *)
(** * header/web_server/cache.h: watches and free items

    What holds of the cache in every state, even when files changed and outdated items were given
    up ([outdated_response_served_empty] of Cache.v): a watch leads to an item in use that has it,
    free items are not outdated, and clients use items that exist.  So a response that was just inserted is found,
    and ending a client that uses one does not fault. *)

From S2P Require Import Prelude Cache.
From Stdlib Require Import ZArith Lia.
From stdpp Require Import base gmap strings list fin_maps sets.

#[local] Open Scope Z_scope.

(** ** Specification *)

Record cache_wf (c : cache) : Prop := {
  cw_watch : ∀ w i, watch_to_cache_idx c !! w = Some i →
    i ∉ free_idxs c ∧ ∃ it, vget (cache_buffer c) i = Ok it ∧ ci_watch it = w;
  cw_free : ∀ i it, i ∈ free_idxs c → vget (cache_buffer c) i = Ok it → ci_outdated it = false
}.

(** Index [i] is no longer free, and its item not yet filled. *)
Record taken (i : Z) (c : cache) : Prop := {
  tn_wf : cache_wf c;
  tn_free : i ∉ free_idxs c;
  tn_watch : ∀ w, watch_to_cache_idx c !! w ≠ Some i;
  tn_item : ∀ it, vget (cache_buffer c) i = Ok it → ci_outdated it = false
}.

(** Only the links, the locks and the bytes of items change. *)
Definition ci_marks (it : cache_item) : Z * bool := (ci_watch it, ci_outdated it).

Record same_marks (c c' : cache) : Prop := {
  sk_marks : ci_marks <$> cache_buffer c' = ci_marks <$> cache_buffer c;
  sk_free : free_idxs c' = free_idxs c;
  sk_watch : watch_to_cache_idx c' = watch_to_cache_idx c;
  sk_paths : filepath_to_cache_idx c' = filepath_to_cache_idx c
}.

(** A path that leads to an item that is not outdated is found. *)
Definition present (f : list char) (c : cache) : Prop :=
  ∃ i, filepath_to_cache_idx c !! f = Some i ∧ ∀ it, vget (cache_buffer c) i = Ok it → ci_outdated it = false.

(** * Lemmas *)

#[export] Instance same_marks_equiv : Equivalence same_marks.
Proof.
  split; [by split|by intros c1 c2 []|]. intros c1 c2 c3 [] []. split; congruence.
Qed.

Lemma same_marks_item c c' i it' :
  same_marks c c' → vget (cache_buffer c') i = Ok it' →
  ∃ it, vget (cache_buffer c) i = Ok it ∧ ci_watch it = ci_watch it' ∧ ci_outdated it = ci_outdated it'.
Proof.
  intros Hs Hv. destruct (vget_fmap_same ci_marks (cache_buffer c) _ i it' (sk_marks _ _ Hs) Hv) as (it & Hit & [= E1 E2]).
  by exists it.
Qed.

Lemma cache_wf_same c c' : same_marks c c' → cache_wf c → cache_wf c'.
Proof.
  intros Hs [Hw Hf]. split.
  - rewrite (sk_watch _ _ Hs), (sk_free _ _ Hs). intros w i Hi. destruct (Hw w i Hi) as [Hn (it & Hv & <-)].
    split; [done|]. destruct (same_marks_item c' c i it (symmetry Hs) Hv) as (it' & Hv' & E & _). by exists it'.
  - rewrite (sk_free _ _ Hs). intros i it' Hi Hv'. destruct (same_marks_item c c' i it' Hs Hv') as (it & Hv & _ & <-).
    by apply (Hf i).
Qed.

Lemma taken_same i c c' : same_marks c c' → taken i c → taken i c'.
Proof.
  intros Hs [Hc Hf Hw Hi]. split; [by eapply cache_wf_same|by rewrite (sk_free _ _ Hs)|by rewrite (sk_watch _ _ Hs)|].
  intros it' Hv'. destruct (same_marks_item c c' i it' Hs Hv') as (it & Hv & _ & <-). by apply Hi.
Qed.

Lemma upd_item_Ok i g c c' :
  upd_item i g c = Ok c' → ∃ it, vget (cache_buffer c) i = Ok it ∧ c' = set_cache_buffer (<[Z.to_nat i := g it]> (cache_buffer c)) c.
Proof. unfold upd_item. intros (b & (it & Hv & ->)%vupd_Ok & [= <-])%result_bind_Ok. by exists it. Qed.

Lemma upd_item_same i g c c' : (∀ it, ci_marks (g it) = ci_marks it) → upd_item i g c = Ok c' → same_marks c c'.
Proof. intros Hg (it & Hv & ->)%upd_item_Ok. split; try done. simpl. by eapply fmap_insert_same. Qed.

Lemma unlink_same i c c' : unlink_item i c = Ok c' → same_marks c c'.
Proof.
  unfold unlink_item. intros (it & _ & H)%result_bind_Ok. destruct (negb _).
  - apply result_bind_Ok in H as (c1 & H1%upd_item_same & H); [|done].
    apply result_bind_Ok in H as (it' & _ & H%upd_item_same); [|done]. by transitivity c1.
  - apply result_bind_Ok in H as (c1 & H1%upd_item_same & H); [|done].
    apply result_bind_Ok in H as (it' & _ & [= <-]). by destruct H1.
Qed.

Lemma promote_same i c c' : promote_item i c = Ok c' → same_marks c c'.
Proof.
  unfold promote_item. intros (c1 & H1%upd_item_same & H)%result_bind_Ok; [|done].
  apply result_bind_Ok in H as (c2 & H2%upd_item_same & H); [|done].
  apply result_bind_Ok in H as (c3 & H3%upd_item_same & [= <-]); [|done].
  transitivity c1; [done|]. transitivity c2; [done|]. by destruct H3.
Qed.

Lemma fetch_hit_Ok i c r : fetch_hit i c = Ok r → cf_found r = true ∧ cf_buff r = Some i.
Proof. unfold fetch_hit. by intros (it & _ & [= <-])%result_bind_Ok. Qed.

(** An item is given up: its watch leads nowhere. *)
Lemma clear_item_wf c i it :
  cache_wf c → vget (cache_buffer c) i = Ok it →
  let c' := set_cache_buffer (<[Z.to_nat i := new_cache_item]> (cache_buffer c)) (rm_watch (ci_watch it) c) in
  cache_wf c' ∧ (∀ w, watch_to_cache_idx c' !! w ≠ Some i) ∧
  ∀ it', vget (cache_buffer c') i = Ok it' → ci_outdated it' = false.
Proof.
  intros [Hw Hf] Hv. pose proof (vget_range _ _ _ Hv) as Hr. simpl.
  assert (∀ w, delete (ci_watch it) (watch_to_cache_idx c) !! w ≠ Some i) as Hno.
  { intros w [Hne Hi]%lookup_delete_Some. destruct (Hw w i Hi) as [_ (it' & Hv' & <-)]. congruence. }
  split; [|split; [done|]].
  - split; simpl.
    + intros w j Hj. pose proof (Hno w) as Hn. apply lookup_delete_Some in Hj as [Hne Hj].
      destruct (Hw w j Hj) as [Hfr (it' & Hv' & <-)]. split; [done|]. exists it'. split; [|done].
      rewrite vget_insert_ne; [done|lia|]. intros <-. congruence.
    + intros j it' Hj [[-> ->]|[Hne Hv']]%vget_insert_inv; [done| |done]. by apply (Hf j).
  - intros it'. rewrite vget_insert_eq by done. by intros [= <-].
Qed.

Lemma drop_wf i c c' : cache_wf c → drop_outdated i c = Ok c' → cache_wf c'.
Proof.
  intros Hc H. unfold drop_outdated in H. apply result_bind_Ok in H as (it & Hv & H). cbv zeta in H.
  apply upd_item_Ok in H as (it' & Hv' & ->). destruct (clear_item_wf c i it Hc Hv) as ([Hw Hf] & Hno & Hnew).
  simpl in *. split; simpl.
  - intros w j Hj. destruct (Hw w j Hj) as [Hfr Hit]. split; [|done]. specialize (Hno w). set_solver.
  - intros j it1 [->%elem_of_singleton|Hj]%elem_of_union Hj1; [by apply Hnew|by apply (Hf j)].
Qed.

(** The part of [fetch_item] after the lock and the table of clients. *)
Lemma fetch_item_Ok f k t c r t' c' :
  fetch_item f k t c = Ok (r, t', c') →
  (r = fetch_miss ∧ t' = t ∧ c' = c ∧ filepath_to_cache_idx c !! f = None) ∨
  ∃ i it c1, filepath_to_cache_idx c !! f = Some i ∧ vget (cache_buffer c) i = Ok it ∧ same_marks c c1 ∧
    t' = set_using_file true t ∧
    if ci_outdated it then drop_outdated i c1 = Ok c' ∧ r = fetch_miss
    else same_marks c1 c' ∧ cf_found r = true ∧ cf_buff r = Some i.
Proof.
  unfold fetch_item. destruct (filepath_to_cache_idx c !! f) as [i|] eqn:Ef; [|intros [= <- <- <-]; by left].
  intros H. right. apply result_bind_Ok in H as (c0 & H0 & H). assert (same_marks c c0) as Hs0 by (eapply upd_item_same; [|exact H0]; done).
  apply upd_item_Ok in H0 as (it & Hv & ->). set (c1 := set_client_map _ _) in H.
  assert (same_marks c c1) as Hs by by destruct Hs0. clear Hs0.
  apply result_bind_Ok in H as (it1 & Hv1 & H). assert (ci_outdated it1 = ci_outdated it) as E.
  { destruct (same_marks_item _ _ _ _ Hs Hv1) as (it' & Hv' & _ & <-). rewrite Hv in Hv'. by injection Hv' as <-. }
  exists i, it. rewrite E in H. destruct (ci_next it1 =? -1), (ci_outdated it); simpl in H.
  - apply result_bind_Ok in H as (c2 & H2 & H). apply result_bind_Ok in H as (c3 & H3 & [= <- <- <-]).
    exists c2. split_and!; [done|done| |done|done|done]. transitivity c1; [done|]. destruct (negb _); [|by injection H2 as <-].
    by apply upd_item_same in H2.
  - apply result_bind_Ok in H as (r1 & [Hr1 Hr2]%fetch_hit_Ok & [= <- <- <-]). by exists c1.
  - apply result_bind_Ok in H as (c2 & H2%unlink_same & H). apply result_bind_Ok in H as (c3 & H3 & [= <- <- <-]).
    exists c2. split_and!; [done|done|by transitivity c1|done|done|done].
  - apply result_bind_Ok in H as (c2 & H2%unlink_same & H). apply result_bind_Ok in H as (c3 & H3%promote_same & H).
    apply result_bind_Ok in H as (r1 & [Hr1 Hr2]%fetch_hit_Ok & [= <- <- <-]). exists c2.
    split_and!; [done|done|by transitivity c1|done|done|done|done].
Qed.

Lemma fetch_wf f k t c r t' c' :
  cache_wf c → fetch_item f k t c = Ok (r, t', c') →
  cache_wf c' ∧ tc_ws_client_idx t' = tc_ws_client_idx t ∧ (cf_found r = true → is_Some (cf_buff r)).
Proof.
  intros Hc [(-> & -> & -> & _)|(i & it & c1 & _ & _ & Hs & -> & H)]%fetch_item_Ok; [done|].
  pose proof (cache_wf_same _ _ Hs Hc) as Hc1. destruct (ci_outdated it).
  - destruct H as [H ->]. split_and!; [by eapply drop_wf|done|done].
  - destruct H as (Hs' & _ & ->). split_and!; [by eapply cache_wf_same|done|by eexists].
Qed.

Lemma finished_wf k t c t' c' :
  cache_wf c → finished_with_item k t c = Ok (t', c') → cache_wf c' ∧ tc_ws_client_idx t' = tc_ws_client_idx t.
Proof.
  intros Hc H. unfold finished_with_item in H. destruct (using_file t); [|by injection H as <- <-].
  apply result_bind_Ok in H as (c1 & H1%upd_item_same & [= <- <-]); [|done]. split; [|done].
  eapply cache_wf_same; [|exact Hc]. by destruct H1.
Qed.

Lemma inotify_wf w c c' : cache_wf c → inotify_event_handler w c = Ok c' → cache_wf c'.
Proof.
  intros [Hw Hf] H. unfold inotify_event_handler in H.
  destruct (watch_to_cache_idx c !! w) as [i|] eqn:Ei; [|by injection H as <-].
  destruct (_ <? _); [|by injection H as <-]. apply upd_item_Ok in H as (it & Hv & ->).
  destruct (Hw w i Ei) as [Hni _]. pose proof (vget_range _ _ _ Hv). split; simpl.
  - intros w' j Hj. destruct (Hw w' j Hj) as [Hfr (itj & Hvj & <-)]. split; [done|].
    destruct (decide (j = i)) as [->|Hne].
    + rewrite Hv in Hvj. injection Hvj as <-. exists (set_outdated true it). by rewrite vget_insert_eq.
    + exists itj. by rewrite vget_insert_ne by (done || lia).
  - intros j itj Hj [[-> _]|[_ Hvj]]%vget_insert_inv; [done| |done]. by apply (Hf j).
Qed.

(** ** Inserting *)

Section Insert.
Variable iter : gset Z → list Z.
Context `{!IterOrder iter}.

Lemma take_idx_taken i c c' : cache_wf c → take_idx iter c = Ok (i, c') → i = -1 ∧ c' = c ∨ taken i c'.
Proof.
  intros Hc H. unfold take_idx in H. destruct (unordered_begin iter (free_idxs c)) as [j|] eqn:Ej.
  - apply (unordered_begin_Some iter) in Ej. set (c1 := set_free_idxs _ c) in H. right.
    assert (taken j c1) as Ht.
    { destruct Hc as [Hw Hf]. split; [|set_solver| |by intros it; apply (Hf j)].
      - split; simpl; [|intros k itk Hk; apply (Hf k); set_solver].
        intros w k Hk. destruct (Hw w k Hk). split; [set_solver|done].
      - intros w Hwj. by destruct (Hw w j Hwj). }
    destruct (lowest_idx c1 =? -1); injection H as <- <-; [|done]. by eapply taken_same; [|exact Ht].
  - apply (unordered_begin_None iter) in Ej. apply result_bind_Ok in H as (it & Hv & H).
    destruct (ci_lock_number it =? 0); [|injection H as <- <-; by left]. right.
    apply result_bind_Ok in H as (c1 & H1%upd_item_same & H); [|done].
    apply result_bind_Ok in H as (it1 & Hv1 & H). cbv zeta in H.
    apply result_bind_Ok in H as (c2 & (it2 & _ & ->)%upd_item_Ok & [= <- <-]).
    destruct (clear_item_wf c1 (lowest_idx c) it1) as (Hwf & Hno & Hnew); [by eapply cache_wf_same|done|].
    split; [by destruct Hwf| |done|done]. simpl. by rewrite (sk_free _ _ H1), Ej.
Qed.

Lemma place_item_wf i w f buff c c' :
  taken i c → place_item i w f buff c = Ok c' →
  cache_wf c' ∧ present f c'.
Proof.
  intros Ht H. unfold place_item in H. apply result_bind_Ok in H as (c1 & H1 & H).
  assert (taken i c1) as Ht1.
  { destruct (negb _); [|by injection H1 as <-]. apply upd_item_same in H1; [|done]. by eapply taken_same. }
  clear Ht H1 c. apply result_bind_Ok in H as (c2 & (it & Hv & ->)%upd_item_Ok & H). simpl in Hv. cbv zeta in H.
  set (c2 := set_watches _ _ _) in H.
  assert (cache_wf c2 ∧ filepath_to_cache_idx c2 !! f = Some i ∧
    ∀ it, vget (cache_buffer c2) i = Ok it → ci_outdated it = false) as (Hc2 & Hp2 & Hi2).
  { pose proof (vget_range _ _ _ Hv). destruct Ht1 as [[Hw Hf] Hfr Hno Hit].
    split_and!; [|by apply lookup_insert_eq|simpl; rewrite vget_insert_eq by done; intros ? [= <-]; exact (Hit it Hv)].
    split; simpl.
    - intros w' j [[-> ->]|[Hne Hj]]%lookup_insert_Some.
      + split; [done|]. exists (set_watch w' it). by rewrite vget_insert_eq.
      + destruct (Hw w' j Hj) as [Hjf (itj & Hvj & <-)]. split; [done|]. exists itj.
        rewrite vget_insert_ne; [done|lia|]. intros <-. by apply (Hno (ci_watch itj)).
    - intros j itj Hj [[-> _]|[_ Hvj]]%vget_insert_inv; [done| |done]. by apply (Hf j). }
  clearbody c2. apply result_bind_Ok in H as (c3 & H3%upd_item_same & H); [|done].
  apply result_bind_Ok in H as (c4 & H4%upd_item_same & H); [|done]. apply upd_item_same in H; [|done].
  assert (same_marks c2 c') as Hs by (transitivity c3; [done|]; transitivity c4; [done|]; by destruct H).
  split; [by eapply cache_wf_same|]. exists i. split; [by rewrite (sk_paths _ _ Hs)|].
  intros it' Hv'. destruct (same_marks_item _ _ _ _ Hs Hv') as (it2 & Hv2 & _ & <-). by apply Hi2.
Qed.

Lemma try_insert_wf w k f buff b c c' :
  cache_wf c → try_insert_item iter w k f buff c = Ok (b, c') →
  cache_wf c' ∧ (b = true → present f c').
Proof.
  intros Hc H. unfold try_insert_item in H. apply result_bind_Ok in H as ([i c1] & Ht & H).
  apply take_idx_taken in Ht; [|done]. destruct (Z.eqb_spec i (-1)) as [E|E]; simpl in H.
  - injection H as <- <-. destruct Ht as [[_ ->]|Ht]; split; (done || apply Ht).
  - destruct Ht as [[? _]|Ht]; [done|]. apply result_bind_Ok in H as (c2 & H & [= <- <-]).
    by apply place_item_wf in H as [? ?].
Qed.
End Insert.

Lemma new_cache_wf n fd : cache_wf (new_cache n fd).
Proof.
  split; simpl; [done|]. intros i it _ [_ Hv]%vget_lookup. by apply lookup_replicate_1 in Hv as [-> _].
Qed.

Lemma fetch_present f k t c r t' c' : present f c → fetch_item f k t c = Ok (r, t', c') → cf_found r = true.
Proof.
  intros (i & Hf & Hit) [(_ & _ & _ & E)|(j & it & c1 & Hj & Hv & _ & _ & H)]%fetch_item_Ok; [congruence|].
  rewrite Hf in Hj. injection Hj as <-. rewrite (Hit it Hv) in H. by destruct H as (_ & ? & _).
Qed.

(** ** The table of clients *)

(** What clients are said to use are items of the cache. *)
Definition table_ok (c : cache) : Prop :=
  0 < len (cache_buffer c) ∧ map_Forall (λ _ i, 0 ≤ i < len (cache_buffer c)) (client_idx_to_cache_idx c).

Record same_table (c c' : cache) : Prop := {
  sb_len : len (cache_buffer c') = len (cache_buffer c);
  sb_clients : client_idx_to_cache_idx c' = client_idx_to_cache_idx c
}.

#[export] Instance same_table_preorder : PreOrder same_table.
Proof. split; [by split|]. intros c1 c2 c3 [] []. split; congruence. Qed.

Lemma table_ok_same c c' : same_table c c' → table_ok c → table_ok c'.
Proof. unfold table_ok. by intros [-> ->]. Qed.

Lemma upd_item_table i g c c' : upd_item i g c = Ok c' → same_table c c'.
Proof. intros (it & _ & ->)%upd_item_Ok. split; [apply len_insert|done]. Qed.

(** Goes through the assignments of an operation. *)
Ltac table_steps H :=
  repeat lazymatch type of H with
    | _ ≫= _ = Ok _ =>
        let c := fresh "c" in let Hc := fresh "Hc" in
        apply result_bind_Ok in H as (c & Hc & H); first [apply upd_item_table in Hc|clear Hc]; cbv zeta in H
    end.

Lemma unlink_table i c c' : unlink_item i c = Ok c' → same_table c c'.
Proof.
  unfold unlink_item. intros H. apply result_bind_Ok in H as (it & _ & H). destruct (negb _).
  - table_steps H. apply upd_item_table in H. by etransitivity.
  - table_steps H. injection H as <-. by destruct Hc.
Qed.

Lemma promote_table i c c' : promote_item i c = Ok c' → same_table c c'.
Proof.
  unfold promote_item. intros H. table_steps H. injection H as <-.
  etransitivity; [done|]. etransitivity; [done|]. by destruct Hc1.
Qed.

Lemma drop_table i c c' : drop_outdated i c = Ok c' → same_table c c'.
Proof. unfold drop_outdated. intros H. table_steps H. apply upd_item_table in H. by destruct H. Qed.

Lemma set_client_table k i c : table_ok c → 0 ≤ i < len (cache_buffer c) → table_ok (set_client_map (<[k := i]> (client_idx_to_cache_idx c)) c).
Proof. intros [Hl Ht] Hi. split; [done|]. by apply map_Forall_insert_2. Qed.

Lemma fetch_table f k t c r t' c' : table_ok c → fetch_item f k t c = Ok (r, t', c') → table_ok c'.
Proof.
  intros Ht H. unfold fetch_item in H. destruct (_ !! f) as [i|]; [|by injection H as _ _ <-].
  apply result_bind_Ok in H as (c0 & H0 & H). pose proof (upd_item_table _ _ _ _ H0) as Hs.
  apply upd_item_Ok in H0 as (it & Hv & _). apply vget_range in Hv. rewrite <-(sb_len _ _ Hs) in Hv.
  pose proof (set_client_table k i c0 (table_ok_same _ _ Hs Ht) Hv) as Ht1. set (c1 := set_client_map _ c0) in *.
  clearbody c1. apply result_bind_Ok in H as (it1 & _ & H). cbv zeta in H. eapply table_ok_same; [|exact Ht1].
  destruct (_ =? -1); [destruct (negb _)|].
  - apply result_bind_Ok in H as (r1 & _ & [= _ _ <-]). done.
  - apply result_bind_Ok in H as (c2 & H2 & H). apply result_bind_Ok in H as (c3 & H3%drop_table & [= _ _ <-]).
    transitivity c2; [|done]. destruct (negb _); [by apply upd_item_table in H2|by injection H2 as <-].
  - apply result_bind_Ok in H as (c2 & H2%unlink_table & H). transitivity c2; [done|]. destruct (ci_outdated it1).
    + by apply result_bind_Ok in H as (c3 & H3%drop_table & [= _ _ <-]).
    + apply result_bind_Ok in H as (c3 & H3%promote_table & H). by apply result_bind_Ok in H as (r1 & _ & [= _ _ <-]).
Qed.

Lemma finished_run k t c : table_ok c → ∃ c', finished_with_item k t c = Ok (set_using_file false t, c') ∧ table_ok c'.
Proof.
  intros Ht. unfold finished_with_item. destruct (using_file t) eqn:Hu.
  2: { exists c. split; [|done]. by destruct t; simpl in Hu; subst. }
  set (i := default 0 _). assert (0 ≤ i < len (cache_buffer c)) as Hi.
  { destruct Ht as [Hl Hall]. subst i. destruct (_ !! k) as [j|] eqn:Ej; simpl; [by eapply Hall|lia]. }
  cbv zeta. pose proof (set_client_table k i c Ht Hi) as Ht1. set (c1 := set_client_map _ c) in *.
  destruct (vget_is_Ok (cache_buffer c1) i Hi) as [it Hv].
  assert (upd_item i (λ it, set_lock_number (ci_lock_number it - 1) it) c1 =
    Ok (set_cache_buffer (<[Z.to_nat i := set_lock_number (ci_lock_number it - 1) it]> (cache_buffer c1)) c1)) as E.
  { unfold upd_item. by rewrite (vupd_is_Ok _ _ _ _ Hv). }
  rewrite E. eexists. split; [done|]. eapply table_ok_same; [by eapply upd_item_table|done].
Qed.

Lemma finished_table k t c t' c' : table_ok c → finished_with_item k t c = Ok (t', c') → table_ok c'.
Proof.
  intros Ht H. destruct (finished_run k t c Ht) as (c1 & E & Ht1). rewrite E in H. by injection H as _ <-.
Qed.

Lemma inotify_table w c c' : table_ok c → inotify_event_handler w c = Ok c' → table_ok c'.
Proof.
  intros Ht H. unfold inotify_event_handler in H. destruct (_ !! w); [|by injection H as <-].
  destruct (_ <? _); [|by injection H as <-]. apply upd_item_table in H. by eapply table_ok_same.
Qed.

Lemma try_insert_table iter w k f buff b c c' : table_ok c → try_insert_item iter w k f buff c = Ok (b, c') → table_ok c'.
Proof.
  intros Ht H. eapply table_ok_same; [|exact Ht]. clear Ht. unfold try_insert_item in H.
  apply result_bind_Ok in H as ([i c1] & H1 & H). transitivity c1.
  - clear H. unfold take_idx in H1. destruct (unordered_begin iter _); [destruct (_ =? -1); by injection H1 as _ <-|].
    apply result_bind_Ok in H1 as (it & _ & H1). destruct (_ =? 0); [|by injection H1 as _ <-].
    table_steps H1. injection H1 as _ <-. etransitivity; [done|]. by destruct Hc0.
  - destruct (negb _); [|by injection H as _ <-]. apply result_bind_Ok in H as (c2 & H & [= _ <-]). clear H1 b.
    unfold place_item in H. apply result_bind_Ok in H as (c3 & H3 & H). transitivity c3.
    + destruct (negb _); [by apply upd_item_table in H3|by injection H3 as <-].
    + clear H3. cbv zeta in H. table_steps H. apply upd_item_table in H.
      destruct Hc, Hc0, Hc1, H. split; simpl in *; congruence.
Qed.

(** ** Both *)

(** What holds of the cache in every state. *)
Definition cache_good (c : cache) : Prop := cache_wf c ∧ table_ok c.

Lemma fetch_good f k t c r t' c' :
  cache_good c → fetch_item f k t c = Ok (r, t', c') →
  cache_good c' ∧ tc_ws_client_idx t' = tc_ws_client_idx t ∧ (cf_found r = true → is_Some (cf_buff r)).
Proof.
  intros [Hc Ht] H. destruct (fetch_wf _ _ _ _ _ _ _ Hc H) as (? & ? & ?).
  split_and!; [split; [done|by eapply fetch_table]|done|done].
Qed.

Lemma finished_good k t c t' c' :
  cache_good c → finished_with_item k t c = Ok (t', c') → cache_good c' ∧ tc_ws_client_idx t' = tc_ws_client_idx t.
Proof.
  intros [Hc Ht] H. destruct (finished_wf _ _ _ _ _ Hc H) as [? ?]. split; [split; [done|by eapply finished_table]|done].
Qed.

Lemma inotify_good w c c' : cache_good c → inotify_event_handler w c = Ok c' → cache_good c'.
Proof. intros [Hc Ht] H. split; [by eapply inotify_wf|by eapply inotify_table]. Qed.

Lemma try_insert_good iter `{!IterOrder iter} w k f buff b c c' :
  cache_good c → try_insert_item iter w k f buff c = Ok (b, c') →
  cache_good c' ∧ (b = true → present f c').
Proof.
  intros [Hc Ht] H. destruct (try_insert_wf iter w k f buff b c c' Hc H) as [? ?].
  split; [split; [done|by eapply try_insert_table]|done].
Qed.

Lemma new_cache_good n fd : (0 < n)%nat → cache_good (new_cache n fd).
Proof.
  intros Hn. split; [apply new_cache_wf|]. split; simpl; [unfold len; rewrite length_replicate; lia|apply map_Forall_empty].
Qed.

(** * Properties *)

(** What was just inserted is found, in every state the cache can be in: also after files
    changed, when paths lead to items that were given up. *)
Theorem inserted_is_found iter `{!IterOrder iter} w k f buff c c' k' t r t' c'' :
  cache_wf c → try_insert_item iter w k f buff c = Ok (true, c') → fetch_item f k' t c' = Ok (r, t', c'') →
  cf_found r = true ∧ is_Some (cf_buff r) ∧ cache_wf c''.
Proof.
  intros Hc H1 H2. apply (try_insert_wf iter) in H1 as (Hc1 & Hi); [|done].
  pose proof (fetch_wf _ _ _ _ _ _ _ Hc1 H2) as (Hc2 & _ & Hfound).
  pose proof (fetch_present _ _ _ _ _ _ _ (Hi eq_refl) H2) as Hr. by split_and!; [|apply Hfound|].
Qed.
