(* ===== verification/ServerBase.v ===== *)
(** * header/server.h and tcp_server/server_base.tcc

    The part of the server that plain and TLS connections share: requests, queued
    writes, clients, the requests submitted to the io_uring ring, and the event
    loop [start].  [client] and [server_base] take the fields that the server
    type adds to a client as a parameter, and the member functions that
    [server_base] reaches with [static_cast] are the methods of the class
    [ServerType].

    The kernel is the environment: a completion says which submitted request
    ended, with what result and data; writing into or reading from memory that
    does not belong to the request is a fault. *)

From S2P Require Import Prelude.
From Stdlib Require Import ZArith Lia.
From stdpp Require Import base gmap strings list fin_maps sets.

#[local] Open Scope Z_scope.

Definition READ_SIZE : Z := 8192.

(** ** Data *)

Inductive event_type :=
  ACCEPT | ACCEPT_READ | ACCEPT_WRITE | READ | WRITE | NOTIFICATION | CUSTOM_READ | TIMERFD | KILL.

#[export] Instance event_type_eq_dec : EqDecision event_type.
Proof. solve_decision. Defined.

(** A [const char*] the server is given: null, or into a buffer that the web
    server owns. *)
Inductive char_ptr := PNull | PCacheItem (idx : Z) | PStoreItem (idx : Z).

#[export] Instance char_ptr_eq_dec : EqDecision char_ptr.
Proof. solve_decision. Defined.

(** Where the bytes of a write are: in the [write_data] at an address, behind a
    pointer the server was given, in a [multi_write], or in a buffer of wolfSSL. *)
Inductive write_src := WOwn (addr : Z) | WPtr (p : char_ptr) | WMulti (h : Z) | WSsl (bytes : list char).

#[export] Instance write_src_eq_dec : EqDecision write_src.
Proof. solve_decision. Defined.

Record request := {
  rq_event : event_type;
  rq_client_idx : Z;
  rq_ID : Z;
  rq_written : Z;
  rq_total_length : Z;
  rq_buffer : option write_src;
  rq_read_data : list char;
  rq_read_amount : Z;
  rq_custom_info : Z
}.

(** [new request()] with its event set. *)
Definition new_request (e : event_type) : request :=
  {| rq_event := e; rq_client_idx := -1; rq_ID := -1; rq_written := 0; rq_total_length := 0;
     rq_buffer := None; rq_read_data := []; rq_read_amount := 0; rq_custom_info := 0 |}.

Definition rq_set_written (n : Z) (r : request) : request :=
  {| rq_event := rq_event r; rq_client_idx := rq_client_idx r; rq_ID := rq_ID r; rq_written := n;
     rq_total_length := rq_total_length r; rq_buffer := rq_buffer r;
     rq_read_data := rq_read_data r; rq_read_amount := rq_read_amount r;
     rq_custom_info := rq_custom_info r |}.
Definition rq_set_read_data (d : list char) (r : request) : request :=
  {| rq_event := rq_event r; rq_client_idx := rq_client_idx r; rq_ID := rq_ID r;
     rq_written := rq_written r; rq_total_length := rq_total_length r; rq_buffer := rq_buffer r;
     rq_read_data := d; rq_read_amount := rq_read_amount r; rq_custom_info := rq_custom_info r |}.
Definition rq_set_read_amount (n : Z) (r : request) : request :=
  {| rq_event := rq_event r; rq_client_idx := rq_client_idx r; rq_ID := rq_ID r;
     rq_written := rq_written r; rq_total_length := rq_total_length r; rq_buffer := rq_buffer r;
     rq_read_data := rq_read_data r; rq_read_amount := n; rq_custom_info := rq_custom_info r |}.

(** [write_data]; [wd_addr] stands for the object's address. *)
Record write_data := {
  wd_addr : Z;
  wd_last_written : Z;
  wd_custom_info : Z;
  wd_buff : list char;
  wd_broadcast : bool;
  wd_ptr_buff : char_ptr;
  wd_total_length : Z;
  wd_multi : option Z
}.

(** The three constructors of [write_data]. *)
Definition write_data_vec (buff : list char) (addr : Z) : write_data :=
  {| wd_addr := addr; wd_last_written := -1; wd_custom_info := 0; wd_buff := buff;
     wd_broadcast := false; wd_ptr_buff := PNull; wd_total_length := 0; wd_multi := None |}.
Definition write_data_ptr (p : char_ptr) (length : Z) (broadcast : bool) (custom_info : Z)
    (addr : Z) : write_data :=
  {| wd_addr := addr; wd_last_written := -1; wd_custom_info := custom_info; wd_buff := [];
     wd_broadcast := broadcast; wd_ptr_buff := p; wd_total_length := length; wd_multi := None |}.
Definition write_data_multi (h : Z) (addr : Z) : write_data :=
  {| wd_addr := addr; wd_last_written := -1; wd_custom_info := 0; wd_buff := [];
     wd_broadcast := false; wd_ptr_buff := PNull; wd_total_length := 0; wd_multi := Some h |}.

(** [client_base], with the fields [ext] that [client<T>] adds. *)
Record client (X : Type) := {
  cl_id : Z;
  cl_sockfd : Z;
  send_data : list write_data;
  read_req_active : bool;
  num_write_reqs : Z;
  cl_ext : X
}.
Arguments cl_id {X}. Arguments cl_sockfd {X}. Arguments send_data {X}.
Arguments read_req_active {X}. Arguments num_write_reqs {X}. Arguments cl_ext {X}.

(** A submitted request: what the kernel is to do, and the user data. *)
Inductive io_op := IoAccept | IoRead | IoWrite.

Record sqe := {
  sq_op : io_op;
  sq_fd : Z;
  sq_src : option write_src;
  sq_buf_off : Z;
  sq_len : Z;
  sq_off : Z;
  sq_req : request
}.

(** [server_base]; [multi_heap] holds the live [multi_write] objects (data and
    uses), [next_addr] the addresses not used yet, [closed] and [eventfd_writes]
    the descriptors closed and signalled so far, [wire] the bytes the kernel
    took for each write. *)
Record server_base (X : Type) := {
  clients : list (client X);
  active_connections : gset Z;
  freed_indexes : gset Z;
  ring : list sqe;
  multi_heap : gmap Z (list char * Z);
  next_addr : Z;
  listener_fd : Z;
  timerfd : Z;
  notification_efd : Z;
  kill_efd : Z;
  ran_server : bool;
  is_active : bool;
  closed : list Z;
  eventfd_writes : list Z;
  wire : list (Z * list char)
}.
Arguments clients {X}. Arguments active_connections {X}. Arguments freed_indexes {X}.
Arguments ring {X}. Arguments multi_heap {X}. Arguments next_addr {X}. Arguments listener_fd {X}.
Arguments timerfd {X}. Arguments notification_efd {X}. Arguments kill_efd {X}.
Arguments ran_server {X}. Arguments is_active {X}. Arguments closed {X}.
Arguments eventfd_writes {X}. Arguments wire {X}.

Section Updates.
Context {X : Type}.

Definition cl_set_send_data (q : list write_data) (c : client X) : client X :=
  {| cl_id := cl_id c; cl_sockfd := cl_sockfd c; send_data := q;
     read_req_active := read_req_active c; num_write_reqs := num_write_reqs c;
     cl_ext := cl_ext c |}.
Definition cl_set_read_req_active (b : bool) (c : client X) : client X :=
  {| cl_id := cl_id c; cl_sockfd := cl_sockfd c; send_data := send_data c;
     read_req_active := b; num_write_reqs := num_write_reqs c; cl_ext := cl_ext c |}.
Definition cl_set_num_write_reqs (n : Z) (c : client X) : client X :=
  {| cl_id := cl_id c; cl_sockfd := cl_sockfd c; send_data := send_data c;
     read_req_active := read_req_active c; num_write_reqs := n; cl_ext := cl_ext c |}.
Definition cl_set_sockfd (fd : Z) (c : client X) : client X :=
  {| cl_id := cl_id c; cl_sockfd := fd; send_data := send_data c;
     read_req_active := read_req_active c; num_write_reqs := num_write_reqs c;
     cl_ext := cl_ext c |}.
Definition cl_set_id (id : Z) (c : client X) : client X :=
  {| cl_id := id; cl_sockfd := cl_sockfd c; send_data := send_data c;
     read_req_active := read_req_active c; num_write_reqs := num_write_reqs c;
     cl_ext := cl_ext c |}.

(** A server that differs in its clients, active and free indexes, ring and
    [multi_write] objects. *)
Definition srv_set (cls : list (client X)) (act fr : gset Z) (r : list sqe)
    (h : gmap Z (list char * Z)) (a : Z) (s : server_base X) : server_base X :=
  {| clients := cls; active_connections := act; freed_indexes := fr; ring := r; multi_heap := h;
     next_addr := a; listener_fd := listener_fd s; timerfd := timerfd s;
     notification_efd := notification_efd s; kill_efd := kill_efd s; ran_server := ran_server s;
     is_active := is_active s; closed := closed s; eventfd_writes := eventfd_writes s;
     wire := wire s |}.
Definition set_clients (cls : list (client X)) (s : server_base X) : server_base X :=
  srv_set cls (active_connections s) (freed_indexes s) (ring s) (multi_heap s) (next_addr s) s.
Definition set_active (act : gset Z) (s : server_base X) : server_base X :=
  srv_set (clients s) act (freed_indexes s) (ring s) (multi_heap s) (next_addr s) s.
Definition set_freed (fr : gset Z) (s : server_base X) : server_base X :=
  srv_set (clients s) (active_connections s) fr (ring s) (multi_heap s) (next_addr s) s.
Definition set_ring (r : list sqe) (s : server_base X) : server_base X :=
  srv_set (clients s) (active_connections s) (freed_indexes s) r (multi_heap s) (next_addr s) s.
Definition set_heap (h : gmap Z (list char * Z)) (a : Z) (s : server_base X) : server_base X :=
  srv_set (clients s) (active_connections s) (freed_indexes s) (ring s) h a s.

(** A server that differs in its flags and in what was observed of it. *)
Definition srv_obs (ran act : bool) (cl ew : list Z) (w : list (Z * list char))
    (s : server_base X) : server_base X :=
  {| clients := clients s; active_connections := active_connections s;
     freed_indexes := freed_indexes s; ring := ring s; multi_heap := multi_heap s;
     next_addr := next_addr s; listener_fd := listener_fd s; timerfd := timerfd s;
     notification_efd := notification_efd s; kill_efd := kill_efd s; ran_server := ran;
     is_active := act; closed := cl; eventfd_writes := ew; wire := w |}.

End Updates.

(** ** Operations of server_base *)

Section Base.
Context {X : Type}.
Abbreviation Srv := (M (server_base X)).

Definition get_client (idx : Z) : Srv (client X) :=
  mget ≫= λ s, mlift (vget (clients s) idx).
Definition upd_client (idx : Z) (g : client X → client X) : Srv unit :=
  mget ≫= λ s, mlift (vupd (clients s) idx g) ≫= λ cls, mmodify (set_clients cls).

(** [io_uring_get_sqe] to [io_uring_submit] *)
Definition submit (e : sqe) : Srv unit := mmodify (λ s, set_ring (ring s ++ [e]) s).

Definition close_fd (fd : Z) : Srv unit :=
  mmodify (λ s, srv_obs (ran_server s) (is_active s) (closed s ++ [fd]) (eventfd_writes s) (wire s) s).
Definition signal (fd : Z) : Srv unit :=
  mmodify (λ s, srv_obs (ran_server s) (is_active s) (closed s) (eventfd_writes s ++ [fd]) (wire s) s).

Definition prep_read (fd off len file_off : Z) (r : request) : sqe :=
  {| sq_op := IoRead; sq_fd := fd; sq_src := None; sq_buf_off := off; sq_len := len;
     sq_off := file_off; sq_req := r |}.
Definition prep_write (fd : Z) (src : write_src) (off len : Z) (r : request) : sqe :=
  {| sq_op := IoWrite; sq_fd := fd; sq_src := Some src; sq_buf_off := off; sq_len := len;
     sq_off := 0; sq_req := r |}.

(** The destructor of [write_data]. *)
Definition destroy_write_data (wd : write_data) : Srv unit :=
  match wd_multi wd with
  | None => mret tt
  | Some h =>
      mget ≫= λ s,
      match multi_heap s !! h with
      | None => mfault UseAfterFree
      | Some (b, uses) =>
          if uses - 1 =? 0 then mput (set_heap (delete h (multi_heap s)) (next_addr s) s)
          else mput (set_heap (<[h := (b, uses - 1)]> (multi_heap s)) (next_addr s) s)
      end
  end.

Definition get_ptr_and_size (wd : write_data) : Srv (write_src * Z) :=
  match wd_multi wd with
  | Some h =>
      mget ≫= λ s,
      match multi_heap s !! h with
      | None => mfault UseAfterFree
      | Some (b, _) => mret (WMulti h, len b)
      end
  | None =>
      if decide (wd_ptr_buff wd ≠ PNull) then mret (WPtr (wd_ptr_buff wd), wd_total_length wd)
      else mret (WOwn (wd_addr wd), len (wd_buff wd))
  end.

(** [client.send_data.emplace(...)] *)
Definition emplace (idx : Z) (mk : Z → write_data) : Srv unit :=
  mget ≫= λ s,
  upd_client idx (λ c, cl_set_send_data (send_data c ++ [mk (next_addr s)]) c) ≫= λ _,
  mmodify (λ s, set_heap (multi_heap s) (next_addr s + 1) s).

(** [client.send_data.front()] *)
Definition send_front (idx : Z) : Srv write_data :=
  get_client idx ≫= λ c,
  match send_data c with [] => mfault EmptyFront | wd :: _ => mret wd end.

(** [client.send_data.pop()] *)
Definition send_pop (idx : Z) : Srv unit :=
  get_client idx ≫= λ c,
  match send_data c with
  | [] => mfault EmptyFront
  | wd :: q => upd_client idx (cl_set_send_data q) ≫= λ _, destroy_write_data wd
  end.

(** [client.send_data = {}] *)
Definition send_clear (idx : Z) : Srv unit :=
  get_client idx ≫= λ c,
  upd_client idx (cl_set_send_data []) ≫= λ _, mfor (send_data c) destroy_write_data.

Definition add_accept_req : Srv unit :=
  mget ≫= λ s,
  submit {| sq_op := IoAccept; sq_fd := listener_fd s; sq_src := None; sq_buf_off := 0;
            sq_len := 0; sq_off := 0; sq_req := new_request ACCEPT |}.

Definition add_tcp_accept_req : Srv unit := add_accept_req.

Definition add_read_req (idx : Z) (event : event_type) : Srv Z :=
  get_client idx ≫= λ c,
  if negb (read_req_active c) then
    let req := {| rq_event := event; rq_client_idx := idx; rq_ID := cl_id c; rq_written := 0;
                  rq_total_length := READ_SIZE; rq_buffer := None;
                  rq_read_data := replicate (Z.to_nat READ_SIZE) nul; rq_read_amount := 0;
                  rq_custom_info := 0 |} in
    submit (prep_read (cl_sockfd c) 0 READ_SIZE 0 req) ≫= λ _,
    upd_client idx (cl_set_read_req_active true) ≫= λ _, mret 0
  else mret (-1).

Definition read_connection (idx : Z) : Srv unit := add_read_req idx READ ≫= λ _, mret tt.

Definition timer_sqe (timerfd : Z) : sqe :=
  prep_read timerfd 0 8 0
    {| rq_event := TIMERFD; rq_client_idx := -1; rq_ID := -1; rq_written := 0;
       rq_total_length := 8; rq_buffer := None; rq_read_data := replicate 8 nul;
       rq_read_amount := 0; rq_custom_info := 0 |}.

Definition add_timerfd_read_req : Srv unit := mget ≫= λ s, submit (timer_sqe (timerfd s)).

Definition event_read (fd : Z) (event : event_type) : Srv unit :=
  submit (prep_read fd 0 8 0 (rq_set_read_data (replicate 8 nul) (new_request event))).

(** [length] is an [unsigned int]. *)
Definition add_write_req (idx : Z) (event : event_type) (buffer : write_src) (length : Z) : Srv Z :=
  get_client idx ≫= λ c,
  let length := to_u32 length in
  let req := {| rq_event := event; rq_client_idx := idx; rq_ID := cl_id c; rq_written := 0;
                rq_total_length := length; rq_buffer := Some buffer; rq_read_data := [];
                rq_read_amount := 0; rq_custom_info := 0 |} in
  upd_client idx (cl_set_num_write_reqs (num_write_reqs c + 1)) ≫= λ _,
  submit (prep_write (cl_sockfd c) buffer 0 length req) ≫= λ _, mret 0.

Definition custom_read_req (fd to_read idx : Z) (buff : list char) (read_amount : Z) : Srv unit :=
  let req := {| rq_event := CUSTOM_READ; rq_client_idx := idx; rq_ID := -1; rq_written := 0;
                rq_total_length := to_read; rq_buffer := None;
                rq_read_data := vresize nul buff (to_u64 (to_read + read_amount));
                rq_read_amount := read_amount; rq_custom_info := fd |} in
  submit (prep_read fd read_amount READ_SIZE 0 req).

Definition custom_read_req_continued (req : request) (last_read : Z) : Srv unit :=
  let req := rq_set_read_amount (to_u64 (rq_read_amount req + last_read)) req in
  let initial_offset := to_u64 (len (rq_read_data req) - rq_total_length req) in
  submit (prep_read (to_i32 (rq_custom_info req)) (rq_read_amount req) READ_SIZE
            (to_u64 (rq_read_amount req - initial_offset)) req).

Definition notify_event : Srv unit := mget ≫= λ s, signal (notification_efd s).
Definition kill_server : Srv unit := mget ≫= λ s, signal (kill_efd s).

(** [client<T>()], [ext0] being its additional fields. *)
Definition new_client (ext0 : X) : client X :=
  {| cl_id := -1; cl_sockfd := -1; send_data := []; read_req_active := false;
     num_write_reqs := 0; cl_ext := ext0 |}.

(** Assigning [client<T>()] destroys the writes the old client has queued. *)
Definition setup_client (ext0 : X) (client_socket : Z) : Srv Z :=
  mget ≫= λ s,
  (match set_begin (freed_indexes s) with
   | Some index =>
       mmodify (set_freed (freed_indexes s ∖ {[index]})) ≫= λ _,
       get_client index ≫= λ freed_client,
       let new_id := Z.rem (cl_id freed_client + 1) 100 in
       send_clear index ≫= λ _,
       upd_client index (λ _, cl_set_id new_id (new_client ext0)) ≫= λ _,
       mret index
   | None =>
       mmodify (set_clients (clients s ++ [new_client ext0])) ≫= λ _,
       mret (len (clients s ++ [new_client ext0]) - 1)
   end) ≫= λ index,
  upd_client index (cl_set_sockfd client_socket) ≫= λ _,
  mret index.

End Base.

(** ** The event loop *)

(** The callbacks; [W] is what [custom_obj] points to. *)
Record callbacks (X W : Type) := {
  accept_cb : option (Z → M (server_base X * W) unit);
  close_cb : option (Z → Z → M (server_base X * W) unit);
  read_cb : option (Z → list char → Z → M (server_base X * W) unit);
  write_cb : option (Z → Z → M (server_base X * W) unit);
  event_cb : option (M (server_base X * W) unit);
  custom_read_cb : option (Z → Z → list char → M (server_base X * W) unit)
}.
Arguments accept_cb {X W}. Arguments close_cb {X W}. Arguments read_cb {X W}.
Arguments write_cb {X W}. Arguments event_cb {X W}. Arguments custom_read_cb {X W}.

(** What [server<T>] adds: the fields of a new client, the handler of the
    request events ([None] when the request was submitted again) and closing. *)
Class ServerType (X : Type) := {
  ext_init : X;
  req_event_handler : ∀ W, callbacks X W → request → Z → M (server_base X * W) unit;
  close_connection : Z → M (server_base X) unit
}.
Arguments req_event_handler {X _ W}.

(** A completion: what [io_uring_wait_cqe] returned, the position of the submitted
    request in [ring], the result, the data read; for a timer, the result of [recv] with [MSG_PEEK] on each
    descriptor and the order in which the active connections are met. *)
Record cqe := {
  cq_wait : Z;
  cq_pos : nat;
  cq_res : Z;
  cq_data : list char;
  cq_peek : Z → Z;
  cq_iter : gset Z → list Z
}.

Section Loop.
Context {X W : Type} `{!ServerType X}.
Abbreviation Run := (M (server_base X * W)).
Variable cb : callbacks X W.
(** What the pointers given to the server lead to. *)
Variable mem : W → char_ptr → result (list char).

Definition on_server {A} (m : M (server_base X) A) : Run A := λ '(s, w),
  match m s with Ok (a, s') => Ok (a, (s', w)) | Err f => Err f end.

(** [if(cb != nullptr) cb(...)] *)
Definition call {A} (f : option A) (k : A → Run unit) : Run unit :=
  match f with Some f => k f | None => mret tt end.

Definition additional_info (wd : write_data) : Z :=
  if wd_broadcast wd then to_i32 (wd_custom_info wd) else -1.

(** The loop that calls the close callback for every queued write. *)
Fixpoint drain (fuel : nat) (idx : Z) : Run unit :=
  on_server (get_client idx) ≫= λ c,
  match send_data c with
  | [] => mret tt
  | wd :: _ =>
      match fuel with
      | O => mfault OutOfFuel
      | S fuel =>
          call (close_cb cb) (λ f, f idx (additional_info wd)) ≫= λ _,
          on_server (send_pop idx) ≫= λ _, drain fuel idx
      end
  end.

(** The end of a connection: lines 44 to 56 and 84 to 96. *)
Definition close_client (idx : Z) : Run unit :=
  on_server (get_client idx) ≫= λ c,
  drain (length (send_data c)) idx ≫= λ _,
  on_server (get_client idx) ≫= λ c,
  mwhen (len (send_data c) =? 0) (call (close_cb cb) (λ f, f idx (-1))) ≫= λ _,
  on_server (close_connection idx).

(** Whether an event ends in the branch for failed and stale requests. *)
Definition is_client_event (e : event_type) : bool :=
  match e with ACCEPT | KILL | NOTIFICATION | CUSTOM_READ | TIMERFD => false | _ => true end.

Definition is_write_event (e : event_type) : bool :=
  match e with WRITE | ACCEPT_WRITE => true | _ => false end.

(** The condition of lines 29 to 34; [clients[req->client_idx]] is only read when the
    result is positive. *)
Definition failed_or_stale (req : request) (res : Z) : Run bool :=
  if negb (is_client_event (rq_event req)) then mret false
  else if res <=? 0 then mret true
  else if 0 <? rq_client_idx req then
    on_server (get_client (rq_client_idx req)) ≫= λ c,
    mret (negb (cl_id c =? rq_ID req))
  else mret false.

Definition handle_failed (req : request) (res : Z) : Run unit :=
  let idx := rq_client_idx req in
  if res <=? 0 then
    on_server (get_client idx) ≫= λ c,
    if cl_id c =? rq_ID req then
      mwhen (is_write_event (rq_event req))
        (on_server (upd_client idx (λ c, cl_set_num_write_reqs (num_write_reqs c - 1) c))) ≫= λ _,
      on_server (get_client idx) ≫= λ c,
      mwhen (num_write_reqs c =? 0) (close_client idx)
    else mret tt
  else mret tt.

Definition handle_timer (peek : Z → Z) (iter : gset Z → list Z) : Run unit :=
  on_server mget ≫= λ s,
  mfor (iter (active_connections s)) (λ idx,
    on_server (get_client idx) ≫= λ c,
    mwhen (peek (cl_sockfd c) =? 0) (close_client idx)) ≫= λ _,
  on_server add_timerfd_read_req.

Definition handle_custom_read (req : request) (res : Z) : Run unit :=
  if len (rq_read_data req) =? to_u64 (res + rq_read_amount req) then
    call (custom_read_cb cb)
      (λ f, f (rq_client_idx req) (to_i32 (rq_custom_info req)) (rq_read_data req))
  else on_server (custom_read_req_continued req (to_u64 res)).

Definition handle_kill : Run unit :=
  on_server (mmodify (set_ring []) ≫= λ _, mget ≫= λ s,
    close_fd (listener_fd s) ≫= λ _, close_fd (kill_efd s) ≫= λ _,
    close_fd (notification_efd s) ≫= λ _,
    mmodify (λ s, srv_obs (ran_server s) false (closed s) (eventfd_writes s) (wire s) s)).

(** The body of the loop for one completed request; [false] ends the loop. *)
Definition handle_event (req : request) (e : cqe) : Run bool :=
  failed_or_stale req (cq_res e) ≫= λ b : bool,
  if b then handle_failed req (cq_res e) ≫= λ _, mret true
  else match rq_event req with
  | KILL => handle_kill ≫= λ _, mret false
  | NOTIFICATION =>
      on_server (mget ≫= λ s, event_read (notification_efd s) NOTIFICATION) ≫= λ _,
      call (event_cb cb) id ≫= λ _, mret true
  | CUSTOM_READ => handle_custom_read req (cq_res e) ≫= λ _, mret true
  | TIMERFD => handle_timer (cq_peek e) (cq_iter e) ≫= λ _, mret true
  | _ => req_event_handler cb req (cq_res e) ≫= λ _, mret true
  end.

(** The bytes at a source. *)
Definition queued_bytes (cls : list (client X)) (addr : Z) : option (list char) :=
  match filter (λ wd, wd_addr wd = addr) (concat (send_data <$> cls)) with
  | wd :: _ => Some (wd_buff wd)
  | [] => None
  end.

Definition src_bytes (s : server_base X) (w : W) (src : write_src) : result (list char) :=
  match src with
  | WOwn addr => match queued_bytes (clients s) addr with Some b => Ok b | None => Err UseAfterFree end
  | WPtr p => mem w p
  | WMulti h => match multi_heap s !! h with Some (b, _) => Ok b | None => Err UseAfterFree end
  | WSsl b => Ok b
  end.

(** What the kernel does for a request that ends with [res]: a read fills the
    request's buffer, a write takes its bytes. *)
Definition kernel_io (q : sqe) (res : Z) (data : list char) : Run request :=
  if res <=? 0 then mret (sq_req q)
  else match sq_op q with
  | IoAccept => mret (sq_req q)
  | IoRead =>
      mlift (vsplice (rq_read_data (sq_req q)) (sq_buf_off q) data) ≫= λ d,
      mret (rq_set_read_data d (sq_req q))
  | IoWrite =>
      match sq_src q with
      | None => mfault NullDeref
      | Some src => λ sw : server_base X * W, let '(s, w) := sw in
          (src_bytes s w src ≫= λ b, vslice b (sq_buf_off q) res ≫= λ sent,
           Ok (sq_req q, (srv_obs (ran_server s) (is_active s) (closed s) (eventfd_writes s)
                            (wire s ++ [(sq_fd q, sent)]) s, w)))
      end
  end.

(** The result of the wait is stored in a [char]. *)
Definition loop_step (e : cqe) : Run bool :=
  if to_i8 (cq_wait e) <? 0 then mfault (FatalError (lit "io_uring_wait_cqe"))
  else
  on_server mget ≫= λ s,
  match ring s !! cq_pos e with
  | None => mfault OutOfBounds
  | Some q =>
      on_server (mput (set_ring (delete (cq_pos e) (ring s)) s)) ≫= λ _,
      kernel_io q (cq_res e) (cq_data e) ≫= λ req, handle_event req e
  end.

(** The loop over the completions [es]. *)
Fixpoint loop (es : list cqe) : Run bool :=
  match es with
  | [] => mret true
  | e :: es => loop_step e ≫= λ go : bool, if go then loop es else mret false
  end.

Definition start (es : list cqe) : Run bool :=
  on_server mget ≫= λ s,
  if negb (ran_server s) then
    on_server (mmodify (λ s,
      srv_obs true (is_active s) (closed s) (eventfd_writes s) (wire s) s)) ≫= λ _,
    on_server add_tcp_accept_req ≫= λ _, loop es
  else mret false.

End Loop.

(** The constructor; the descriptors are what the system calls returned. *)
Definition new_server {X} (listener timer notification kill : Z) : server_base X :=
  let s := {| clients := []; active_connections := ∅; freed_indexes := ∅; ring := [];
              multi_heap := ∅; next_addr := 0; listener_fd := listener; timerfd := timer;
              notification_efd := notification; kill_efd := kill; ran_server := false;
              is_active := true; closed := []; eventfd_writes := []; wire := [] |} in
  set_ring [prep_read kill 0 8 0 (rq_set_read_data (replicate 8 nul) (new_request KILL));
            prep_read notification 0 8 0
              (rq_set_read_data (replicate 8 nul) (new_request NOTIFICATION));
            timer_sqe timer] s.
