(* ===== verification/NonTls.v ===== *)
(** * tcp_server/server_non_tls.cpp

    The plain TCP server: queueing of writes, broadcasts, closing, and the handler
    of accepts, reads and writes.

    Specification: each connection has a stream of bytes to send, the messages
    queued for it in order.  Writing to a connection appends to its stream, a
    completed write takes its bytes from the front; [write_inv] is the
    correspondence between the stream, the queue and the one write in flight. *)

From S2P Require Import Prelude ServerBase.
From Stdlib Require Import ZArith Lia.
From stdpp Require Import base gmap strings list fin_maps sets.

#[local] Open Scope Z_scope.

(** ** Operations *)

(** [client<server_type::NON_TLS>] adds no field. *)
Abbreviation srv := (server_base unit).
Abbreviation Srv := (M srv).

Definition queue_size (idx : Z) : Srv Z := get_client idx ≫= λ c, mret (len (send_data c)).

Definition write_connection (idx : Z) (buff : list char) : Srv unit :=
  emplace idx (write_data_vec buff) ≫= λ _,
  queue_size idx ≫= λ n,
  mwhen (n =? 1) (
    send_front idx ≫= λ wd,
    add_write_req idx WRITE (WOwn (wd_addr wd)) (len (wd_buff wd)) ≫= λ _, mret tt).

Definition write_connection_ptr (idx : Z) (buff : char_ptr) (length : Z) : Srv unit :=
  emplace idx (write_data_ptr buff length false 0) ≫= λ _,
  queue_size idx ≫= λ n,
  mwhen (n =? 1) (add_write_req idx WRITE (WPtr buff) length ≫= λ _, mret tt).

(** [new multi_write(...)] *)
Definition new_multi_write (buff : list char) (uses : Z) : Srv Z :=
  mget ≫= λ s,
  mput (set_heap (<[next_addr s := (buff, uses)]> (multi_heap s)) (next_addr s + 1) s) ≫= λ _,
  mret (next_addr s).

Definition broadcast_message (idxs : list Z) (num_clients : Z) (buff : list char) : Srv unit :=
  mwhen (0 <? num_clients) (
    new_multi_write buff num_clients ≫= λ data,
    mfor idxs (λ idx,
      emplace (to_i32 idx) (write_data_multi data) ≫= λ _,
      queue_size (to_i32 idx) ≫= λ n,
      mwhen (n =? 1) (
        mget ≫= λ s,
        match multi_heap s !! data with
        | None => mfault UseAfterFree
        | Some (b, _) => add_write_req (to_i32 idx) WRITE (WMulti data) (len b) ≫= λ _, mret tt
        end))).

Definition broadcast_message_ptr (idxs : list Z) (num_clients : Z) (buff : char_ptr)
    (length custom_info : Z) : Srv unit :=
  mwhen (0 <? num_clients) (
    mfor idxs (λ idx,
      emplace (to_i32 idx) (write_data_ptr buff length true custom_info) ≫= λ _,
      queue_size (to_i32 idx) ≫= λ n,
      mwhen (n =? 1) (add_write_req (to_i32 idx) WRITE (WPtr buff) length ≫= λ _, mret tt))).

Definition close_connection (idx : Z) : Srv unit :=
  get_client idx ≫= λ c,
  mwhen (num_write_reqs c =? 0) (
    mmodify (λ s, set_active (active_connections s ∖ {[idx]}) s) ≫= λ _,
    send_clear idx ≫= λ _,
    close_fd (cl_sockfd c) ≫= λ _,
    mmodify (λ s, set_freed ({[idx]} ∪ freed_indexes s) s)).

Definition add_write_req_continued (req : request) (written : Z) : Srv Z :=
  get_client (rq_client_idx req) ≫= λ c,
  send_front (rq_client_idx req) ≫= λ wd,
  get_ptr_and_size wd ≫= λ data,
  let req := rq_set_written (rq_written req + written) req in
  submit (prep_write (cl_sockfd c) data.1 (rq_written req)
            (to_u32 (rq_total_length req - rq_written req)) req) ≫= λ _,
  mret 0.

(** Lines 110 to 128: a write that is done; the result is the broadcast
    information passed to the callback. *)
Definition write_done (req : request) : Srv Z :=
  let idx := rq_client_idx req in
  upd_client idx (λ c, cl_set_num_write_reqs (num_write_reqs c - 1) c) ≫= λ _,
  get_client idx ≫= λ c,
  mget ≫= λ s,
  if bool_decide (idx ∈ active_connections s) && (cl_id c =? rq_ID req) then
    send_front idx ≫= λ wd,
    let info := additional_info wd in
    send_pop idx ≫= λ _,
    queue_size idx ≫= λ n,
    mwhen (0 <? n) (
      send_front idx ≫= λ data_ref,
      get_ptr_and_size data_ref ≫= λ stuff,
      add_write_req idx WRITE stuff.1 stuff.2 ≫= λ _, mret tt) ≫= λ _,
    mret info
  else mret (-1).

(** The condition of line 106. *)
Definition unfinished (req : request) (res : Z) : bool :=
  (to_u64 (res + rq_written req) <? rq_total_length req) && (0 <? res).

Section Handler.
Context {W : Type}.
Variable cb : callbacks unit W.

Definition handle_accept (res : Z) : M (srv * W) unit :=
  on_server add_tcp_accept_req ≫= λ _,
  on_server (setup_client tt res) ≫= λ idx,
  on_server (mmodify (λ s, set_active ({[idx]} ∪ active_connections s) s)) ≫= λ _,
  call (accept_cb cb) (λ f, f idx) ≫= λ _,
  on_server (add_read_req idx READ) ≫= λ _, mret tt.

Definition handle_read (req : request) (res : Z) : M (srv * W) unit :=
  on_server (upd_client (rq_client_idx req) (cl_set_read_req_active false)) ≫= λ _,
  call (read_cb cb) (λ f, f (rq_client_idx req) (rq_read_data req) (to_u32 res)).

Definition handle_write (req : request) (res : Z) : M (srv * W) unit :=
  on_server (get_client (rq_client_idx req)) ≫= λ _,
  if unfinished req res then
    on_server (add_write_req_continued req res) ≫= λ rc,
    if rc =? 0 then mret tt else mfault NullDeref
  else
    on_server (write_done req) ≫= λ info,
    call (write_cb cb) (λ f, f (rq_client_idx req) info).

Definition non_tls_event_handler (req : request) (res : Z) : M (srv * W) unit :=
  match rq_event req with
  | ACCEPT => handle_accept res
  | READ => handle_read req res
  | WRITE => handle_write req res
  | _ => mret tt
  end.

End Handler.

#[export] Instance non_tls : ServerType unit :=
  {| ext_init := tt;
     req_event_handler := λ W cb req res, non_tls_event_handler cb req res;
     ServerBase.close_connection := close_connection |}.

(** The common shape of the writing operations. *)
Definition enqueue (idx : Z) (mk : Z → write_data) (src : write_src) (size : Z) : Srv unit :=
  emplace idx mk ≫= λ _,
  queue_size idx ≫= λ n,
  mwhen (n =? 1) (add_write_req idx WRITE src size ≫= λ _, mret tt).

(** The request [add_write_req] submits. *)
Definition write_sqe (idx : Z) (c : client unit) (src : write_src) (length : Z) : sqe :=
  prep_write (cl_sockfd c) src 0 length
    {| rq_event := WRITE; rq_client_idx := idx; rq_ID := cl_id c; rq_written := 0;
       rq_total_length := length; rq_buffer := Some src; rq_read_data := [];
       rq_read_amount := 0; rq_custom_info := 0 |}.

(** What a write changes: client [i]'s queue. *)
Record enqueued (i : Z) (wd : write_data) (s s' : srv) : Prop := {
  en_clients : ∃ c c', vget (clients s) i = Ok c ∧ clients s' = <[Z.to_nat i := c']> (clients s) ∧
    send_data c' = send_data c ++ [wd] ∧ cl_id c' = cl_id c ∧ cl_sockfd c' = cl_sockfd c;
  en_active : active_connections s' = active_connections s;
  en_freed : freed_indexes s' = freed_indexes s;
  en_heap : multi_heap s' = multi_heap s;
  en_ring : ∃ new, ring s' = ring s ++ new ∧
    Forall (λ q, sq_op q = IoWrite ∧ rq_client_idx (sq_req q) = i ∧ rq_written (sq_req q) = 0) new;
  en_addr : wd_addr wd = next_addr s ∧ next_addr s' = next_addr s + 1
}.

(** A message a queue takes: the bytes of a vector, or what a pointer leads to. *)
Definition valid_ptr (p : char_ptr) : Prop := p ≠ PNull.

(** Uses [n] of object [h] that no queue has taken yet. *)
Definition extra_uses (h n : Z) : Z → Z := λ h', if decide (h = h') then n else 0.

(** The uses of objects that left their queue and are not destroyed yet. *)
Definition add_uses (ex : Z → Z) (l : list write_data) : Z → Z :=
  λ h, ex h + len (filter (λ wd, wd_multi wd = Some h) l).

(** A server that only differs in the heap of [multi_write] objects. *)
Definition only_heap (s s' : srv) : Prop :=
  s' = set_heap (multi_heap s') (next_addr s) s ∧
  ∀ h b u, multi_heap s' !! h = Some (b, u) → ∃ u', multi_heap s !! h = Some (b, u').

(** ** Specification *)

(** The writes in flight for a client. *)
Definition is_write_for (i : Z) (q : sqe) : Prop :=
  sq_op q = IoWrite ∧ rq_client_idx (sq_req q) = i.

#[export] Instance io_op_eq_dec : EqDecision io_op.
Proof. solve_decision. Defined.

#[export] Instance is_write_for_dec i q : Decision (is_write_for i q).
Proof. unfold is_write_for. solve_decision. Defined.

Definition write_reqs (r : list sqe) (i : Z) : list sqe := filter (is_write_for i) r.

Definition wd_src (wd : write_data) : write_src :=
  match wd_multi wd with
  | Some h => WMulti h
  | None => if decide (wd_ptr_buff wd ≠ PNull) then WPtr (wd_ptr_buff wd) else WOwn (wd_addr wd)
  end.

(** [n] is the number of bytes of a queued write. *)
Definition wd_size (heap : gmap Z (list char * Z)) (wd : write_data) (n : Z) : Prop :=
  match wd_multi wd with
  | Some h => ∀ b u, heap !! h = Some (b, u) → n = len b
  | None => n = if decide (wd_ptr_buff wd ≠ PNull) then wd_total_length wd else len (wd_buff wd)
  end.

(** The write in flight [q] is for the rest of [wd], from where the last
    completion left it. *)
Record req_ok (heap : gmap Z (list char * Z)) (c : client unit) (wd : write_data) (q : sqe) : Prop := {
  ro_fd : sq_fd q = cl_sockfd c;
  ro_ID : rq_ID (sq_req q) = cl_id c;
  ro_src : sq_src q = Some (wd_src wd);
  ro_off : sq_buf_off q = rq_written (sq_req q);
  ro_written : 0 ≤ rq_written (sq_req q) ≤ rq_total_length (sq_req q);
  ro_len : sq_len q = to_u32 (rq_total_length (sq_req q) - rq_written (sq_req q));
  ro_total : ∃ n, wd_size heap wd n ∧ rq_total_length (sq_req q) = to_u32 n
}.

(** A client has a write in flight exactly when its queue is not empty, one write
    and for the front of the queue.  [cl] is the connection that is being closed:
    its queue is being drained. *)
Definition client_ok (cl : option Z) (r : list sqe) (act : gset Z)
    (heap : gmap Z (list char * Z)) (i : Z) (c : client unit) : Prop :=
  match write_reqs r i with
  | [] => num_write_reqs c = 0 ∧ (send_data c = [] ∨ cl = Some i)
  | [q] => num_write_reqs c = 1 ∧ i ∈ act ∧ cl ≠ Some i ∧
           ∃ wd rest, send_data c = wd :: rest ∧ req_ok heap c wd q
  | _ => False
  end.

(** What holds of every submitted request. *)
Record sqe_ok (n : Z) (q : sqe) : Prop := {
  so_write : sq_op q = IoWrite ↔ rq_event (sq_req q) = WRITE;
  so_accept : sq_op q = IoAccept ↔ rq_event (sq_req q) = ACCEPT;
  so_client : is_client_event (rq_event (sq_req q)) = true →
    rq_event (sq_req q) ∈ [READ; WRITE] ∧ 0 ≤ rq_client_idx (sq_req q) < n;
  so_read : sq_op q = IoRead → rq_event (sq_req q) ≠ CUSTOM_READ →
    0 ≤ sq_buf_off q ∧ sq_buf_off q + sq_len q ≤ len (rq_read_data (sq_req q))
}.

Definition all_queued (s : srv) : list write_data := concat (send_data <$> clients s).

(** The queued writes that refer to a [multi_write]. *)
Definition refs (h : Z) (l : list write_data) : Z :=
  len (filter (λ wd, wd_multi wd = Some h) l).

(** The invariant of the connections; [r] are the submitted requests. *)
Record conn_inv (cl : option Z) (r : list sqe) (s : srv) : Prop := {
  ci_idx : ∀ i, 0 ≤ i < len (clients s) ↔ i ∈ active_connections s ∪ freed_indexes s;
  ci_disj : active_connections s ## freed_indexes s;
  ci_clients : ∀ i c, vget (clients s) i = Ok c →
    client_ok cl r (active_connections s) (multi_heap s) i c;
  ci_sqes : Forall (sqe_ok (len (clients s))) r
}.

(** The invariant of the objects the queues own; [extra] are uses of
    [multi_write] objects that no queue has taken yet. *)
Record heap_inv (extra : Z → Z) (s : srv) : Prop := {
  hi_uses : ∀ h, refs h (all_queued s) + extra h =
    match multi_heap s !! h with Some (_, u) => u | None => 0 end;
  hi_live : ∀ h b u, multi_heap s !! h = Some (b, u) → 1 ≤ u;
  hi_next : ∀ h x, multi_heap s !! h = Some x → h < next_addr s;
  hi_addrs : ∀ wd, wd ∈ all_queued s →
    wd_addr wd < next_addr s ∧ ∀ h, wd_multi wd = Some h → h < next_addr s;
  hi_addr_dup : NoDup (wd_addr <$> all_queued s)
}.

Definition no_extra : Z → Z := λ _, 0.

Definition write_inv (cl : option Z) (s : srv) : Prop :=
  conn_inv cl (ring s) s ∧ heap_inv no_extra s.

(** * Lemmas *)

(** ** Queues *)

#[export] Instance refs_perm h : Proper ((≡ₚ) ==> eq) (refs h).
Proof. intros l l' H. unfold refs, len. by rewrite H. Qed.

Lemma refs_app h l l' : refs h (l ++ l') = refs h l + refs h l'.
Proof. unfold refs. by rewrite filter_app, len_app. Qed.

Lemma refs_cons h wd l :
  refs h (wd :: l) = (if decide (wd_multi wd = Some h) then 1 else 0) + refs h l.
Proof. unfold refs. rewrite filter_cons. case_decide; len_norm; lia. Qed.

Lemma refs_nonneg h l : 0 ≤ refs h l.
Proof. apply len_nonneg. Qed.

(** One client's queue among all. *)
Lemma queued_update (cls : list (client unit)) i c :
  vget cls i = Ok c →
  ∃ rest, concat (send_data <$> cls) ≡ₚ send_data c ++ rest ∧
    ∀ c', concat (send_data <$> <[Z.to_nat i := c']> cls) ≡ₚ send_data c' ++ rest.
Proof.
  intros [Hi Hc]%vget_lookup. exists (concat (send_data <$> take (Z.to_nat i) cls) ++
    concat (send_data <$> drop (S (Z.to_nat i)) cls)).
  assert (∀ c', concat (send_data <$> <[Z.to_nat i := c']> cls) ≡ₚ
    send_data c' ++ concat (send_data <$> take (Z.to_nat i) cls) ++
    concat (send_data <$> drop (S (Z.to_nat i)) cls)) as H.
  { intros c'. rewrite insert_take_drop by (by eapply lookup_lt_Some).
    rewrite fmap_app, fmap_cons, concat_app. simpl. solve_Permutation. }
  split; [|done]. rewrite <-H. by rewrite list_insert_id.
Qed.

Lemma queued_snoc (cls : list (client unit)) c :
  send_data c = [] → concat (send_data <$> cls ++ [c]) = concat (send_data <$> cls).
Proof. intros H. rewrite fmap_app, concat_app. simpl. by rewrite H, !app_nil_r. Qed.

(** ** Submitted requests *)

Lemma client_ok_perm cl r r' act heap i c :
  write_reqs r i ≡ₚ write_reqs r' i → client_ok cl r act heap i c → client_ok cl r' act heap i c.
Proof.
  unfold client_ok. intros Hp. destruct (write_reqs r i) as [|q [|]]; [| |done].
  - by apply Permutation_nil_l in Hp as <-.
  - by apply Permutation_singleton_l in Hp as <-.
Qed.

Lemma conn_inv_perm cl r r' s : r ≡ₚ r' → conn_inv cl r s → conn_inv cl r' s.
Proof.
  intros Hp []. split; [done|done| |by rewrite <-Hp].
  intros i c Hc. eapply client_ok_perm; [|by apply ci_clients0].
  unfold write_reqs. by rewrite Hp.
Qed.

Lemma write_reqs_cons_other q r i : ¬ is_write_for i q → write_reqs (q :: r) i = write_reqs r i.
Proof. intros H. unfold write_reqs. by rewrite filter_cons_False. Qed.

Lemma write_reqs_cons_eq q r i : is_write_for i q → write_reqs (q :: r) i = q :: write_reqs r i.
Proof. intros H. unfold write_reqs. by rewrite filter_cons_True. Qed.

(** ** Changing one client *)

Definition heap_mono (s s' : srv) : Prop :=
  ∀ h b u, multi_heap s' !! h = Some (b, u) → h < next_addr s → ∃ u', multi_heap s !! h = Some (b, u').

Lemma client_ok_heap cl r act s s' i c :
  heap_mono s s' → (∀ wd h, wd ∈ send_data c → wd_multi wd = Some h → h < next_addr s) →
  client_ok cl r act (multi_heap s) i c → client_ok cl r act (multi_heap s') i c.
Proof.
  intros Hmono Hlt. unfold client_ok. destruct (write_reqs r i) as [|q [|]]; [done| |done].
  intros (? & ? & ? & wd & rest & Hq & []). split_and!; [done..|]. exists wd, rest.
  split; [done|]. split; try done.
  destruct ro_total0 as (n & Hn & ?). exists n. split; [|done]. revert Hn. unfold wd_size.
  destruct (wd_multi wd) as [h|] eqn:Eh; [|done]. intros Hn b u Hb.
  destruct (Hmono h b u Hb) as [u' Hu']; [|by eapply Hn].
  eapply Hlt; [|done]. rewrite Hq. set_solver.
Qed.

Lemma queued_elem (cls : list (client unit)) i c wd :
  vget cls i = Ok c → wd ∈ send_data c → wd ∈ concat (send_data <$> cls).
Proof. intros (rest & Hp & _)%queued_update Hwd. rewrite Hp. set_solver. Qed.

Lemma conn_update ex cl cl' r r' s s' i c c' :
  conn_inv cl r s → heap_inv ex s →
  vget (clients s) i = Ok c → clients s' = <[Z.to_nat i := c']> (clients s) →
  active_connections s' ∪ freed_indexes s' = active_connections s ∪ freed_indexes s →
  active_connections s' ## freed_indexes s' →
  (∀ j, j ≠ i → write_reqs r j ≡ₚ write_reqs r' j ∧
     (j ∈ active_connections s' ↔ j ∈ active_connections s) ∧ (cl' = Some j ↔ cl = Some j)) →
  heap_mono s s' →
  client_ok cl' r' (active_connections s') (multi_heap s') i c' →
  Forall (sqe_ok (len (clients s))) r' →
  conn_inv cl' r' s'.
Proof.
  intros [Hidx Hdisj Hcls Hsq] Hheap Hc Hcls' Hun Hdis' Hother Hmono Hok Hsq'.
  pose proof (vget_range _ _ _ Hc) as Hr. split.
  - intros j. rewrite Hcls', len_insert, Hun. apply Hidx.
  - done.
  - intros j cj Hj. rewrite Hcls' in Hj.
    apply vget_insert_inv in Hj as [[-> ->]|[Hne Hj]]; [done| |done].
    destruct (Hother j Hne) as (Hp & Ha & Hcl).
    apply (client_ok_perm _ r); [done|]. apply (client_ok_heap _ _ _ s s'); [done| |].
    + intros wd h Hwd Hh. by apply (hi_addrs _ _ Hheap wd (queued_elem _ _ _ _ Hj Hwd)).
    + pose proof (Hcls j cj Hj) as Hcj. unfold client_ok in *.
      destruct (write_reqs r j) as [|q [|]]; [|by rewrite Ha, Hcl|done].
      by rewrite Hcl.
  - by rewrite Hcls', len_insert.
Qed.

(** ** Running the operations *)

Lemma get_client_run {X} i (s : server_base X) c :
  vget (clients s) i = Ok c → get_client i s = Ok (c, s).
Proof. intros H. unfold get_client, mget, mlift. unfold mbind, M_bind. by rewrite H. Qed.

Lemma on_server_run {X W A} (m : M (server_base X) A) s (w : W) a s' :
  m s = Ok (a, s') → on_server m (s, w) = Ok (a, (s', w)).
Proof. intros H. unfold on_server. by rewrite H. Qed.

Lemma on_server_bind {X W A B} (m : M (server_base X) A) (k : A → M (server_base X * W) B) s w a s' :
  m s = Ok (a, s') → (on_server m ≫= k) (s, w) = k a (s', w).
Proof. intros H. by apply M_bind_run, on_server_run. Qed.

(** A round of the loop takes its request off the ring. *)
Lemma loop_step_take {X W} `{!ServerType X} (cb : callbacks X W) mem e (s : server_base X) w q :
  cq_wait e = 0 → ring s !! cq_pos e = Some q →
  loop_step cb mem e (s, w) =
    (kernel_io mem q (cq_res e) (cq_data e) ≫= λ req, handle_event cb req e)
      (set_ring (delete (cq_pos e) (ring s)) s, w).
Proof.
  intros Hwait Hq. unfold loop_step. rewrite Hwait. change (to_i8 0 <? 0) with false. cbv iota.
  rewrite (on_server_bind _ _ _ _ _ s) by done. rewrite Hq. by rewrite (on_server_bind _ _ _ _ tt (set_ring (delete (cq_pos e) (ring s)) s)) by done.
Qed.

Lemma upd_client_run {X} i g (s : server_base X) c :
  vget (clients s) i = Ok c →
  upd_client i g s = Ok (tt, set_clients (<[Z.to_nat i := g c]> (clients s)) s).
Proof.
  intros H. unfold upd_client, mget, mlift, mmodify, mbind, M_bind.
  by rewrite (vupd_is_Ok _ _ _ _ H).
Qed.

Lemma emplace_run {X} i mk (s : server_base X) c :
  vget (clients s) i = Ok c →
  emplace i mk s = Ok (tt, srv_set
    (<[Z.to_nat i := cl_set_send_data (send_data c ++ [mk (next_addr s)]) c]> (clients s))
    (active_connections s) (freed_indexes s) (ring s) (multi_heap s) (next_addr s + 1) s).
Proof.
  intros H. unfold emplace. rewrite (M_bind_run _ _ _ s s) by done.
  by rewrite (M_bind_run _ _ _ _ _ (upd_client_run _ _ _ _ H)).
Qed.

Lemma add_write_req_run i src n s c :
  vget (clients s) i = Ok c →
  add_write_req i WRITE src n s = Ok (0, srv_set
    (<[Z.to_nat i := cl_set_num_write_reqs (num_write_reqs c + 1) c]> (clients s))
    (active_connections s) (freed_indexes s)
    (ring s ++ [write_sqe i c src (to_u32 n)])
    (multi_heap s) (next_addr s) s).
Proof.
  intros H. unfold add_write_req. rewrite (M_bind_run _ _ _ _ _ (get_client_run _ _ _ H)).
  by rewrite (M_bind_run _ _ _ _ _ (upd_client_run _ _ _ _ H)).
Qed.

Lemma queue_size_run i s c :
  vget (clients s) i = Ok c → queue_size i s = Ok (len (send_data c), s).
Proof.
  intros H. unfold queue_size. by rewrite (M_bind_run _ _ _ _ _ (get_client_run _ _ _ H)).
Qed.

(** ** Writing *)

Lemma to_u32_idem n : to_u32 (to_u32 n) = to_u32 n.
Proof. unfold to_u32. by rewrite Z.mod_mod. Qed.
Lemma to_u32_range n : 0 ≤ to_u32 n < 2 ^ 32.
Proof. apply Z.mod_pos_bound. lia. Qed.

Lemma active_client cl r s i :
  conn_inv cl r s → i ∈ active_connections s → ∃ c, vget (clients s) i = Ok c.
Proof. intros Hc Hi. apply vget_is_Ok, (ci_idx _ _ _ Hc). set_solver. Qed.

Lemma write_reqs_snoc_other q r i : ¬ is_write_for i q → write_reqs (r ++ [q]) i = write_reqs r i.
Proof.
  intros H. unfold write_reqs. by rewrite filter_app, filter_cons_False, app_nil_r by done.
Qed.

(** Queueing an object whose [multi_write] use is taken from [ex]. *)
Lemma heap_enqueue ex ex' s s' i c c' wd :
  heap_inv ex s → vget (clients s) i = Ok c → clients s' = <[Z.to_nat i := c']> (clients s) →
  send_data c' = send_data c ++ [wd] → multi_heap s' = multi_heap s →
  wd_addr wd = next_addr s → next_addr s' = next_addr s + 1 →
  (∀ h, wd_multi wd = Some h → is_Some (multi_heap s !! h)) →
  (∀ h, ex h = ex' h + if decide (wd_multi wd = Some h) then 1 else 0) →
  heap_inv ex' s'.
Proof.
  intros [Hu Hl Hn Ha Hd] Hc Hcls Hq Hheap Haddr Hnext Hm Hex.
  destruct (queued_update _ _ _ Hc) as (rest & Hp & Hp').
  assert (all_queued s' ≡ₚ wd :: all_queued s) as Hall.
  { unfold all_queued. rewrite Hcls, Hp', Hq, Hp. solve_Permutation. }
  split.
  - intros h. rewrite Hall, refs_cons, Hheap, <-Hu, Hex. lia.
  - intros h b u. rewrite Hheap. apply Hl.
  - intros h x. rewrite Hheap, Hnext. intros Hx%Hn. lia.
  - intros wd'. rewrite Hall, Hnext. intros [->|Hwd]%elem_of_cons.
    + split; [lia|]. intros h Hh. destruct (Hm h Hh) as [x Hx%Hn]. lia.
    + destruct (Ha _ Hwd) as [? Hlt]. split; [lia|]. intros h Hh%Hlt. lia.
  - rewrite Hall. simpl. constructor; [|done]. rewrite list_elem_of_fmap.
    intros (wd' & He & Hwd%Ha). lia.
Qed.

Lemma enqueue_inv cl ex ex' s i mk src size :
  conn_inv cl (ring s) s → heap_inv ex s → i ∈ active_connections s → cl ≠ Some i →
  wd_addr (mk (next_addr s)) = next_addr s → src = wd_src (mk (next_addr s)) →
  wd_size (multi_heap s) (mk (next_addr s)) size →
  (∀ h, wd_multi (mk (next_addr s)) = Some h → is_Some (multi_heap s !! h)) →
  (∀ h, ex h = ex' h + if decide (wd_multi (mk (next_addr s)) = Some h) then 1 else 0) →
  ∃ s', enqueue i mk src size s = Ok (tt, s') ∧ conn_inv cl (ring s') s' ∧ heap_inv ex' s' ∧
        enqueued i (mk (next_addr s)) s s'.
Proof.
  intros Hconn Hheap Hi Hcl Haddr Hsrc Hsize Hm Hex.
  destruct (active_client _ _ _ _ Hconn Hi) as [c Hc]. pose proof (vget_range _ _ _ Hc) as Hr.
  set (wd := mk (next_addr s)) in *.
  set (c1 := cl_set_send_data (send_data c ++ [wd]) c).
  set (s1 := srv_set (<[Z.to_nat i := c1]> (clients s)) (active_connections s) (freed_indexes s)
    (ring s) (multi_heap s) (next_addr s + 1) s).
  assert (vget (clients s1) i = Ok c1) as Hc1 by by apply vget_insert_eq.
  assert (enqueue i mk src size s =
    mwhen (len (send_data c1) =? 1) (add_write_req i WRITE src size ≫= λ _, mret tt) s1) as ->.
  { unfold enqueue. rewrite (M_bind_run _ _ _ _ _ (emplace_run _ _ _ _ Hc)). fold wd c1 s1.
    by rewrite (M_bind_run _ _ _ _ _ (queue_size_run _ _ _ Hc1)). }
  pose proof (ci_clients _ _ _ Hconn i c Hc) as Hok. unfold client_ok in Hok.
  destruct (send_data c) as [|wd0 q] eqn:Eq.
  - destruct (write_reqs (ring s) i) as [|q0 [|]] eqn:Er; [| |done].
    2: { destruct Hok as (_ & _ & _ & wd' & rest & Hq & _). discriminate Hq. }
    destruct Hok as [Hnum _]. simpl. rewrite (M_bind_run _ _ _ _ _ (add_write_req_run _ _ _ _ _ Hc1)).
    eexists. split; [done|]. simpl. rewrite list_insert_insert_eq. split_and!.
    + eapply (conn_update ex cl cl (ring s) _ s _ i c);
        [done|done|done|done|done|apply Hconn| |by intros h b u Hb; eauto| |].
      * intros j Hj. split; [|done]. rewrite write_reqs_snoc_other; [done|].
        intros [_ H]. simpl in H. congruence.
      * unfold client_ok, write_reqs. rewrite filter_app. fold (write_reqs (ring s) i). rewrite Er.
        simpl. rewrite filter_cons_True by by split. simpl.
        split_and!; [lia|done|done|]. exists wd, []. split; [done|].
        pose proof (to_u32_range size).
        split; [done|done|by rewrite Hsrc|done|simpl; lia| |by exists size].
        change (to_u32 size = to_u32 (to_u32 size - 0)). by rewrite Z.sub_0_r, to_u32_idem.
      * apply Forall_app. split; [apply Hconn|]. constructor; [|constructor]. split; simpl.
        -- done.
        -- done.
        -- intros _. split; [set_solver|lia].
        -- done.
    + eapply heap_enqueue; [done|exact Hc|done| |done|done|done|done|done]. by rewrite Eq.
    + split; simpl; [|done..| |done]; [do 2 eexists; split_and!; [done|done|by rewrite Eq|done|done]|].
      eexists. split; [done|]. by constructor.
  - assert (len (send_data c1) =? 1 = false) as ->.
    { apply Z.eqb_neq. simpl. len_norm. pose proof (len_nonneg q). lia. }
    eexists. split; [done|]. split_and!.
    + eapply (conn_update ex cl cl (ring s) _ s _ i c);
        [done|done|done|done|done|apply Hconn|done|by intros h b u Hb; eauto| |apply Hconn].
      unfold client_ok. simpl.
      destruct (write_reqs (ring s) i) as [|q0 [|]] eqn:Er; [| |done].
      * destruct Hok as [_ [?|?]]; [done|done].
      * destruct Hok as (? & ? & ? & wd' & rest & Hq & []). split_and!; [done..|].
        injection Hq as -> ->. exists wd', (rest ++ [wd]). done.
    + eapply heap_enqueue; [done|exact Hc|done| |done|done|done|done|done]. by rewrite Eq.
    + split; simpl; [|done..| |done]; [do 2 eexists; split_and!; [done|done|by rewrite Eq|done|done]|].
      exists []. by rewrite app_nil_r.
Qed.

Lemma enqueued_queued i wd s s' :
  enqueued i wd s s' → all_queued s' ≡ₚ wd :: all_queued s ∧ len (clients s') = len (clients s).
Proof.
  intros [(c & c' & Hv & Ec & Hq & _) _ _ _ _ _].
  destruct (queued_update _ _ _ Hv) as (rest & Hp & Hp').
  unfold all_queued. rewrite Ec, len_insert, Hp', Hp, Hq. split; [solve_Permutation|done].
Qed.

Lemma send_front_run {X} i (s : server_base X) c wd q :
  vget (clients s) i = Ok c → send_data c = wd :: q → send_front i s = Ok (wd, s).
Proof.
  intros H Hq. unfold send_front. rewrite (M_bind_run _ _ _ _ _ (get_client_run _ _ _ H)).
  by rewrite Hq.
Qed.

Lemma write_connection_enqueue i b s c :
  vget (clients s) i = Ok c →
  write_connection i b s = enqueue i (write_data_vec b) (WOwn (next_addr s)) (len b) s.
Proof.
  intros Hc. pose proof (vget_range _ _ _ Hc). unfold write_connection, enqueue.
  rewrite !(M_bind_run _ _ _ _ _ (emplace_run _ _ _ _ Hc)). cbv beta.
  set (c1 := cl_set_send_data _ c). set (s1 := srv_set _ _ _ _ _ _ s).
  assert (vget (clients s1) i = Ok c1) as Hc1 by by apply vget_insert_eq.
  rewrite !(M_bind_run _ _ _ _ _ (queue_size_run _ _ _ Hc1)). cbv beta.
  destruct (Z.eqb_spec (len (send_data c1)) 1) as [H1|]; [|done]. simpl in H1 |- *.
  destruct (send_data c) as [|wd q] eqn:Eq; [|len_norm; simpl in H1; len_lia].
  by rewrite (M_bind_run _ _ _ _ _ (send_front_run i s1 c1 (write_data_vec b (next_addr s)) [] Hc1 eq_refl)).
Qed.

Lemma no_multi_extra ex wd h : wd_multi wd = None → ex h = ex h + (if decide (wd_multi wd = Some h) then 1 else 0 : Z).
Proof. intros ->. rewrite decide_False by done. lia. Qed.

Lemma write_connection_inv cl i b s :
  write_inv cl s → i ∈ active_connections s → cl ≠ Some i →
  ∃ s', write_connection i b s = Ok (tt, s') ∧ write_inv cl s' ∧
        enqueued i (write_data_vec b (next_addr s)) s s'.
Proof.
  intros [Hc Hh] Hi Hcl. destruct (active_client _ _ _ _ Hc Hi) as [c Hv].
  rewrite (write_connection_enqueue _ _ _ _ Hv).
  destruct (enqueue_inv cl no_extra no_extra s i (write_data_vec b) (WOwn (next_addr s)) (len b))
    as (s' & E & ? & ? & ?); try done.
  by exists s'.
Qed.

Lemma ptr_enqueue_inv cl i p n bc info s :
  write_inv cl s → i ∈ active_connections s → cl ≠ Some i → valid_ptr p →
  ∃ s', enqueue i (write_data_ptr p n bc info) (WPtr p) n s = Ok (tt, s') ∧ write_inv cl s' ∧
        enqueued i (write_data_ptr p n bc info (next_addr s)) s s'.
Proof.
  intros [Hc Hh] Hi Hcl Hp.
  destruct (enqueue_inv cl no_extra no_extra s i (write_data_ptr p n bc info) (WPtr p) n)
    as (s' & E & ? & ? & ?); try done.
  - unfold wd_src. simpl. by rewrite decide_True.
  - unfold wd_size. simpl. by rewrite decide_True.
  - by exists s'.
Qed.

Lemma write_connection_ptr_inv cl i p n s :
  write_inv cl s → i ∈ active_connections s → cl ≠ Some i → valid_ptr p →
  ∃ s', write_connection_ptr i p n s = Ok (tt, s') ∧ write_inv cl s' ∧
        enqueued i (write_data_ptr p n false 0 (next_addr s)) s s'.
Proof. apply ptr_enqueue_inv. Qed.

(** Broadcasts may go to any clients that are active and not being closed. *)
Definition open_clients (cl : option Z) (idxs : list Z) (s : srv) : Prop :=
  Forall (λ i, to_i32 i ∈ active_connections s ∧ cl ≠ Some (to_i32 i)) idxs.

Lemma broadcast_message_ptr_inv cl idxs n p l info s :
  write_inv cl s → open_clients cl idxs s → valid_ptr p →
  ∃ s', broadcast_message_ptr idxs n p l info s = Ok (tt, s') ∧ write_inv cl s' ∧
        active_connections s' = active_connections s ∧ len (clients s') = len (clients s) ∧
        (∀ wd, wd ∈ all_queued s' → wd ∈ all_queued s ∨
           ∃ a, wd = write_data_ptr p l true info a).
Proof.
  intros Hinv Hopen Hp. unfold broadcast_message_ptr.
  destruct (0 <? n); simpl; [|exists s; split_and!; by auto].
  revert s Hinv Hopen. induction idxs as [|i idxs IH]; intros s Hinv Hopen; simpl;
    [exists s; split_and!; by auto|].
  apply Forall_cons in Hopen as [[Hi Hcl] Hopen].
  destruct (ptr_enqueue_inv cl (to_i32 i) p l true info s Hinv Hi Hcl Hp) as (s1 & E & Hinv1 & Hen).
  rewrite (M_bind_run _ _ _ tt s1) by exact E.
  assert (active_connections s1 = active_connections s) as Ha by apply Hen.
  destruct (enqueued_queued _ _ _ _ Hen) as [Hq Hl].
  destruct (IH s1 Hinv1) as (s2 & E2 & Hinv2 & Ha2 & Hl2 & Hq2); [unfold open_clients; by rewrite Ha|].
  exists s2. split_and!; [done|done|congruence|congruence|].
  intros wd [Hwd|?]%Hq2; [|by right]. rewrite Hq in Hwd.
  apply elem_of_cons in Hwd as [->|Hwd]; [|by left]. right. by eexists.
Qed.

Lemma multi_enqueue i h s c b u :
  vget (clients s) i = Ok c → multi_heap s !! h = Some (b, u) →
  (emplace i (write_data_multi h) ≫= λ _, queue_size i ≫= λ n,
     mwhen (n =? 1) (mget ≫= λ s,
       match multi_heap s !! h with
       | None => mfault UseAfterFree
       | Some (b, _) => add_write_req i WRITE (WMulti h) (len b) ≫= λ _, mret tt
       end)) s
  = enqueue i (write_data_multi h) (WMulti h) (len b) s.
Proof.
  intros Hc Hh. pose proof (vget_range _ _ _ Hc). unfold enqueue.
  rewrite !(M_bind_run _ _ _ _ _ (emplace_run _ _ _ _ Hc)). cbv beta.
  set (c1 := cl_set_send_data _ c). set (s1 := srv_set _ _ _ _ _ _ s).
  assert (vget (clients s1) i = Ok c1) as Hc1 by by apply vget_insert_eq.
  rewrite !(M_bind_run _ _ _ _ _ (queue_size_run _ _ _ Hc1)). cbv beta.
  destruct (len (send_data c1) =? 1); [|done]. simpl.
  rewrite (M_bind_run _ _ _ s1 s1) by done. simpl. by rewrite Hh.
Qed.

Lemma broadcast_loop_inv cl idxs h b u s :
  conn_inv cl (ring s) s → heap_inv (extra_uses h (len idxs)) s → open_clients cl idxs s →
  multi_heap s !! h = Some (b, u) →
  ∃ s', mfor idxs (λ idx,
      emplace (to_i32 idx) (write_data_multi h) ≫= λ _,
      queue_size (to_i32 idx) ≫= λ n,
      mwhen (n =? 1) (
        mget ≫= λ s,
        match multi_heap s !! h with
        | None => mfault UseAfterFree
        | Some (b, _) => add_write_req (to_i32 idx) WRITE (WMulti h) (len b) ≫= λ _, mret tt
        end)) s = Ok (tt, s') ∧ write_inv cl s' ∧ active_connections s' = active_connections s ∧
    len (clients s') = len (clients s) ∧
    (∀ wd, wd ∈ all_queued s' → wd ∈ all_queued s ∨ ∃ a, wd = write_data_multi h a).
Proof.
  revert s u. induction idxs as [|i idxs IH]; intros s u Hc Hh Hopen Hb.
  - exists s. split; [done|]. split; [|split_and!; by auto]. split; [done|].
    destruct Hh as [Hu ? ? ? ?]. split; try done. intros k. rewrite <-Hu. unfold no_extra, extra_uses.
    case_decide; len_norm; lia.
  - apply Forall_cons in Hopen as [[Hi Hcl] Hopen]. simpl.
    destruct (active_client _ _ _ _ Hc Hi) as [c Hv].
    destruct (enqueue_inv cl (extra_uses h (len (i :: idxs))) (extra_uses h (len idxs)) s (to_i32 i)
      (write_data_multi h) (WMulti h) (len b)) as (s1 & E & Hc1 & Hh1 & Hen); try done.
    + intros b' u' Hb'. simpl in Hb'. rewrite Hb in Hb'. by injection Hb' as -> ->.
    + intros k [= <-]. by rewrite Hb.
    + intros k. unfold extra_uses. simpl. destruct (decide (h = k)) as [->|Hne].
      * rewrite decide_True by done. len_norm. lia.
      * rewrite decide_False by congruence. lia.
    + rewrite (M_bind_run _ _ _ tt s1) by (by rewrite (multi_enqueue _ _ _ _ _ _ Hv Hb)).
      assert (active_connections s1 = active_connections s) as Ha by apply Hen.
      destruct (enqueued_queued _ _ _ _ Hen) as [Hq Hl].
      destruct (IH s1 u Hc1 Hh1) as (s2 & E2 & Hinv2 & Ha2 & Hl2 & Hq2).
      * unfold open_clients. by rewrite Ha.
      * by rewrite (en_heap _ _ _ _ Hen).
      * exists s2. split_and!; [done|done|congruence|congruence|].
        intros wd [Hwd|?]%Hq2; [|by right]. rewrite Hq in Hwd.
        apply elem_of_cons in Hwd as [->|Hwd]; [|by left]. right. by eexists.
Qed.

Lemma refs_fresh ex s h : heap_inv ex s → next_addr s ≤ h → refs h (all_queued s) = 0.
Proof.
  intros Hh Hle. unfold refs. destruct (filter _ _) as [|wd l] eqn:E; [done|].
  assert (wd ∈ filter (λ wd, wd_multi wd = Some h) (all_queued s)) as Hwd by (rewrite E; set_solver).
  apply list_elem_of_filter in Hwd as [Hm Hwd].
  apply (hi_addrs _ _ Hh) in Hwd as [_ Hlt]. specialize (Hlt h Hm). lia.
Qed.

Lemma broadcast_message_inv cl idxs b s :
  write_inv cl s → open_clients cl idxs s →
  ∃ s', broadcast_message idxs (len idxs) b s = Ok (tt, s') ∧ write_inv cl s' ∧
        active_connections s' = active_connections s ∧ len (clients s') = len (clients s) ∧
        (∀ wd, wd ∈ all_queued s' → wd ∈ all_queued s ∨
           ∃ a, wd = write_data_multi (next_addr s) a).
Proof.
  intros [Hc Hh] Hopen. unfold broadcast_message.
  destruct (0 <? len idxs) eqn:Hlen; simpl; [|exists s; split_and!; by auto].
  set (h := next_addr s).
  set (s1 := set_heap (<[h := (b, len idxs)]> (multi_heap s)) (next_addr s + 1) s).
  rewrite (M_bind_run _ _ _ h s1) by done.
  assert (multi_heap s !! h = None) as Hfresh.
  { destruct (multi_heap s !! h) eqn:E; [|done]. apply (hi_next _ _ Hh) in E. lia. }
  destruct (broadcast_loop_inv cl idxs h b (len idxs) s1) as (s2 & E & Hinv & Ha & Hl & Hq);
    [| |done|by apply lookup_insert_eq|by exists s2].
  - destruct Hc. split; try done. intros i c Hi. simpl.
    apply (client_ok_heap _ _ _ s s1); [| |by apply ci_clients0].
    + intros k b' u' Hb Hlt. simpl in Hb. rewrite lookup_insert_ne in Hb by lia. eauto.
    + intros wd k Hwd Hk. by apply (hi_addrs _ _ Hh wd (queued_elem _ _ _ _ Hi Hwd)).
  - pose proof (refs_fresh _ _ h Hh) as Hrefs. destruct Hh as [Hu Hl Hn Had Hd]. split; simpl.
    + intros k. unfold extra_uses. specialize (Hu k). unfold no_extra in Hu.
      change (all_queued s1) with (all_queued s). case_decide as Hk.
      * subst k. rewrite lookup_insert_eq. rewrite Hrefs by lia. lia.
      * rewrite lookup_insert_ne by done. lia.
    + intros k b' u' Hk. destruct (decide (h = k)) as [->|Hne].
      * rewrite lookup_insert_eq in Hk. injection Hk as <- <-. lia.
      * rewrite lookup_insert_ne in Hk by done. by eapply Hl.
    + intros k x Hk. destruct (decide (h = k)) as [<-|Hne]; [lia|].
      rewrite lookup_insert_ne in Hk by done. apply Hn in Hk. lia.
    + intros wd Hwd. destruct (Had wd Hwd) as [? Hlt]. split; [lia|].
      intros k Hk. specialize (Hlt k Hk). lia.
    + done.
Qed.

(** ** Destroying queued writes *)

Lemma only_heap_refl s : only_heap s s.
Proof. split; [by destruct s|eauto]. Qed.

Lemma only_heap_trans s1 s2 s3 : only_heap s1 s2 → only_heap s2 s3 → only_heap s1 s3.
Proof.
  intros [E1 H1] [E2 H2]. split.
  - rewrite E2. rewrite E1. by destruct s1.
  - intros h b u Hb. destruct (H2 h b u Hb) as [u' Hu']. eauto.
Qed.

Lemma heap_inv_ext ex ex' s : (∀ h, ex h = ex' h) → heap_inv ex s → heap_inv ex' s.
Proof. intros He [Hu ? ? ? ?]. split; try done. intros h. by rewrite <-He. Qed.

Lemma destroy_run ex wd s :
  (∀ h, 0 ≤ ex h) → heap_inv (add_uses ex [wd]) s →
  ∃ s', destroy_write_data wd s = Ok (tt, s') ∧ heap_inv ex s' ∧ only_heap s s'.
Proof.
  intros Hex Hh. unfold destroy_write_data. destruct (wd_multi wd) as [h|] eqn:Em.
  - pose proof (hi_uses _ _ Hh h) as Hu. unfold add_uses in Hu.
    rewrite filter_cons_True, filter_nil in Hu by done. change (len [wd]) with 1 in Hu.
    pose proof (refs_nonneg h (all_queued s)). specialize (Hex h) as Hexh.
    rewrite (M_bind_run _ _ _ s s) by done.
    destruct (multi_heap s !! h) as [[b u]|] eqn:Eh; [|lia].
    assert (∀ k, h ≠ k → add_uses ex [wd] k = ex k) as Hother.
    { intros k Hk. unfold add_uses. rewrite filter_cons_False, filter_nil by congruence.
      change (len []) with 0. lia. }
    destruct Hh as [Hus Hl Hn Ha Hd].
    destruct (Z.eqb_spec (u - 1) 0) as [Hz|Hz].
    + eexists. split; [done|]. split.
      * split; simpl; try done.
        -- intros k. change (all_queued (set_heap _ _ s)) with (all_queued s).
           destruct (decide (h = k)) as [<-|Hk]; [rewrite lookup_delete_eq; lia|].
           rewrite lookup_delete_ne by done. rewrite <-Hus, Hother by done. done.
        -- intros k b' u' [_ Hk]%lookup_delete_Some. by eapply Hl.
        -- intros k x [_ Hk]%lookup_delete_Some. by eapply Hn.
      * split; [done|]. simpl. intros k b' u' [_ Hk]%lookup_delete_Some. eauto.
    + eexists. split; [done|]. split.
      * split; simpl; try done.
        -- intros k. change (all_queued (set_heap _ _ s)) with (all_queued s).
           destruct (decide (h = k)) as [<-|Hk]; [rewrite lookup_insert_eq; lia|].
           rewrite lookup_insert_ne by done. rewrite <-Hus, Hother by done. done.
        -- intros k b' u'. destruct (decide (h = k)) as [<-|Hk].
           ++ rewrite lookup_insert_eq. intros [= <- <-]. lia.
           ++ rewrite lookup_insert_ne by done. apply Hl.
        -- intros k x. destruct (decide (h = k)) as [<-|Hk]; [intros _; by eapply Hn|].
           rewrite lookup_insert_ne by done. apply Hn.
      * split; [done|]. simpl. intros k b' u'. destruct (decide (h = k)) as [<-|Hk].
        -- rewrite lookup_insert_eq. intros [= <- <-]. eauto.
        -- rewrite lookup_insert_ne by done. eauto.
  - exists s. split; [done|]. split; [|apply only_heap_refl].
    eapply heap_inv_ext; [|done]. intros h. unfold add_uses.
    rewrite filter_cons_False, filter_nil by congruence. change (len []) with 0. lia.
Qed.

Lemma add_uses_cons ex wd l h : add_uses ex (wd :: l) h = add_uses (add_uses ex l) [wd] h.
Proof.
  unfold add_uses. rewrite !filter_cons, filter_nil.
  destruct (decide (wd_multi wd = Some h)); len_norm; lia.
Qed.

Lemma destroy_all_run ex l s :
  (∀ h, 0 ≤ ex h) → heap_inv (add_uses ex l) s →
  ∃ s', mfor l destroy_write_data s = Ok (tt, s') ∧ heap_inv ex s' ∧ only_heap s s'.
Proof.
  intros Hex. revert s. induction l as [|wd l IH]; intros s Hh; simpl.
  - exists s. split; [done|]. split; [|apply only_heap_refl].
    eapply heap_inv_ext; [|done]. intros h. unfold add_uses. rewrite filter_nil. change (len []) with 0. lia.
  - destruct (destroy_run (add_uses ex l) wd s) as (s1 & E1 & Hh1 & Ho1).
    + intros h. unfold add_uses. specialize (Hex h). len_facts. lia.
    + eapply heap_inv_ext; [|done]. intros h. apply add_uses_cons.
    + destruct (IH s1 Hh1) as (s2 & E2 & Hh2 & Ho2). exists s2.
      rewrite (M_bind_run _ _ _ tt s1) by done. split; [done|]. split; [done|].
      by eapply only_heap_trans.
Qed.

(** Objects [l] leave client [i]'s queue. *)
Lemma heap_dequeue ex s i c c' l q :
  heap_inv ex s → vget (clients s) i = Ok c → send_data c = l ++ q → send_data c' = q →
  heap_inv (add_uses ex l) (set_clients (<[Z.to_nat i := c']> (clients s)) s).
Proof.
  intros [Hu Hl Hn Ha Hd] Hc Hq Hq'.
  destruct (queued_update _ _ _ Hc) as (rest & Hp & Hp').
  assert (all_queued s ≡ₚ l ++ all_queued (set_clients (<[Z.to_nat i := c']> (clients s)) s)) as Hall.
  { unfold all_queued. simpl. rewrite Hp, Hp', Hq, Hq'. solve_Permutation. }
  split; simpl; try done.
  - intros h. rewrite <-Hu, Hall, refs_app. unfold add_uses, refs. lia.
  - intros wd Hwd. apply Ha. rewrite Hall. set_solver.
  - rewrite Hall, fmap_app in Hd. by apply NoDup_app in Hd as (_ & _ & ?).
Qed.

(** ** Completing and closing *)

Lemma heap_same_queue ex s s' i c c' :
  heap_inv ex s → vget (clients s) i = Ok c → clients s' = <[Z.to_nat i := c']> (clients s) →
  send_data c' = send_data c → multi_heap s' = multi_heap s → next_addr s' = next_addr s →
  heap_inv ex s'.
Proof.
  intros [Hu Hl Hn Ha Hd] Hv Hcls Hq Hheap Hnext.
  destruct (queued_update _ _ _ Hv) as (rest & Hp & Hp').
  assert (all_queued s' ≡ₚ all_queued s) as Hall.
  { unfold all_queued. by rewrite Hcls, Hp', Hq, Hp. }
  split; rewrite ?Hheap, ?Hnext; try done.
  - intros h. by rewrite Hall.
  - intros wd. rewrite Hall. apply Ha.
  - by rewrite Hall.
Qed.

(** The operation only touches client [i]'s queue and flags. *)
Record only_client (i : Z) (q : list write_data) (s s' : srv) : Prop := {
  oc_clients : ∃ c c', vget (clients s) i = Ok c ∧ clients s' = <[Z.to_nat i := c']> (clients s) ∧
    send_data c' = q ∧ cl_id c' = cl_id c ∧ cl_sockfd c' = cl_sockfd c;
  oc_active : active_connections s' = active_connections s;
  oc_freed : freed_indexes s' = freed_indexes s
}.

Lemma heap_mono_only s s1 s' :
  only_heap s1 s' → multi_heap s1 = multi_heap s → heap_mono s s'.
Proof. intros [_ H] E h b u Hb _. destruct (H h b u Hb) as [u' Hu']. rewrite E in Hu'. eauto. Qed.

Lemma only_heap_conn s s' : only_heap s s' →
  clients s' = clients s ∧ active_connections s' = active_connections s ∧
  freed_indexes s' = freed_indexes s ∧ ring s' = ring s ∧ next_addr s' = next_addr s ∧
  closed s' = closed s ∧ wire s' = wire s.
Proof. intros [E _]. rewrite E. by destruct s. Qed.

(** Taking objects [l] off the queue of a client without a write in flight. *)
Lemma dequeue_inv cl s i c l q :
  write_inv cl s → cl = None ∨ cl = Some i → vget (clients s) i = Ok c →
  send_data c = l ++ q → write_reqs (ring s) i = [] →
  ∃ s', (upd_client i (cl_set_send_data q) ≫= λ _, mfor l destroy_write_data) s = Ok (tt, s') ∧
    write_inv (Some i) s' ∧
    only_heap (set_clients (<[Z.to_nat i := cl_set_send_data q c]> (clients s)) s) s'.
Proof.
  intros [Hc Hh] Hcl Hv Hq Hw.
  set (s1 := set_clients (<[Z.to_nat i := cl_set_send_data q c]> (clients s)) s).
  destruct (destroy_all_run no_extra l s1) as (s2 & E2 & Hh2 & Ho).
  { done. }
  { by eapply heap_dequeue. }
  exists s2. rewrite (M_bind_run _ _ _ _ _ (upd_client_run _ _ _ _ Hv)). split; [done|].
  split; [|done]. split; [|done].
  destruct (only_heap_conn _ _ Ho) as (Ec & Ea & Ef & Er & _).
  pose proof (ci_clients _ _ _ Hc i c Hv) as Hok. unfold client_ok in Hok. rewrite Hw in Hok.
  rewrite Er. eapply (conn_update no_extra cl (Some i) (ring s) (ring s) s s2 i c); try done.
  - by rewrite Ec.
  - by rewrite Ea, Ef.
  - rewrite Ea, Ef. apply Hc.
  - intros j Hj. rewrite Ea. split; [done|]. split; [done|].
    destruct Hcl as [->| ->]; split; congruence.
  - by eapply heap_mono_only.
  - unfold client_ok. rewrite Hw. simpl. split; [by apply Hok|by right].
  - apply Hc.
Qed.

Lemma send_pop_inv cl s i c wd q :
  write_inv cl s → cl = None ∨ cl = Some i → vget (clients s) i = Ok c →
  send_data c = wd :: q → write_reqs (ring s) i = [] →
  ∃ s', send_pop i s = Ok (tt, s') ∧ write_inv (Some i) s' ∧
    only_heap (set_clients (<[Z.to_nat i := cl_set_send_data q c]> (clients s)) s) s'.
Proof.
  intros Hinv Hcl Hv Hq Hw.
  destruct (dequeue_inv cl s i c [wd] q Hinv Hcl Hv Hq Hw) as (s' & E & Hinv' & Ho).
  exists s'. split; [|done]. rewrite <-E. unfold send_pop.
  rewrite (M_bind_run _ _ _ _ _ (get_client_run _ _ _ Hv)), Hq.
  rewrite !(M_bind_run _ _ _ _ _ (upd_client_run _ _ _ _ Hv)). simpl.
  unfold mbind, M_bind. by destruct (destroy_write_data wd _) as [[[] ?]|].
Qed.

Lemma closing_idle s i c :
  write_inv (Some i) s → vget (clients s) i = Ok c → send_data c = [] → write_inv None s.
Proof.
  intros [[Hx Hd Hcl Hs] Hh] Hv Hq. split; [|done]. split; try done.
  intros j cj Hj. specialize (Hcl j cj Hj). unfold client_ok in *.
  destruct (write_reqs (ring s) j) as [|w [|]]; [|by destruct Hcl as (? & ? & ? & ?)|done].
  destruct Hcl as [Hn [Hs0|[= <-]]]; [split; [done|by left]|].
  rewrite Hv in Hj. injection Hj as <-. split; [done|by left].
Qed.

(** The next queued write is submitted. *)
Lemma restart_inv s i c wd q n :
  write_inv (Some i) s → vget (clients s) i = Ok c → send_data c = wd :: q →
  i ∈ active_connections s → wd_size (multi_heap s) wd n →
  ∃ s', add_write_req i WRITE (wd_src wd) n s = Ok (0, s') ∧ write_inv None s' ∧
    only_client i (wd :: q) s s' ∧ multi_heap s' = multi_heap s ∧
    ring s' = ring s ++ [write_sqe i c (wd_src wd) (to_u32 n)] ∧ wire s' = wire s.
Proof.
  intros [Hc Hh] Hv Hq Hi Hn. pose proof (vget_range _ _ _ Hv).
  pose proof (ci_clients _ _ _ Hc i c Hv) as Hok. unfold client_ok in Hok.
  destruct (write_reqs (ring s) i) as [|w [|]] eqn:Er; [|by destruct Hok as (_ & _ & ? & _)|done].
  rewrite (add_write_req_run _ _ _ _ _ Hv). eexists. split; [done|]. split_and!; [|split|done..].
  - split.
    + eapply (conn_update no_extra (Some i) None (ring s) _ s _ i c);
        [done|done|done|done|done|apply Hc| |by intros h b u Hb; eauto| |].
      * intros j Hj. split; [|split; [done|]].
        -- simpl. rewrite write_reqs_snoc_other; [done|]. intros [_ H1]. simpl in H1. congruence.
        -- split; congruence.
      * unfold client_ok, write_reqs. simpl. rewrite filter_app. fold (write_reqs (ring s) i).
        rewrite Er. simpl. rewrite filter_cons_True by by split. simpl.
        split_and!; [lia|done|done|]. exists wd, q. split; [done|].
        pose proof (to_u32_range n).
        split; [done|done|done|done|simpl; lia| |by exists n].
        change (to_u32 n = to_u32 (to_u32 n - 0)). by rewrite Z.sub_0_r, to_u32_idem.
      * simpl. apply Forall_app. split; [apply Hc|]. constructor; [|constructor]. split; simpl.
        -- done.
        -- done.
        -- intros _. split; [set_solver|lia].
        -- done.
    + by eapply heap_same_queue.
  - simpl. by do 2 eexists.
  - done.
  - done.
Qed.

(** Changing the flag of a client, and submitting a request that is no write. *)
Lemma flags_inv cl r s s' i c b :
  conn_inv cl r s → heap_inv no_extra s → vget (clients s) i = Ok c →
  s' = set_clients (<[Z.to_nat i := cl_set_read_req_active b c]> (clients s)) s →
  conn_inv cl r s' ∧ heap_inv no_extra s'.
Proof.
  intros Hc Hh Hv ->. split.
  - eapply (conn_update no_extra cl cl r r s _ i c);
      [done|done|done|done|done|apply Hc|done|by intros h b' u Hb; eauto| |apply Hc].
    + pose proof (ci_clients _ _ _ Hc i c Hv) as Hok. unfold client_ok in *.
      destruct (write_reqs r i) as [|q [|]]; [done| |done].
      destruct Hok as (? & ? & ? & wd & rest & ? & []). split_and!; [done..|].
      exists wd, rest. split; [done|]. by split.
  - by eapply heap_same_queue.
Qed.

Lemma submit_inv cl r q s :
  conn_inv cl r s → heap_inv no_extra s → sqe_ok (len (clients s)) q → sq_op q ≠ IoWrite →
  conn_inv cl (r ++ [q]) (set_ring (ring s ++ [q]) s) ∧
  heap_inv no_extra (set_ring (ring s ++ [q]) s).
Proof.
  intros [Hx Hd Hcl Hs] [] Hq Hop. split; [|done]. split; simpl; try done.
  - intros i c Hi. specialize (Hcl i c Hi). eapply client_ok_perm; [|done].
    rewrite write_reqs_snoc_other; [done|]. by intros [? _].
  - apply Forall_app. split; [done|]. by constructor.
Qed.

Lemma read_sqe_ok n fd off l fo r :
  rq_event r ≠ WRITE → rq_event r ≠ ACCEPT →
  (is_client_event (rq_event r) = true → rq_event r = READ ∧ 0 ≤ rq_client_idx r < n) →
  (rq_event r ≠ CUSTOM_READ → 0 ≤ off ∧ off + l ≤ len (rq_read_data r)) →
  sqe_ok n (prep_read fd off l fo r).
Proof.
  intros H1 H1' H2 H3. split; simpl.
  - by split.
  - by split.
  - intros Hc. destruct (H2 Hc) as [-> ?]. split; [set_solver|done].
  - auto.
Qed.

Lemma add_read_req_inv cl s i c :
  write_inv cl s → vget (clients s) i = Ok c →
  ∃ n s', add_read_req i READ s = Ok (n, s') ∧ write_inv cl s' ∧
    only_client i (send_data c) s s'.
Proof.
  intros [Hc Hh] Hv. pose proof (vget_range _ _ _ Hv) as Hr. unfold add_read_req.
  rewrite (M_bind_run _ _ _ _ _ (get_client_run _ _ _ Hv)).
  destruct (read_req_active c) eqn:Eb; simpl.
  - do 2 eexists. split; [done|]. split; [done|]. split; [|done..].
    exists c, c. split_and!; [done| |done..]. rewrite list_insert_id; [done|].
    by apply vget_lookup in Hv as [_ ?].
  - set (q := prep_read _ _ _ _ _).
    destruct (submit_inv cl (ring s) q s Hc Hh) as [Hc1 Hh1].
    { apply read_sqe_ok; [done..|]. intros _. split; [done|].
      change (0 + READ_SIZE ≤ len (replicate (Z.to_nat READ_SIZE) nul)).
      unfold len. rewrite length_replicate. unfold READ_SIZE. lia. }
    { done. }
    rewrite (M_bind_run _ _ _ tt (set_ring (ring s ++ [q]) s)) by done.
    rewrite (M_bind_run _ _ _ _ _ (upd_client_run _ _ (set_ring (ring s ++ [q]) s) c Hv)).
    do 2 eexists. split; [done|].
    destruct (flags_inv cl _ _ _ i c true Hc1 Hh1 Hv eq_refl) as [Hc2 Hh2].
    split; [done|]. split; [|done..]. simpl. by do 2 eexists.
Qed.

Lemma custom_read_req_inv cl s fd n i b a :
  write_inv cl s →
  ∃ s', custom_read_req fd n i b a s = Ok (tt, s') ∧ write_inv cl s' ∧
    clients s' = clients s ∧ active_connections s' = active_connections s.
Proof.
  intros [Hc Hh]. eexists. split; [done|]. split; [|done].
  apply submit_inv; [done|done| |done]. by apply read_sqe_ok.
Qed.

Lemma send_clear_nil {X} i (s : server_base X) c :
  vget (clients s) i = Ok c → send_data c = [] → send_clear i s = Ok (tt, s).
Proof.
  intros Hv Hq. unfold send_clear. rewrite (M_bind_run _ _ _ _ _ (get_client_run _ _ _ Hv)).
  rewrite (M_bind_run _ _ _ _ _ (upd_client_run _ _ _ _ Hv)), Hq. simpl.
  replace (cl_set_send_data [] c) with c by (destruct c; simpl in Hq; by rewrite Hq).
  rewrite list_insert_id by (by apply vget_lookup in Hv as [_ ?]). by destruct s.
Qed.

(** Closing a connection without writes in flight. *)
Definition closed_client (i fd : Z) (s : srv) : srv :=
  let s := set_active (active_connections s ∖ {[i]}) s in
  let s := srv_obs (ran_server s) (is_active s) (closed s ++ [fd]) (eventfd_writes s) (wire s) s in
  set_freed ({[i]} ∪ freed_indexes s) s.

Lemma close_connection_inv s i c :
  write_inv None s → vget (clients s) i = Ok c →
  ∃ s', close_connection i s = Ok (tt, s') ∧ write_inv None s' ∧
    s' = if decide (num_write_reqs c = 0) then closed_client i (cl_sockfd c) s else s.
Proof.
  intros [Hc Hh] Hv. pose proof (vget_range _ _ _ Hv) as Hr.
  pose proof (ci_clients _ _ _ Hc i c Hv) as Hok. unfold client_ok in Hok.
  unfold close_connection. rewrite (M_bind_run _ _ _ _ _ (get_client_run _ _ _ Hv)).
  destruct (write_reqs (ring s) i) as [|w [|]] eqn:Er; [| |done].
  - destruct Hok as [Hnum [Hq|?]]; [|done]. rewrite Hnum. simpl.
    set (s1 := set_active (active_connections s ∖ {[i]}) s).
    rewrite (M_bind_run _ _ _ tt s1) by done.
    rewrite (M_bind_run _ _ _ tt s1) by by eapply send_clear_nil.
    eexists. split; [done|]. split; [|done]. split; [|by destruct Hh; split].
    destruct Hc as [Hx Hd Hcl Hs]. split; simpl; [| | |done].
    + intros j. rewrite Hx. destruct (decide (j = i)) as [->|Hj].
      * split; [set_solver|]. intros _. by apply Hx.
      * set_solver.
    + set_solver.
    + intros j cj Hj. specialize (Hcl j cj Hj). unfold client_ok in *.
      destruct (write_reqs (ring s) j) as [|q [|]] eqn:Ej; [done| |done].
      destruct Hcl as (? & ? & ? & ?). split_and!; [done| |done|done].
      assert (j ≠ i) by congruence. set_solver.
  - destruct Hok as (Hnum & _). rewrite Hnum. simpl. by exists s.
Qed.

Definition fresh_client (id fd : Z) : client unit :=
  cl_set_sockfd fd (cl_set_id id (new_client tt)).

Lemma setup_reuse_run s fd i c :
  set_begin (freed_indexes s) = Some i → vget (clients s) i = Ok c → send_data c = [] →
  setup_client tt fd s = Ok (i,
    set_clients (<[Z.to_nat i := fresh_client (Z.rem (cl_id c + 1) 100) fd]> (clients s))
      (set_freed (freed_indexes s ∖ {[i]}) s)).
Proof.
  intros Hb Hv Hq. pose proof (vget_range _ _ _ Hv) as Hr. unfold setup_client.
  rewrite (M_bind_run _ _ _ s s) by done. rewrite Hb.
  set (s1 := set_freed (freed_indexes s ∖ {[i]}) s).
  set (c1 := cl_set_id (Z.rem (cl_id c + 1) 100) (new_client tt)).
  set (s2 := set_clients (<[Z.to_nat i := c1]> (clients s)) s1).
  assert (vget (clients s2) i = Ok c1) as Hv2 by by apply vget_insert_eq.
  rewrite (M_bind_run _ _ s i s2).
  - rewrite (M_bind_run _ _ _ _ _ (upd_client_run _ _ _ _ Hv2)). simpl.
    by rewrite list_insert_insert_eq.
  - rewrite (M_bind_run _ _ _ tt s1) by done.
    rewrite (M_bind_run _ _ _ _ _ (get_client_run i s1 c Hv)).
    rewrite (M_bind_run _ _ _ tt s1) by by eapply send_clear_nil.
    by rewrite (M_bind_run _ _ _ _ _ (upd_client_run i _ s1 c Hv)).
Qed.

Lemma setup_new_run s fd :
  set_begin (freed_indexes s) = None →
  setup_client tt fd s = Ok (len (clients s),
    set_clients (clients s ++ [cl_set_sockfd fd (new_client tt)]) s).
Proof.
  intros Hb. unfold setup_client. rewrite (M_bind_run _ _ _ s s) by done. rewrite Hb.
  set (s1 := set_clients (clients s ++ [new_client tt]) s).
  rewrite (M_bind_run _ _ s (len (clients s)) s1).
  2: { rewrite (M_bind_run _ _ _ tt s1) by done. len_norm.
       by replace (len (clients s) + (1 + 0) - 1) with (len (clients s)) by lia. }
  assert (vget (clients s1) (len (clients s)) = Ok (new_client tt)) as Hv.
  { simpl. rewrite vget_app_r by lia. by rewrite Z.sub_diag. }
  rewrite (M_bind_run _ _ _ _ _ (upd_client_run _ _ _ _ Hv)). simpl. unfold len.
  rewrite Nat2Z.id, insert_app_r_alt, Nat.sub_diag by lia. done.
Qed.

Lemma no_write_reqs n r i : Forall (sqe_ok n) r → n ≤ i → write_reqs r i = [].
Proof.
  intros Hs Hi. unfold write_reqs. induction Hs as [|q r [Hw _ Hc _] Hs IH]; [done|].
  rewrite filter_cons_False; [done|]. intros [Hop <-]. apply Hw in Hop. rewrite Hop in Hc.
  destruct (Hc eq_refl). lia.
Qed.

Lemma sqe_ok_mono n m q : n ≤ m → sqe_ok n q → sqe_ok m q.
Proof. intros Hnm [? ? Hc ?]. split; [done|done| |done]. intros Hce. destruct (Hc Hce). split; [done|lia]. Qed.

Lemma reuse_inv s i c c' :
  write_inv None s → i ∈ freed_indexes s → vget (clients s) i = Ok c → send_data c = [] →
  send_data c' = [] → num_write_reqs c' = 0 → write_reqs (ring s) i = [] →
  write_inv None (set_active ({[i]} ∪ active_connections s)
    (set_clients (<[Z.to_nat i := c']> (clients s)) (set_freed (freed_indexes s ∖ {[i]}) s))).
Proof.
  intros [Hc Hh] Hi Hv Hq Hq' Hn Er. split.
  2: { by apply (heap_same_queue no_extra s _ i c c'); [| | |rewrite Hq| |]. }
  pose proof (ci_disj _ _ _ Hc).
  eapply (conn_update no_extra None None (ring s) (ring s) s _ i c);
    [done|done|done|done| | | |by intros h b' u Hb; eauto| |apply Hc]; simpl.
  - apply set_eq. intros j. destruct (decide (j = i)); set_solver.
  - set_solver.
  - intros j Hj. split; [done|]. split; [set_solver|done].
  - unfold client_ok. rewrite Er. split; [done|by left].
Qed.

Lemma grow_inv s c' :
  write_inv None s → send_data c' = [] → num_write_reqs c' = 0 →
  write_inv None (set_active ({[len (clients s)]} ∪ active_connections s)
    (set_clients (clients s ++ [c']) s)).
Proof.
  intros [[Hx Hd Hcl Hs] Hh] Hq Hn.
  assert (len (clients s) ∉ active_connections s ∪ freed_indexes s) as Hnin.
  { rewrite <-Hx. lia. }
  split.
  - split; simpl.
    + intros j. len_norm. pose proof (len_nonneg (clients s)).
      destruct (decide (j = len (clients s))) as [->|Hj]; [set_solver by lia|].
      rewrite <-(assoc_L (∪)), elem_of_union, <-Hx, elem_of_singleton. lia.
    + set_solver.
    + intros j cj Hj. destruct (decide (j < len (clients s))).
      * rewrite vget_app_l in Hj by done. specialize (Hcl j cj Hj). unfold client_ok in *.
        destruct (write_reqs (ring s) j) as [|q [|]]; [done| |done].
        destruct Hcl as (? & ? & ?). split; [done|]. split; [set_solver|done].
      * pose proof (vget_range _ _ _ Hj) as Hr. len_norm.
        rewrite len_app, len_cons in Hr. change (len []) with 0 in Hr.
        replace j with (len (clients s)) in * by lia.
        rewrite vget_app_r, Z.sub_diag in Hj by lia. injection Hj as <-.
        unfold client_ok. rewrite (no_write_reqs (len (clients s))) by (done || lia).
        split; [done|by left].
    + eapply Forall_impl; [exact Hs|]. intros q. apply sqe_ok_mono. len_norm. lia.
  - destruct Hh as [Hu Hl Hnx Ha Hdp].
    set (s' := set_active _ _).
    assert (all_queued s' = all_queued s) as Hall by by apply queued_snoc.
    by split; rewrite ?Hall.
Qed.

(** A new connection: the smallest free index or a new one. *)
Lemma setup_client_inv s fd :
  write_inv None s →
  ∃ i s', setup_client tt fd s = Ok (i, s') ∧ i ∉ active_connections s ∧
    active_connections s' = active_connections s ∧
    write_inv None (set_active ({[i]} ∪ active_connections s') s') ∧
    (∀ wd, wd ∈ all_queued s' → wd ∈ all_queued s) ∧
    (∃ c, vget (clients s') i = Ok c ∧ cl_sockfd c = fd ∧ send_data c = []).
Proof.
  intros Hinv. pose proof Hinv as [Hc Hh]. pose proof (set_begin_spec (freed_indexes s)) as Hb.
  destruct (set_begin (freed_indexes s)) as [i|] eqn:Eb.
  - destruct Hb as [Hi _]. pose proof Hc as [Hx Hd Hcl Hs].
    assert (i ∉ active_connections s) as Hia by set_solver.
    destruct (vget_is_Ok (clients s) i) as [c Hv]; [apply Hx; set_solver|].
    pose proof (vget_range _ _ _ Hv). pose proof (Hcl i c Hv) as Hok. unfold client_ok in Hok.
    destruct (write_reqs (ring s) i) as [|w [|]] eqn:Er; [|by destruct Hok as (_ & ? & _)|done].
    destruct Hok as [Hnum [Hq|?]]; [|done].
    rewrite (setup_reuse_run s fd i c) by done. do 2 eexists. split_and!; [done|done|done| | |].
    + by apply (reuse_inv s i c (fresh_client (Z.rem (cl_id c + 1) 100) fd) Hinv Hi Hv).
    + destruct (queued_update _ _ _ Hv) as (rest & Hp & Hp').
      intros wd. unfold all_queued. simpl. rewrite Hp', Hp, Hq. done.
    + eexists. split; [by apply vget_insert_eq|done].
  - rewrite setup_new_run by done. do 2 eexists. split_and!; [done| |done| | |].
    + intros Hi. assert (0 ≤ len (clients s) < len (clients s)) as H; [|lia].
      apply (ci_idx _ _ _ Hc). set_solver.
    + by apply (grow_inv s (cl_set_sockfd fd (new_client tt)) Hinv).
    + intros wd. unfold all_queued. simpl. by rewrite queued_snoc.
    + exists (cl_set_sockfd fd (new_client tt)). split; [|done]. simpl.
      rewrite vget_app_r by lia. by rewrite Z.sub_diag.
Qed.

(** ** Completed writes *)

Lemma get_ptr_and_size_run s wd :
  heap_inv no_extra s → wd ∈ all_queued s →
  ∃ n, get_ptr_and_size wd s = Ok ((wd_src wd, n), s) ∧ wd_size (multi_heap s) wd n.
Proof.
  intros Hh Hwd. unfold get_ptr_and_size, wd_src, wd_size.
  destruct (wd_multi wd) as [h|] eqn:Em; [|case_decide; by eexists].
  rewrite (M_bind_run _ _ _ s s) by done. pose proof (hi_uses _ _ Hh h) as Hu.
  apply list_elem_of_split in Hwd as (l1 & l2 & Hl). rewrite Hl, refs_app, refs_cons in Hu.
  rewrite decide_True in Hu by done. pose proof (refs_nonneg h l1). pose proof (refs_nonneg h l2).
  unfold no_extra in Hu. destruct (multi_heap s !! h) as [[b u]|]; [|lia].
  eexists. split; [done|]. by intros b' u' [= <- <-].
Qed.

Lemma in_flight_client i q s :
  conn_inv None (q :: ring s) s → is_write_for i q →
  ∃ c wd rest, vget (clients s) i = Ok c ∧ num_write_reqs c = 1 ∧ i ∈ active_connections s ∧
    send_data c = wd :: rest ∧ req_ok (multi_heap s) c wd q ∧ write_reqs (ring s) i = [].
Proof.
  intros Hc Hq. assert (0 ≤ i < len (clients s)) as Hr.
  { pose proof (ci_sqes _ _ _ Hc) as Hs. apply Forall_cons in Hs as [[Hw _ Hcl _] _].
    destruct Hq as [Hop <-]. apply Hw in Hop. rewrite Hop in Hcl. by apply Hcl. }
  destruct (vget_is_Ok (clients s) i Hr) as [c Hv].
  pose proof (ci_clients _ _ _ Hc i c Hv) as Hok. unfold client_ok in Hok.
  rewrite write_reqs_cons_eq in Hok by done.
  destruct (write_reqs (ring s) i); [|done].
  destruct Hok as (? & ? & _ & wd & rest & ? & ?). exists c, wd, rest. done.
Qed.

Lemma complete_inv i q s c :
  conn_inv None (q :: ring s) s → heap_inv no_extra s → is_write_for i q →
  vget (clients s) i = Ok c → num_write_reqs c = 1 → write_reqs (ring s) i = [] →
  write_inv (Some i) (set_clients (<[Z.to_nat i := cl_set_num_write_reqs 0 c]> (clients s)) s).
Proof.
  intros Hc Hh Hq Hv Hn Hw. split; [|by eapply heap_same_queue].
  eapply (conn_update no_extra None (Some i) (q :: ring s) (ring s) s _ i c);
    [done|done|done|done|done|apply Hc| |by intros h b' u Hb; eauto| |].
  - intros j Hj. rewrite write_reqs_cons_other by (intros [_ H]; destruct Hq; congruence).
    split; [done|]. split; [done|]. split; congruence.
  - unfold client_ok. simpl. rewrite Hw. split; [done|by right].
  - apply (Forall_cons_1 _ q), Hc.
Qed.

(** The rest of what completing a write does: at most a new write is submitted. *)
Record restarted (i : Z) (s s' : srv) : Prop := {
  rs_ring : ∃ new, ring s' = ring s ++ new ∧
    Forall (λ q, is_write_for i q ∧ rq_written (sq_req q) = 0) new;
  rs_heap : ∀ h b u, multi_heap s' !! h = Some (b, u) → ∃ u', multi_heap s !! h = Some (b, u');
  rs_wire : wire s' = wire s
}.

(** Completing a write that is done: the front leaves the queue, and the next
    message, if there is one, is submitted. *)
Lemma write_done_inv i q s :
  conn_inv None (q :: ring s) s → heap_inv no_extra s → is_write_for i q →
  ∃ c wd rest s', vget (clients s) i = Ok c ∧ send_data c = wd :: rest ∧
    write_done (sq_req q) s = Ok (additional_info wd, s') ∧ write_inv None s' ∧
    only_client i rest s s' ∧ restarted i s s'.
Proof.
  intros Hc Hh Hq. destruct (in_flight_client _ _ _ Hc Hq) as
    (c & wd & rest & Hv & Hn & Hi & Hsd & Hro & Hw).
  pose proof (vget_range _ _ _ Hv) as Hr.
  pose proof (complete_inv _ _ _ _ Hc Hh Hq Hv Hn Hw) as Hinv1.
  set (c1 := cl_set_num_write_reqs 0 c) in *. set (s1 := set_clients _ s) in *.
  assert (vget (clients s1) i = Ok c1) as Hv1 by by apply vget_insert_eq.
  destruct (send_pop_inv (Some i) s1 i c1 wd rest) as (s2 & E2 & Hinv2 & Ho2);
    [done|by right|done|done|done|].
  destruct (only_heap_conn _ _ Ho2) as (Ec2 & Ea2 & Ef2 & Er2 & _ & _ & Ew2).
  simpl in Ec2, Ea2, Ef2, Er2, Ew2. rewrite list_insert_insert_eq in Ec2. set (c2 := cl_set_send_data rest c1) in *.
  assert (vget (clients s2) i = Ok c2) as Hv2 by (rewrite Ec2; by apply vget_insert_eq).
  exists c, wd, rest.
  assert (only_client i rest s s2) as Honly2.
  { split; [|done|done]. exists c, c2. done. }
  assert (∀ k, (write_done (sq_req q) s = Ok (additional_info wd, k) ↔
    (mwhen (0 <? len rest) (send_front i ≫= λ data_ref, get_ptr_and_size data_ref ≫= λ stuff,
      add_write_req i WRITE stuff.1 stuff.2 ≫= λ _, mret tt)) s2 = Ok (tt, k))) as Hdone.
  { intros k. unfold write_done. destruct Hq as [_ Hidx]. rewrite Hidx.
    rewrite (M_bind_run _ _ s tt s1) by (by rewrite (upd_client_run _ _ _ _ Hv), Hn).
    rewrite (M_bind_run _ _ _ _ _ (get_client_run _ _ _ Hv1)).
    rewrite (M_bind_run _ _ _ s1 s1) by done. rewrite bool_decide_true by done.
    change (cl_id c1) with (cl_id c). rewrite (ro_ID _ _ _ _ Hro), Z.eqb_refl. simpl.
    rewrite (M_bind_run _ _ _ _ _ (send_front_run _ _ _ _ _ Hv1 Hsd)).
    rewrite (M_bind_run _ _ _ _ _ E2), (M_bind_run _ _ _ _ _ (queue_size_run _ _ _ Hv2)).
    change (send_data c2) with rest. unfold mbind at 1, M_bind at 1.
    destruct (mwhen _ _ s2) as [[[] k']|]; [|done]. split; [by intros [= ->]|by intros [= ->]]. }
  destruct rest as [|wd2 rest].
  - exists s2. split_and!; [done|done|by apply Hdone|by eapply closing_idle|done|].
    split; [|apply Ho2|done]. exists []. rewrite app_nil_r. by split; [|constructor].
  - destruct (get_ptr_and_size_run s2 wd2) as (n & En & Hsize); [apply Hinv2| |].
    { eapply queued_elem; [exact Hv2|]. simpl. set_solver. }
    destruct (restart_inv s2 i c2 wd2 rest n) as (s3 & E3 & Hinv3 & Ho3 & Eh3 & Er3 & Ew3);
      [done|done|done|by rewrite Ea2|done|].
    exists s3. split_and!; [done|done| |done| |].
    + apply Hdone. rewrite (proj2 (Z.ltb_lt _ _)) by (len_norm; len_facts; lia). simpl.
      rewrite (M_bind_run _ _ _ _ _ (send_front_run _ _ _ wd2 rest Hv2 eq_refl)).
      rewrite (M_bind_run _ _ _ _ _ En). simpl. by rewrite (M_bind_run _ _ _ _ _ E3).
    + destruct Ho3 as [(cx & c3 & Hx & Ec3 & ? & ? & ?) ? ?]. rewrite Hv2 in Hx. injection Hx as <-.
      split; [|congruence|congruence]. exists c, c3. split_and!; [done| |done|done|done].
      by rewrite Ec3, Ec2, list_insert_insert_eq.
    + split; [|rewrite Eh3; apply Ho2|congruence]. rewrite Er3, Er2. eexists. split; [done|].
      constructor; [|constructor]. done.
Qed.

Lemma req_total_range heap c wd q : req_ok heap c wd q → 0 ≤ rq_total_length (sq_req q) < 2 ^ 32.
Proof. intros [? ? ? ? ? ? (n & _ & ->)]. apply to_u32_range. Qed.

Lemma req_len heap c wd q :
  req_ok heap c wd q → sq_len q = rq_total_length (sq_req q) - rq_written (sq_req q).
Proof.
  intros H. pose proof (req_total_range _ _ _ _ H). destruct H. rewrite ro_len0.
  apply to_u32_small. lia.
Qed.

(** Completing a part of a write: the rest is submitted from where it stopped. *)
Lemma write_continued_inv i q s res :
  conn_inv None (q :: ring s) s → heap_inv no_extra s → is_write_for i q →
  0 < res ≤ sq_len q →
  ∃ c wd rest q' , vget (clients s) i = Ok c ∧ send_data c = wd :: rest ∧
    add_write_req_continued (sq_req q) res s = Ok (0, set_ring (ring s ++ [q']) s) ∧
    write_inv None (set_ring (ring s ++ [q']) s) ∧
    is_write_for i q' ∧ rq_written (sq_req q') = rq_written (sq_req q) + res.
Proof.
  intros Hc Hh Hq Hres. destruct (in_flight_client _ _ _ Hc Hq) as
    (c & wd & rest & Hv & Hn & Hi & Hsd & Hro & Hw).
  pose proof (req_len _ _ _ _ Hro) as Hlen. pose proof (ro_written _ _ _ _ Hro) as Hwr.
  destruct (get_ptr_and_size_run s wd Hh) as (n & En & Hsize).
  { eapply queued_elem; [exact Hv|]. rewrite Hsd. set_solver. }
  pose proof Hq as [Hop Hidx].
  set (req := rq_set_written (rq_written (sq_req q) + res) (sq_req q)).
  set (q' := prep_write (cl_sockfd c) (wd_src wd) (rq_written req)
    (to_u32 (rq_total_length req - rq_written req)) req).
  assert (is_write_for i q') as Hq' by done.
  exists c, wd, rest, q'. split_and!; [done|done| | |done|done].
  - unfold add_write_req_continued. rewrite Hidx.
    rewrite (M_bind_run _ _ _ _ _ (get_client_run _ _ _ Hv)).
    rewrite (M_bind_run _ _ _ _ _ (send_front_run _ _ _ _ _ Hv Hsd)).
    by rewrite (M_bind_run _ _ _ _ _ En).
  - split; [|by destruct Hh; split]. apply (conn_inv_perm _ (q' :: ring s)); [solve_Permutation|].
    destruct Hc as [Hx Hd Hcl Hs]. split; simpl; try done.
    + intros j cj Hj. specialize (Hcl j cj Hj). unfold client_ok in *.
      destruct (decide (j = i)) as [->|Hne].
      * rewrite write_reqs_cons_eq in Hcl by done. rewrite write_reqs_cons_eq, Hw by done.
        rewrite Hv in Hj. injection Hj as <-. split_and!; [done..|]. exists wd, rest.
        split; [done|]. destruct Hro. split; try done. simpl. lia.
      * rewrite write_reqs_cons_other in Hcl by (intros [_ ?]; congruence).
        rewrite write_reqs_cons_other; [done|]. intros [_ H]. simpl in H. congruence.
    + apply Forall_cons in Hs as [[Hso Hsa Hsc Hsr] Hs]. constructor; [|done].
      split; simpl; [by rewrite <-Hso|rewrite <-Hsa; by destruct Hq as [-> _]|done|done].
Qed.

(** The address of a queued write leads to its bytes. *)
Lemma queued_bytes_run s wd :
  heap_inv no_extra s → wd ∈ all_queued s → queued_bytes (clients s) (wd_addr wd) = Some (wd_buff wd).
Proof.
  intros Hh Hwd. pose proof (hi_addr_dup _ _ Hh) as Hd. unfold queued_bytes. fold (all_queued s).
  apply list_elem_of_split in Hwd as (l1 & l2 & Hl). rewrite Hl in *.
  rewrite fmap_app, fmap_cons in Hd. apply NoDup_app in Hd as (_ & Hdis & _).
  rewrite filter_app, filter_cons_True by done.
  replace (filter _ l1) with (@nil write_data); [done|]. symmetry.
  clear Hl. induction l1 as [|x l1 IH]; [done|]. rewrite filter_cons_False.
  - apply IH. intros a Ha. apply Hdis. simpl. set_solver.
  - intros Hx. apply (Hdis (wd_addr x)); simpl; [set_solver|]. rewrite Hx. set_solver.
Qed.

Lemma to_u32_le n : 0 ≤ n → to_u32 n ≤ n.
Proof. intros H. apply Z.mod_le; lia. Qed.
