(* ===== verification/NonTlsLoop.v ===== *)
(** * The event loop of the plain server

    Safety of [start] for any callbacks that keep to their contract: no completion
    the kernel may deliver makes the loop pop an empty queue, touch a freed
    [multi_write] or read from a write buffer that is gone, and the invariant of
    NonTls.v holds between completions.

    The contract is a class, [GoodCallbacks], so that the web server discharges it
    for its own callbacks. *)

From S2P Require Import Prelude ServerBase NonTls.
From Stdlib Require Import ZArith Lia.
From stdpp Require Import base gmap strings list fin_maps sets.

#[local] Open Scope Z_scope.

(** ** Contract *)

(** What a connection's descriptor and queue are, per client. *)
Definition conns (s : srv) : list (Z * list write_data) :=
  (λ c, (cl_sockfd c, send_data c)) <$> clients s.

Section Contract.
Context {W : Type}.
Variable mem : W → char_ptr → result (list char).
(** What the callbacks need of the state they share. *)
Variable K : W → Prop.

(** The pointers given to the server are valid for the length given with them. *)
Definition ptrs_ok (s : srv) (w : W) : Prop :=
  ∀ wd, wd ∈ all_queued s → wd_multi wd = None → wd_ptr_buff wd ≠ PNull →
    ∃ b, mem w (wd_ptr_buff wd) = Ok b ∧ to_u32 (wd_total_length wd) ≤ len b.

(** The state of the loop; [cl] is the connection being closed. *)
Record loop_inv (cl : option Z) (s : srv) (w : W) : Prop := {
  li_write : write_inv cl s;
  li_K : K w;
  li_ptrs : ptrs_ok s w
}.

(** A callback that runs to its end and keeps the invariant. *)
Definition safe_call (cl : option Z) (f : M (srv * W) unit) : Prop :=
  ∀ s w, loop_inv cl s w →
    ∃ s' w', f (s, w) = Ok (tt, (s', w')) ∧ loop_inv cl s' w' ∧
             len (clients s') = len (clients s).

(** The same for a callback about connection [i], which is active. *)
Definition live_call (i : Z) (f : M (srv * W) unit) : Prop :=
  ∀ s w, loop_inv None s w → i ∈ active_connections s →
    ∃ s' w', f (s, w) = Ok (tt, (s', w')) ∧ loop_inv None s' w' ∧
             len (clients s') = len (clients s).

(** One that writes to no connection. *)
Definition quiet_call (cl : option Z) (f : M (srv * W) unit) : Prop :=
  ∀ s w, loop_inv cl s w →
    ∃ s' w', f (s, w) = Ok (tt, (s', w')) ∧ loop_inv cl s' w' ∧ conns s' = conns s.

Class GoodCallbacks (cb : callbacks unit W) : Prop := {
  gc_accept f i : accept_cb cb = Some f → live_call i (f i);
  gc_close f i info : close_cb cb = Some f → quiet_call (Some i) (f i info);
  gc_read f i b n : read_cb cb = Some f → live_call i (f i b n);
  gc_write f i info : write_cb cb = Some f → live_call i (f i info);
  gc_event f : event_cb cb = Some f → safe_call None f;
  gc_custom f i fd b : custom_read_cb cb = Some f → safe_call None (f i fd b)
}.

(** What the kernel may deliver for a submitted request: a wait that does not fail, no more bytes than asked
    for and, for a custom read, than fit into its buffer; no data for a connection
    that was closed, if the loop takes it for the current one; when the timer
    fires, the connections whose peer is gone have nothing queued. *)
Record cqe_ok (s : srv) (e : cqe) (q : sqe) : Prop := {
  eo_wait : cq_wait e = 0;
  eo_pos : ring s !! cq_pos e = Some q;
  eo_res : - 2 ^ 31 ≤ cq_res e < 2 ^ 31;
  eo_len : sq_op q ≠ IoAccept → cq_res e ≤ sq_len q;
  eo_data : sq_op q = IoRead → 0 < cq_res e → len (cq_data e) = cq_res e;
  eo_fits : rq_event (sq_req q) = CUSTOM_READ → 0 < cq_res e →
    0 ≤ sq_buf_off q ∧ sq_buf_off q + cq_res e ≤ len (rq_read_data (sq_req q));
  eo_live : rq_event (sq_req q) = READ → 0 < cq_res e →
    (∀ c, vget (clients s) (rq_client_idx (sq_req q)) = Ok c →
       0 < rq_client_idx (sq_req q) → cl_id c = rq_ID (sq_req q)) →
    rq_client_idx (sq_req q) ∈ active_connections s;
  eo_iter : IterOrder (cq_iter e);
  eo_idle : rq_event (sq_req q) = TIMERFD → ∀ i c, i ∈ active_connections s →
    vget (clients s) i = Ok c → cq_peek e (cl_sockfd c) = 0 → send_data c = []
}.

(** While request [q] is handled it is no longer in the ring. *)
Record hole_inv (q : sqe) (s : srv) (w : W) : Prop := {
  ho_conn : conn_inv None (q :: ring s) s;
  ho_heap : heap_inv no_extra s;
  ho_K : K w;
  ho_ptrs : ptrs_ok s w
}.

(** One round of the loop that does not end it. *)
Definition server_step (cb : callbacks unit W) (sw sw' : srv * W) : Prop :=
  ∃ e q, cqe_ok sw.1 e q ∧ loop_step cb mem e sw = Ok (true, sw').

(** A sequence of completions each of which the kernel may deliver when it does. *)
Fixpoint legal_run (cb : callbacks unit W) (es : list cqe) (sw : srv * W) : Prop :=
  match es with
  | [] => True
  | e :: es =>
      (∃ q, cqe_ok sw.1 e q) ∧
      ∀ sw', loop_step cb mem e sw = Ok (true, sw') → legal_run cb es sw'
  end.

End Contract.

(** The server when [start] has submitted the first accept. *)
Definition started (listener timer notification kill : Z) : srv :=
  let s := new_server listener timer notification kill in
  let s := srv_obs true (is_active s) (closed s) (eventfd_writes s) (wire s) s in
  set_ring (ring s ++ [{| sq_op := IoAccept; sq_fd := listener_fd s; sq_src := None;
    sq_buf_off := 0; sq_len := 0; sq_off := 0; sq_req := new_request ACCEPT |}]) s.

(** * Lemmas *)

Section Lemmas.
Context {W : Type}.
Variable mem : W → char_ptr → result (list char).
Variable K : W → Prop.
Variable cb : callbacks unit W.
Context `{!GoodCallbacks mem K cb}.

Lemma conns_client s s' i c :
  conns s' = conns s → vget (clients s) i = Ok c →
  ∃ c', vget (clients s') i = Ok c' ∧ cl_sockfd c' = cl_sockfd c ∧ send_data c' = send_data c.
Proof.
  intros Hc [Hi Hv]%vget_lookup. assert (conns s' !! Z.to_nat i = Some (cl_sockfd c, send_data c)) as H.
  { rewrite Hc. unfold conns. by rewrite list_lookup_fmap, Hv. }
  unfold conns in H. rewrite list_lookup_fmap in H. apply fmap_Some in H as (c' & Hc' & [= -> ->]).
  exists c'. split; [by apply vget_lookup|done].
Qed.

Lemma conns_len s s' : conns s' = conns s → len (clients s') = len (clients s).
Proof.
  intros H%(f_equal length). unfold conns in H. rewrite !length_fmap in H. unfold len. by rewrite H.
Qed.

(** Dequeueing and clearing keep the pointers valid. *)
Lemma ptrs_ok_sub s s' (w : W) :
  (∀ wd, wd ∈ all_queued s' → wd ∈ all_queued s) → ptrs_ok mem s w → ptrs_ok mem s' w.
Proof. intros H Hp wd Hwd. by apply Hp, H. Qed.

Lemma queued_of_update (cls : list (client unit)) i c c' wd :
  vget cls i = Ok c → (∀ x, x ∈ send_data c' → x ∈ send_data c) →
  wd ∈ concat (send_data <$> <[Z.to_nat i := c']> cls) → wd ∈ concat (send_data <$> cls).
Proof.
  intros (rest & Hp & Hp')%queued_update Hsub. rewrite Hp, Hp'. set_solver.
Qed.

Lemma ptrs_ok_update s s' i c c' (w : W) :
  vget (clients s) i = Ok c → clients s' = <[Z.to_nat i := c']> (clients s) →
  (∀ x, x ∈ send_data c' → x ∈ send_data c) → ptrs_ok mem s w → ptrs_ok mem s' w.
Proof.
  intros Hv E Hsub. apply ptrs_ok_sub. intros wd. unfold all_queued. rewrite E.
  by apply (queued_of_update _ _ c).
Qed.

Lemma conns_update s s' i c c' :
  vget (clients s) i = Ok c → clients s' = <[Z.to_nat i := c']> (clients s) →
  cl_sockfd c' = cl_sockfd c → send_data c' = send_data c → conns s' = conns s.
Proof.
  intros [_ Hv]%vget_lookup E Hf Hq. unfold conns. rewrite E, list_fmap_insert, Hf, Hq.
  apply list_insert_id. by rewrite list_lookup_fmap, Hv.
Qed.

(** Calling a callback that may be missing. *)
Lemma call_safe {A} (f : option A) (k : A → M (srv * W) unit) cl s w :
  (∀ a, f = Some a → safe_call mem K cl (k a)) → loop_inv mem K cl s w →
  ∃ s' w', call f k (s, w) = Ok (tt, (s', w')) ∧ loop_inv mem K cl s' w' ∧
           len (clients s') = len (clients s).
Proof.
  intros H Hinv. destruct f as [a|]; simpl; [|by exists s, w]. by apply (H a eq_refl).
Qed.

Lemma call_live {A} (f : option A) (k : A → M (srv * W) unit) i s w :
  (∀ a, f = Some a → live_call mem K i (k a)) → loop_inv mem K None s w →
  i ∈ active_connections s →
  ∃ s' w', call f k (s, w) = Ok (tt, (s', w')) ∧ loop_inv mem K None s' w' ∧
           len (clients s') = len (clients s).
Proof.
  intros H Hinv Hi. destruct f as [a|]; simpl; [|by exists s, w]. by apply (H a eq_refl).
Qed.

Lemma call_quiet {A} (f : option A) (k : A → M (srv * W) unit) cl s w :
  (∀ a, f = Some a → quiet_call mem K cl (k a)) → loop_inv mem K cl s w →
  ∃ s' w', call f k (s, w) = Ok (tt, (s', w')) ∧ loop_inv mem K cl s' w' ∧ conns s' = conns s.
Proof.
  intros H Hinv. destruct f as [a|]; simpl; [|by exists s, w]. by apply (H a eq_refl).
Qed.

(** ** Closing *)

Lemma closing_no_writes i s c :
  write_inv (Some i) s → vget (clients s) i = Ok c → write_reqs (ring s) i = [] ∧ num_write_reqs c = 0.
Proof.
  intros [Hc _] Hv. pose proof (ci_clients _ _ _ Hc i c Hv) as Hok. unfold client_ok in Hok.
  destruct (write_reqs (ring s) i) as [|q [|]]; [|by destruct Hok as (_ & _ & ? & _)|done].
  split; [done|apply Hok].
Qed.

(** The close callbacks leave the queue alone, so the loop that empties it takes
    one round per queued write. *)
Lemma drain_run i s w c :
  loop_inv mem K (Some i) s w → vget (clients s) i = Ok c →
  ∃ s' w' c', drain cb (length (send_data c)) i (s, w) = Ok (tt, (s', w')) ∧
    loop_inv mem K (Some i) s' w' ∧ vget (clients s') i = Ok c' ∧ send_data c' = [] ∧
    cl_sockfd c' = cl_sockfd c ∧
    (send_data c = [] → s' = s) ∧ len (clients s') = len (clients s).
Proof.
  remember (send_data c) as l eqn:Hl. revert s w c Hl. induction l as [|wd l IH]; intros s w c Hl Hinv Hv.
  - exists s, w, c. split_and!; try done. simpl.
    rewrite (on_server_bind _ _ _ _ _ _ (get_client_run _ _ _ Hv)), <-Hl. done.
  - simpl. rewrite (on_server_bind _ _ _ _ _ _ (get_client_run _ _ _ Hv)), <-Hl.
    destruct (call_quiet (close_cb cb) (λ f, f i (additional_info wd)) (Some i) s w) as
      (s1 & w1 & E1 & Hinv1 & Hconn1); [by intros f Hf; eapply gc_close|done|].
    rewrite (M_bind_run _ _ _ _ _ E1).
    destruct (conns_client _ _ _ _ Hconn1 Hv) as (c1 & Hv1 & Hfd1 & Hq1).
    destruct (closing_no_writes i s1 c1) as [Hw1 _]; [apply Hinv1|done|].
    destruct (send_pop_inv (Some i) s1 i c1 wd l) as (s2 & E2 & Hinv2 & Ho2);
      [apply Hinv1|by right|done|congruence|done|].
    destruct (only_heap_conn _ _ Ho2) as (Ec2 & _). simpl in Ec2.
    rewrite (on_server_bind _ _ _ _ _ _ E2).
    assert (vget (clients s2) i = Ok (cl_set_send_data l c1)) as Hv2.
    { rewrite Ec2. apply vget_insert_eq. by eapply vget_range. }
    destruct (IH s2 w1 (cl_set_send_data l c1)) as (s3 & w3 & c3 & E3 & Hinv3 & Hv3 & Hq3 & Hfd3 & _ & Hlen3);
      [done| |done|].
    { split; [done|apply Hinv1|]. eapply ptrs_ok_update; [exact Hv1|exact Ec2| |apply Hinv1].
      simpl. intros x Hx. rewrite Hq1, <-Hl. set_solver. }
    exists s3, w3, c3. split_and!; [done|done|done|done|by rewrite Hfd3|done|].
    rewrite Hlen3, Ec2, len_insert. by apply conns_len.
Qed.

Lemma loop_inv_closed i c s w :
  vget (clients s) i = Ok c → write_inv None (closed_client i (cl_sockfd c) s) →
  loop_inv mem K None s w → loop_inv mem K None (closed_client i (cl_sockfd c) s) w.
Proof. intros _ H []. by split. Qed.

(** Ending a connection that has no write in flight. *)
Lemma close_client_run i s w c :
  loop_inv mem K (Some i) s w → vget (clients s) i = Ok c →
  ∃ s' w', close_client cb i (s, w) = Ok (tt, (s', w')) ∧ loop_inv mem K None s' w' ∧
    len (clients s') = len (clients s) ∧ i ∉ active_connections s' ∧
    (send_data c = [] → conns s' = conns s).
Proof.
  intros Hinv Hv. unfold close_client.
  rewrite (on_server_bind _ _ _ _ _ _ (get_client_run _ _ _ Hv)).
  destruct (drain_run i s w c Hinv Hv) as (s1 & w1 & c1 & E1 & Hinv1 & Hv1 & Hq1 & Hfd1 & Hsame & Hlen1).
  rewrite (M_bind_run _ _ _ _ _ E1), (on_server_bind _ _ _ _ _ _ (get_client_run _ _ _ Hv1)).
  rewrite Hq1. simpl.
  destruct (call_quiet (close_cb cb) (λ f, f i (-1)) (Some i) s1 w1) as
    (s2 & w2 & E2 & Hinv2 & Hconn2); [by intros f Hf; eapply gc_close|done|].
  rewrite (M_bind_run _ _ _ _ _ E2).
  destruct (conns_client _ _ _ _ Hconn2 Hv1) as (c2 & Hv2 & Hfd2 & Hq2).
  assert (write_inv None s2) as Hidle by (apply (closing_idle s2 i c2); [apply Hinv2|done|congruence]).
  destruct (close_connection_inv s2 i c2 Hidle Hv2) as (s3 & E3 & Hinv3 & Hs3).
  rewrite decide_True in Hs3 by (by eapply (closing_no_writes i s2 c2); [apply Hinv2|]).
  exists s3, w2. split_and!.
  - by apply on_server_run.
  - rewrite Hs3 in Hinv3 |- *. apply loop_inv_closed; [done|done|]. destruct Hinv2. by split.
  - rewrite Hs3. simpl. rewrite (conns_len _ _ Hconn2). done.
  - rewrite Hs3. simpl. set_solver.
  - intros Hq. rewrite Hs3. rewrite (Hsame Hq) in Hconn2. done.
Qed.

(** ** Handling one completion *)

Lemma take_write_inv s n q :
  write_inv None s → ring s !! n = Some q →
  let s' := set_ring (delete n (ring s)) s in conn_inv None (q :: ring s') s' ∧ heap_inv no_extra s'.
Proof.
  intros [Hc Hh] Hn. split; [|by destruct Hh; split]. apply (conn_inv_perm _ (ring s)).
  - simpl. by apply delete_Permutation.
  - destruct Hc. by split.
Qed.

Lemma drop_other cl q r s : sq_op q ≠ IoWrite → conn_inv cl (q :: r) s → conn_inv cl r s.
Proof.
  intros Hq [Hx Hd Hcl Hs]. split; [done|done| |by apply Forall_cons in Hs as [_ ?]].
  intros i c Hv. eapply client_ok_perm; [|by apply Hcl]. by rewrite write_reqs_cons_other by by intros [? _].
Qed.

Lemma hole_other q s w : sq_op q ≠ IoWrite → hole_inv mem K q s w → loop_inv mem K None s w.
Proof. intros Hq []. split; [|done|done]. split; [by eapply drop_other|done]. Qed.

Lemma idle_closing s i c :
  write_inv None s → vget (clients s) i = Ok c → num_write_reqs c = 0 → write_inv (Some i) s.
Proof.
  intros [[Hx Hd Hcl Hs] Hh] Hv Hn. split; [|done]. split; try done.
  intros j cj Hj. specialize (Hcl j cj Hj). unfold client_ok in *.
  destruct (write_reqs (ring s) j) as [|q [|]].
  - destruct Hcl as [? [?|?]]; [|done]. split; [done|by left].
  - destruct Hcl as (? & ? & _ & ?). split_and!; [done..| |done]. intros [= <-].
    rewrite Hv in Hj. injection Hj as <-. lia.
  - done.
Qed.

Lemma sqe_client q n :
  sqe_ok n q → is_client_event (rq_event (sq_req q)) = true →
  (rq_event (sq_req q) = WRITE ∧ sq_op q = IoWrite ∨ rq_event (sq_req q) = READ ∧ sq_op q ≠ IoWrite) ∧
  0 ≤ rq_client_idx (sq_req q) < n.
Proof.
  intros [Hw _ Hc _] He. destruct (Hc He) as [Hin ?]. split; [|done].
  apply elem_of_cons in Hin as [Hread|Hin].
  - right. split; [done|]. intros Hop%Hw. congruence.
  - apply list_elem_of_singleton in Hin. left. split; [done|by apply Hw].
Qed.

Lemma handle_failed_run q s w res :
  hole_inv mem K q s w → is_client_event (rq_event (sq_req q)) = true → res ≤ 0 →
  ∃ s' w', handle_failed cb (sq_req q) res (s, w) = Ok (tt, (s', w')) ∧ loop_inv mem K None s' w'.
Proof.
  intros Hh He Hres. pose proof Hh as [Hc Hheap HK Hp].
  pose proof (ci_sqes _ _ _ Hc) as [Hq _]%Forall_cons.
  destruct (sqe_client _ _ Hq He) as [[[Hev Hop]|[Hev Hop]] Hr].
  - assert (is_write_for (rq_client_idx (sq_req q)) q) as Hwf by done.
    destruct (in_flight_client _ _ _ Hc Hwf) as (c & wd & rest & Hv & Hn & Hi & Hsd & Hro & Hw).
    unfold handle_failed. rewrite (proj2 (Z.leb_le _ _)) by done.
    rewrite (on_server_bind _ _ _ _ _ _ (get_client_run _ _ _ Hv)).
    rewrite (ro_ID _ _ _ _ Hro), Z.eqb_refl, Hev. simpl.
    rewrite (on_server_bind _ _ _ _ _ _ (upd_client_run _ _ _ _ Hv)), Hn. simpl.
    pose proof (complete_inv _ _ _ _ Hc Hheap Hwf Hv Hn Hw) as Hinv1.
    set (i := rq_client_idx (sq_req q)) in *. set (c1 := cl_set_num_write_reqs 0 c) in *.
    set (s1 := set_clients _ s) in *.
    assert (vget (clients s1) i = Ok c1) as Hv1 by by apply vget_insert_eq.
    rewrite (on_server_bind _ _ _ _ _ _ (get_client_run _ _ _ Hv1)). simpl.
    destruct (close_client_run i s1 w c1) as (s2 & w2 & E2 & Hinv2 & _); [|done|by exists s2, w2].
    split; [done|done|]. by eapply (ptrs_ok_update s s1 i c c1).
  - pose proof (hole_other _ _ _ Hop Hh) as Hinv.
    destruct (vget_is_Ok _ _ Hr) as [c Hv]. unfold handle_failed.
    rewrite (proj2 (Z.leb_le _ _)) by done.
    rewrite (on_server_bind _ _ _ _ _ _ (get_client_run _ _ _ Hv)).
    destruct (cl_id c =? _); [|by exists s, w]. rewrite Hev. simpl.
    rewrite (M_bind_run _ _ _ tt (s, w)) by done.
    rewrite (on_server_bind _ _ _ _ _ _ (get_client_run _ _ _ Hv)).
    destruct (Z.eqb_spec (num_write_reqs c) 0) as [Hn|Hn]; [|by exists s, w]. simpl.
    destruct (close_client_run (rq_client_idx (sq_req q)) s w c) as (s2 & w2 & E2 & Hinv2 & _);
      [|done|by exists s2, w2].
    destruct Hinv. split; [|done|done]. by eapply idle_closing.
Qed.

Lemma submit_loop_inv s w q :
  loop_inv mem K None s w → sqe_ok (len (clients s)) q → sq_op q ≠ IoWrite →
  loop_inv mem K None (set_ring (ring s ++ [q]) s) w.
Proof. intros [[Hc Hh] ? ?] Hq Hop. split; [by apply submit_inv|done|done]. Qed.

Lemma handle_timer_run s w e :
  loop_inv mem K None s w → IterOrder (cq_iter e) →
  (∀ i c, i ∈ active_connections s → vget (clients s) i = Ok c →
     cq_peek e (cl_sockfd c) = 0 → send_data c = []) →
  ∃ s' w', handle_timer cb (cq_peek e) (cq_iter e) (s, w) = Ok (tt, (s', w')) ∧
    loop_inv mem K None s' w'.
Proof.
  intros Hinv Hiter Hidle. unfold handle_timer. rewrite (on_server_bind _ _ _ _ _ s) by done.
  assert (triple (λ sw : srv * W, loop_inv mem K None sw.1 sw.2 ∧ conns sw.1 = conns s)
    (mfor (cq_iter e (active_connections s)) (λ idx,
       on_server (get_client idx) ≫= λ c,
       mwhen (cq_peek e (cl_sockfd c) =? 0) (close_client cb idx)))
    (λ _ sw, loop_inv mem K None sw.1 sw.2 ∧ conns sw.1 = conns s)) as Hloop.
  { apply triple_mfor. intros i Hi%(iter_elem (cq_iter e)) [s1 w1] [Hinv1 Hconn1]. simpl in *.
    destruct (active_client None (ring s) s i) as [c0 Hv0]; [apply Hinv|done|].
    destruct (conns_client _ _ _ _ Hconn1 Hv0) as (c & Hv & Hfd & Hq).
    rewrite (on_server_bind _ _ _ _ _ _ (get_client_run _ _ _ Hv)).
    destruct (Z.eqb_spec (cq_peek e (cl_sockfd c)) 0) as [Hp|]; simpl; [|by exists tt, (s1, w1)].
    rewrite Hfd in Hp. pose proof (Hidle i c0 Hi Hv0 Hp) as Hnil.
    destruct (close_client_run i s1 w1 c) as (s2 & w2 & E2 & Hinv2 & _ & _ & Hsame); [|done|].
    - destruct Hinv1 as [Hwi ? ?]. split; [|done|done]. eapply idle_closing; [done|done|].
      destruct Hwi as [Hc _]. pose proof (ci_clients _ _ _ Hc i c Hv) as Hok. unfold client_ok in Hok.
      destruct (write_reqs (ring s1) i) as [|q [|]]; [apply Hok| |done].
      destruct Hok as (_ & _ & _ & wd & rest & Hsd & _). congruence.
    - exists tt, (s2, w2). split; [done|]. split; [done|]. simpl. rewrite Hsame; congruence. }
  destruct (Hloop (s, w)) as (u & [s1 w1] & E1 & Hinv1 & _); [done|]. destruct u.
  rewrite (M_bind_run _ _ _ _ _ E1). simpl in Hinv1.
  exists (set_ring (ring s1 ++ [timer_sqe (timerfd s1)]) s1), w1. split; [by apply on_server_run|].
  apply submit_loop_inv; [done| |done]. by apply read_sqe_ok.
Qed.

Lemma handle_custom_run s w q res :
  hole_inv mem K q s w → rq_event (sq_req q) = CUSTOM_READ → 
  ∀ d, ∃ s' w', handle_custom_read cb (rq_set_read_data d (sq_req q)) res (s, w) = Ok (tt, (s', w')) ∧
    loop_inv mem K None s' w'.
Proof.
  intros Hh Hev d. assert (loop_inv mem K None s w) as Hinv.
  { apply (hole_other q); [|done]. intros Hop. destruct Hh as [Hc _ _ _].
    pose proof (ci_sqes _ _ _ Hc) as [[Hw _ _] _]%Forall_cons. apply Hw in Hop. congruence. }
  unfold handle_custom_read. destruct (_ =? _).
  - destruct (call_safe (custom_read_cb cb) (λ f, f (rq_client_idx (rq_set_read_data d (sq_req q)))
      (to_i32 (rq_custom_info (rq_set_read_data d (sq_req q))))
      (rq_read_data (rq_set_read_data d (sq_req q)))) None s w) as (s1 & w1 & E & ? & _);
      [by intros f Hf; eapply gc_custom|done|by exists s1, w1].
  - eexists _, w. split; [by eapply on_server_run|]. apply submit_loop_inv; [done| |done].
    apply read_sqe_ok; simpl; by rewrite Hev.
Qed.

Lemma handle_accept_run s w fd :
  loop_inv mem K None s w →
  ∃ s' w', handle_accept cb fd (s, w) = Ok (tt, (s', w')) ∧ loop_inv mem K None s' w'.
Proof.
  intros Hinv. unfold handle_accept.
  set (q := {| sq_op := IoAccept; sq_fd := listener_fd s; sq_src := None; sq_buf_off := 0;
    sq_len := 0; sq_off := 0; sq_req := new_request ACCEPT |}).
  rewrite (on_server_bind _ _ s w tt (set_ring (ring s ++ [q]) s)) by done.
  assert (loop_inv mem K None (set_ring (ring s ++ [q]) s) w) as Hinv1 by by apply submit_loop_inv.
  destruct (setup_client_inv (set_ring (ring s ++ [q]) s) fd) as
    (i & s2 & E2 & Hni & Ha2 & Hinv2 & Hsub & c & Hv & _); [apply Hinv1|].
  rewrite (on_server_bind _ _ _ _ _ _ E2).
  set (s3 := set_active ({[i]} ∪ active_connections s2) s2) in *.
  rewrite (on_server_bind _ _ _ _ tt s3) by done.
  assert (loop_inv mem K None s3 w) as Hinv3.
  { destruct Hinv1. split; [done|done|]. by apply (ptrs_ok_sub (set_ring (ring s ++ [q]) s)). }
  destruct (call_live (accept_cb cb) (λ f, f i) i s3 w) as (s4 & w4 & E4 & Hinv4 & Hlen4);
    [by intros f Hf; eapply gc_accept|done|simpl; set_solver|].
  rewrite (M_bind_run _ _ _ _ _ E4).
  destruct (vget_is_Ok (clients s4) i) as [c4 Hv4].
  { rewrite Hlen4. by apply vget_range in Hv. }
  destruct (add_read_req_inv None s4 i c4) as (n & s5 & E5 & Hinv5 & Ho5); [apply Hinv4|done|].
  rewrite (on_server_bind _ _ _ _ _ _ E5). exists s5, w4. split; [done|].
  destruct Ho5 as [(c' & c5 & Hv' & Hc5 & Hq5 & _) _ _]. rewrite Hv4 in Hv'. injection Hv' as <-.
  destruct Hinv4. split; [done|done|]. eapply ptrs_ok_update; [exact Hv4|exact Hc5| |done].
  by rewrite Hq5.
Qed.

(** ** The kernel's part *)

(** The bytes of a write in flight are there, all of them. *)
Lemma write_bytes i q s w :
  hole_inv mem K q s w → is_write_for i q →
  ∃ src b, sq_src q = Some src ∧ src_bytes mem s w src = Ok b ∧
    rq_total_length (sq_req q) ≤ len b.
Proof.
  intros [Hc Hh _ Hp] Hq. destruct (in_flight_client _ _ _ Hc Hq) as
    (c & wd & rest & Hv & _ & _ & Hsd & Hro & _).
  assert (wd ∈ all_queued s) as Hwd by (eapply queued_elem; [exact Hv|rewrite Hsd; set_solver]).
  destruct (get_ptr_and_size_run s wd Hh Hwd) as (_ & _ & _).
  destruct (ro_total _ _ _ _ Hro) as (n & Hn & ->). rewrite (ro_src _ _ _ _ Hro).
  exists (wd_src wd). unfold wd_src, wd_size in *. destruct (wd_multi wd) as [h|] eqn:Em.
  - destruct (get_ptr_and_size_run s wd Hh Hwd) as (m & Eg & _). unfold get_ptr_and_size in Eg.
    rewrite Em, (M_bind_run _ _ _ s s) in Eg by done. simpl.
    destruct (multi_heap s !! h) as [[b u]|] eqn:Eh; [|done].
    exists b. split_and!; [done|done|]. rewrite (Hn b u) by done. apply to_u32_le, len_nonneg.
  - case_decide as Hptr.
    + destruct (Hp wd Hwd Em Hptr) as (b & Hb & Hle). exists b. subst n. done.
    + exists (wd_buff wd). simpl. rewrite queued_bytes_run by done. subst n.
      split_and!; [done|done|]. apply to_u32_le, len_nonneg.
Qed.

Definition same_but_wire (s s' : srv) : Prop :=
  s' = srv_obs (ran_server s') (is_active s') (closed s') (eventfd_writes s') (wire s') s.

Lemma hole_inv_wire q s w wi :
  hole_inv mem K q s w →
  hole_inv mem K q (srv_obs (ran_server s) (is_active s) (closed s) (eventfd_writes s) wi s) w.
Proof. intros [[] [] HK Hp]. by repeat (split; try done). Qed.

(** What the kernel does succeeds, and only the log of the bytes sent and the
    request's buffer change. *)
Lemma kernel_io_run q s w e s0 :
  hole_inv mem K q s w → cqe_ok s0 e q →
  ∃ r s', kernel_io mem q (cq_res e) (cq_data e) (s, w) = Ok (r, (s', w)) ∧
    hole_inv mem K q s' w ∧ clients s' = clients s ∧ active_connections s' = active_connections s ∧
    (r = sq_req q ∨ sq_op q = IoRead ∧ 0 < cq_res e ∧ ∃ d, r = rq_set_read_data d (sq_req q)).
Proof.
  intros Hh Hok. unfold kernel_io. destruct (Z.leb_spec (cq_res e) 0) as [Hle|Hpos].
  { exists (sq_req q), s. split_and!; try done. by left. }
  pose proof Hh as [Hc _ _ _]. pose proof (ci_sqes _ _ _ Hc) as [Hsq _]%Forall_cons.
  destruct (sq_op q) eqn:Eop.
  - exists (sq_req q), s. split_and!; try done. by left.
  - assert (0 ≤ sq_buf_off q ∧ sq_buf_off q + len (cq_data e) ≤ len (rq_read_data (sq_req q))) as Hfit.
    { rewrite (eo_data _ _ _ Hok) by done.
      destruct (decide (rq_event (sq_req q) = CUSTOM_READ)) as [Hev|Hev]; [by apply Hok|].
      destruct (so_read _ _ Hsq Eop Hev). pose proof (eo_len _ _ _ Hok). rewrite Eop in *.
      assert (cq_res e ≤ sq_len q) by auto. lia. }
    unfold vsplice. rewrite decide_True by done.
    eexists _, s. split_and!; [done|done|done|done|]. right. split_and!; [done|done|]. by eexists.
  - assert (is_write_for (rq_client_idx (sq_req q)) q) as Hq by done.
    destruct (write_bytes _ _ _ _ Hh Hq) as (src & b & -> & Hb & Hlen).
    destruct (in_flight_client _ _ _ Hc Hq) as (c & wd & rest & _ & _ & _ & _ & Hro & _).
    pose proof (req_len _ _ _ _ Hro) as Hl. pose proof (ro_written _ _ _ _ Hro).
    rewrite (ro_off _ _ _ _ Hro), Hb. simpl.
    assert (cq_res e ≤ sq_len q) as Hres by (apply Hok; by rewrite Eop).
    unfold vslice. rewrite decide_True by lia. simpl.
    eexists _, _. split; [done|]. split; [by apply hole_inv_wire|]. split_and!; [done|done|by left].
Qed.

(** ** One round *)

Lemma handle_write_run q s w e s0 :
  hole_inv mem K q s w → cqe_ok s0 e q → rq_event (sq_req q) = WRITE → sq_op q = IoWrite →
  0 < cq_res e →
  ∃ s' w', handle_write cb (sq_req q) (cq_res e) (s, w) = Ok (tt, (s', w')) ∧
    loop_inv mem K None s' w'.
Proof.
  intros [Hc Hh HK Hp] Hok Hev Hop Hpos. set (i := rq_client_idx (sq_req q)).
  assert (is_write_for i q) as Hq by done.
  destruct (in_flight_client _ _ _ Hc Hq) as (c & wd & rest & Hv & _ & Hi & _ & Hro & _).
  assert (cq_res e ≤ sq_len q) as Hres by (apply Hok; by rewrite Hop).
  unfold handle_write. rewrite (on_server_bind _ _ _ _ _ _ (get_client_run _ _ _ Hv)).
  destruct (unfinished _ _).
  - destruct (write_continued_inv i q s (cq_res e) Hc Hh Hq) as
      (c' & wd' & rest' & q' & _ & _ & E & Hinv & _); [lia|].
    rewrite (on_server_bind _ _ _ _ _ _ E). simpl. eexists _, w. split; [done|]. by split.
  - destruct (write_done_inv i q s Hc Hh Hq) as (c' & wd' & rest' & s' & Hv' & Hsd' & E & Hinv & Ho & _).
    rewrite (on_server_bind _ _ _ _ _ _ E).
    assert (loop_inv mem K None s' w) as Hinv'.
    { split; [done|done|]. destruct Ho as [(c1 & c2 & Hv1 & Hc2 & Hq2 & _) _ _].
      eapply ptrs_ok_update; [exact Hv1|exact Hc2| |done].
      rewrite Hv' in Hv1. injection Hv1 as <-. rewrite Hq2, Hsd'. set_solver. }
    assert (i ∈ active_connections s') as Hi' by (by rewrite (oc_active _ _ _ _ Ho)).
    destruct (call_live (write_cb cb) (λ f, f (rq_client_idx (sq_req q)) (additional_info wd')) i s' w)
      as (s2 & w2 & E2 & ? & _); [by intros f Hf; eapply gc_write|done|done|by exists s2, w2].
Qed.

Lemma handle_read_run s w r res :
  loop_inv mem K None s w → rq_client_idx r ∈ active_connections s →
  ∃ s' w', handle_read cb r res (s, w) = Ok (tt, (s', w')) ∧ loop_inv mem K None s' w'.
Proof.
  intros [[Hc Hh] HK Hp] Hr. destruct (active_client _ _ _ _ Hc Hr) as [c Hv]. unfold handle_read.
  rewrite (on_server_bind _ _ _ _ _ _ (upd_client_run _ _ _ _ Hv)).
  set (s1 := set_clients _ s).
  destruct (flags_inv None _ _ s1 _ c false Hc Hh Hv eq_refl) as [Hc1 Hh1].
  assert (loop_inv mem K None s1 w) as Hinv1.
  { split; [done|done|]. by eapply (ptrs_ok_update s s1 _ c). }
  destruct (call_live (read_cb cb) (λ f, f (rq_client_idx r) (rq_read_data r) (to_u32 res))
      (rq_client_idx r) s1 w)
    as (s2 & w2 & E2 & ? & _); [by intros f Hf; eapply gc_read|done|done|by exists s2, w2].
Qed.

Lemma handle_notification_run s w :
  loop_inv mem K None s w →
  ∃ s' w', (on_server (mget ≫= λ s, event_read (notification_efd s) NOTIFICATION) ≫= λ _,
    call (event_cb cb) id ≫= λ _, mret true) (s, w) = Ok (true, (s', w')) ∧
    loop_inv mem K None s' w'.
Proof.
  intros Hinv.
  set (q := prep_read (notification_efd s) 0 8 0
    (rq_set_read_data (replicate 8 nul) (new_request NOTIFICATION))).
  rewrite (on_server_bind _ _ s w tt (set_ring (ring s ++ [q]) s)) by done.
  destruct (call_safe (event_cb cb) id None (set_ring (ring s ++ [q]) s) w) as (s1 & w1 & E1 & Hinv1 & _).
  - by intros f Hf; eapply gc_event.
  - apply submit_loop_inv; [done| |done]. by apply read_sqe_ok.
  - rewrite (M_bind_run _ _ _ _ _ E1). by exists s1, w1.
Qed.

Lemma failed_or_stale_run q s w r res :
  conn_inv None (q :: ring s) s → (r = sq_req q ∨ ∃ d, r = rq_set_read_data d (sq_req q)) →
  ∃ b, failed_or_stale (X := unit) (W := W) r res (s, w) = Ok (b, (s, w)) ∧
    (b = true → is_client_event (rq_event (sq_req q)) = true) ∧
    (b = false → is_client_event (rq_event (sq_req q)) = true → 0 < res ∧
       ∀ c, vget (clients s) (rq_client_idx (sq_req q)) = Ok c →
         0 < rq_client_idx (sq_req q) → cl_id c = rq_ID (sq_req q)) ∧
    (b = true → sq_op q = IoWrite → res ≤ 0).
Proof.
  intros Hc Hr. pose proof (ci_sqes _ _ _ Hc) as [Hsq _]%Forall_cons.
  assert (rq_event r = rq_event (sq_req q) ∧ rq_client_idx r = rq_client_idx (sq_req q) ∧
    rq_ID r = rq_ID (sq_req q)) as (He & Hi & Hid) by by destruct Hr as [->|[d ->]].
  unfold failed_or_stale. rewrite He, Hi, Hid.
  destruct (is_client_event (rq_event (sq_req q))) eqn:Hev; simpl; [|by exists false].
  destruct (Z.leb_spec res 0); simpl; [by exists true|].
  destruct (sqe_client _ _ Hsq Hev) as [_ Hr'].
  destruct (Z.ltb_spec 0 (rq_client_idx (sq_req q))) as [Hpos|Hneg].
  2: { exists false. split_and!; [done|done| |done]. intros _ _. split; [done|]. intros; lia. }
  destruct (vget_is_Ok _ _ Hr') as [c Hv].
  rewrite (on_server_bind _ _ _ _ _ _ (get_client_run _ _ _ Hv)).
  eexists. split; [done|]. split; [done|]. split.
  { intros Hid'%negb_false_iff%Z.eqb_eq _. split; [done|]. intros c' Hv'. rewrite Hv in Hv'. by injection Hv' as <-. }
  intros Hne Hop.
  assert (is_write_for (rq_client_idx (sq_req q)) q) as Hq by done.
  destruct (in_flight_client _ _ _ Hc Hq) as (c' & wd & rest & Hv' & _ & _ & _ & Hro & _).
  rewrite Hv in Hv'. injection Hv' as <-. by rewrite (ro_ID _ _ _ _ Hro), Z.eqb_refl in Hne.
Qed.

Lemma handle_event_run q s w e s0 r :
  hole_inv mem K q s w → cqe_ok s0 e q → clients s = clients s0 →
  active_connections s = active_connections s0 →
  (r = sq_req q ∨ sq_op q = IoRead ∧ 0 < cq_res e ∧ ∃ d, r = rq_set_read_data d (sq_req q)) →
  ∃ b s' w', handle_event cb r e (s, w) = Ok (b, (s', w')) ∧
    (b = true → loop_inv mem K None s' w') ∧ (b = false ↔ rq_event (sq_req q) = KILL).
Proof.
  intros Hh Hok Hcls Hact Hr. pose proof Hh as [Hc _ _ _].
  pose proof (ci_sqes _ _ _ Hc) as [Hsq _]%Forall_cons.
  assert (r = sq_req q ∨ ∃ d, r = rq_set_read_data d (sq_req q)) as Hr' by (clear -Hr; naive_solver).
  assert (rq_event r = rq_event (sq_req q)) as Hev by by destruct Hr' as [->|[d ->]].
  destruct (failed_or_stale_run q s w r (cq_res e) Hc Hr') as (b & Eb & Hb1 & Hb2 & Hb3).
  unfold handle_event. rewrite (M_bind_run _ _ _ _ _ Eb). destruct b.
  { specialize (Hb1 eq_refl). assert (rq_event (sq_req q) ≠ KILL) as Hk by (intros Hk; by rewrite Hk in Hb1).
    destruct (Z.leb_spec (cq_res e) 0) as [Hle|Hpos].
    - assert (r = sq_req q) as -> by (destruct Hr as [?|(_ & ? & _)]; [done|lia]).
      destruct (handle_failed_run q s w (cq_res e) Hh Hb1 Hle) as (s1 & w1 & E1 & Hinv1).
      rewrite (M_bind_run _ _ _ _ _ E1). exists true, s1, w1. by split_and!; [| |split].
    - assert (sq_op q ≠ IoWrite) as Hop by (intros Hop; specialize (Hb3 eq_refl Hop); lia).
      exists true, s, w. split; [|split; [intros _; by eapply hole_other|by split]].
      unfold handle_failed. by rewrite (proj2 (Z.leb_gt _ _)). }
  specialize (Hb2 eq_refl).
  assert (∀ (m : M (srv * W) unit), 
    (∃ s' w', m (s, w) = Ok (tt, (s', w')) ∧ loop_inv mem K None s' w') →
    ∃ s' w', (m ≫= λ _, mret true) (s, w) = Ok (true, (s', w')) ∧ loop_inv mem K None s' w') as Hgo.
  { intros m (s' & w' & E & Hinv). exists s', w'. by rewrite (M_bind_run _ _ _ _ _ E). }
  rewrite Hev. destruct (decide (rq_event (sq_req q) = KILL)) as [Hk|Hk].
  { rewrite Hk. eexists false, _, _. split; [done|]. split; [done|by split]. }
  match goal with |- ∃ b s' w', ?body (s, w) = _ ∧ _ =>
    cut (∃ s' w', body (s, w) = Ok (true, (s', w')) ∧ loop_inv mem K None s' w') end.
  { intros (s' & w' & E & Hinv). exists true, s', w'. split; [exact E|]. split; [done|by split]. }
  destruct (decide (rq_event (sq_req q) = WRITE)) as [Hw|Hw].
  { assert (sq_op q = IoWrite) as Hop by by apply Hsq.
    assert (r = sq_req q) as -> by (destruct Hr as [?|(? & _)]; [done|congruence]).
    rewrite Hw. apply Hgo. simpl. unfold non_tls_event_handler. rewrite Hw.
    apply (handle_write_run q s w e s0 Hh Hok Hw Hop). rewrite Hw in Hb2. by apply Hb2. }
  assert (loop_inv mem K None s w) as Hinv.
  { eapply hole_other; [|done]. by intros Hop%Hsq. }
  assert (rq_client_idx r = rq_client_idx (sq_req q)) as Hidx by by destruct Hr' as [->|[d ->]].
  destruct (rq_event (sq_req q)) eqn:Eev; try done; try apply Hgo; simpl.
  - unfold non_tls_event_handler. rewrite Hev. by apply handle_accept_run.
  - unfold non_tls_event_handler. rewrite Hev. by exists s, w.
  - unfold non_tls_event_handler. rewrite Hev. by exists s, w.
  - unfold non_tls_event_handler. rewrite Hev. apply handle_read_run; [done|].
    rewrite Hidx, Hact. destruct (Hb2 eq_refl) as [Hpos Hid]. rewrite Hcls in Hid.
    by apply (eo_live _ _ _ Hok).
  - by apply handle_notification_run.
  - assert (∃ d, r = rq_set_read_data d (sq_req q)) as [d ->].
    { destruct Hr' as [->|?]; [|done]. exists (rq_read_data (sq_req q)). by destruct (sq_req q). }
    by apply handle_custom_run.
  - apply handle_timer_run; [done|apply Hok|].
    rewrite Hcls, Hact. by apply (eo_idle _ _ _ Hok).
Qed.

Lemma take_request s w n q :
  loop_inv mem K None s w → ring s !! n = Some q →
  hole_inv mem K q (set_ring (delete n (ring s)) s) w.
Proof. intros [Hinv HK Hp] Hn. by destruct (take_write_inv s n q Hinv Hn). Qed.

Lemma loop_step_run s w e q :
  loop_inv mem K None s w → cqe_ok s e q →
  ∃ b s' w', loop_step cb mem e (s, w) = Ok (b, (s', w')) ∧
    (b = true → loop_inv mem K None s' w') ∧ (b = false ↔ rq_event (sq_req q) = KILL).
Proof.
  intros Hinv Hok. rewrite (loop_step_take cb mem e s w q (eo_wait _ _ _ Hok) (eo_pos _ _ _ Hok)).
  pose proof (take_request s w (cq_pos e) q Hinv (eo_pos _ _ _ Hok)) as Hh.
  set (s1 := set_ring (delete (cq_pos e) (ring s)) s) in *.
  destruct (kernel_io_run q s1 w e s Hh Hok) as (r & s2 & E2 & Hh2 & Hcls & Hact & Hr).
  rewrite (M_bind_run _ _ _ _ _ E2).
  by apply (handle_event_run q s2 w e s r Hh2 Hok).
Qed.

Lemma started_inv l t n k w : K w → loop_inv mem K None (started l t n k) w.
Proof.
  intros HK. split; [split|done|].
  - split; simpl.
    + intros i. split; [unfold len; simpl; lia|set_solver].
    + set_solver.
    + intros i c [_ H]%vget_lookup. by rewrite lookup_nil in H.
    + repeat apply Forall_cons_2; [by apply read_sqe_ok..| |done]. by repeat split.
  - split; simpl.
    + intros h. rewrite lookup_empty. done.
    + intros h b u. by rewrite lookup_empty.
    + intros h x. by rewrite lookup_empty.
    + intros wd. set_solver.
    + constructor.
  - intros wd. set_solver.
Qed.

Lemma reachable_inv l t n k w0 sw :
  K w0 → rtc (server_step mem cb) (started l t n k, w0) sw → loop_inv mem K None sw.1 sw.2.
Proof.
  intros HK Hr. pose proof (started_inv l t n k w0 HK) as Hinit.
  remember (started l t n k, w0) as sw0 eqn:E0.
  assert (loop_inv mem K None sw0.1 sw0.2) as Hinv by by rewrite E0.
  clear E0 Hinit. induction Hr as [sw|sw1 sw2 sw3 (e & q & Hok & Hstep) _ IH]; [done|].
  apply IH. destruct sw1 as [s1 w1], sw2 as [s2 w2].
  destruct (loop_step_run s1 w1 e q Hinv Hok) as (b & s' & w' & E & Hb & _).
  rewrite Hstep in E. injection E as <- <- <-. by apply Hb.
Qed.

Lemma loop_run es s w :
  loop_inv mem K None s w → legal_run mem cb es (s, w) →
  ∃ b s' w', loop cb mem es (s, w) = Ok (b, (s', w')) ∧ (b = true → loop_inv mem K None s' w').
Proof.
  revert s w. induction es as [|e es IH]; intros s w Hinv Hleg; simpl; [by exists true, s, w|].
  destruct Hleg as [[q Hok] Hleg]. simpl in Hok.
  destruct (loop_step_run s w e q Hinv Hok) as (b & s1 & w1 & E & Hb & _).
  rewrite (M_bind_run _ _ _ _ _ E). destruct b; [|by exists false, s1, w1].
  apply IH; [by apply Hb|by apply Hleg].
Qed.

End Lemmas.
