(* ===== verification/NonTlsProps.v ===== *)
(** * Correctness of the plain server

    The stream of each connection ([pending]), and the properties of
    server_non_tls.cpp and of the event loop that rest on the invariants of
    NonTls.v and NonTlsLoop.v, with concrete runs. *)

From S2P Require Import Prelude ServerBase NonTls NonTlsLoop.
From Stdlib Require Import ZArith Lia.
From stdpp Require Import base gmap strings list fin_maps sets.

#[local] Open Scope Z_scope.

(** ** The stream of a connection *)

Section Stream.
Context {W : Type}.
Variable mem : W → char_ptr → result (list char).

(** The bytes of a queued message. *)
Definition msg_bytes (s : srv) (w : W) (wd : write_data) : result (list char) :=
  src_bytes mem s w (wd_src wd) ≫= λ b,
  mret (match wd_multi wd with
        | None => if decide (wd_ptr_buff wd ≠ PNull) then take (Z.to_nat (wd_total_length wd)) b else b
        | Some _ => b
        end).

(** How much of the front message the kernel has taken. *)
Definition written_of (s : srv) (i : Z) : Z :=
  match write_reqs (ring s) i with q :: _ => rq_written (sq_req q) | [] => 0 end.

(** The bytes connection [i] still has to send. *)
Definition pending (s : srv) (w : W) (i : Z) : result (list char) :=
  vget (clients s) i ≫= λ c,
  mapM (msg_bytes s w) (send_data c) ≫= λ bs,
  mret (drop (Z.to_nat (written_of s i)) (concat bs)).

End Stream.

(** A message whose length fits the [unsigned int] of [add_write_req]. *)
Definition small_msg (s : srv) (wd : write_data) : Prop :=
  ∃ n, wd_size (multi_heap s) wd n ∧ 0 ≤ n < 2 ^ 32.

(** * Lemmas *)

Section Lemmas.
Context {W : Type}.
Variable mem : W → char_ptr → result (list char).
Variable K : W → Prop.

(** The bytes of a message depend on the heap and the callbacks' state only. *)
Lemma msg_bytes_eq s w wd :
  heap_inv no_extra s → wd ∈ all_queued s →
  msg_bytes mem s w wd =
    match wd_multi wd with
    | Some h => match multi_heap s !! h with Some (b, _) => Ok b | None => Err UseAfterFree end
    | None => if decide (wd_ptr_buff wd ≠ PNull)
              then mem w (wd_ptr_buff wd) ≫= λ b, mret (take (Z.to_nat (wd_total_length wd)) b)
              else Ok (wd_buff wd)
    end.
Proof.
  intros Hh Hwd. unfold msg_bytes, wd_src. destruct (wd_multi wd) as [h|].
  - simpl. by destruct (multi_heap s !! h) as [[b u]|].
  - case_decide; [done|]. simpl. by rewrite queued_bytes_run.
Qed.

Lemma msg_bytes_kept s s' w wd :
  heap_inv no_extra s → heap_inv no_extra s' → wd ∈ all_queued s → wd ∈ all_queued s' →
  (∀ h b u, multi_heap s' !! h = Some (b, u) → ∃ u', multi_heap s !! h = Some (b, u')) →
  msg_bytes mem s' w wd = msg_bytes mem s w wd.
Proof.
  intros Hh Hh' Hwd Hwd' Hmono. rewrite !msg_bytes_eq by done.
  destruct (wd_multi wd) as [h|] eqn:Em; [|done].
  destruct (get_ptr_and_size_run s' wd Hh' Hwd') as (n & En & _).
  unfold get_ptr_and_size in En. rewrite Em, (M_bind_run _ _ _ s' s') in En by done.
  destruct (multi_heap s' !! h) as [[b u]|] eqn:Eh; [|done].
  by destruct (Hmono h b u Eh) as [u' ->].
Qed.

Lemma mapM_kept {A B} (f g : A → result B) l :
  (∀ x, x ∈ l → f x = g x) → mapM f l = mapM g l.
Proof.
  induction l as [|x l IH]; intros H; [done|]. simpl. rewrite H by set_solver.
  rewrite IH; [done|]. intros y Hy. apply H. set_solver.
Qed.

(** A message has as many bytes as its request is long. *)
Lemma msg_bytes_len s w wd b n :
  heap_inv no_extra s → wd ∈ all_queued s → ptrs_ok mem s w →
  msg_bytes mem s w wd = Ok b → wd_size (multi_heap s) wd n → 0 ≤ n < 2 ^ 32 → len b = n.
Proof.
  intros Hh Hwd Hp Hb Hn Hr. rewrite msg_bytes_eq in Hb by done. unfold wd_size in Hn.
  destruct (wd_multi wd) as [h|] eqn:Em.
  - destruct (multi_heap s !! h) as [[b' u]|] eqn:Eh; [|done]. injection Hb as <-.
    symmetry. by eapply Hn.
  - case_decide as Hptr; [|injection Hb as <-; done].
    destruct (Hp wd Hwd Em Hptr) as (b' & Hb' & Hle). rewrite Hb' in Hb. injection Hb as <-.
    subst n. rewrite to_u32_small in Hle by done. unfold len in *. rewrite length_take. lia.
Qed.

(** What the kernel takes of a message with source [wd]. *)
Lemma src_bytes_slice s w wd b off n :
  msg_bytes mem s w wd = Ok b → 0 ≤ off → 0 ≤ n → off + n ≤ len b →
  (src_bytes mem s w (wd_src wd) ≫= λ b, vslice b off n) =
    Ok (take (Z.to_nat n) (drop (Z.to_nat off) b)).
Proof.
  unfold msg_bytes. destruct (src_bytes mem s w (wd_src wd)) as [b'|]; [|done]. simpl.
  intros [= <-] Hoff Hn Hle. apply vslice_Ok.
  destruct (wd_multi wd); [by split_and!|]. case_decide; [|by split_and!].
  unfold len in Hle. rewrite length_take in Hle. unfold len.
  split_and!; [lia|lia|lia|]. rewrite !take_drop_commute, take_take. f_equal. f_equal. lia.
Qed.

(** ** Completed writes and the stream *)

Lemma pending_run s w i c bs :
  vget (clients s) i = Ok c → mapM (msg_bytes mem s w) (send_data c) = Ok bs →
  pending mem s w i = Ok (drop (Z.to_nat (written_of s i)) (concat bs)).
Proof. intros Hv Hb. unfold pending. rewrite Hv. step_ok. by rewrite Hb. Qed.

Lemma pending_inv s w i p :
  pending mem s w i = Ok p →
  ∃ c bs, vget (clients s) i = Ok c ∧ mapM (msg_bytes mem s w) (send_data c) = Ok bs ∧
    p = drop (Z.to_nat (written_of s i)) (concat bs).
Proof. unfold pending. intros H. inv_ok. eauto. Qed.

Lemma mapM_cons_inv {A B} (f : A → result B) x l bs :
  mapM f (x :: l) = Ok bs → ∃ b bs', bs = b :: bs' ∧ f x = Ok b ∧ mapM f l = Ok bs'.
Proof. simpl. intros H. inv_ok. eauto. Qed.

Lemma write_reqs_delete r n q j :
  r !! n = Some q → ¬ is_write_for j q → write_reqs (delete n r) j = write_reqs r j.
Proof.
  intros Hn Hq. rewrite <-(take_drop_middle r n q Hn) at 2. rewrite delete_take_drop.
  unfold write_reqs. by rewrite !filter_app, filter_cons_False.
Qed.

Lemma write_reqs_app r new j :
  Forall (λ q, ¬ is_write_for j q) new → write_reqs (r ++ new) j = write_reqs r j.
Proof.
  intros H. unfold write_reqs. rewrite filter_app.
  replace (filter _ new) with (@nil sqe); [by rewrite app_nil_r|].
  induction H as [|q l Hq _ IH]; [done|]. by rewrite filter_cons_False.
Qed.

Lemma write_reqs_here s w q n i :
  loop_inv mem K None s w → ring s !! n = Some q → is_write_for i q →
  write_reqs (ring s) i = [q].
Proof.
  intros Hinv Hn Hq. destruct (take_request mem K s w n q Hinv Hn) as [Hc _ _ _].
  destruct (in_flight_client _ _ _ Hc Hq) as (_ & _ & _ & _ & _ & _ & _ & _ & Hw). simpl in Hw.
  rewrite <-(take_drop_middle (ring s) n q Hn). rewrite delete_take_drop in Hw.
  unfold write_reqs in *. rewrite filter_app, filter_cons_True by done. rewrite filter_app in Hw.
  apply app_nil in Hw as [-> ->]. done.
Qed.

(** What is pending does not depend on the rest of the state. *)
Lemma pending_same s s' w j :
  heap_inv no_extra s → heap_inv no_extra s' →
  (∀ c, vget (clients s) j = Ok c → ∃ c', vget (clients s') j = Ok c' ∧ send_data c' = send_data c) →
  (∀ e, vget (clients s) j = Err e → vget (clients s') j = Err e) →
  (∀ h b u, multi_heap s' !! h = Some (b, u) → ∃ u', multi_heap s !! h = Some (b, u')) →
  written_of s' j = written_of s j → pending mem s' w j = pending mem s w j.
Proof.
  intros Hh Hh' Hok Herr Hmono Hw. unfold pending. rewrite Hw.
  destruct (vget (clients s) j) as [c|e] eqn:Hv; [|by rewrite (Herr e eq_refl)].
  destruct (Hok c eq_refl) as (c' & Hv' & Hq). rewrite Hv'. step_ok. rewrite Hq.
  rewrite (mapM_kept (msg_bytes mem s' w) (msg_bytes mem s w)); [done|].
  intros wd Hwd. apply msg_bytes_kept; [done|done| | |done].
  - by eapply queued_elem.
  - eapply queued_elem; [exact Hv'|]. by rewrite Hq.
Qed.

Lemma take_app_prefix {A} (b : list A) l n o :
  (o + n ≤ length b)%nat → take n (drop o (b ++ l)) = take n (drop o b).
Proof.
  intros H. rewrite drop_app_le by lia. rewrite take_app_le; [done|]. rewrite length_drop. lia.
Qed.

Lemma vget_insert_other (s s' : srv) i j c c' :
  vget (clients s) i = Ok c → clients s' = <[Z.to_nat i := c']> (clients s) → j ≠ i →
  vget (clients s') j = vget (clients s) j.
Proof.
  intros Hv E Hj. rewrite E. apply vget_insert_ne; [|done]. by apply vget_range in Hv as [].
Qed.

(** The kernel takes the front of the stream. *)
Lemma write_takes_front s w q i c wd rest b bs e s0 :
  hole_inv mem K q s w → cqe_ok s0 e q → is_write_for i q → 0 < cq_res e →
  vget (clients s) i = Ok c → send_data c = wd :: rest → small_msg s wd →
  msg_bytes mem s w wd = Ok b →
  let off := rq_written (sq_req q) in
  0 ≤ off ∧ off + cq_res e ≤ len b ∧ rq_total_length (sq_req q) = len b ∧ len b < 2 ^ 32 ∧
  kernel_io mem q (cq_res e) (cq_data e) (s, w) =
    Ok (sq_req q, (srv_obs (ran_server s) (is_active s) (closed s) (eventfd_writes s)
      (wire s ++ [(cl_sockfd c, take (Z.to_nat (cq_res e)) (drop (Z.to_nat off) (b ++ bs)))]) s, w)).
Proof.
  intros Hh Hok Hq Hpos Hv Hsd (n & Hn & Hnr) Hb off. pose proof Hh as [Hc Hheap _ Hp].
  destruct (in_flight_client _ _ _ Hc Hq) as (c' & wd' & rest' & Hv' & _ & _ & Hsd' & Hro & _).
  rewrite Hv in Hv'. injection Hv' as <-. rewrite Hsd in Hsd'. injection Hsd' as <- <-.
  assert (wd ∈ all_queued s) as Hwd by (eapply queued_elem; [exact Hv|rewrite Hsd; set_solver]).
  pose proof (msg_bytes_len s w wd b n Hheap Hwd Hp Hb Hn Hnr) as Hlen.
  destruct (ro_total _ _ _ _ Hro) as (m & Hm & Htot).
  assert (rq_total_length (sq_req q) = len b) as Ht.
  { rewrite Htot. assert (m = n) as ->; [|rewrite to_u32_small; lia].
    unfold wd_size in Hm, Hn. destruct (wd_multi wd) as [h|] eqn:Em; [|congruence].
    rewrite msg_bytes_eq, Em in Hb by done.
    destruct (multi_heap s !! h) as [[b' u]|] eqn:Eh; [|done].
    by rewrite (Hm b' u eq_refl), (Hn b' u eq_refl). }
  pose proof (ro_written _ _ _ _ Hro) as Hw. pose proof (req_len _ _ _ _ Hro) as Hql.
  destruct Hq as [Hop Hidx]. assert (cq_res e ≤ sq_len q) as Hres by (apply Hok; by rewrite Hop).
  subst off. split_and!; [lia|lia|done|lia|].
  unfold kernel_io. rewrite (proj2 (Z.leb_gt _ _)) by done. rewrite Hop, (ro_src _ _ _ _ Hro).
  rewrite (ro_off _ _ _ _ Hro), (ro_fd _ _ _ _ Hro).
  pose proof (src_bytes_slice s w wd b (rq_written (sq_req q)) (cq_res e) Hb) as Hs.
  destruct (src_bytes mem s w (wd_src wd)) as [b'|] eqn:Es.
  2: { unfold msg_bytes in Hb. by rewrite Es in Hb. }
  simpl in Hs |- *. rewrite Hs by lia. simpl. rewrite take_app_prefix; [done|].
  unfold len in *. lia.
Qed.

(** The handler of a write event of a connection. *)
Lemma write_event_run (cb : callbacks unit W) s w q i c e :
  is_write_for i q → rq_event (sq_req q) = WRITE → 0 < cq_res e →
  vget (clients s) i = Ok c → cl_id c = rq_ID (sq_req q) →
  handle_event cb (sq_req q) e (s, w) =
    ((if unfinished (sq_req q) (cq_res e)
      then on_server (add_write_req_continued (sq_req q) (cq_res e)) ≫= λ rc,
           (if rc =? 0 then mret tt else mfault NullDeref)
      else on_server (write_done (sq_req q)) ≫= λ info, call (write_cb cb) (λ f, f i info)) ≫= λ _, mret true) (s, w).
Proof.
  intros [_ Hidx] Hev Hpos Hv Hid. unfold handle_event.
  assert (failed_or_stale (X := unit) (W := W) (sq_req q) (cq_res e) (s, w) = Ok (false, (s, w))) as E.
  { unfold failed_or_stale. rewrite Hev, Hidx. simpl. rewrite (proj2 (Z.leb_gt _ _)) by done.
    destruct (0 <? i); [|done].
    rewrite (on_server_bind _ _ _ _ _ _ (get_client_run _ _ _ Hv)), Hid, Z.eqb_refl. done. }
  rewrite (M_bind_run _ _ _ _ _ E), Hev. simpl. unfold non_tls_event_handler, handle_write.
  rewrite Hev, Hidx. unfold mbind at 1 2, M_bind at 1 2.
  rewrite (on_server_run _ _ _ _ _ (get_client_run _ _ _ Hv)). done.
Qed.

(** A completed write takes its bytes off the stream of client [i]. *)
Lemma completed_stream (cb : callbacks unit W) s w q i c wd rest b bs e s0 :
  hole_inv mem K q s w → cqe_ok s0 e q → is_write_for i q → 0 < cq_res e → write_cb cb = None →
  vget (clients s) i = Ok c → send_data c = wd :: rest → small_msg s wd →
  msg_bytes mem s w wd = Ok b → mapM (msg_bytes mem s w) rest = Ok bs →
  let off := rq_written (sq_req q) in
  0 ≤ off → off + cq_res e ≤ len b → rq_total_length (sq_req q) = len b → len b < 2 ^ 32 →
  ∃ s', handle_event cb (sq_req q) e (s, w) = Ok (true, (s', w)) ∧ wire s' = wire s ∧
    pending mem s' w i = Ok (drop (Z.to_nat (off + cq_res e)) (b ++ concat bs)) ∧
    (∀ j, j ≠ i → pending mem s' w j = pending mem s w j).
Proof.
  intros [Hc Hh HK Hp] Hok Hq Hpos Hcb Hv Hsd Hsmall Hb Hbs off Hoff Hle Htot Hlen.
  destruct (in_flight_client _ _ _ Hc Hq) as (c' & wd' & rest' & Hv' & _ & _ & Hsd' & Hro & Hw).
  rewrite Hv in Hv'. injection Hv' as <-. rewrite Hsd in Hsd'. injection Hsd' as <- <-.
  pose proof Hq as [Hop Hidx].
  assert (rq_event (sq_req q) = WRITE) as Hev.
  { pose proof (ci_sqes _ _ _ Hc) as [[Hwr _ _] _]%Forall_cons. by apply Hwr. }
  rewrite (write_event_run cb s w q i c e), Hcb by (done || symmetry; apply Hro).
  assert (cq_res e ≤ sq_len q) as Hres by (apply Hok; by rewrite Hop).
  unfold unfinished. rewrite to_u64_small, Htot by (subst off; lia).
  rewrite (proj2 (Z.ltb_lt 0 _)), andb_true_r by done.
  destruct (Z.ltb_spec (cq_res e + rq_written (sq_req q)) (len b)) as [Hlt|Hge].
  - destruct (write_continued_inv i q s (cq_res e) Hc Hh Hq) as
      (c' & wd' & rest' & q' & _ & _ & E & [_ Hh'] & Hq' & Hwr); [lia|].
    set (s' := set_ring (ring s ++ [q']) s) in *. exists s'.
    rewrite (M_bind_run _ _ (s, w) tt (s', w)) by (by rewrite (on_server_bind _ _ _ _ _ _ E)).
    split; [done|]. split; [done|]. split.
    + rewrite (pending_run s' w i c (b :: bs) Hv).
      * unfold written_of. assert (write_reqs (ring s') i = [q']) as ->.
        { unfold write_reqs. simpl. rewrite filter_app. fold (write_reqs (ring s) i).
          rewrite Hw. by rewrite filter_cons_True. }
        by rewrite Hwr.
      * rewrite Hsd. change (mapM (msg_bytes mem s w) (wd :: rest) = Ok (b :: bs)).
        simpl. rewrite Hb. step_ok. by rewrite Hbs.
    + intros j Hj. apply pending_same; try done; [by eauto|by eauto|].
      unfold written_of. change (ring s') with (ring s ++ [q']).
      rewrite write_reqs_app; [done|]. constructor; [|done].
      intros [_ ?]. destruct Hq'. congruence.
  - destruct (write_done_inv i q s Hc Hh Hq) as
      (c' & wd' & rest' & s' & Hv' & Hsd' & E & [Hc' Hh'] & [(c1 & c2 & Hv1 & Ec2 & Hq2 & _) _ _] & [(new & Er & Hnew) Hmono Ewire]).
    rewrite Hv in Hv', Hv1. injection Hv' as <-. injection Hv1 as <-.
    rewrite Hsd in Hsd'. injection Hsd' as <- <-.
    exists s'. rewrite (M_bind_run _ _ (s, w) tt (s', w)) by (by rewrite (on_server_bind _ _ _ _ _ _ E)).
    assert (vget (clients s') i = Ok c2) as Hv2.
    { rewrite Ec2. apply vget_insert_eq. by eapply vget_range. }
    assert (length b = Z.to_nat (off + cq_res e)) as Hoffb by (unfold len in *; subst off; lia).
    split; [done|]. split; [done|]. split.
    + rewrite <-Hoffb, drop_app_length. rewrite (pending_run s' w i c2 bs Hv2).
      * f_equal. unfold written_of. rewrite Er. unfold write_reqs. rewrite filter_app.
        fold (write_reqs (ring s) i). rewrite Hw. simpl. destruct Hnew as [|x l [Hx Hx0] _]; [done|].
        rewrite filter_cons_True by done. by rewrite Hx0.
      * rewrite Hq2, <-Hbs. apply mapM_kept. intros x Hx.
        apply msg_bytes_kept; [done|done| | |done].
        -- eapply queued_elem; [exact Hv|]. rewrite Hsd. set_solver.
        -- eapply queued_elem; [exact Hv2|]. by rewrite Hq2.
    + intros j Hj. pose proof (vget_insert_other s s' i j c c2 Hv Ec2 Hj) as Hvj.
      apply pending_same; [done|done|rewrite Hvj; by eauto|by rewrite Hvj|done|].
      unfold written_of. rewrite Er, write_reqs_app; [done|].
      eapply Forall_impl; [exact Hnew|]. intros x [[_ Hx] _] [_ Hx']. congruence.
Qed.

Lemma write_stream (cb : callbacks unit W) s w e q i c p :
  loop_inv mem K None s w → cqe_ok s e q → is_write_for i q → 0 < cq_res e → write_cb cb = None →
  vget (clients s) i = Ok c → Forall (small_msg s) (send_data c) → pending mem s w i = Ok p →
  ∃ s', loop_step cb mem e (s, w) = Ok (true, (s', w)) ∧
    wire s' = wire s ++ [(cl_sockfd c, take (Z.to_nat (cq_res e)) p)] ∧
    pending mem s' w i = Ok (drop (Z.to_nat (cq_res e)) p) ∧
    (∀ j, j ≠ i → pending mem s' w j = pending mem s w j).
Proof.
  intros Hinv Hok Hq Hpos Hcb Hv Hsmall Hp.
  pose proof (write_reqs_here _ _ _ _ _ Hinv (eo_pos _ _ _ Hok) Hq) as Hwr.
  pose proof (take_request mem K s w _ q Hinv (eo_pos _ _ _ Hok)) as Hh.
  set (s1 := set_ring (delete (cq_pos e) (ring s)) s) in *.
  apply pending_inv in Hp as (c0 & bs0 & Hv0 & Hbs & ->). rewrite Hv in Hv0. injection Hv0 as <-.
  unfold written_of. rewrite Hwr.
  destruct (in_flight_client _ _ _ (ho_conn _ _ _ _ _ Hh) Hq) as (c0 & wd & rest & Hv0 & _ & _ & Hsd & _).
  change (vget (clients s) i = Ok c0) in Hv0. rewrite Hv in Hv0. injection Hv0 as <-. rewrite Hsd in Hbs, Hsmall.
  apply Forall_cons in Hsmall as [Hsmall _].
  apply mapM_cons_inv in Hbs as (b & bs & -> & Hb & Hbs). simpl concat.
  destruct (write_takes_front s1 w q i c wd rest b (concat bs) e s Hh Hok Hq Hpos Hv Hsd Hsmall Hb)
    as (Hoff & Hle & Htot & Hlen & E).
  set (s2 := srv_obs _ _ _ _ _ s1) in *.
  destruct (completed_stream cb s2 w q i c wd rest b bs e s) as (s3 & E3 & Ew & Hpi & Hpj); try done.
  { by apply hole_inv_wire. }
  exists s3. split; [|split; [|split]].
  - rewrite (loop_step_take cb mem e s w q (eo_wait _ _ _ Hok) (eo_pos _ _ _ Hok)). fold s1. by rewrite (M_bind_run _ _ _ _ _ E).
  - by rewrite Ew.
  - rewrite Hpi. rewrite drop_drop. do 2 f_equal. lia.
  - intros j Hj. rewrite Hpj by done. destruct Hinv as [[_ Hheap] _ _].
    apply pending_same; try done; [by destruct Hheap; split|by eauto|by eauto|].
    unfold written_of. simpl. rewrite (write_reqs_delete _ _ q); [done|apply Hok|].
    intros [_ Hj']. destruct Hq. congruence.
Qed.

Lemma mapM_app {A B} (f : A → result B) l k :
  mapM f (l ++ k) = mapM f l ≫= λ bs, mapM f k ≫= λ bs', mret (bs ++ bs').
Proof.
  induction l as [|x l IH]; simpl.
  - step_ok. by destruct (mapM f k).
  - destruct (f x); [|done]. step_ok. rewrite IH. destruct (mapM f l); [|done]. step_ok.
    by destruct (mapM f k).
Qed.

Lemma wd_size_fun s wd n m :
  heap_inv no_extra s → wd ∈ all_queued s →
  wd_size (multi_heap s) wd n → wd_size (multi_heap s) wd m → n = m.
Proof.
  intros Hh Hwd. destruct (get_ptr_and_size_run s wd Hh Hwd) as (k & Ek & _).
  unfold get_ptr_and_size in Ek. unfold wd_size. destruct (wd_multi wd) as [h|]; [|congruence].
  rewrite (M_bind_run _ _ _ s s) in Ek by done.
  destruct (multi_heap s !! h) as [[b u]|]; [|done]. intros Hn Hm.
  by rewrite (Hn b u eq_refl), (Hm b u eq_refl).
Qed.

Lemma written_le cl s w i c bs :
  conn_inv cl (ring s) s → heap_inv no_extra s → ptrs_ok mem s w → vget (clients s) i = Ok c →
  Forall (small_msg s) (send_data c) → mapM (msg_bytes mem s w) (send_data c) = Ok bs →
  written_of s i ≤ len (concat bs).
Proof.
  intros Hc Hh Hp Hv Hsm Hbs. unfold written_of.
  pose proof (ci_clients _ _ _ Hc i c Hv) as Hok. unfold client_ok in Hok.
  destruct (write_reqs (ring s) i) as [|q [|]]; [apply len_nonneg| |done].
  destruct Hok as (_ & _ & _ & wd & rest & Hsd & Hro). rewrite Hsd in *.
  apply Forall_cons in Hsm as [(n & Hn & Hnr) _].
  apply mapM_cons_inv in Hbs as (b & bs' & -> & Hb & _). simpl. rewrite len_app.
  assert (wd ∈ all_queued s) as Hwd by (eapply queued_elem; [exact Hv|rewrite Hsd; set_solver]).
  destruct (ro_total _ _ _ _ Hro) as (m & Hm & Htot). pose proof (ro_written _ _ _ _ Hro).
  assert (m = n) as -> by by eapply wd_size_fun. rewrite to_u32_small in Htot by done.
  rewrite (msg_bytes_len s w wd b n Hh Hwd Hp Hb Hn Hnr). pose proof (len_nonneg (concat bs')). lia.
Qed.

(** Queueing a message puts its bytes at the end of the stream. *)
Lemma enqueued_stream s s' w i wd b p :
  write_inv None s → write_inv None s' → enqueued i wd s s' → ptrs_ok mem s w →
  (∀ c, vget (clients s) i = Ok c → Forall (small_msg s) (send_data c)) →
  msg_bytes mem s' w wd = Ok b → pending mem s w i = Ok p →
  pending mem s' w i = Ok (p ++ b) ∧ ∀ j, j ≠ i → pending mem s' w j = pending mem s w j.
Proof.
  intros [Hc Hh] [Hc' Hh'] [(c & c' & Hv & Ec & Hq & _) _ _ Eh (new & Er & Hnew) _] Hp Hsm Hb Hpend.
  assert (∀ h b u, multi_heap s' !! h = Some (b, u) → ∃ u', multi_heap s !! h = Some (b, u')) as Hmono
    by (rewrite Eh; eauto).
  assert (vget (clients s') i = Ok c') as Hv'.
  { rewrite Ec. apply vget_insert_eq. by eapply vget_range. }
  split.
  - apply pending_inv in Hpend as (c0 & bs & Hv0 & Hbs & ->). rewrite Hv in Hv0. injection Hv0 as <-.
    rewrite (pending_run s' w i c' (bs ++ [b]) Hv').
    + assert (written_of s' i = written_of s i) as ->.
      { unfold written_of. rewrite Er. unfold write_reqs. rewrite filter_app.
        fold (write_reqs (ring s) i). destruct (write_reqs (ring s) i); [|done]. simpl.
        destruct Hnew as [|x l (Hx1 & Hx2 & Hx3) _]; [done|]. by rewrite filter_cons_True. }
      rewrite concat_app. simpl. rewrite app_nil_r, drop_app_le; [done|].
      pose proof (written_le None s w i c bs Hc Hh Hp Hv (Hsm c Hv) Hbs). unfold len in *. lia.
    + rewrite Hq, mapM_app, (mapM_kept _ (msg_bytes mem s w) (send_data c)), Hbs.
      * step_ok. simpl. by rewrite Hb.
      * intros x Hx. apply msg_bytes_kept; [done|done| | |done].
        -- by eapply queued_elem.
        -- eapply queued_elem; [exact Hv'|]. rewrite Hq. set_solver.
  - intros j Hj. pose proof (vget_insert_other s s' i j c c' Hv Ec Hj) as Hvj.
    apply pending_same; [done|done|rewrite Hvj; by eauto|by rewrite Hvj|done|].
    unfold written_of. rewrite Er, write_reqs_app; [done|].
    eapply Forall_impl; [exact Hnew|]. intros x (_ & Hx & _) [_ Hx']. congruence.
Qed.
End Lemmas.

(** * Properties *)



(** What a request the kernel has must be: its event fits its operation; an accept has
    no buffer; a read ends within the buffer it brings; and a write is one for an active
    connection whose bytes are there, up to its end. *)
Definition request_typed {W} (mem : W → char_ptr → result (list char)) (s : srv) (w : W) (q : sqe) : Prop :=
  let r := sq_req q in
  match sq_op q with
  | IoAccept => rq_event r = ACCEPT
  | IoRead => (rq_event r = READ ∧ 0 ≤ rq_client_idx r < len (clients s) ∨
               rq_event r ∈ [NOTIFICATION; CUSTOM_READ; TIMERFD; KILL]) ∧
              (rq_event r ≠ CUSTOM_READ → 0 ≤ sq_buf_off q ∧ sq_buf_off q + sq_len q ≤ len (rq_read_data r))
  | IoWrite => rq_event r = WRITE ∧ rq_client_idx r ∈ active_connections s ∧
      ∃ src b, sq_src q = Some src ∧ src_bytes mem s w src = Ok b ∧
        0 ≤ sq_buf_off q ∧ sq_buf_off q + sq_len q ≤ len b
  end.




(** Writing to an active connection appends the buffer to its stream, after
    everything queued before, and leaves the other streams alone. *)
Theorem write_connection_appends {W} mem K s (w : W) i b p :
  loop_inv mem K None s w → i ∈ active_connections s →
  (∀ c, vget (clients s) i = Ok c → Forall (small_msg s) (send_data c)) →
  pending mem s w i = Ok p →
  ∃ s', write_connection i b s = Ok (tt, s') ∧ write_inv None s' ∧
    pending mem s' w i = Ok (p ++ b) ∧
    (∀ j, j ≠ i → pending mem s' w j = pending mem s w j).
Proof.
  intros [Hinv _ Hp] Hi Hsm Hpend.
  destruct (write_connection_inv None i b s Hinv Hi) as (s' & E & Hinv' & Hen); [done|].
  exists s'. split; [exact E|]. split; [exact Hinv'|].
  apply (enqueued_stream mem K s s' w i (write_data_vec b (next_addr s))); try done.
  destruct Hen as [(c & c' & Hv & Ec & Hq & _) _ _ _ _ _]. destruct Hinv' as [_ Hh'].
  rewrite msg_bytes_eq; [done|done|].
  assert (vget (clients s') i = Ok c') as Hv'.
  { rewrite Ec. apply vget_insert_eq. by eapply vget_range. }
  eapply queued_elem; [exact Hv'|]. rewrite Hq. set_solver.
Qed.

(** A new connection gets the smallest free index, or a new one when none is
    free; never one that is in use; it starts with nothing queued, its own
    descriptor, and an ID one higher (modulo 100) than the index had before. *)
Theorem setup_client_fresh s fd :
  write_inv None s →
  ∃ i s' c, setup_client tt fd s = Ok (i, s') ∧ i ∉ active_connections s ∧
    (∀ j, j ∈ freed_indexes s → i ≤ j) ∧ i ∉ freed_indexes s' ∧
    vget (clients s') i = Ok c ∧ cl_sockfd c = fd ∧ send_data c = [] ∧ num_write_reqs c = 0 ∧
    read_req_active c = false ∧
    (cl_id c = match vget (clients s) i with Ok c0 => Z.rem (cl_id c0 + 1) 100 | Err _ => -1 end) ∧
    write_inv None (set_active ({[i]} ∪ active_connections s) s').
Proof.
  intros Hinv. destruct (setup_client_inv s fd Hinv) as (i & s' & E & Hi & Ha & Hinv' & _).
  pose proof Hinv as [Hc _]. pose proof (set_begin_spec (freed_indexes s)) as Hb.
  rewrite Ha in Hinv'. destruct (set_begin (freed_indexes s)) as [j|] eqn:Eb.
  - destruct Hb as [Hj Hmin].
    destruct (vget_is_Ok (clients s) j) as [c Hv]; [apply (ci_idx _ _ _ Hc); set_solver|].
    pose proof (vget_range _ _ _ Hv). pose proof (ci_clients _ _ _ Hc j c Hv) as Hok.
    unfold client_ok in Hok. pose proof (ci_disj _ _ _ Hc).
    destruct (write_reqs (ring s) j) as [|w [|]]; [|set_solver|done].
    destruct Hok as [_ [Hq|?]]; [|done].
    rewrite (setup_reuse_run s fd j c) in E by done. injection E as <- <-.
    do 3 eexists. split_and!; [by apply setup_reuse_run|done|done| |by apply vget_insert_eq|..|done];
      [simpl; set_solver|done..|by rewrite Hv].
  - rewrite setup_new_run in E by done. injection E as <- <-.
    exists (len (clients s)), (set_clients (clients s ++ [cl_set_sockfd fd (new_client tt)]) s),
      (cl_set_sockfd fd (new_client tt)).
    split_and!; try done.
    + by apply setup_new_run.
    + rewrite Hb. set_solver.
    + simpl. rewrite Hb. set_solver.
    + simpl. rewrite vget_app_r by lia. by rewrite Z.sub_diag.
    + rewrite vget_oob by lia. done.
Qed.

(** Closing a connection waits for its write: while one is in flight nothing
    changes; otherwise the descriptor is closed, the index leaves the active
    connections and becomes free, and the invariant holds. *)
Theorem close_connection_waits s i c :
  write_inv None s → vget (clients s) i = Ok c →
  ∃ s', close_connection i s = Ok (tt, s') ∧ write_inv None s' ∧
    (write_reqs (ring s) i ≠ [] → s' = s) ∧
    (write_reqs (ring s) i = [] →
       closed s' = closed s ++ [cl_sockfd c] ∧ i ∈ freed_indexes s' ∧
       i ∉ active_connections s' ∧ clients s' = clients s).
Proof.
  intros Hinv Hv. destruct (close_connection_inv s i c Hinv Hv) as (s' & E & Hinv' & ->).
  eexists. split; [exact E|]. split; [exact Hinv'|].
  destruct Hinv as [Hc _]. pose proof (ci_clients _ _ _ Hc i c Hv) as Hok. unfold client_ok in Hok.
  destruct (write_reqs (ring s) i) as [|q [|]]; [| |done].
  - destruct Hok as [Hn _]. rewrite decide_True by done. split; [done|]. intros _. simpl.
    split_and!; [done|set_solver|set_solver|done].
  - destruct Hok as [Hn _]. rewrite decide_False by lia. by split.
Qed.

(** ** Concrete runs *)

(** A check that implies [cqe_ok], for completions other than of the timer. *)
Definition cqe_check (s : srv) (e : cqe) : bool :=
  match ring s !! cq_pos e with
  | None => false
  | Some q =>
      bool_decide (- 2 ^ 31 ≤ cq_res e < 2 ^ 31) &&
      (bool_decide (sq_op q = IoAccept) || (cq_res e <=? sq_len q)) &&
      (bool_decide (sq_op q ≠ IoRead) || (cq_res e <=? 0) || (len (cq_data e) =? cq_res e)) &&
      bool_decide (rq_event (sq_req q) ≠ CUSTOM_READ) &&
      bool_decide (rq_event (sq_req q) ≠ TIMERFD) &&
      (bool_decide (rq_event (sq_req q) ≠ READ) ||
       bool_decide (rq_client_idx (sq_req q) ∈ active_connections s))
  end.

(** A completion of the request at [pos]. *)
Definition done_at (pos : nat) (res : Z) (data : list char) : cqe :=
  {| cq_wait := 0; cq_pos := pos; cq_res := res; cq_data := data; cq_peek := λ _, -1; cq_iter := elements |}.

Lemma cqe_check_ok s pos res data :
  cqe_check s (done_at pos res data) = true → ∃ q, cqe_ok s (done_at pos res data) q.
Proof.
  unfold cqe_check. destruct (ring s !! _) as [q|] eqn:Eq; [|done]. intros H. exists q.
  repeat (apply andb_true_iff in H as [H ?]).
  repeat match goal with
  | H : bool_decide _ = true |- _ => apply bool_decide_eq_true in H
  | H : _ || _ = true |- _ => apply orb_true_iff in H
  end.
  split; try done; try by intros.
  - intros Hop. destruct H4 as [H4%bool_decide_eq_true|?]; [done|lia].
  - intros Hop Hpos. destruct H3 as [[H3%bool_decide_eq_true|?]%orb_true_iff|?]; [done|lia|lia].
  - intros Hev Hpos _. destruct H0 as [H0%bool_decide_eq_true|H0%bool_decide_eq_true]; done.
  - apply iter_elements.
Qed.

Section Runs.
Context {W : Type}.
Variable mem : W → char_ptr → result (list char).
Variable cb : callbacks unit W.

Fixpoint run_check (es : list (nat * Z * list char)) (sw : srv * W) : bool :=
  match es with
  | [] => true
  | (pos, res, data) :: es =>
      cqe_check sw.1 (done_at pos res data) &&
      match loop_step cb mem (done_at pos res data) sw with
      | Ok (true, sw') => run_check es sw'
      | Ok (false, _) => true
      | Err _ => false
      end
  end.

Definition completions (es : list (nat * Z * list char)) : list cqe :=
  (λ '(pos, res, data), done_at pos res data) <$> es.

Lemma run_check_legal es sw :
  run_check es sw = true → legal_run mem cb (completions es) sw.
Proof.
  revert sw. induction es as [|[[pos res] data] es IH]; intros sw; simpl; [done|].
  intros [H1 H2]%andb_true_iff. split; [by apply cqe_check_ok|].
  intros sw' E. rewrite E in H2. by apply IH.
Qed.

Lemma run_check_steps es sw sw' :
  run_check es sw = true → loop cb mem (completions es) sw = Ok (true, sw') →
  rtc (server_step mem cb) sw sw'.
Proof.
  revert sw. induction es as [|[[pos res] data] es IH]; intros sw; simpl.
  - intros _ E. injection E as <-. apply rtc_refl.
  - intros [H1 H2]%andb_true_iff E. apply M_bind_Ok in E as (b & sw1 & E1 & E2).
    rewrite E1 in H2. destruct b; [|done].
    eapply rtc_l; [|by apply IH]. destruct (cqe_check_ok _ _ _ _ H1) as [q Hq].
    by exists (done_at pos res data), q.
Qed.
End Runs.

(** An echo server: what a client sends is written back to it, and then once
    more as a broadcast. *)
Definition echo_back (i : Z) (b : list char) : Srv unit :=
  write_connection i b ≫= λ _, mwhen (to_i32 i =? i) (broadcast_message [i] 1 b).

Definition echo : callbacks unit unit :=
  {| accept_cb := None; close_cb := None;
     read_cb := Some (λ i b n, on_server (echo_back i (take (Z.to_nat n) b)));
     write_cb := None; event_cb := None; custom_read_cb := None |}.

Definition no_mem : unit → char_ptr → result (list char) := λ _ _, Err NullDeref.

Definition anything : unit → Prop := λ _, True.

Lemma ptrs_ok_more s s' (w : unit) :
  ptrs_ok no_mem s w →
  (∀ wd, wd ∈ all_queued s' → wd ∈ all_queued s ∨ is_Some (wd_multi wd) ∨ wd_ptr_buff wd = PNull) →
  ptrs_ok no_mem s' w.
Proof.
  intros Hp Hq wd Hwd Hm Hptr. destruct (Hq wd Hwd) as [?|[[h Hh]|?]]; [by apply Hp|congruence|done].
Qed.

#[export] Instance echo_good : GoodCallbacks no_mem anything echo.
Proof.
  split; try done. intros f i b n [= <-] s [] [Hinv HK Hp] Hi. unfold echo_back.
  set (d := take (Z.to_nat n) b).
  destruct (write_connection_inv None i d s Hinv Hi) as (s1 & E1 & Hinv1 & Hen); [done|].
  destruct (enqueued_queued _ _ _ _ Hen) as [Hq1 Hl1].
  assert (ptrs_ok no_mem s1 tt) as Hp1.
  { apply (ptrs_ok_more s); [done|]. intros wd. rewrite Hq1.
    intros [->|?]%elem_of_cons; [right; by right|by left]. }
  destruct (Z.eqb_spec (to_i32 i) i) as [Hi32|].
  - destruct (broadcast_message_inv None [i] d s1 Hinv1) as (s2 & E2 & Hinv2 & _ & Hl2 & Hq2).
    { constructor; [|constructor]. split; [|done]. by rewrite Hi32, (en_active _ _ _ _ Hen). }
    exists s2, tt. split; [|split; [split; [done|done|]|congruence]].
    + apply on_server_run. rewrite (M_bind_run _ _ _ _ _ E1). done.
    + apply (ptrs_ok_more s1); [done|]. intros wd [?|[a ->]]%Hq2; [by left|].
      right. left. by eexists.
  - exists s1, tt. split; [|by split; [split|]]. apply on_server_run.
    by rewrite (M_bind_run _ _ _ _ _ E1).
Qed.

(** A client connects, sends three bytes, and the echo is written in two parts. *)
Definition echo_run : list (nat * Z * list char) :=
  [(3%nat, 9, []); (4%nat, 3, lit "abc"); (4%nat, 2, []); (4%nat, 1, []); (4%nat, 3, [])].

Definition demo_server : srv := started 10 11 12 13.

Example echo_run_wire :
  match start echo no_mem (completions echo_run) (new_server 10 11 12 13, tt) with
  | Ok (b, (s, _)) => (b, wire s)
  | Err _ => (false, [])
  end = (true, [(9, lit "ab"); (9, lit "c"); (9, lit "abc")]).
Proof. vm_compute. reflexivity. Qed.


(** The server after the first [n] completions of the run. *)
Definition echo_after (n : nat) : srv :=
  match loop echo no_mem (completions (take n echo_run)) (demo_server, tt) with
  | Ok (_, (s, _)) => s
  | Err _ => demo_server
  end.

Lemma echo_after_steps n :
  run_check no_mem echo (take n echo_run) (demo_server, tt) = true →
  match loop echo no_mem (completions (take n echo_run)) (demo_server, tt) with
  | Ok (b, _) => b | Err _ => false end = true →
  rtc (server_step no_mem echo) (demo_server, tt) (echo_after n, tt).
Proof.
  intros Hc Hb. apply (run_check_steps no_mem echo (take n echo_run)); [exact Hc|].
  unfold echo_after. destruct (loop _ _ _ _) as [[b [s []]]|]; [|done]. by rewrite Hb.
Qed.




Lemma echo_after_inv n :
  run_check no_mem echo (take n echo_run) (demo_server, tt) = true →
  match loop echo no_mem (completions (take n echo_run)) (demo_server, tt) with
  | Ok (b, _) => b | Err _ => false end = true →
  loop_inv no_mem anything None (echo_after n) tt.
Proof.
  intros Hc Hb.
  apply (reachable_inv no_mem anything echo 10 11 12 13 tt (echo_after n, tt) I).
  by apply echo_after_steps.
Qed.


Lemma write_connection_appends_witness :
  ∃ s', write_connection 0 (lit "hi") (echo_after 2) = Ok (tt, s') ∧
    pending no_mem s' tt 0 = Ok (lit "abcabchi").
Proof.
  destruct (write_connection_appends no_mem anything (echo_after 2) tt 0 (lit "hi") (lit "abcabc"))
    as (s' & E1 & _ & E2 & _).
  - apply echo_after_inv; vm_compute; reflexivity.
  - apply (bool_decide_eq_true_1 (0 ∈ active_connections (echo_after 2))). vm_compute. reflexivity.
  - intros c E. vm_compute in E. injection E as <-. repeat constructor.
    + exists 3. split; [reflexivity|lia].
    + exists 3. split; [|lia]. intros b u Hb. vm_compute in Hb. injection Hb as <- <-. reflexivity.
  - vm_compute. reflexivity.
  - exists s'. split; [exact E1|exact E2].
Defined.

Lemma setup_client_fresh_witness :
  ∃ i s', setup_client tt 20 (echo_after 2) = Ok (i, s') ∧ i ∉ active_connections (echo_after 2).
Proof.
  destruct (setup_client_fresh (echo_after 2) 20) as (i & s' & c & E & Hi & _).
  - apply (li_write no_mem anything None (echo_after 2) tt).
    apply echo_after_inv; vm_compute; reflexivity.
  - exists i, s'. split; [exact E|exact Hi].
Defined.

Lemma close_connection_waits_witness : close_connection 0 (echo_after 2) = Ok (tt, echo_after 2).
Proof.
  destruct (vget (clients (echo_after 2)) 0) as [c|] eqn:Ec; [|vm_compute in Ec; discriminate Ec].
  destruct (close_connection_waits (echo_after 2) 0 c) as (s' & E & _ & H & _).
  - apply (li_write no_mem anything None (echo_after 2) tt).
    apply echo_after_inv; vm_compute; reflexivity.
  - exact Ec.
  - rewrite (H ltac:(vm_compute; discriminate)) in E. exact E.
Defined.

(** ** Where the contract is needed: runs that go wrong *)

(** Callbacks that answer whatever they read, even on a closed connection. *)
Definition reply_only : callbacks unit unit :=
  {| accept_cb := None; close_cb := None;
     read_cb := Some (λ i b n, on_server (write_connection i (take (Z.to_nat n) b)));
     write_cb := None; event_cb := None; custom_read_cb := None |}.

(** The timer fires (position 2) while the peer of descriptor 9 is gone. *)
Definition timer_finds_gone : cqe :=
  {| cq_wait := 0; cq_pos := 2; cq_res := 8; cq_data := replicate 8 nul;
     cq_peek := λ fd, if fd =? 9 then 0 else -1; cq_iter := elements |}.

(** Callbacks that answer with a buffer of their own. *)
Definition reply_static : callbacks unit unit :=
  {| accept_cb := None; close_cb := None;
     read_cb := Some (λ i b n, on_server (write_connection_ptr i (PStoreItem 0) 3));
     write_cb := None; event_cb := None; custom_read_cb := None |}.

(** The timer empties the queue of a connection whose peer is gone although a
    write is in flight (server_base.tcc:77-97) and does not close it: a buffer
    the queue owns is freed while the kernel may still read it, and when the
    write completes the handler takes the front of an empty queue. *)
Theorem timer_drops_queue_of_write_in_flight :
  start reply_only no_mem
    [done_at 3 9 []; done_at 4 3 (lit "abc"); timer_finds_gone; done_at 3 3 []]
    (new_server 10 11 12 13, tt) = Err UseAfterFree ∧
  start reply_static (λ _ _, Ok (lit "abc"))
    [done_at 3 9 []; done_at 4 3 (lit "abc"); timer_finds_gone; done_at 3 3 []]
    (new_server 10 11 12 13, tt) = Err EmptyFront.
Proof. vm_compute. split; reflexivity. Qed.

(** A connection whose descriptor was closed while its read was in flight is
    closed again when the read ends, if its index was not reused: the second
    [close] hits whatever has the descriptor by then (server_base.tcc:38-57). *)
Theorem closed_twice :
  let close_on_data : callbacks unit unit :=
    {| accept_cb := None; close_cb := None;
       read_cb := Some (λ i b n, on_server (read_connection i ≫= λ _, close_connection i));
       write_cb := None; event_cb := None; custom_read_cb := None |} in
  match start close_on_data no_mem
      [done_at 3 9 []; done_at 4 3 (lit "abc"); done_at 4 0 []] (new_server 10 11 12 13, tt) with
  | Ok (_, (s, _)) => closed s
  | Err _ => []
  end = [9; 9].
Proof. vm_compute. reflexivity. Qed.

(** Data that the first connection left in flight is delivered to the
    connection that reused index 0: the check of line 34 exempts index 0
    ([req->client_idx > 0]), so the ID is not compared and the callback answers
    the new client with the old client's data. *)
Theorem stale_read_reaches_new_client :
  let close_then_reply : callbacks unit unit :=
    {| accept_cb := None; close_cb := None;
       read_cb := Some (λ i b n, on_server (
         if bool_decide (take 3 b = lit "bye") then read_connection i ≫= λ _, close_connection i
         else write_connection i (take (Z.to_nat n) b)));
       write_cb := None; event_cb := None; custom_read_cb := None |} in
  match start close_then_reply no_mem
      [done_at 3 20 []; done_at 4 3 (lit "bye"); done_at 3 21 []; done_at 3 6 (lit "secret");
       done_at 5 6 []] (new_server 10 11 12 13, tt) with
  | Ok (_, (s, _)) => (closed s, wire s)
  | Err _ => ([], [])
  end = ([20], [(21, lit "secret")]).
Proof. vm_compute. reflexivity. Qed.
