(* ===== verification/TcpServer.v ===== *)
(** * The server the web server writes to

    [basic_web_server<T>] works on top of either server type.  What it calls of
    [server<T>] is the class [TcpServer]; what it may rely on is the class
    [TcpServerLaws], stated on the messages queued per connection.  The plain
    server of NonTls.v keeps these promises. *)

From S2P Require Import Prelude ServerBase NonTls.
From Stdlib Require Import ZArith Lia.
From stdpp Require Import base gmap strings list fin_maps sets.

#[local] Open Scope Z_scope.

(** ** Operations *)

(** [write_connection] for a vector and for a pointer, and [broadcast_message] for
    a pointer.  Closing is in [ServerType], reading in ServerBase.v. *)
Class TcpServer (X : Type) := {
  tcp_write : Z → list char → M (server_base X) unit;
  tcp_write_ptr : Z → char_ptr → Z → M (server_base X) unit;
  tcp_broadcast : list Z → Z → char_ptr → Z → Z → M (server_base X) unit
}.

(** ** Messages *)

(** A queued message; for a broadcast [info] is what the callbacks are given. *)
Inductive queued_msg :=
| QBytes (b : list char)
| QPtr (p : char_ptr) (n : Z) (info : Z)
| QMulti (h : Z).

Definition msg_of (wd : write_data) : queued_msg :=
  match wd_multi wd with
  | Some h => QMulti h
  | None =>
      if decide (wd_ptr_buff wd = PNull) then QBytes (wd_buff wd)
      else QPtr (wd_ptr_buff wd) (wd_total_length wd) (additional_info wd)
  end.

Definition tcp_queue {X} (s : server_base X) (i : Z) : list queued_msg :=
  match vget (clients s) i with Ok c => msg_of <$> send_data c | Err _ => [] end.

Definition client_id {X} (c : client X) : Z * Z := (cl_id c, cl_sockfd c).

(** The connections stay as they are. *)
Record same_conns {X} (s s' : server_base X) : Prop := {
  sc_ids : client_id <$> clients s' = client_id <$> clients s;
  sc_active : active_connections s' = active_connections s;
  sc_freed : freed_indexes s' = freed_indexes s
}.

(** [m] is queued for the connections [idxs]. *)
Record queued_for {X} (idxs : list Z) (m : queued_msg) (s s' : server_base X) : Prop := {
  qf_conns : same_conns s s';
  qf_queue : ∀ j, tcp_queue s' j = tcp_queue s j ++ (if decide (j ∈ idxs) then [m] else [])
}.

(** Nothing is queued. *)
Record only_ring {X} (s s' : server_base X) : Prop := {
  or_conns : same_conns s s';
  or_queue : ∀ j, tcp_queue s' j = tcp_queue s j
}.

(** ** Laws *)

Class TcpServerLaws (X : Type) `{!ServerType X, !TcpServer X} := {
  tcp_inv : server_base X → Prop;
  law_client s i : tcp_inv s → i ∈ active_connections s → ∃ c, vget (clients s) i = Ok c;
  law_write s i b : tcp_inv s → i ∈ active_connections s →
    ∃ s', tcp_write i b s = Ok (tt, s') ∧ tcp_inv s' ∧ queued_for [i] (QBytes b) s s';
  law_write_ptr s i p n : tcp_inv s → i ∈ active_connections s → p ≠ PNull →
    ∃ s', tcp_write_ptr i p n s = Ok (tt, s') ∧ tcp_inv s' ∧ queued_for [i] (QPtr p n (-1)) s s';
  law_broadcast s idxs n p l info :
    tcp_inv s → Forall (λ i, i ∈ active_connections s ∧ to_i32 i = i) idxs → NoDup idxs → 0 < n →
    p ≠ PNull →
    ∃ s', tcp_broadcast idxs n p l info s = Ok (tt, s') ∧ tcp_inv s' ∧
          queued_for idxs (QPtr p l (to_i32 info)) s s';
  law_read s i : tcp_inv s → i ∈ active_connections s →
    ∃ s', read_connection i s = Ok (tt, s') ∧ tcp_inv s' ∧ only_ring s s';
  law_custom s fd n i b a : tcp_inv s →
    ∃ s', custom_read_req fd n i b a s = Ok (tt, s') ∧ tcp_inv s' ∧ only_ring s s'
}.

(** What a server that closes without I/O promises as well. *)
Class TcpCloseLaws (X : Type) `{!ServerType X, !TcpServer X, !TcpServerLaws X} := {
  law_close s i c : tcp_inv s → i ∈ active_connections s → tcp_queue s i = [] →
    vget (clients s) i = Ok c →
    ∃ s', ServerBase.close_connection i s = Ok (tt, s') ∧ tcp_inv s' ∧
      clients s' = clients s ∧ active_connections s' = active_connections s ∖ {[i]} ∧
      freed_indexes s' = {[i]} ∪ freed_indexes s ∧ closed s' = closed s ++ [cl_sockfd c];
  law_close_busy s i : tcp_inv s → i ∈ active_connections s → tcp_queue s i ≠ [] →
    ServerBase.close_connection i s = Ok (tt, s)
}.

(** ** The plain server *)

#[export] Instance non_tls_tcp : TcpServer unit :=
  {| tcp_write := write_connection;
     tcp_write_ptr := write_connection_ptr;
     tcp_broadcast := broadcast_message_ptr |}.

(** * Lemmas *)

Lemma tcp_queue_client {X} (s : server_base X) i c :
  vget (clients s) i = Ok c → tcp_queue s i = msg_of <$> send_data c.
Proof. unfold tcp_queue. by intros ->. Qed.

Lemma same_conns_refl {X} (s : server_base X) : same_conns s s.
Proof. done. Qed.

Lemma same_conns_len {X} (s s' : server_base X) : same_conns s s' → len (clients s') = len (clients s).
Proof.
  intros [H _ _]. apply (f_equal length) in H. rewrite !length_fmap in H. unfold len. by rewrite H.
Qed.

Lemma same_conns_trans {X} (s1 s2 s3 : server_base X) :
  same_conns s1 s2 → same_conns s2 s3 → same_conns s1 s3.
Proof. intros [] []. split; congruence. Qed.

#[export] Instance same_conns_equiv {X} : Equivalence (@same_conns X).
Proof.
  split; [intros s; done| |intros s1 s2 s3; apply same_conns_trans].
  intros s1 s2 []. by split.
Qed.

#[export] Instance only_ring_preorder {X} : PreOrder (@only_ring X).
Proof.
  split; [by split|]. intros s1 s2 s3 [H1 H2] [H3 H4].
  split; [by transitivity s2|]. intros j. by rewrite H4.
Qed.

(** One client is replaced by one with the same identity. *)
Lemma same_conns_update {X} (s s' : server_base X) i c c' :
  vget (clients s) i = Ok c → clients s' = <[Z.to_nat i := c']> (clients s) →
  cl_id c' = cl_id c → cl_sockfd c' = cl_sockfd c →
  active_connections s' = active_connections s → freed_indexes s' = freed_indexes s →
  same_conns s s'.
Proof.
  intros [_ Hv]%vget_lookup Ec Hi Hf Ha Hfr. split; [|done..].
  rewrite Ec, list_fmap_insert. apply list_insert_id. rewrite list_lookup_fmap, Hv. simpl.
  unfold client_id. congruence.
Qed.

Lemma tcp_queue_update {X} (s s' : server_base X) i c c' j :
  vget (clients s) i = Ok c → clients s' = <[Z.to_nat i := c']> (clients s) →
  tcp_queue s' j = if decide (j = i) then msg_of <$> send_data c' else tcp_queue s j.
Proof.
  intros Hv Ec. pose proof (vget_range _ _ _ Hv) as Hr. unfold tcp_queue. rewrite Ec.
  case_decide as Hj.
  - subst j. by rewrite vget_insert_eq.
  - by rewrite vget_insert_ne by (done || lia).
Qed.

Lemma enqueued_queued_for i wd s s' : enqueued i wd s s' → queued_for [i] (msg_of wd) s s'.
Proof.
  intros [(c & c' & Hv & Ec & Hq & Hid & Hfd) Ha Hf _ _ _].
  split; [by eapply same_conns_update|]. intros j. rewrite (tcp_queue_update s s' i c c') by done.
  destruct (decide (j = i)) as [->|Hj].
  - rewrite decide_True by set_solver. by rewrite (tcp_queue_client s i c Hv), Hq, fmap_app.
  - rewrite decide_False by set_solver. by rewrite app_nil_r.
Qed.

Lemma only_client_ring i c s s' :
  vget (clients s) i = Ok c → only_client i (send_data c) s s' → only_ring s s'.
Proof.
  intros Hv [(c0 & c' & Hv0 & Ec & Hq & Hid & Hfd) Ha Hf]. rewrite Hv in Hv0. injection Hv0 as <-.
  split; [by eapply same_conns_update|]. intros j. rewrite (tcp_queue_update s s' i c c') by done.
  case_decide; [subst j|done]. by rewrite (tcp_queue_client s i c Hv), Hq.
Qed.

Lemma queued_for_cons {X} i idxs m (s s1 s2 : server_base X) :
  i ∉ idxs → queued_for [i] m s s1 → queued_for idxs m s1 s2 → queued_for (i :: idxs) m s s2.
Proof.
  intros Hi [H1 Q1] [H2 Q2]. split; [by transitivity s1|]. intros j. rewrite Q2, Q1.
  destruct (decide (j = i)) as [->|Hj].
  - rewrite (decide_True (P := i ∈ [i])), (decide_False (P := i ∈ idxs)),
      (decide_True (P := i ∈ i :: idxs)) by set_solver. by rewrite app_nil_r.
  - rewrite (decide_False (P := j ∈ [i])) by set_solver. rewrite app_nil_r.
    destruct (decide (j ∈ idxs)); [rewrite decide_True|rewrite decide_False]; set_solver.
Qed.

Lemma broadcast_queued idxs n p l info s :
  write_inv None s → Forall (λ i, i ∈ active_connections s ∧ to_i32 i = i) idxs → NoDup idxs → 0 < n →
  p ≠ PNull →
  ∃ s', broadcast_message_ptr idxs n p l info s = Ok (tt, s') ∧ write_inv None s' ∧
        queued_for idxs (QPtr p l (to_i32 info)) s s'.
Proof.
  intros Hinv Hall Hnd Hn Hp. unfold broadcast_message_ptr. rewrite (proj2 (Z.ltb_lt _ _)) by done.
  simpl. clear Hn. revert s Hinv Hall. induction Hnd as [|i idxs Hi Hnd IH]; intros s Hinv Hall; simpl.
  { exists s. split_and!; [done|done|]. split; [done|]. intros j.
    rewrite decide_False by set_solver. by rewrite app_nil_r. }
  apply Forall_cons in Hall as [[Ha Hi32] Hall]. rewrite Hi32.
  destruct (ptr_enqueue_inv None i p l true info s Hinv Ha ltac:(done) Hp) as (s1 & E & Hinv1 & Hen).
  rewrite (M_bind_run _ _ _ tt s1) by exact E.
  pose proof (enqueued_queued_for _ _ _ _ Hen) as Hq.
  assert (active_connections s1 = active_connections s) as Ha1 by apply Hen.
  destruct (IH s1 Hinv1) as (s2 & E2 & Hinv2 & Hq2); [by rewrite Ha1|].
  exists s2. split_and!; [done|done|]. eapply queued_for_cons; [done| |exact Hq2].
  revert Hq. unfold msg_of. simpl. by rewrite decide_False.
Qed.

Lemma queue_idle s i c :
  write_inv None s → vget (clients s) i = Ok c →
  num_write_reqs c = 0 ↔ tcp_queue s i = [].
Proof.
  intros [Hc _] Hv. rewrite (tcp_queue_client s i c Hv).
  pose proof (ci_clients _ _ _ Hc i c Hv) as Hok. unfold client_ok in Hok.
  destruct (write_reqs (ring s) i) as [|q [|]]; [| |done].
  - destruct Hok as [-> [->|?]]; [|done]. done.
  - destruct Hok as (-> & _ & _ & wd & rest & -> & _). done.
Qed.

#[export] Instance non_tls_laws : TcpServerLaws unit.
Proof.
  refine {| tcp_inv := write_inv None |}; simpl.
  - intros s i [Hc _] Hi. by eapply active_client.
  - intros s i b Hinv Hi. destruct (write_connection_inv None i b s Hinv Hi ltac:(done)) as (s' & E & ? & He).
    exists s'. split_and!; [done|done|]. exact (enqueued_queued_for _ _ _ _ He).
  - intros s i p n Hinv Hi Hp.
    destruct (write_connection_ptr_inv None i p n s Hinv Hi ltac:(done) Hp) as (s' & E & ? & He).
    exists s'. split_and!; [done|done|]. apply enqueued_queued_for in He. revert He. unfold msg_of.
    simpl. by rewrite decide_False.
  - intros s idxs n p l info. apply broadcast_queued.
  - intros s i Hinv Hi. destruct (active_client _ _ _ _ (proj1 Hinv) Hi) as [c Hv].
    destruct (add_read_req_inv None s i c Hinv Hv) as (n & s' & E & Hinv' & Ho).
    exists s'. unfold read_connection. rewrite (M_bind_run _ _ _ _ _ E).
    split_and!; [done|done|]. by eapply only_client_ring.
  - intros s fd n i b a Hinv. destruct (custom_read_req_inv None s fd n i b a Hinv) as (s' & E & ? & Ec & Ea).
    exists s'. split_and!; [done|done|]. injection E as <-. done.
Defined.

#[export] Instance non_tls_close_laws : TcpCloseLaws unit.
Proof.
  split; simpl.
  - intros s i c Hinv Hi Hq Hv. destruct (close_connection_inv s i c Hinv Hv) as (s' & E & ? & Es).
    rewrite decide_True in Es by (by apply (queue_idle s i c)).
    exists s'. subst s'. by split_and!.
  - intros s i Hinv Hi Hq. destruct (active_client _ _ _ _ (proj1 Hinv) Hi) as [c Hv].
    destruct (close_connection_inv s i c Hinv Hv) as (s' & E & _ & Es).
    rewrite decide_False in Es; [by rewrite E, Es|].
    intros Hn. by apply Hq, (queue_idle s i c).
Qed.

(** ** Several messages for one connection *)

Record sent_to {X} (i : Z) (ms : list queued_msg) (s s' : server_base X) : Prop := {
  st_conns : same_conns s s';
  st_queue : ∀ j, tcp_queue s' j = tcp_queue s j ++ (if decide (j = i) then ms else [])
}.

Lemma sent_to_nil {X} i (s s' : server_base X) : only_ring s s' → sent_to i [] s s'.
Proof. intros [Hc Hq]. split; [done|]. intros j. rewrite Hq. by case_decide; rewrite app_nil_r. Qed.

Lemma sent_to_one {X} i m (s s' : server_base X) : queued_for [i] m s s' → sent_to i [m] s s'.
Proof.
  intros [Hc Hq]. split; [done|]. intros j. rewrite Hq. f_equal.
  destruct (decide (j = i)) as [->|Hj]; [by rewrite decide_True by set_solver|].
  by rewrite decide_False by set_solver.
Qed.

Lemma sent_to_trans {X} i ms1 ms2 (s1 s2 s3 : server_base X) :
  sent_to i ms1 s1 s2 → sent_to i ms2 s2 s3 → sent_to i (ms1 ++ ms2) s1 s3.
Proof.
  intros [H1 Q1] [H2 Q2]. split; [by transitivity s2|]. intros j. rewrite Q2, Q1.
  case_decide; [by rewrite app_assoc|by rewrite !app_nil_r].
Qed.

(** ** A server with two connections, for concrete runs *)

Definition two_conns : server_base unit :=
  {| clients := [fresh_client (-1) 9; fresh_client (-1) 10]; active_connections := {[0; 1]};
     freed_indexes := ∅; ring := []; multi_heap := ∅; next_addr := 0; listener_fd := 3; timerfd := 4;
     notification_efd := 5; kill_efd := 6; ran_server := true; is_active := true; closed := [];
     eventfd_writes := []; wire := [] |}.

Lemma two_conns_inv : write_inv None two_conns.
Proof.
  split; split; simpl.
  - intros i. unfold len. simpl. rewrite !elem_of_union, !elem_of_singleton, elem_of_empty. lia.
  - set_solver.
  - intros i c Hv. pose proof (vget_range _ _ _ Hv) as Hr. unfold len in Hr. simpl in Hr.
    assert (i = 0 ∨ i = 1) as [->| ->] by lia; injection Hv as <-; (split; [done|by left]).
  - constructor.
  - intros h. rewrite lookup_empty. done.
  - intros h b u. by rewrite lookup_empty.
  - intros h x. by rewrite lookup_empty.
  - intros wd. set_solver.
  - constructor.
Qed.
