(* ===== verification/WebBase.v ===== *)
(** * header/web_server/web_server.h and the base of web_server.tcc

    The state of [basic_web_server]: the data it keeps per TCP client, the
    websocket clients, the broadcasts in progress, the two message queues to and
    from the program thread, and the file cache; with the operations that both
    the HTTP and the websocket part use.

    The operating system and OpenSSL are the record [env]: an answer may depend
    on how many system calls were made before ([sys_calls]). *)

From S2P Require Import Prelude Bytes Utility WsFrame Cache ServerBase TcpServer.
From Stdlib Require Import ZArith Lia.
From stdpp Require Import base gmap strings list fin_maps sets.

#[local] Open Scope Z_scope.

(** ** Data *)

Inductive message_type := websocket_broadcast | broadcast_finished.

Record message_post_data := {
  mp_type : message_type;
  mp_buff_ptr : char_ptr;
  mp_length : Z;
  mp_item_idx : Z;
  mp_additional_info : Z
}.

(** [message_post_data data{}] *)
Definition no_message : message_post_data :=
  {| mp_type := websocket_broadcast; mp_buff_ptr := PNull; mp_length := 0; mp_item_idx := 0;
     mp_additional_info := 0 |}.

Record broadcast_data_items := { bd_buff_ptr : char_ptr; bd_data_len : Z; bd_uses : Z }.

Definition no_broadcast : broadcast_data_items :=
  {| bd_buff_ptr := PNull; bd_data_len := to_u64 (-1); bd_uses := to_u64 (-1) |}.

Record ws_client := {
  wc_currently_writing : Z;
  wc_close : bool;
  wc_websocket_frames : list char;
  wc_receiving_data : receiving_data_info;
  wc_id : Z;
  wc_client_idx : Z
}.

Definition new_ws_client_data : ws_client :=
  {| wc_currently_writing := 0; wc_close := false; wc_websocket_frames := [];
     wc_receiving_data := no_receiving_data; wc_id := -1; wc_client_idx := -1 |}.

Definition wc_set_writing (n : Z) (c : ws_client) : ws_client :=
  {| wc_currently_writing := n; wc_close := wc_close c;
     wc_websocket_frames := wc_websocket_frames c; wc_receiving_data := wc_receiving_data c;
     wc_id := wc_id c; wc_client_idx := wc_client_idx c |}.
Definition wc_set_frames (f : list char) (c : ws_client) : ws_client :=
  {| wc_currently_writing := wc_currently_writing c; wc_close := wc_close c;
     wc_websocket_frames := f; wc_receiving_data := wc_receiving_data c;
     wc_id := wc_id c; wc_client_idx := wc_client_idx c |}.
Definition wc_set_receiving (r : receiving_data_info) (c : ws_client) : ws_client :=
  {| wc_currently_writing := wc_currently_writing c; wc_close := wc_close c;
     wc_websocket_frames := wc_websocket_frames c; wc_receiving_data := r;
     wc_id := wc_id c; wc_client_idx := wc_client_idx c |}.
Definition wc_set_id (id : Z) (c : ws_client) : ws_client :=
  {| wc_currently_writing := wc_currently_writing c; wc_close := wc_close c;
     wc_websocket_frames := wc_websocket_frames c; wc_receiving_data := wc_receiving_data c;
     wc_id := id; wc_client_idx := wc_client_idx c |}.
Definition wc_set_client_idx (idx : Z) (c : ws_client) : ws_client :=
  {| wc_currently_writing := wc_currently_writing c; wc_close := wc_close c;
     wc_websocket_frames := wc_websocket_frames c; wc_receiving_data := wc_receiving_data c;
     wc_id := wc_id c; wc_client_idx := idx |}.

(** The websocket members of [basic_web_server]; [ws_delivered] are the messages
    that reached the place of the application code in [websocket_process_read_cb]. *)
Record websockets := {
  ws_freed_indexes : gset Z;
  websocket_clients : list ws_client;
  all_websocket_connections : gset Z;
  active_websocket_connections_client_idxs : gset Z;
  ws_delivered : list (Z * list char)
}.

(** The message queues, and the counter of [central_communication_eventfd]. *)
Record message_queues := {
  to_server_queue : list message_post_data;
  to_program_queue : list message_post_data;
  central_eventfd : Z
}.

Record web_server := {
  tcp_server_set : bool;
  tcp_clients : list tcp_client;
  broadcast_data : list broadcast_data_items;
  web_cache : cache;
  web_sockets : websockets;
  web_queues : message_queues;
  sys_calls : nat;
  open_fds : list Z
}.

Definition set_tcp_set (b : bool) (w : web_server) : web_server :=
  {| tcp_server_set := b; tcp_clients := tcp_clients w; broadcast_data := broadcast_data w;
     web_cache := web_cache w; web_sockets := web_sockets w; web_queues := web_queues w;
     sys_calls := sys_calls w; open_fds := open_fds w |}.
Definition set_tcp_clients (l : list tcp_client) (w : web_server) : web_server :=
  {| tcp_server_set := tcp_server_set w; tcp_clients := l; broadcast_data := broadcast_data w;
     web_cache := web_cache w; web_sockets := web_sockets w; web_queues := web_queues w;
     sys_calls := sys_calls w; open_fds := open_fds w |}.
Definition set_broadcast_data (l : list broadcast_data_items) (w : web_server) : web_server :=
  {| tcp_server_set := tcp_server_set w; tcp_clients := tcp_clients w; broadcast_data := l;
     web_cache := web_cache w; web_sockets := web_sockets w; web_queues := web_queues w;
     sys_calls := sys_calls w; open_fds := open_fds w |}.
Definition set_web_cache (c : cache) (w : web_server) : web_server :=
  {| tcp_server_set := tcp_server_set w; tcp_clients := tcp_clients w;
     broadcast_data := broadcast_data w; web_cache := c; web_sockets := web_sockets w;
     web_queues := web_queues w; sys_calls := sys_calls w; open_fds := open_fds w |}.
Definition set_web_sockets (ws : websockets) (w : web_server) : web_server :=
  {| tcp_server_set := tcp_server_set w; tcp_clients := tcp_clients w;
     broadcast_data := broadcast_data w; web_cache := web_cache w; web_sockets := ws;
     web_queues := web_queues w; sys_calls := sys_calls w; open_fds := open_fds w |}.
Definition set_web_queues (q : message_queues) (w : web_server) : web_server :=
  {| tcp_server_set := tcp_server_set w; tcp_clients := tcp_clients w;
     broadcast_data := broadcast_data w; web_cache := web_cache w; web_sockets := web_sockets w;
     web_queues := q; sys_calls := sys_calls w; open_fds := open_fds w |}.
Definition set_os (n : nat) (fds : list Z) (w : web_server) : web_server :=
  {| tcp_server_set := tcp_server_set w; tcp_clients := tcp_clients w;
     broadcast_data := broadcast_data w; web_cache := web_cache w; web_sockets := web_sockets w;
     web_queues := web_queues w; sys_calls := n; open_fds := fds |}.

Definition ws_set_active (a : gset Z) (ws : websockets) : websockets :=
  {| ws_freed_indexes := ws_freed_indexes ws; websocket_clients := websocket_clients ws;
     all_websocket_connections := all_websocket_connections ws;
     active_websocket_connections_client_idxs := a; ws_delivered := ws_delivered ws |}.
Definition ws_set_all (a : gset Z) (ws : websockets) : websockets :=
  {| ws_freed_indexes := ws_freed_indexes ws; websocket_clients := websocket_clients ws;
     all_websocket_connections := a;
     active_websocket_connections_client_idxs := active_websocket_connections_client_idxs ws;
     ws_delivered := ws_delivered ws |}.
Definition ws_set_freed (f : gset Z) (ws : websockets) : websockets :=
  {| ws_freed_indexes := f; websocket_clients := websocket_clients ws;
     all_websocket_connections := all_websocket_connections ws;
     active_websocket_connections_client_idxs := active_websocket_connections_client_idxs ws;
     ws_delivered := ws_delivered ws |}.
Definition ws_set_clients (l : list ws_client) (ws : websockets) : websockets :=
  {| ws_freed_indexes := ws_freed_indexes ws; websocket_clients := l;
     all_websocket_connections := all_websocket_connections ws;
     active_websocket_connections_client_idxs := active_websocket_connections_client_idxs ws;
     ws_delivered := ws_delivered ws |}.
Definition ws_set_delivered (l : list (Z * list char)) (ws : websockets) : websockets :=
  {| ws_freed_indexes := ws_freed_indexes ws; websocket_clients := websocket_clients ws;
     all_websocket_connections := all_websocket_connections ws;
     active_websocket_connections_client_idxs := active_websocket_connections_client_idxs ws;
     ws_delivered := l |}.

(** [basic_web_server()]; [fd] is the descriptor of inotify. *)
Definition new_web_server (fd : Z) : web_server :=
  {| tcp_server_set := false; tcp_clients := []; broadcast_data := []; web_cache := new_cache 5 fd;
     web_sockets := {| ws_freed_indexes := ∅; websocket_clients := [];
                       all_websocket_connections := ∅;
                       active_websocket_connections_client_idxs := ∅; ws_delivered := [] |};
     web_queues := {| to_server_queue := []; to_program_queue := []; central_eventfd := 0 |};
     sys_calls := 0; open_fds := [fd] |}.

(** ** The environment *)

(** [os_open], [os_stat], [os_ioctl] and [os_watch] are what [open], [fstat],
    [ioctl] and [inotify_add_watch] return; [sha1] and [encode_block] are OpenSSL's
    SHA1 and EVP_EncodeBlock; [env_iter] is the order in which the elements of an
    [unordered_set] are met. *)
Record env := {
  os_open : nat → list char → Z;
  os_stat : nat → Z → option stat_struct;
  os_ioctl : nat → Z → option Z;
  os_watch : nat → list char → Z;
  sha1 : list char → list char;
  encode_block : list char → list char;
  env_iter : gset Z → list Z
}.

(** ** Messages between the threads *)

Abbreviation Web := (M web_server).

Definition push_to_server (m : message_post_data) (w : web_server) : web_server :=
  set_web_queues {| to_server_queue := to_server_queue (web_queues w) ++ [m];
                    to_program_queue := to_program_queue (web_queues w);
                    central_eventfd := central_eventfd (web_queues w) |} w.

(** Enqueues for the program thread and adds 1 to its eventfd. *)
Definition post_message_to_program (msg_type : message_type) (buff_ptr : char_ptr)
    (length item_idx additional_info : Z) : Web unit :=
  mget ≫= λ w,
  if negb (tcp_server_set w) then mret tt
  else
    let m := {| mp_type := msg_type; mp_buff_ptr := buff_ptr; mp_length := length;
                mp_item_idx := item_idx; mp_additional_info := additional_info |} in
    mput (set_web_queues {| to_server_queue := to_server_queue (web_queues w);
                            to_program_queue := to_program_queue (web_queues w) ++ [m];
                            central_eventfd := central_eventfd (web_queues w) + 1 |} w).

(** [try_dequeue] leaves the default message when the queue is empty. *)
Definition get_from_to_program_queue : Web message_post_data :=
  mget ≫= λ w,
  let q := web_queues w in
  match to_program_queue q with
  | [] => mret no_message
  | m :: l => mput (set_web_queues {| to_server_queue := to_server_queue q; to_program_queue := l;
                                      central_eventfd := central_eventfd q |} w) ≫= λ _, mret m
  end.

Definition get_from_to_server_queue : Web message_post_data :=
  mget ≫= λ w,
  let q := web_queues w in
  match to_server_queue q with
  | [] => mret no_message
  | m :: l => mput (set_web_queues {| to_server_queue := l; to_program_queue := to_program_queue q;
                                      central_eventfd := central_eventfd q |} w) ≫= λ _, mret m
  end.

(** ** TCP clients *)

Definition get_tcp_client (idx : Z) : Web tcp_client :=
  mget ≫= λ w, mlift (vget (tcp_clients w) idx).
Definition upd_tcp_client (idx : Z) (g : tcp_client → tcp_client) : Web unit :=
  mget ≫= λ w, mlift (vupd (tcp_clients w) idx g) ≫= λ l, mmodify (set_tcp_clients l).

Definition tc_set_ws_client_idx (i : Z) (t : tcp_client) : tcp_client :=
  {| last_requested_read_filepath := last_requested_read_filepath t; tc_ws_client_idx := i;
     using_file := using_file t |}.
Definition tc_set_filepath (p : list char) (t : tcp_client) : tcp_client :=
  {| last_requested_read_filepath := p; tc_ws_client_idx := tc_ws_client_idx t;
     using_file := using_file t |}.

Definition get_ws_client (idx : Z) : Web ws_client :=
  mget ≫= λ w, mlift (vget (websocket_clients (web_sockets w)) idx).
Definition mod_sockets (g : websockets → websockets) : Web unit :=
  mmodify (λ w, set_web_sockets (g (web_sockets w)) w).
Definition upd_ws_client (idx : Z) (g : ws_client → ws_client) : Web unit :=
  mget ≫= λ w, mlift (vupd (websocket_clients (web_sockets w)) idx g) ≫= λ l,
  mod_sockets (ws_set_clients l).

Definition new_tcp_client (client_idx : Z) : Web unit :=
  mget ≫= λ w,
  let l := tcp_clients w in
  let l := if len l <=? to_u64 (to_i32 (client_idx + 1))
           then vresize new_tcp_client_data l (to_i32 (client_idx + 1)) else l in
  mlift (vset l client_idx new_tcp_client_data) ≫= λ l, mmodify (set_tcp_clients l).

(** The cache operations on the web server's cache and client. *)
Definition cache_finished (client_idx : Z) : Web unit :=
  mget ≫= λ w,
  get_tcp_client client_idx ≫= λ t,
  mlift (finished_with_item client_idx t (web_cache w)) ≫= λ '(t, c),
  mmodify (set_web_cache c) ≫= λ _, upd_tcp_client client_idx (λ _, t).

Definition cache_fetch (filepath : list char) (client_idx : Z) : Web cache_fetch_item :=
  mget ≫= λ w,
  get_tcp_client client_idx ≫= λ t,
  mlift (fetch_item filepath client_idx t (web_cache w)) ≫= λ '(r, t, c),
  mmodify (set_web_cache c) ≫= λ _, upd_tcp_client client_idx (λ _, t) ≫= λ _, mret r.

Definition kill_client (client_idx : Z) : Web unit :=
  cache_finished client_idx ≫= λ _,
  upd_tcp_client client_idx (set_using_file false) ≫= λ _,
  get_tcp_client client_idx ≫= λ t,
  let ws_client_idx := tc_ws_client_idx t in
  mod_sockets (λ ws, ws_set_all (all_websocket_connections ws ∖ {[ws_client_idx]}) ws) ≫= λ _,
  mget ≫= λ w,
  mwhen (bool_decide (client_idx ∈ active_websocket_connections_client_idxs (web_sockets w))) (
    mod_sockets (λ ws,
      ws_set_active (active_websocket_connections_client_idxs ws ∖ {[client_idx]}) ws) ≫= λ _,
    mod_sockets (λ ws, ws_set_freed ({[ws_client_idx]} ∪ ws_freed_indexes ws) ws)).

(** ** Calls of the TCP server *)

Section Calls.
Context {X : Type} `{!ServerType X, !TcpServer X}.
Abbreviation Run := (M (server_base X * web_server)).

Definition on_web {A} (m : Web A) : Run A := λ '(s, w),
  match m w with Ok (a, w') => Ok (a, (s, w')) | Err f => Err f end.

(** [tcp_server->...] *)
Definition on_tcp {A} (m : M (server_base X) A) : Run A :=
  on_web mget ≫= λ w,
  if tcp_server_set w then on_server m else mfault NullDeref.

Definition web_close_connection (client_idx : Z) : Run unit :=
  on_web (kill_client client_idx) ≫= λ _,
  on_tcp (ServerBase.close_connection client_idx).

(** [sizeof(inotify_event)] *)
Definition inotify_event_size : Z := 16.

Definition read_inotify : Run unit :=
  on_web mget ≫= λ w,
  on_tcp (custom_read_req (inotify_fd (web_cache w)) inotify_event_size (-1) [] 0).

Definition set_tcp_server : Run unit :=
  on_web (mmodify (set_tcp_set true)) ≫= λ _, read_inotify.

(** Called from the program thread. *)
Definition post_message_to_server_thread (msg_type : message_type) (buff_ptr : char_ptr)
    (length item_idx additional_info : Z) : Run unit :=
  on_web mget ≫= λ w,
  if negb (tcp_server_set w) then mret tt
  else
    on_web (mmodify (push_to_server
      {| mp_type := msg_type; mp_buff_ptr := buff_ptr; mp_length := length;
         mp_item_idx := item_idx; mp_additional_info := additional_info |})) ≫= λ _,
    on_tcp notify_event.

(** The destructor closes the descriptor of inotify. *)
Definition destroy_web_server : Web unit :=
  mmodify (λ w, set_os (S (sys_calls w))
    (filter (λ fd, fd ≠ inotify_fd (web_cache w)) (open_fds w)) w).

End Calls.

(** * Lemmas *)

(** ** Running the operations *)

Section Running.
Context {X : Type}.
Implicit Types (s : server_base X) (w : web_server).

Lemma on_web_run {A} (m : Web A) s w a w' :
  m w = Ok (a, w') → on_web m (s, w) = Ok (a, (s, w')).
Proof. intros H. unfold on_web. by rewrite H. Qed.

Lemma on_web_bind {A B} (m : Web A) (k : A → M (server_base X * web_server) B) s w a w' :
  m w = Ok (a, w') → (on_web m ≫= k) (s, w) = k a (s, w').
Proof. intros H. by apply M_bind_run, on_web_run. Qed.

Lemma on_web_Ok {A} (m : Web A) s w a s' w' :
  on_web m (s, w) = Ok (a, (s', w')) ↔ m w = Ok (a, w') ∧ s' = s.
Proof.
  unfold on_web. destruct (m w) as [[a0 w0]|]; [|naive_solver].
  split; [intros [= -> -> ->]; done|]. by intros [[= -> ->] ->].
Qed.

Lemma on_tcp_run {A} (m : M (server_base X) A) s w a s' :
  tcp_server_set w = true → m s = Ok (a, s') → on_tcp m (s, w) = Ok (a, (s', w)).
Proof.
  intros Hw H. unfold on_tcp. rewrite (on_web_bind _ _ _ _ w w) by done. rewrite Hw.
  unfold on_server. by rewrite H.
Qed.

Lemma on_tcp_bind {A B} (m : M (server_base X) A) (k : A → M (server_base X * web_server) B) s w a s' :
  tcp_server_set w = true → m s = Ok (a, s') → (on_tcp m ≫= k) (s, w) = k a (s', w).
Proof. intros Hw H. by apply M_bind_run, on_tcp_run. Qed.

Lemma on_tcp_Ok {A} (m : M (server_base X) A) s w a s' w' :
  on_tcp m (s, w) = Ok (a, (s', w')) → m s = Ok (a, s') ∧ w' = w.
Proof.
  unfold on_tcp. rewrite (on_web_bind _ _ _ _ w w) by done. destruct (tcp_server_set w); [|done].
  unfold on_server. destruct (m s) as [[a0 s0]|]; [|done]. intros [= -> -> ->]. done.
Qed.

Lemma on_server_Ok {A} (m : M (server_base X) A) s w a s' w' :
  on_server (W := web_server) m (s, w) = Ok (a, (s', w')) → m s = Ok (a, s') ∧ w' = w.
Proof. unfold on_server. destruct (m s) as [[a0 s0]|]; [|done]. by intros [= -> -> ->]. Qed.

(** What a part of a thread keeps, the thread keeps. *)
Lemma keeps_on_web {A} (R : relation (server_base X * web_server)) Q (m : Web A) :
  (∀ s w w', Q w w' → R (s, w) (s, w')) → keeps Q m → keeps R (on_web m).
Proof. intros HR Hm [s w] a [s' w'] [H ->]%on_web_Ok. by eapply HR, Hm. Qed.

Lemma keeps_on_tcp {A} (R : relation (server_base X * web_server)) Q (m : M (server_base X) A) :
  (∀ s s' w, Q s s' → R (s, w) (s', w)) → keeps Q m → keeps R (on_tcp m).
Proof. intros HR Hm [s w] a [s' w'] [H ->]%on_tcp_Ok. by eapply HR, Hm. Qed.

Lemma keeps_on_server {A} (R : relation (server_base X * web_server)) Q (m : M (server_base X) A) :
  (∀ s s' w, Q s s' → R (s, w) (s', w)) → keeps Q m → keeps R (on_server m).
Proof. intros HR Hm [s w] a [s' w'] [H ->]%on_server_Ok. by eapply HR, Hm. Qed.

Lemma mlift_Ok {S A} (r : result A) (t t' : S) a : mlift r t = Ok (a, t') ↔ r = Ok a ∧ t' = t.
Proof. unfold mlift. destruct r; [|naive_solver]. naive_solver. Qed.

Lemma get_tcp_client_run i w t :
  vget (tcp_clients w) i = Ok t → get_tcp_client i w = Ok (t, w).
Proof. intros H. unfold get_tcp_client. rewrite (M_bind_run _ _ w w w) by done. unfold mlift. by rewrite H. Qed.

Lemma upd_tcp_client_run i g w t :
  vget (tcp_clients w) i = Ok t →
  upd_tcp_client i g w = Ok (tt, set_tcp_clients (<[Z.to_nat i := g t]> (tcp_clients w)) w).
Proof.
  intros H. unfold upd_tcp_client. rewrite (M_bind_run _ _ w w w) by done.
  rewrite (M_bind_run _ _ w (<[Z.to_nat i := g t]> (tcp_clients w)) w); [done|].
  unfold mlift. by rewrite (vupd_is_Ok _ _ _ _ H).
Qed.

Lemma get_ws_client_run i w c :
  vget (websocket_clients (web_sockets w)) i = Ok c → get_ws_client i w = Ok (c, w).
Proof. intros H. unfold get_ws_client. rewrite (M_bind_run _ _ w w w) by done. unfold mlift. by rewrite H. Qed.

(** The web server with websocket client [i] replaced. *)
Definition put_ws_client (i : Z) (c : ws_client) (w : web_server) : web_server :=
  set_web_sockets (ws_set_clients (<[Z.to_nat i := c]> (websocket_clients (web_sockets w)))
    (web_sockets w)) w.

Lemma upd_ws_client_run i g w c :
  vget (websocket_clients (web_sockets w)) i = Ok c →
  upd_ws_client i g w = Ok (tt, put_ws_client i (g c) w).
Proof.
  intros H. unfold upd_ws_client. rewrite (M_bind_run _ _ w w w) by done.
  rewrite (M_bind_run _ _ w (<[Z.to_nat i := g c]> (websocket_clients (web_sockets w))) w); [done|].
  unfold mlift. by rewrite (vupd_is_Ok _ _ _ _ H).
Qed.

(** ** Ending a connection *)

(** What [kill_client] does to the websockets. *)
Definition kill_sockets (client_idx ws_client_idx : Z) (ws : websockets) : websockets :=
  let ws := ws_set_all (all_websocket_connections ws ∖ {[ws_client_idx]}) ws in
  if decide (client_idx ∈ active_websocket_connections_client_idxs ws) then
    ws_set_freed ({[ws_client_idx]} ∪ ws_freed_indexes ws)
      (ws_set_active (active_websocket_connections_client_idxs ws ∖ {[client_idx]}) ws)
  else ws.

Lemma cache_finished_inv i w u w' :
  cache_finished i w = Ok (u, w') →
  ∃ t c', vget (tcp_clients w) i = Ok t ∧ finished_with_item i t (web_cache w) = Ok (set_using_file false t, c') ∧
    w' = set_tcp_clients (<[Z.to_nat i := set_using_file false t]> (tcp_clients w)) (set_web_cache c' w).
Proof.
  unfold cache_finished. intros H. inv_ok. rename x into w0.
  match goal with H : mget _ = _ |- _ => injection H as <- <- end.
  match goal with H : get_tcp_client _ _ = _ |- _ => rename H into Hg end.
  unfold get_tcp_client in Hg. inv_ok.
  match goal with H : mget _ = _ |- _ => injection H as <- <- end.
  apply mlift_Ok in Hg as [Hv ->].
  match goal with H : mlift (finished_with_item _ _ _) _ = Ok (?r, _) |- _ => apply mlift_Ok in H as [Hf ->]; destruct r as [t' c'] end.
  match goal with H : (mmodify _ ≫= _) _ = _ |- _ => rename H into Hm end. inv_ok.
  match goal with H : mmodify _ _ = _ |- _ => injection H as <- <- end.
  rewrite (upd_tcp_client_run i _ (set_web_cache c' w) _ Hv) in Hm. injection Hm as <-.
  assert (t' = set_using_file false x1) as ->.
  { unfold finished_with_item in Hf. destruct (using_file x1) eqn:Eu; inv_ok; [done|].
    destruct t'; simpl in *; by subst. }
  eauto 10.
Qed.

(** The web server after client [i] with data [t] ended; [c] is the cache without
    its lock. *)
Definition killed (i : Z) (t : tcp_client) (c : cache) (w : web_server) : web_server :=
  set_web_sockets (kill_sockets i (tc_ws_client_idx t) (web_sockets w))
    (set_tcp_clients (<[Z.to_nat i := set_using_file false t]> (tcp_clients w)) (set_web_cache c w)).

Lemma cache_finished_run i w t t' c :
  vget (tcp_clients w) i = Ok t → finished_with_item i t (web_cache w) = Ok (t', c) →
  cache_finished i w = Ok (tt, set_tcp_clients (<[Z.to_nat i := t']> (tcp_clients w)) (set_web_cache c w)).
Proof.
  intros Hv Hf. unfold cache_finished. rewrite (M_bind_run _ _ w w w) by done.
  rewrite (M_bind_run _ _ _ _ _ (get_tcp_client_run _ _ _ Hv)), Hf. simpl.
  rewrite (M_bind_run _ _ w (t', c) w) by done.
  rewrite (M_bind_run _ _ w tt (set_web_cache c w)) by done.
  exact (upd_tcp_client_run i (λ _, t') (set_web_cache c w) t Hv).
Qed.

Lemma kill_client_run i w t c :
  vget (tcp_clients w) i = Ok t →
  finished_with_item i t (web_cache w) = Ok (set_using_file false t, c) →
  kill_client i w = Ok (tt, killed i t c w).
Proof.
  intros Hv Hf. pose proof (vget_range _ _ _ Hv) as Hr. unfold kill_client.
  rewrite (M_bind_run _ _ _ _ _ (cache_finished_run _ _ _ _ _ Hv Hf)).
  set (w1 := set_tcp_clients _ _).
  assert (vget (tcp_clients w1) i = Ok (set_using_file false t)) as Hv1 by by apply vget_insert_eq.
  rewrite (M_bind_run _ _ _ _ _ (upd_tcp_client_run _ _ _ _ Hv1)).
  assert (set_tcp_clients (<[Z.to_nat i := set_using_file false (set_using_file false t)]> (tcp_clients w1)) w1 = w1) as ->.
  { subst w1. unfold set_tcp_clients. simpl. by rewrite list_insert_insert_eq. }
  rewrite (M_bind_run _ _ _ _ _ (get_tcp_client_run _ _ _ Hv1)).
  unfold killed, kill_sockets. fold w1. cbv zeta. cbn [tc_ws_client_idx set_using_file].
  unfold mod_sockets, mmodify, mwhen, mget, mbind, M_bind. cbn.
  by case_decide; [rewrite bool_decide_true|rewrite bool_decide_false].
Qed.

Lemma kill_client_inv i w u w' :
  kill_client i w = Ok (u, w') →
  ∃ t c, vget (tcp_clients w) i = Ok t ∧
    finished_with_item i t (web_cache w) = Ok (set_using_file false t, c) ∧ w' = killed i t c w.
Proof.
  intros H. pose proof H as H1. unfold kill_client in H1. inv_ok.
  match goal with H : cache_finished _ _ = _ |- _ => apply cache_finished_inv in H as (t & c & Hv & Hf & _) end.
  rewrite (kill_client_run i w t c Hv Hf) in H. injection H as _ <-. eauto.
Qed.

End Running.
