(* ===== verification/WebSockets.v ===== *)
(** * web_server/websockets.tcc: websocket connections

    Opening (the handshake response and the websocket index of a connection),
    reading (frames are split, decoded, joined into messages and answered),
    writing and closing.  The frame formats are in WsFrame.v. *)

From S2P Require Import Prelude Bytes Utility CString WsFrame Cache ServerBase TcpServer WebBase.
From Stdlib Require Import ZArith Lia.
From stdpp Require Import base gmap strings list fin_maps sets.

#[local] Open Scope Z_scope.

(** ** Opening *)

(** [EVP_EncodeBlock] writes its result and a NUL into the string of 28. *)
Definition get_accept_header_value (e : env) (input : list char) : result (list char) :=
  let input := input ++ lit "258EAFA5-E914-47DA-95CA-C5AB0DC85B11" in
  let hash := sha1 e input in
  vsplice (c_str (replicate 28 nul)) 0 (encode_block e hash ++ [nul]) ≫= λ base64data,
  vslice base64data 0 28.

Definition handshake_response (accept_header_value : list char) : list char :=
  lit "HTTP/1.1 101 Switching Protocols" ++ crlf ++ lit "Upgrade: websocket" ++ crlf ++
  lit "Connection: Upgrade" ++ crlf ++ lit "Sec-WebSocket-Accept: " ++ accept_header_value ++
  crlf ++ crlf.

Definition new_ws_client (client_idx : Z) : Web Z :=
  mget ≫= λ w,
  (match set_begin (ws_freed_indexes (web_sockets w)) with
   | Some index =>
       mod_sockets (λ ws, ws_set_freed (ws_freed_indexes ws ∖ {[index]}) ws) ≫= λ _,
       get_ws_client index ≫= λ freed_client,
       let new_id := Z.rem (wc_id freed_client + 1) 100 in
       upd_ws_client index (λ _, wc_set_id new_id new_ws_client_data) ≫= λ _, mret index
   | None =>
       let l := websocket_clients (web_sockets w) ++ [new_ws_client_data] in
       mod_sockets (ws_set_clients l) ≫= λ _, mret (len l - 1)
   end) ≫= λ index,
  upd_ws_client index (wc_set_client_idx client_idx) ≫= λ _,
  mod_sockets (λ ws, ws_set_all ({[index]} ∪ all_websocket_connections ws) ws) ≫= λ _,
  mod_sockets (λ ws,
    ws_set_active ({[client_idx]} ∪ active_websocket_connections_client_idxs ws) ws) ≫= λ _,
  mret index.

Section WebSockets.
Context {X : Type} `{!ServerType X, !TcpServer X}.
Abbreviation Run := (M (server_base X * web_server)).
Variable e : env.

(** The path is not used. *)
Definition websocket_accept_read_cb (sec_websocket_key path : list char) (client_idx : Z) : Run unit :=
  on_web (mlift (get_accept_header_value e sec_websocket_key)) ≫= λ accept_header_value,
  let resp := handshake_response accept_header_value in
  on_web (mlift (vsplice (replicate (length resp) nul) 0 resp)) ≫= λ send_buffer,
  on_web (new_ws_client client_idx) ≫= λ ws_client_idx,
  on_web (upd_tcp_client client_idx (tc_set_ws_client_idx ws_client_idx)) ≫= λ _,
  on_tcp (tcp_write client_idx send_buffer).

(** ** Writing and closing *)

Definition websocket_write (ws_client_idx : Z) (buff : list char) : Run unit :=
  on_web (upd_ws_client ws_client_idx
    (λ c, wc_set_writing (to_i32 (wc_currently_writing c + 1)) c)) ≫= λ _,
  on_web (get_ws_client ws_client_idx) ≫= λ client_data,
  on_tcp (tcp_write (wc_client_idx client_data) buff).

Definition close_ws_connection_req (ws_client_idx : Z) (client_already_closed : bool) : Run bool :=
  on_web (upd_ws_client ws_client_idx
    (λ c, wc_set_writing (to_i32 (wc_currently_writing c + 1)) c)) ≫= λ _,
  on_web (get_ws_client ws_client_idx) ≫= λ client_data,
  on_web (mod_sockets (λ ws, ws_set_active
    (active_websocket_connections_client_idxs ws ∖ {[wc_client_idx client_data]}) ws)) ≫= λ _,
  on_web (upd_ws_client ws_client_idx (wc_set_frames [])) ≫= λ _,
  mwhen (negb client_already_closed) (
    on_web (mlift (make_ws_frame [] close_connection_opcode)) ≫= λ data,
    on_tcp (tcp_write (wc_client_idx client_data) data)) ≫= λ _,
  mret true.

Definition close_ws_connection_potential_confirm (ws_client_idx : Z) : Run bool :=
  on_web (get_ws_client ws_client_idx) ≫= λ client_data,
  (if wc_currently_writing client_data =? 1 then
     mwhen (wc_close client_data) (
       web_close_connection (wc_client_idx client_data) ≫= λ _,
       on_web (mod_sockets (λ ws, ws_set_freed ({[ws_client_idx]} ∪ ws_freed_indexes ws) ws)))
   else on_web (upd_ws_client ws_client_idx
          (λ c, wc_set_writing (to_i32 (wc_currently_writing c - 1)) c))) ≫= λ _,
  mret true.

(** The result says whether the connection is a websocket. *)
Definition websocket_process_write_cb (client_idx : Z) : Run bool :=
  on_web (get_tcp_client client_idx) ≫= λ t,
  let ws_client_idx := tc_ws_client_idx t in
  on_web mget ≫= λ w,
  if bool_decide (ws_client_idx ∈ all_websocket_connections (web_sockets w))
  then close_ws_connection_potential_confirm ws_client_idx ≫= λ _, mret true
  else mret false.

(** ** Reading *)

(** The fuel covers a loop that takes at least one byte per round. *)
Definition get_ws_frames (buffer : list char) (length ws_client_idx : Z)
  : Run (Z * list (list char)) :=
  on_web (get_ws_client ws_client_idx) ≫= λ client_data,
  on_web (mlift (parse_ws_frames (S (Z.to_nat length)) buffer length
                   (wc_receiving_data client_data))) ≫= λ o,
  match o with
  | None =>
      close_ws_connection_req ws_client_idx false ≫= λ _, mret (-1, [])
  | Some (frames, pending) =>
      on_web (upd_ws_client ws_client_idx (wc_set_receiving pending)) ≫= λ _, mret (1, frames)
  end.

(** One frame, lines 38 to 64: what of a message is complete after it, and
    whether the connection is being closed. *)
Definition process_frame (ws_client_idx : Z) (frame : list char) : Run (list char * bool) :=
  on_web (mlift (decode_websocket_frame frame)) ≫= λ processed_data,
  let '(code, data) := processed_data in
  if code =? 1 then
    on_web (get_ws_client ws_client_idx) ≫= λ client_data,
    if 0 <? len (wc_websocket_frames client_data) then
      on_web (upd_ws_client ws_client_idx (wc_set_frames [])) ≫= λ _,
      mret (wc_websocket_frames client_data ++ data, false)
    else mret (data, false)
  else if code =? -2 then
    on_web (upd_ws_client ws_client_idx
      (λ c, wc_set_frames (data ++ wc_websocket_frames c) c)) ≫= λ _, mret ([], false)
  else if code =? -3 then
    on_web (upd_ws_client ws_client_idx
      (λ c, wc_set_writing (to_i32 (wc_currently_writing c + 1)) c)) ≫= λ _,
    close_ws_connection_req ws_client_idx false ≫= λ closed, mret ([], closed)
  else if code =? 2 then
    on_web (mlift (make_ws_frame data pong)) ≫= λ data,
    websocket_write ws_client_idx data ≫= λ _, mret ([], false)
  else mret ([], false).

(** [if(frame_contents.size() > 0)], where the application's code goes. *)
Definition deliver (ws_client_idx : Z) (frame_contents : list char) : Run unit :=
  mwhen (0 <? len frame_contents) (on_web (mod_sockets (λ ws,
    ws_set_delivered (ws_delivered ws ++ [(ws_client_idx, frame_contents)]) ws))).

(** The loop over the frames; the result says whether the connection is being
    closed. *)
Fixpoint process_frames (ws_client_idx : Z) (frame_contents : list char)
    (frames : list (list char)) : Run bool :=
  match frames with
  | [] => mret false
  | frame :: frames =>
      (if 0 <? len frame then process_frame ws_client_idx frame
       else mret (frame_contents, false)) ≫= λ r,
      deliver ws_client_idx r.1 ≫= λ _,
      if r.2 : bool then mret true else process_frames ws_client_idx r.1 frames
  end.

Definition websocket_process_read_cb (client_idx : Z) (buffer : list char) (length : Z) : Run unit :=
  on_web (get_tcp_client client_idx) ≫= λ t,
  let ws_client_idx := tc_ws_client_idx t in
  get_ws_frames buffer length ws_client_idx ≫= λ frame_pair,
  on_web (get_ws_client ws_client_idx) ≫= λ _,
  (if frame_pair.1 =? 1 then process_frames ws_client_idx [] frame_pair.2
   else mret false) ≫= λ closed : bool,
  mwhen (negb closed) (on_tcp (read_connection client_idx)).

End WebSockets.
