(* ===== verification/Http.v ===== *)
(** * web_server/web_server.tcc: HTTP

    Recognising requests, the content type of a file, answering with a file from
    the cache or from disk, and GET requests. *)

From S2P Require Import Prelude Bytes Utility CString WsFrame Cache ServerBase TcpServer WebBase WebSockets.
From Stdlib Require Import ZArith Lia.
From stdpp Require Import base gmap strings list fin_maps sets.

#[local] Open Scope Z_scope.

(** ** Requests *)

(** [types] of [is_valid_http_req] *)
Definition request_types : list (list char) :=
  [lit "GET "; lit "POST "; lit "PUT "; lit "DELETE "; lit "PATCH "].

(** The body of the inner loop: type [j] is ruled out when it has another
    character at [i]. *)
Definition check_type (buff : list char) (i j valid : Z) : result Z :=
  vget request_types j ≫= λ type,
  if (i <? len type) && negb (Z.land (Z.shiftr valid j) 1 =? 0) then
    vget type i ≫= λ c,
    vget buff i ≫= λ b,
    mret (if decide (c = b) then valid else Z.land valid (Z.lxor 31 (Z.shiftl 1 j)))
  else mret valid.

(** The two loops, in the order of the pairs [(i, j)]. *)
Definition request_steps : list (Z * Z) :=
  i ← seqZ 0 7; j ← seqZ 0 5; [(i, j)].

Fixpoint check_types (buff : list char) (steps : list (Z * Z)) (valid : Z) : result Z :=
  match steps with
  | [] => mret valid
  | (i, j) :: steps => check_type buff i j valid ≫= check_types buff steps
  end.

Definition is_valid_http_req (buff : list char) (length : Z) : result bool :=
  if length <? 16 then mret false
  else check_types buff request_steps 31 ≫= λ valid, mret (negb (valid =? 0)).

(** ** Content types *)

Definition dot : char := cchar 46.

(** What follows the last dot. *)
Definition file_extension (filepath : list char) : result (list char) :=
  strtok_all (S (length filepath)) (lit ".") (c_str filepath) ≫= λ tokens,
  mret (default [] (last tokens)).

Definition content_types : list (list (list char) * list char) :=
  [([lit "html"; lit "htm"], lit "Content-Type: text/html");
   ([lit "css"], lit "Content-Type: text/css");
   ([lit "js"], lit "Content-Type: text/javascript");
   ([lit "opus"], lit "Content-Type: audio/opus");
   ([lit "mp3"], lit "Content-Type: audio/mpeg");
   ([lit "mp4"], lit "Content-Type: video/mp4");
   ([lit "gif"], lit "Content-Type: image/gif");
   ([lit "png"], lit "Content-Type: image/png");
   ([lit "jpg"; lit "jpeg"], lit "Content-Type: image/jpeg");
   ([lit "txt"], lit "Content-Type: text/plain");
   ([lit "wasm"], lit "Content-Type: application/wasm")].

(** The first [if] that applies. *)
Fixpoint content_type_of (extension : list char) (table : list (list (list char) * list char))
  : list char :=
  match table with
  | [] => lit "Content-Type: application/octet-stream" ++ crlf
  | (extensions, line) :: table =>
      if decide (extension ∈ extensions) then line ++ crlf else content_type_of extension table
  end.

Definition get_content_type (filepath : list char) : result (list char) :=
  file_extension filepath ≫= λ extension, mret (content_type_of extension content_types).

(** ** Files *)

(** A descriptor is kept until it is closed. *)
Definition sys_open (e : env) (filepath : list char) : Web Z :=
  mget ≫= λ w,
  let fd := os_open e (sys_calls w) filepath in
  mput (set_os (S (sys_calls w)) (open_fds w ++ (if fd <? 0 then [] else [fd])) w) ≫= λ _, mret fd.

Definition sys_close (fd : Z) : Web unit :=
  mmodify (λ w, set_os (S (sys_calls w)) (filter (λ fd', fd' ≠ fd) (open_fds w)) w).

Definition file_size (e : env) (fd : Z) : Web Z :=
  mget ≫= λ w,
  mput (set_os (S (sys_calls w)) (open_fds w) w) ≫= λ _,
  mlift (get_file_size (os_stat e (sys_calls w) fd) (os_ioctl e (sys_calls w) fd)).

Definition header_first_line (response_code : Z) : list char :=
  (if response_code =? 200 then lit "HTTP/1.0 200 OK" else lit "HTTP/1.0 404 Not Found") ++ crlf.

Definition no_cache_lines : list char :=
  lit "Cache-Control: no-cache, no-store, must-revalidate" ++ crlf ++ lit "Pragma: no-cache" ++
  crlf ++ lit "Expires: 0" ++ crlf.

Definition response_headers (response_code : Z) (accept_bytes found : bool)
    (content_type content_length : list char) : list char :=
  (if accept_bytes then
     header_first_line response_code ++ content_type ++ lit "Accept-Ranges: bytes" ++ crlf ++
     lit "Content-Length: " ++ content_length ++ crlf ++ lit "Range: bytes=0-" ++ content_length ++
     lit "/"
   else header_first_line response_code ++ content_type ++ lit "Content-Length: ") ++
  content_length ++ crlf ++ (if found then [] else no_cache_lines) ++ crlf.

(** The pointer into a cache item. *)
Definition cache_ptr (o : option Z) : char_ptr :=
  match o with Some i => PCacheItem i | None => PNull end.

Section Http.
Context {X : Type} `{!ServerType X, !TcpServer X}.
Abbreviation Run := (M (server_base X * web_server)).
Variable e : env.

Definition send_file_request (client_idx : Z) (filepath : list char) (accept_bytes : bool)
    (response_code : Z) : Run bool :=
  on_web (sys_open e filepath) ≫= λ file_fd,
  if file_fd <? 0 then mret false
  else
    on_web (file_size e file_fd) ≫= λ file_size,
    let content_length := to_string file_size in
    on_web (mlift (get_content_type filepath)) ≫= λ content_type,
    on_web (cache_fetch filepath client_idx) ≫= λ cache_data,
    let headers := response_headers response_code accept_bytes (cf_found cache_data)
                     content_type content_length in
    on_web (mlift (new_vector (to_u64 (file_size + len headers)))) ≫= λ send_buffer,
    on_web (mlift (vsplice send_buffer 0 headers)) ≫= λ send_buffer,
    (if cf_found cache_data then
       on_tcp (tcp_write_ptr client_idx (cache_ptr (cf_buff cache_data)) (cf_size cache_data))
     else
       on_web (upd_tcp_client client_idx (tc_set_filepath filepath)) ≫= λ _,
       on_tcp (custom_read_req file_fd file_size client_idx send_buffer (len headers))) ≫= λ _,
    mret true.

(** [strtok_r] only ends the first token of [path], and the path that is passed
    on to a websocket is not used. *)
Definition get_process (path : list char) (accept_bytes : bool) (sec_websocket_key : list char)
    (client_idx : Z) : Run bool :=
  on_web (mlift (strtok_r (lit "/") (c_str path))) ≫= λ token,
  let subdir := default [] token.1 in
  if bool_decide (subdir = lit "ws") && negb (bool_decide (sec_websocket_key = [])) then
    on_web (mlift (substr path 2)) ≫= λ path,
    websocket_accept_read_cb e sec_websocket_key path client_idx ≫= λ _, mret true
  else
    let path := if bool_decide (path = []) then lit "public/index.html" else lit "public/" ++ path in
    send_file_request client_idx path accept_bytes 200.

End Http.

(** * Lemmas *)

(** ** Request types *)

(** Type [k] has the character of [buff] at [i], or none. *)
Definition agrees (buff : list char) (k i : Z) : bool :=
  match vget request_types k with
  | Ok type => (len type <=? i) || bool_decide (vget type i = vget buff i)
  | Err _ => true
  end.

Definition steps_agree (buff : list char) (k : Z) (steps : list (Z * Z)) : bool :=
  forallb (λ p, negb (p.2 =? k) || agrees buff k p.1) steps.

Lemma bit_set v j : 0 ≤ j → negb (Z.land (Z.shiftr v j) 1 =? 0) = Z.testbit v j.
Proof.
  intros Hj. rewrite <-(Z.add_0_l j) at 2. rewrite <-Z.shiftr_spec by lia.
  generalize (Z.shiftr v j). intros x. change 1 with (Z.ones 1).
  rewrite Z.land_ones by lia. change (2 ^ 1) with 2.
  rewrite Zmod_odd, Z.bit0_odd. by destruct (Z.odd x).
Qed.

Lemma bit_clear v j k :
  0 ≤ j < 5 → 0 ≤ k → (∀ k, 5 ≤ k → Z.testbit v k = false) →
  Z.testbit (Z.land v (Z.lxor 31 (Z.shiftl 1 j))) k = Z.testbit v k && negb (j =? k).
Proof.
  intros Hj Hk Hv. rewrite Z.land_spec, Z.lxor_spec, Z.shiftl_spec by lia.
  destruct (Z.leb_spec 5 k) as [H5|H5]; [by rewrite Hv|]. f_equal.
  assert (Z.testbit 31 k = true) as ->.
  { change 31 with (Z.ones 5). by apply Z.ones_spec_low. }
  destruct (Z.eqb_spec j k) as [->|Hne]; [by rewrite Z.sub_diag|].
  destruct (Z.ltb_spec k j); [by rewrite Z.testbit_neg_r by lia|].
  change 1 with (Z.ones 1). by rewrite Z.ones_spec_high by lia.
Qed.

Lemma request_type_at j : 0 ≤ j < 5 → ∃ t, vget request_types j = Ok t ∧ t ∈ request_types.
Proof.
  intros Hj. destruct (vget_is_Ok request_types j) as [t Ht]; [exact Hj|].
  exists t. split; [done|]. apply vget_lookup in Ht as [_ Ht]. by eapply list_elem_of_lookup_2.
Qed.

Lemma check_type_spec buff i j v :
  0 ≤ i < len buff → 0 ≤ j < 5 → (∀ k, 5 ≤ k → Z.testbit v k = false) →
  ∃ v', check_type buff i j v = Ok v' ∧
    ∀ k, 0 ≤ k → Z.testbit v' k = Z.testbit v k && (negb (j =? k) || agrees buff k i).
Proof.
  intros Hi Hj Hv. destruct (request_type_at j Hj) as (t & Ht & _).
  unfold check_type, agrees. rewrite Ht. step_ok. rewrite bit_set by lia.
  destruct (Z.ltb_spec i (len t)) as [Hlt|Hge]; simpl.
  - destruct (Z.testbit v j) eqn:Ej.
    + destruct (vget_is_Ok t i) as [c Hc]; [lia|]. destruct (vget_is_Ok buff i) as [b Hb]; [done|].
      rewrite Hc, Hb. step_ok. eexists. split; [done|]. intros k Hk.
      destruct (Z.eqb_spec j k) as [<-|Hne]; simpl.
      * rewrite Ht, Hc, (proj2 (Z.leb_gt _ _)) by lia. simpl.
        case_decide as Hcb; [subst b; by rewrite bool_decide_true, andb_true_r|].
        rewrite bit_clear, Z.eqb_refl, bool_decide_false by (done || congruence). done.
      * case_decide; [by rewrite andb_true_r|]. rewrite bit_clear by done.
        by rewrite (proj2 (Z.eqb_neq _ _)).
    + eexists. split; [done|]. intros k Hk.
      destruct (Z.eqb_spec j k) as [<-|Hne]; simpl; [by rewrite Ej|by rewrite andb_true_r].
  - eexists. split; [done|]. intros k Hk. destruct (Z.eqb_spec j k) as [<-|Hne]; simpl.
    + rewrite Ht, (proj2 (Z.leb_le _ _)) by lia. by rewrite andb_true_r.
    + by rewrite andb_true_r.
Qed.

Lemma check_types_spec buff steps v :
  Forall (λ p, 0 ≤ p.1 < len buff ∧ 0 ≤ p.2 < 5) steps → (∀ k, 5 ≤ k → Z.testbit v k = false) →
  ∃ v', check_types buff steps v = Ok v' ∧
    ∀ k, 0 ≤ k → Z.testbit v' k = Z.testbit v k && steps_agree buff k steps.
Proof.
  intros Hs. revert v. induction Hs as [|[i j] steps [Hi Hj] Hs IH]; intros v Hv; simpl.
  { exists v. split; [done|]. intros k _. by rewrite andb_true_r. }
  destruct (check_type_spec buff i j v Hi Hj Hv) as (v1 & E1 & H1). rewrite E1. step_ok.
  destruct (IH v1) as (v2 & E2 & H2).
  { intros k Hk. by rewrite H1, Hv by lia. }
  exists v2. split; [done|]. intros k Hk. rewrite H2, H1 by done. by rewrite andb_assoc.
Qed.

(** A type is as long as the loop looks at most. *)
Lemma request_type_len t : t ∈ request_types → len t ≤ 7.
Proof.
  unfold request_types. rewrite !elem_of_cons, elem_of_nil.
  intros [->|[->|[->|[->|[->|[]]]]]]; by vm_compute.
Qed.

Lemma elem_of_request_steps i j : (i, j) ∈ request_steps ↔ 0 ≤ i < 7 ∧ 0 ≤ j < 5.
Proof.
  unfold request_steps. rewrite list_elem_of_bind. split.
  - intros (i' & Hij & Hi'). apply list_elem_of_bind in Hij as (j' & Hij & Hj').
    apply list_elem_of_singleton in Hij as [= -> ->]. apply elem_of_seqZ in Hi', Hj'. lia.
  - intros [Hi Hj]. exists i. rewrite elem_of_seqZ. split; [|lia]. apply list_elem_of_bind.
    exists j. rewrite elem_of_seqZ. split; [set_solver|lia].
Qed.

Lemma steps_agree_all buff k :
  0 ≤ k < 5 → steps_agree buff k request_steps = true ↔ ∀ i, 0 ≤ i < 7 → agrees buff k i = true.
Proof.
  intros Hk. unfold steps_agree. rewrite forallb_forall. split.
  - intros H i Hi. specialize (H (i, k)). rewrite <-list_elem_of_In, elem_of_request_steps in H.
    specialize (H (conj Hi Hk)). cbn [fst snd] in H. by rewrite Z.eqb_refl in H.
  - intros H [i j]. rewrite <-list_elem_of_In, elem_of_request_steps. intros [Hi Hj].
    cbn [fst snd]. destruct (Z.eqb_spec j k) as [->|]; [|done]. by apply H.
Qed.

Lemma steps_agree_prefix buff k t :
  vget request_types k = Ok t → t ∈ request_types → 7 ≤ len buff → 0 ≤ k < 5 →
  steps_agree buff k request_steps = true ↔ t `prefix_of` buff.
Proof.
  intros Ht Hin Hb Hk. pose proof (request_type_len t Hin) as Hl7.
  rewrite steps_agree_all by done. unfold agrees. rewrite Ht. split.
  - intros H. exists (drop (length t) buff). apply list_eq. intros n.
    destruct (decide (n < length t)%nat) as [Hn|Hn].
    + rewrite lookup_app_l by done. specialize (H (Z.of_nat n)). unfold len in *.
      rewrite (proj2 (Z.leb_gt _ _)) in H by lia. simpl in H.
      specialize (H ltac:(lia)). apply bool_decide_eq_true in H.
      destruct (lookup_lt_is_Some_2 t n Hn) as [c Hc]. rewrite (vget_nat _ _ _ Hc) in H.
      symmetry in H. apply vget_lookup in H as [_ H]. rewrite Nat2Z.id in H. congruence.
    + rewrite lookup_app_r, lookup_drop by lia. f_equal. lia.
  - intros [r ->] i Hi. destruct (Z.leb_spec (len t) i); [done|]. simpl.
    apply bool_decide_eq_true. by rewrite vget_app_l.
Qed.

Lemma check_types_prefix buff :
  7 ≤ len buff →
  ∃ v, check_types buff request_steps 31 = Ok v ∧
    (v ≠ 0 ↔ Exists (λ t, t `prefix_of` buff) request_types).
Proof.
  intros Hb. destruct (check_types_spec buff request_steps 31) as (v & E & Hv).
  { apply Forall_forall. intros [i j] Hij%elem_of_request_steps. simpl. lia. }
  { intros k Hk. change 31 with (Z.ones 5). by apply Z.ones_spec_high. }
  exists v. split; [done|]. rewrite Exists_exists. split.
  - intros Hne. destruct (Z.testbit v <$> seqZ 0 5) eqn:El; [done|].
    assert (∃ k, 0 ≤ k < 5 ∧ Z.testbit v k = true) as (k & Hk & Hbit).
    { destruct (decide (Exists (λ k, Z.testbit v k = true) (seqZ 0 5))) as [Hex|Hex].
      - apply Exists_exists in Hex as (k & Hk%elem_of_seqZ & ?). exists k. split; [lia|done].
      - exfalso. apply Hne. apply Z.bits_inj'. intros k Hk. rewrite Z.bits_0.
        destruct (Z.testbit v k) eqn:Ek; [|done]. exfalso. apply Hex, Exists_exists. exists k.
        split; [|done]. apply elem_of_seqZ. destruct (Z.leb_spec 5 k); [|lia].
        rewrite Hv in Ek by done. change 31 with (Z.ones 5) in Ek.
        by rewrite Z.ones_spec_high in Ek by lia. }
    destruct (request_type_at k Hk) as (t & Ht & Hin). exists t. split; [done|].
    apply (steps_agree_prefix buff k t); [done..|]. rewrite Hv in Hbit by lia.
    by apply andb_true_iff in Hbit as [_ ?].
  - intros (t & Hin & Hp) ->. pose proof Hin as Hin'. apply list_elem_of_lookup in Hin' as [n Hn].
    pose proof (lookup_lt_Some _ _ _ Hn) as Hlt. simpl in Hlt.
    pose proof (vget_nat _ _ _ Hn) as Ht. specialize (Hv (Z.of_nat n) ltac:(lia)).
    rewrite Z.bits_0 in Hv. symmetry in Hv. apply andb_false_iff in Hv as [Hv|Hv].
    + change 31 with (Z.ones 5) in Hv. by rewrite Z.ones_spec_low in Hv by lia.
    + apply (steps_agree_prefix buff (Z.of_nat n) t Ht Hin Hb ltac:(lia)) in Hp. congruence.
Qed.

(** ** Content types *)

Lemma lit_dot : lit "." = [dot].
Proof. by vm_compute. Qed.

Lemma get_content_type_run filepath :
  nul ∉ filepath →
  get_content_type filepath =
    Ok (content_type_of (default [] (last (fields (lit ".") filepath))) content_types).
Proof.
  intros Hn. unfold get_content_type, file_extension, c_str.
  rewrite strtok_all_fields by (done || lia). done.
Qed.

(** * Properties *)

(** [is_valid_http_req] accepts exactly the buffers of at least 16 bytes that
    start with one of the five methods and a space, and never reads past the
    end: the bit mask of the types still possible is equivalent to comparing
    with each type. *)
Theorem is_valid_http_req_spec buff length :
  length ≤ len buff →
  is_valid_http_req buff length =
    Ok (bool_decide (16 ≤ length ∧ Exists (λ t, t `prefix_of` buff) request_types)).
Proof.
  intros Hl. unfold is_valid_http_req. destruct (Z.ltb_spec length 16).
  - rewrite bool_decide_false; [done|]. lia.
  - destruct (check_types_prefix buff) as (v & E & Hv); [lia|]. rewrite E. step_ok.
    assert (∀ b1 b2, b1 = b2 → mret b1 = Ok (b2 : bool)) as Hb by by intros b1 b2 ->.
    apply Hb. destruct (Z.eqb_spec v 0) as [->|Hne]; simpl.
    + rewrite bool_decide_false; [done|]. intros [_ Hex]. by apply Hv in Hex.
    + rewrite bool_decide_true; [done|]. split; [lia|]. by apply Hv.
Qed.

Lemma is_valid_http_req_spec_witness :
  let buff := lit "GET / HTTP/1.0" ++ crlf ++ crlf in
  16 ≤ len buff ∧ is_valid_http_req buff 16 = Ok true ∧ is_valid_http_req buff 15 = Ok false.
Proof.
  intros buff. split; [by vm_compute|]. split.
  - rewrite (is_valid_http_req_spec buff 16) by by vm_compute. vm_compute. done.
  - rewrite (is_valid_http_req_spec buff 15) by by vm_compute. vm_compute. done.
Defined.

(** [get_content_type] answers for every path: with the line of the table for
    what follows the last dot, whatever dots the path has before, and for a path
    without a dot with the line for the path itself. *)
Theorem get_content_type_by_extension filepath :
  nul ∉ filepath →
  ∃ line, get_content_type filepath = Ok (line ++ crlf) ∧
    (∀ stem ext, filepath = stem ++ dot :: ext → dot ∉ ext → ext ≠ [] →
       line ++ crlf = content_type_of ext content_types) ∧
    (dot ∉ filepath → line ++ crlf = content_type_of filepath content_types).
Proof.
  intros Hn. rewrite get_content_type_run by done.
  set (ext := default [] (last (fields (lit ".") filepath))).
  assert (∃ line, content_type_of ext content_types = line ++ crlf) as [line El].
  { generalize content_types. intros l. induction l as [|[exts line] l [line' IH]];
      cbn [content_type_of]; [by eexists|].
    destruct (decide (ext ∈ exts)); [by eexists|]. by exists line'. }
  exists line. rewrite El. split; [done|]. rewrite <-El. split.
  - intros stem ext' -> Hdot Hne. subst ext. unfold fields.
    rewrite lit_dot, fields_from_last; [done|set_solver| |done].
    apply Forall_forall. intros c Hc ->%list_elem_of_singleton. done.
  - intros Hdot. subst ext. destruct filepath as [|c f]; [done|].
    rewrite lit_dot, fields_last; [done|]. apply Forall_forall.
    intros c' Hc' ->%list_elem_of_singleton. done.
Qed.

Lemma get_content_type_by_extension_witness :
  ∃ line, get_content_type (lit "public/app.min.js") = Ok (line ++ crlf) ∧
    line ++ crlf = lit "Content-Type: text/javascript" ++ crlf.
Proof.
  destruct (get_content_type_by_extension (lit "public/app.min.js")) as (line & E & Hext & _).
  { by apply (bool_decide_unpack _). }
  exists line. split; [exact E|]. rewrite (Hext (lit "public/app.min") (lit "js")); [done|by vm_compute| |done].
  by apply (bool_decide_unpack _).
Defined.
