(* ===== verification/Callbacks.v ===== *)
(** * web_server/callbacks.tcc

    The callbacks the web server hands to the TCP server. *)

From S2P Require Import Prelude Bytes Utility CString WsFrame Cache ServerBase TcpServer WebBase WebSockets Http.
From Stdlib Require Import ZArith Lia.
From stdpp Require Import base gmap strings list fin_maps sets.

#[local] Open Scope Z_scope.

(** ** Parsing a request *)

(** What [read_cb] takes from the header lines. *)
Record request_info := {
  ri_headers : list (list char);
  ri_accept_bytes : bool;
  ri_sec_websocket_key : list char
}.

(** The body of the loop over the header lines. *)
Definition read_header (info : request_info) (line : list char) : result request_info :=
  (if contains (lit "Sec-WebSocket-Key") line
   then substr line (len (lit "Sec-WebSocket-Key: "))
   else Ok (ri_sec_websocket_key info)) ≫= λ key,
  mret {| ri_headers := ri_headers info ++ [line];
          ri_accept_bytes := ri_accept_bytes info || contains (lit "Range: bytes=") line;
          ri_sec_websocket_key := key |}.

(** [while((str = strtok_r(...)))] *)
Fixpoint read_headers (fuel : nat) (mem : list char) (info : request_info) : result request_info :=
  match fuel with
  | O => Err OutOfFuel
  | S fuel =>
      strtok_r crlf mem ≫= λ '(str, mem),
      match str with
      | None => mret info
      | Some str => read_header info str ≫= read_headers fuel mem
      end
  end.

Definition no_info : request_info :=
  {| ri_headers := []; ri_accept_bytes := false; ri_sec_websocket_key := [] |}.

(** The method and the path of the request line; [strcmp] and [operator[]] are
    undefined on the null pointer. *)
Definition request_line (line : list char) : result (bool * list char) :=
  strtok_r (lit " ") (c_str line) ≫= λ '(method, rest),
  match method with
  | None => Err NullDeref
  | Some method =>
      strtok_r (lit " ") rest ≫= λ '(path, _),
      match path with
      | None => Err NullDeref
      | Some path => mret (bool_decide (method = lit "GET"), drop 1 path)
      end
  end.

Section Callbacks.
Context {X : Type} `{!ServerType X, !TcpServer X}.
Abbreviation Run := (M (server_base X * web_server)).
Variable e : env.

(** ** Connections *)

Definition accept_cb (client_idx : Z) : Run unit := on_web (new_tcp_client client_idx).

(** A connection is done with a broadcast: lines 21 to 26 and 123 to 128. *)
Definition broadcast_done (broadcast_additional_info : Z) : Run unit :=
  mwhen (negb (broadcast_additional_info =? -1)) (
    on_web (mget ≫= λ w,
      mlift (vupd (broadcast_data w) broadcast_additional_info
        (λ item, {| bd_buff_ptr := bd_buff_ptr item; bd_data_len := bd_data_len item;
                    bd_uses := to_u64 (bd_uses item - 1) |})) ≫= λ l,
      mmodify (set_broadcast_data l) ≫= λ _,
      mlift (vget l broadcast_additional_info) ≫= λ item,
      mwhen (bd_uses item =? 0)
        (post_message_to_program broadcast_finished (bd_buff_ptr item) (bd_data_len item)
           broadcast_additional_info (to_u64 (-1))))).

Definition close_cb (client_idx broadcast_additional_info : Z) : Run unit :=
  broadcast_done broadcast_additional_info ≫= λ _, on_web (kill_client client_idx).

Definition write_cb (client_idx broadcast_additional_info : Z) : Run unit :=
  broadcast_done broadcast_additional_info ≫= λ _,
  websocket_process_write_cb client_idx ≫= λ used : bool,
  mwhen (negb used) (web_close_connection client_idx).

(** ** Broadcasts *)

Definition event_cb : Run unit :=
  on_web get_from_to_server_queue ≫= λ data,
  on_web (mmodify (λ w,
    if len (broadcast_data w) <=? to_u64 (mp_item_idx data)
    then set_broadcast_data (vresize no_broadcast (broadcast_data w) (mp_item_idx data + 1)) w
    else w)) ≫= λ _,
  on_web mget ≫= λ w,
  let client_idxs := active_websocket_connections_client_idxs (web_sockets w) in
  let n := Z.of_nat (size client_idxs) in
  if 0 <? n then
    on_web (mlift (vset (broadcast_data w) (mp_item_idx data)
      {| bd_buff_ptr := mp_buff_ptr data; bd_data_len := mp_length data; bd_uses := n |})) ≫= λ l,
    on_web (mmodify (set_broadcast_data l)) ≫= λ _,
    on_tcp (tcp_broadcast (env_iter e client_idxs) (to_i32 n) (mp_buff_ptr data) (mp_length data)
      (mp_item_idx data))
  else
    on_web (post_message_to_program broadcast_finished (mp_buff_ptr data) (mp_length data)
      (mp_item_idx data) (to_u64 (-1))).

(** ** Reading *)

Definition custom_read_cb (client_idx fd : Z) (buff : list char) : Run unit :=
  on_web mget ≫= λ w,
  if fd =? inotify_fd (web_cache w) then
    on_web (mlift (load_le 4 buff 0)) ≫= λ wd,
    on_web (mlift (inotify_event_handler (to_i32 wd) (web_cache w)) ≫= λ c,
            mmodify (set_web_cache c)) ≫= λ _,
    read_inotify
  else
    on_web (sys_close fd) ≫= λ _,
    on_web (get_tcp_client client_idx) ≫= λ t,
    let filepath := last_requested_read_filepath t in
    on_web (mget ≫= λ w,
      mput (set_os (S (sys_calls w)) (open_fds w) w) ≫= λ _,
      mlift (try_insert_item (env_iter e) (os_watch e (sys_calls w) filepath) client_idx filepath
               buff (web_cache w)) ≫= λ '(b, c),
      mmodify (set_web_cache c) ≫= λ _, mret b) ≫= λ inserted : bool,
    if inserted then
      on_web (cache_fetch filepath client_idx) ≫= λ ret_data,
      on_tcp (tcp_write_ptr client_idx (cache_ptr (cf_buff ret_data)) (cf_size ret_data))
    else on_tcp (tcp_write client_idx buff).

(** Lines 81 to 108: a request. *)
Definition read_request (client_idx : Z) (buffer : list char) : Run unit :=
  on_web (mlift (read_headers (S (length buffer)) buffer no_info)) ≫= λ info,
  on_web (mlift (vget (ri_headers info) 0 ≫= request_line)) ≫= λ '(is_GET, path),
  (if is_GET : bool then
     get_process e path (ri_accept_bytes info) (ri_sec_websocket_key info) client_idx
   else mret false) ≫= λ processed : bool,
  if negb processed then
    send_file_request e client_idx (lit "public/404.html") false 400 ≫= λ _, mret tt
  else
    on_web mget ≫= λ w,
    mwhen (bool_decide (client_idx ∈ active_websocket_connections_client_idxs (web_sockets w)))
      (on_tcp (read_connection client_idx)).

Definition read_cb (client_idx : Z) (buffer : list char) (length : Z) : Run unit :=
  on_web (mlift (is_valid_http_req buffer (to_i32 length))) ≫= λ valid : bool,
  if valid then read_request client_idx buffer
  else
    on_web mget ≫= λ w,
    if bool_decide (client_idx ∈ active_websocket_connections_client_idxs (web_sockets w)) then
      websocket_process_read_cb client_idx buffer (to_i32 length) ≫= λ _,
      on_tcp (read_connection client_idx)
    else web_close_connection client_idx.

(** The callbacks [thread_server_runner] passes to the server. *)
Definition web_callbacks : callbacks X web_server :=
  {| ServerBase.accept_cb := Some accept_cb; ServerBase.close_cb := Some close_cb;
     ServerBase.read_cb := Some read_cb; ServerBase.write_cb := Some write_cb;
     ServerBase.event_cb := Some event_cb; ServerBase.custom_read_cb := Some custom_read_cb |}.

End Callbacks.

(** What the pointers the web server gives away lead to: a cached response, or an
    item of the program's data store. *)
Definition web_mem (store : Z → result (list char)) (w : web_server) (p : char_ptr)
  : result (list char) :=
  match p with
  | PNull => Err NullDeref
  | PCacheItem i => ci_buffer <$> vget (cache_buffer (web_cache w)) i
  | PStoreItem i => store i
  end.
