(* ===== verification/WsProps.v ===== *)
(** * Correctness of the websocket connections

    The websocket indexes of the connections, the handshake, and the messages of
    a connection: what reaches the application and what is answered. *)

From S2P Require Import Prelude Bytes Utility CString WsFrame Cache ServerBase NonTls TcpServer WebBase WebSockets.
From Stdlib Require Import ZArith Lia.
From stdpp Require Import base gmap strings list fin_maps sets relations.

#[local] Open Scope Z_scope.

(** ** Specification *)

(** The steps of the connections' lives; [live] are the clients that were
    accepted and did not end.  Ending a client may call [kill_client] several times,
    once per queued write and once more. *)
Inductive ws_step {X} `{!ServerType X, !TcpServer X}
  : web_server * gset Z → web_server * gset Z → Prop :=
| ws_accept k w w' live :
    k ∉ live → 0 ≤ k < 2 ^ 31 - 1 → new_tcp_client k w = Ok (tt, w') →
    ws_step (w, live) (w', {[k]} ∪ live)
| ws_open k i w w1 w2 live :
    k ∈ live → new_ws_client k w = Ok (i, w1) →
    upd_tcp_client k (tc_set_ws_client_idx i) w1 = Ok (tt, w2) → ws_step (w, live) (w2, live)
| ws_close_req i b (s s' : server_base X) r w w' live :
    close_ws_connection_req i b (s, w) = Ok (r, (s', w')) → ws_step (w, live) (w', live)
| ws_end k n w w' live :
    k ∈ live → mfor (replicate (S n) k) kill_client w = Ok (tt, w') →
    ws_step (w, live) (w', live ∖ {[k]}).

(** The websocket indexes: a free index belongs to no connection, and the
    connection that an index in use names is the one that has it. *)
Record sockets_inv (w : web_server) (live : gset Z) : Prop := {
  si_range : ∀ i, i ∈ all_websocket_connections (web_sockets w) ∪ ws_freed_indexes (web_sockets w) →
    0 ≤ i < len (websocket_clients (web_sockets w));
  si_disj : all_websocket_connections (web_sockets w) ## ws_freed_indexes (web_sockets w);
  si_live : active_websocket_connections_client_idxs (web_sockets w) ⊆ live;
  si_active : ∀ k, k ∈ active_websocket_connections_client_idxs (web_sockets w) →
    ∃ t, vget (tcp_clients w) k = Ok t ∧
      tc_ws_client_idx t ∈ all_websocket_connections (web_sockets w);
  si_owner : ∀ k t, k ∈ live → vget (tcp_clients w) k = Ok t →
    tc_ws_client_idx t ∈ all_websocket_connections (web_sockets w) →
    ∃ c, vget (websocket_clients (web_sockets w)) (tc_ws_client_idx t) = Ok c ∧ wc_client_idx c = k;
  si_open : ∀ k t, k ∈ live → vget (tcp_clients w) k = Ok t →
    -1 ≤ tc_ws_client_idx t < len (websocket_clients (web_sockets w)) ∧
    tc_ws_client_idx t ∉ ws_freed_indexes (web_sockets w);
  si_clients : ∀ k, k ∈ live → 0 ≤ k < len (tcp_clients w)
}.

(** *** The messages of a connection *)

(** What one frame does, [p] being the fragments of a message not complete yet:
    the message it completes ([[]] when it completes none), the bodies of pings,
    and the fragments left. *)
Definition msg_effect (p : list char) (m : client_msg) : list char * list (list char) * list char :=
  if cm_opcode m =? 9 then ([], [cm_payload m], p)
  else if cm_opcode m =? 10 then ([], [], p)
  else if cm_fin m then (p ++ cm_payload m, [], [])
  else ([], [], p ++ cm_payload m).

(** What the frames of a client amount to. *)
Fixpoint ws_session (p : list char) (ms : list client_msg)
  : list (list char) * list (list char) * list char :=
  match ms with
  | [] => ([], [], p)
  | m :: ms =>
      let '(msg, pings1, p1) := msg_effect p m in
      let '(msgs, pings2, p2) := ws_session p1 ms in
      ((if decide (msg = []) then [] else [msg]) ++ msgs, pings1 ++ pings2, p2)
  end.

(** A fragment that another one follows. *)
Definition is_fragment (m : client_msg) : bool :=
  negb (cm_opcode m =? 9) && negb (cm_opcode m =? 10) && negb (cm_fin m).

(** No message comes in more than two fragments. *)
Fixpoint two_fragments (p : list char) (ms : list client_msg) : Prop :=
  match ms with
  | [] => True
  | m :: ms => (is_fragment m = true → p = []) ∧ two_fragments (msg_effect p m).2 ms
  end.

(** A frame that does not close the connection. *)
Definition open_msg (m : client_msg) : Prop :=
  client_msg_wf m ∧ cm_opcode m ≠ 8.

(** What a client may rely on of OpenSSL: a SHA1 hash has 20 bytes, and the base64
    text of 20 bytes has 28 characters. *)
Record openssl_ok (e : env) : Prop := {
  sha1_len x : len (sha1 e x) = 20;
  encode_len h : len h = 20 → len (encode_block e h) = 28
}.

(** The answer to a [Sec-WebSocket-Key]. *)
Definition accept_value (e : env) (key : list char) : list char :=
  encode_block e (sha1 e (key ++ lit "258EAFA5-E914-47DA-95CA-C5AB0DC85B11")).

(** * Lemmas *)

(** ** Opening *)

Definition fresh_ws_client (id k : Z) : ws_client := wc_set_client_idx k (wc_set_id id new_ws_client_data).

(** What opening a websocket on client [k] makes of the websockets. *)
Record opened_ws (k i : Z) (ws ws' : websockets) : Prop := {
  ow_index : i ∈ ws_freed_indexes ws ∨ i = len (websocket_clients ws);
  ow_freed : ws_freed_indexes ws' = ws_freed_indexes ws ∖ {[i]};
  ow_all : all_websocket_connections ws' = {[i]} ∪ all_websocket_connections ws;
  ow_active : active_websocket_connections_client_idxs ws' =
    {[k]} ∪ active_websocket_connections_client_idxs ws;
  ow_delivered : ws_delivered ws' = ws_delivered ws;
  ow_client : ∃ id, vget (websocket_clients ws') i = Ok (fresh_ws_client id k);
  ow_others : ∀ j, j ≠ i → j < len (websocket_clients ws) →
    vget (websocket_clients ws') j = vget (websocket_clients ws) j;
  ow_len : len (websocket_clients ws') = Z.max (len (websocket_clients ws)) (i + 1)
}.

Lemma mod_sockets_bind {B} g (k : unit → Web B) w :
  (mod_sockets g ≫= k) w = k tt (set_web_sockets (g (web_sockets w)) w).
Proof. done. Qed.

(** The end of [new_ws_client], for a client that was reset or added. *)
Lemma register_run k i w c :
  vget (websocket_clients (web_sockets w)) i = Ok c →
  (upd_ws_client i (wc_set_client_idx k) ≫= λ _,
   mod_sockets (λ ws, ws_set_all ({[i]} ∪ all_websocket_connections ws) ws) ≫= λ _,
   mod_sockets (λ ws, ws_set_active ({[k]} ∪ active_websocket_connections_client_idxs ws) ws) ≫= λ _,
   mret i) w =
  Ok (i, set_web_sockets
    {| ws_freed_indexes := ws_freed_indexes (web_sockets w);
       websocket_clients := <[Z.to_nat i := wc_set_client_idx k c]> (websocket_clients (web_sockets w));
       all_websocket_connections := {[i]} ∪ all_websocket_connections (web_sockets w);
       active_websocket_connections_client_idxs :=
         {[k]} ∪ active_websocket_connections_client_idxs (web_sockets w);
       ws_delivered := ws_delivered (web_sockets w) |} w).
Proof. intros Hv. by rewrite (M_bind_run _ _ _ _ _ (upd_ws_client_run _ _ _ _ Hv)). Qed.

Lemma new_ws_client_run k w :
  (∀ i, i ∈ ws_freed_indexes (web_sockets w) → 0 ≤ i < len (websocket_clients (web_sockets w))) →
  ∃ i ws', new_ws_client k w = Ok (i, set_web_sockets ws' w) ∧ opened_ws k i (web_sockets w) ws'.
Proof.
  intros Hr. unfold new_ws_client. rewrite (M_bind_run _ _ w w w) by done.
  pose proof (set_begin_spec (ws_freed_indexes (web_sockets w))) as Hb.
  set (ws := web_sockets w) in *. destruct (set_begin (ws_freed_indexes ws)) as [i|].
  - destruct Hb as [Hi _]. specialize (Hr i Hi). destruct (vget_is_Ok _ _ Hr) as [c Hc].
    set (w1 := set_web_sockets (ws_set_freed (ws_freed_indexes ws ∖ {[i]}) ws) w).
    set (c1 := wc_set_id (Z.rem (wc_id c + 1) 100) new_ws_client_data).
    set (w2 := put_ws_client i c1 w1).
    assert (∀ B (K : Z → Web B), ((mod_sockets (λ ws, ws_set_freed (ws_freed_indexes ws ∖ {[i]}) ws) ≫= λ _,
       get_ws_client i ≫= λ freed_client,
       let new_id := Z.rem (wc_id freed_client + 1) 100 in
       upd_ws_client i (λ _, wc_set_id new_id new_ws_client_data) ≫= λ _, mret i) ≫= K) w = K i w2) as E.
    { intros B K. apply M_bind_run. rewrite mod_sockets_bind. fold ws w1.
      rewrite (M_bind_run _ _ w1 c w1) by by apply get_ws_client_run. cbv zeta.
      rewrite (M_bind_run _ _ w1 tt w2); [done|]. by apply (upd_ws_client_run i (λ _, c1) w1 c). }
    rewrite E, (register_run k i w2 c1) by by apply vget_insert_eq.
    do 2 eexists. split; [done|]. split; simpl; [by left|done..| | |].
    + eexists. apply vget_insert_eq. by rewrite len_insert.
    + intros j Hj _. by rewrite !vget_insert_ne by (done || lia).
    + rewrite !len_insert. apply vget_range in Hc. lia.
  - set (l := websocket_clients ws ++ [new_ws_client_data]).
    set (w1 := set_web_sockets (ws_set_clients l ws) w).
    assert (len l - 1 = len (websocket_clients ws)) as El by (unfold l; len_norm; lia).
    rewrite (M_bind_run _ _ w (len l - 1) w1) by done. rewrite El. pose proof (len_nonneg (websocket_clients ws)).
    assert (vget l (len (websocket_clients ws)) = Ok new_ws_client_data) as Hv.
    { unfold l. rewrite vget_app_r by lia. by rewrite Z.sub_diag. }
    rewrite (register_run k _ w1 new_ws_client_data Hv).
    do 2 eexists. split; [done|]. split; simpl; [by right| |done..| | |].
    + rewrite Hb. set_solver.
    + exists (-1). apply vget_insert_eq. unfold l. len_norm. lia.
    + intros j Hj Hlt. rewrite vget_insert_ne by (done || lia). unfold l. by apply vget_app_l.
    + rewrite len_insert. unfold l. len_norm. lia.
Qed.

(** ** Accepting *)

Lemma new_tcp_client_run k w :
  0 ≤ k < 2 ^ 31 - 1 →
  ∃ l, new_tcp_client k w = Ok (tt, set_tcp_clients l w) ∧ vget l k = Ok new_tcp_client_data ∧
    len (tcp_clients w) ≤ len l ∧ (∀ j, j ≠ k → j < len (tcp_clients w) → vget l j = vget (tcp_clients w) j).
Proof.
  intros Hk. unfold new_tcp_client. rewrite (M_bind_run _ _ w w w) by done. cbv zeta.
  rewrite to_i32_small, to_u64_small by lia.
  match goal with |- context [vset ?l k _] => set (l1 := l) end.
  assert (∃ tl, l1 = tcp_clients w ++ tl ∧ k < len l1) as (tl & El & Hlt).
  { subst l1. destruct (Z.leb_spec (len (tcp_clients w)) (k + 1)).
    - rewrite vresize_grow by lia. eexists. split; [done|]. len_norm. unfold len.
      rewrite length_replicate. unfold len in *. lia.
    - exists []. rewrite app_nil_r. split; [done|lia]. }
  clearbody l1. rewrite (vset_is_Ok l1 k new_tcp_client_data) by lia.
  exists (<[Z.to_nat k := new_tcp_client_data]> l1). split_and!.
  - done.
  - apply vget_insert_eq. lia.
  - rewrite len_insert, El, len_app. pose proof (len_nonneg tl). lia.
  - intros j Hj Hjl. rewrite vget_insert_ne, El by (done || lia). by apply vget_app_l.
Qed.

(** ** Ending *)

Lemma kill_sockets_idem k i ws : kill_sockets k i (kill_sockets k i ws) = kill_sockets k i ws.
Proof.
  unfold kill_sockets. destruct ws as [fr cls all act del]. simpl.
  destruct (decide (k ∈ act)) as [Hk|Hk]; simpl.
  - rewrite decide_False by set_solver. unfold ws_set_all, ws_set_freed, ws_set_active. simpl. f_equal.
    set_solver.
  - rewrite decide_False by done. unfold ws_set_all. simpl. f_equal. set_solver.
Qed.

Lemma kill_twice k w u w' : kill_client k w = Ok (u, w') → kill_client k w' = Ok (tt, w').
Proof.
  intros (t & c & Hv & Hf & ->)%kill_client_inv. pose proof (vget_range _ _ _ Hv) as Hr.
  rewrite (kill_client_run k (killed k t c w) (set_using_file false t) c).
  - unfold killed. simpl. rewrite kill_sockets_idem, list_insert_insert_eq. done.
  - by apply vget_insert_eq.
  - done.
Qed.

Lemma kill_many k n w w' :
  mfor (replicate (S n) k) kill_client w = Ok (tt, w') → kill_client k w = Ok (tt, w').
Proof.
  simpl. intros ([] & w1 & H1 & Hn)%M_bind_Ok. rewrite H1. do 2 f_equal.
  pose proof (kill_twice k w tt w1 H1) as H2. induction n as [|n IH]; simpl in Hn.
  - by injection Hn.
  - rewrite (M_bind_run _ _ _ _ _ H2) in Hn. by apply IH.
Qed.

(** ** Closing *)

(** What a request to close websocket [i] makes of the web server. *)
Definition closing (i : Z) (c : ws_client) (w : web_server) : web_server :=
  put_ws_client i (wc_set_frames [] (wc_set_writing (to_i32 (wc_currently_writing c + 1)) c))
    (set_web_sockets (ws_set_active
       (active_websocket_connections_client_idxs (web_sockets w) ∖ {[wc_client_idx c]})
       (web_sockets w)) w).

Lemma close_req_prefix {X} `{!ServerType X, !TcpServer X} i b (s : server_base X) w c :
  vget (websocket_clients (web_sockets w)) i = Ok c →
  close_ws_connection_req i b (s, w) =
  (mwhen (negb b) (
    on_web (mlift (make_ws_frame [] close_connection_opcode)) ≫= λ data,
    on_tcp (tcp_write (wc_client_idx c) data)) ≫= λ _, mret true) (s, closing i c w).
Proof.
  intros Hv. pose proof (vget_range _ _ _ Hv). unfold close_ws_connection_req.
  rewrite (on_web_bind _ _ _ _ _ _ (upd_ws_client_run _ _ _ _ Hv)).
  set (c1 := wc_set_writing _ c). set (w1 := put_ws_client i c1 w).
  assert (vget (websocket_clients (web_sockets w1)) i = Ok c1) as Hv1 by by apply vget_insert_eq.
  rewrite (on_web_bind _ _ _ _ _ _ (get_ws_client_run _ _ _ Hv1)).
  set (w2 := set_web_sockets (ws_set_active (active_websocket_connections_client_idxs (web_sockets w1)
    ∖ {[wc_client_idx c1]}) (web_sockets w1)) w1).
  rewrite (on_web_bind _ _ _ _ tt w2) by done.
  rewrite (on_web_bind _ _ _ _ _ _ (upd_ws_client_run i (wc_set_frames []) w2 c1 Hv1)).
  assert (put_ws_client i (wc_set_frames [] c1) w2 = closing i c w) as ->; [|done].
  unfold closing, put_ws_client, set_web_sockets, ws_set_clients, ws_set_active. simpl.
  by rewrite list_insert_insert_eq.
Qed.

Lemma close_req_inv {X} `{!ServerType X, !TcpServer X} i b (s s' : server_base X) r w w' :
  close_ws_connection_req i b (s, w) = Ok (r, (s', w')) →
  ∃ c, vget (websocket_clients (web_sockets w)) i = Ok c ∧ w' = closing i c w.
Proof.
  intros H. destruct (vget (websocket_clients (web_sockets w)) i) as [c|f] eqn:Hv.
  - exists c. split; [done|]. rewrite (close_req_prefix i b s w c Hv) in H.
    apply M_bind_Ok in H as ([] & [s1 w1] & H & [= _ _ <-]). destruct b; simpl in H.
    + by injection H as _ <-.
    + apply M_bind_Ok in H as (d & [s2 w2] & H1 & H2).
      apply on_web_Ok in H1 as [[_ ->]%mlift_Ok ->]. by apply on_tcp_Ok in H2 as [_ ->].
  - exfalso. unfold close_ws_connection_req in H. apply M_bind_Ok in H as (u & [s1 w1] & H & _).
    apply on_web_Ok in H as [H _]. unfold upd_ws_client in H.
    apply M_bind_Ok in H as (w0 & w0' & [= <- <-] & H). apply M_bind_Ok in H as (l & w2 & H & _).
    apply mlift_Ok in H as [(x & Hx & _)%vupd_Ok _]. congruence.
Qed.

(** ** The websocket indexes *)

Lemma sockets_inv_new fd : sockets_inv (new_web_server fd) ∅.
Proof.
  split; simpl; try set_solver.
Qed.

Lemma sockets_inv_accept k l w live :
  sockets_inv w live → k ∉ live → 0 ≤ k < len l → vget l k = Ok new_tcp_client_data →
  len (tcp_clients w) ≤ len l → (∀ j, j ≠ k → j < len (tcp_clients w) → vget l j = vget (tcp_clients w) j) →
  sockets_inv (set_tcp_clients l w) ({[k]} ∪ live).
Proof.
  intros [Hr Hd Hl Ha Ho Hop Hc] Hk Hkl Hv Hlen Hother.
  assert (∀ j t, j ∈ live → vget l j = Ok t → vget (tcp_clients w) j = Ok t) as Hold.
  { intros j t Hj. rewrite Hother; [done|congruence|]. apply Hc, Hj. }
  split; simpl; [done|done|set_solver| | | |].
  - intros j Hj. destruct (Ha j Hj) as (t & Ht & Hi). exists t. split; [|done].
    rewrite Hother; [done|set_solver|]. apply Hc. set_solver.
  - intros j t [->%elem_of_singleton|Hj]%elem_of_union Ht Hi.
    + rewrite Hv in Ht. injection Ht as <-. simpl in Hi.
      assert (0 ≤ -1) by (apply Hr; set_solver). lia.
    + eapply Ho; eauto.
  - intros j t [->%elem_of_singleton|Hj]%elem_of_union Ht.
    + rewrite Hv in Ht. injection Ht as <-. simpl. pose proof (len_nonneg (websocket_clients (web_sockets w))).
      split; [lia|]. intros Hf. assert (0 ≤ -1) by (apply Hr; set_solver). lia.
    + eapply Hop; eauto.
  - intros j [->%elem_of_singleton|Hj%Hc]%elem_of_union; [done|lia].
Qed.

Lemma sockets_inv_open k i t ws' w live :
  sockets_inv w live → k ∈ live → opened_ws k i (web_sockets w) ws' → vget (tcp_clients w) k = Ok t →
  sockets_inv (set_tcp_clients (<[Z.to_nat k := tc_set_ws_client_idx i t]> (tcp_clients w))
    (set_web_sockets ws' w)) live.
Proof.
  intros [Hr Hd Hl Ha Ho Hop Hc] Hk [Hi Ef Ea Eact _ [id Hci] Hoth Hlen] Hv.
  pose proof (vget_range _ _ _ Hv) as Hkr.
  assert (i ∉ all_websocket_connections (web_sockets w)) as Hni.
  { intros Hin. destruct Hi as [Hi|Hi]; [set_solver|].
    assert (i < len (websocket_clients (web_sockets w))) by (apply Hr; set_solver). lia. }
  split; simpl; rewrite ?Ef, ?Ea, ?Eact, ?len_insert.
  - intros j Hj. destruct (decide (j = i)) as [->|Hne].
    + by apply vget_range in Hci.
    + assert (0 ≤ j < len (websocket_clients (web_sockets w))) by (apply Hr; set_solver). lia.
  - set_solver.
  - set_solver.
  - intros j Hj. destruct (decide (j = k)) as [->|Hne].
    + exists (tc_set_ws_client_idx i t). split; [by apply vget_insert_eq|]. simpl. set_solver.
    + destruct (Ha j) as (t' & Ht' & Hi'); [set_solver|]. exists t'.
      rewrite vget_insert_ne by (done || lia). split; [done|]. set_solver.
  - intros j t' Hj [[-> ->]|[Hne Ht']]%vget_insert_inv Hin; [..|done].
    + exists (fresh_ws_client id k). done.
    + destruct (Hop j t' Hj Ht') as [Hlt Hnf].
      assert (tc_ws_client_idx t' ∈ all_websocket_connections (web_sockets w)) as Hin'.
      { apply elem_of_union in Hin as [E%elem_of_singleton|?]; [|done]. destruct Hi; [congruence|lia]. }
      destruct (Ho j t' Hj Ht' Hin') as (c & Hcv & Hcj). exists c. split; [|done].
      rewrite Hoth; [done|congruence|]. apply vget_range in Hcv; lia.
  - assert (len (websocket_clients (web_sockets w)) ≤ len (websocket_clients ws')) by (destruct Hi; lia).
    intros j t' Hj [[-> ->]|[Hne Ht']]%vget_insert_inv; [..|done].
    + simpl. apply vget_range in Hci. split; [lia|set_solver].
    + destruct (Hop j t' Hj Ht'). split; [lia|set_solver].
  - done.
Qed.

Lemma sockets_inv_close i c w live :
  sockets_inv w live → vget (websocket_clients (web_sockets w)) i = Ok c →
  sockets_inv (closing i c w) live.
Proof.
  intros [Hr Hd Hl Ha Ho Hop Hc] Hv. pose proof (vget_range _ _ _ Hv) as Hir.
  split; simpl; rewrite ?len_insert; [done|done|set_solver| | |done|done].
  - intros j Hj. apply Ha. set_solver.
  - intros j t Hj Ht Hin. destruct (Ho j t Hj Ht Hin) as (c' & Hc' & Hj').
    destruct (decide (tc_ws_client_idx t = i)) as [E|Hne].
    + rewrite E in Hc' |- *. rewrite Hv in Hc'. injection Hc' as <-.
      eexists. split; [by apply vget_insert_eq|done].
    + exists c'. by rewrite vget_insert_ne by (done || lia).
Qed.

(** What [kill_sockets] does. *)
Lemma kill_sockets_effect k i ws :
  all_websocket_connections (kill_sockets k i ws) = all_websocket_connections ws ∖ {[i]} ∧
  websocket_clients (kill_sockets k i ws) = websocket_clients ws ∧
  active_websocket_connections_client_idxs (kill_sockets k i ws) =
    active_websocket_connections_client_idxs ws ∖ {[k]} ∧
  ws_freed_indexes (kill_sockets k i ws) =
    if decide (k ∈ active_websocket_connections_client_idxs ws)
    then {[i]} ∪ ws_freed_indexes ws else ws_freed_indexes ws.
Proof.
  unfold kill_sockets. simpl. split_and!; case_decide; simpl; (done || set_solver).
Qed.

Lemma sockets_inv_kill k t c w live :
  sockets_inv w live → k ∈ live → vget (tcp_clients w) k = Ok t →
  sockets_inv (killed k t c w) (live ∖ {[k]}).
Proof.
  intros [Hr Hd Hl Ha Ho Hop Hc] Hk Hv. pose proof (vget_range _ _ _ Hv) as Hkr.
  assert (∀ j t', j ∈ live → j ≠ k → vget (tcp_clients w) j = Ok t' →
    tc_ws_client_idx t' ∈ all_websocket_connections (web_sockets w) →
    tc_ws_client_idx t' ≠ tc_ws_client_idx t) as Hne.
  { intros j t' Hj Hjk Ht' Hin E. destruct (Ho j t' Hj Ht' Hin) as (c1 & Hc1 & <-).
    rewrite E in Hin. destruct (Ho k t Hk Hv Hin) as (c2 & Hc2 & <-). rewrite E in Hc1. congruence. }
  assert (k ∈ active_websocket_connections_client_idxs (web_sockets w) →
    tc_ws_client_idx t ∈ all_websocket_connections (web_sockets w)) as Hact.
  { intros Hact. destruct (Ha k Hact) as (t' & Ht' & Hin). rewrite Hv in Ht'. by injection Ht' as <-. }
  destruct (kill_sockets_effect k (tc_ws_client_idx t) (web_sockets w)) as (Eall & Ecl & Eact & Efr).
  split; simpl; rewrite ?Eall, ?Ecl, ?Eact, ?Efr, ?len_insert.
  - intros i Hi. apply Hr. case_decide; set_solver.
  - case_decide; set_solver.
  - set_solver.
  - intros j Hj. destruct (Ha j) as (t' & Ht' & Hin); [set_solver|]. exists t'.
    rewrite vget_insert_ne by (lia || set_solver). split; [done|].
    apply elem_of_difference. split; [done|]. rewrite elem_of_singleton.
    apply (Hne j t'); [set_solver..|done|done].
  - intros j t' Hj [[-> ->]|[Hjk Ht']]%vget_insert_inv Hin; [set_solver| |done].
    eapply Ho; [|done|]; set_solver.
  - intros j t' Hj [[-> ->]|[Hjk Ht']]%vget_insert_inv; [set_solver| |done].
    destruct (Hop j t') as [? Hnf]; [set_solver|done|]. split; [done|]. case_decide as Hka; [|done].
    apply not_elem_of_union. split; [|done]. intros E%elem_of_singleton.
    apply (Hne j t'); [set_solver|done|done| |done]. rewrite E. by apply Hact.
  - intros j Hj. apply Hc. set_solver.
Qed.

(** Ending a connection that is no active websocket, or again. *)
Lemma sockets_inv_kill_idle k t c w live :
  sockets_inv w live → k ∉ active_websocket_connections_client_idxs (web_sockets w) →
  k ∈ live ∨ tc_ws_client_idx t ∉ all_websocket_connections (web_sockets w) → vget (tcp_clients w) k = Ok t →
  sockets_inv (killed k t c w) live.
Proof.
  intros [Hr Hd Hl Ha Ho Hop Hc] Hna Hk Hv. pose proof (vget_range _ _ _ Hv) as Hkr.
  destruct (kill_sockets_effect k (tc_ws_client_idx t) (web_sockets w)) as (Eall & Ecl & Eact & Efr).
  rewrite decide_False in Efr by done. split; simpl; rewrite ?Eall, ?Ecl, ?Eact, ?Efr, ?len_insert; [|by set_solver +Hd|by set_solver +Hl|..|done].
  - intros i Hi. apply Hr. set_solver +Hi.
  - intros j Hj. assert (j ≠ k ∧ j ∈ active_websocket_connections_client_idxs (web_sockets w)) as [Hjk Hja] by set_solver +Hj.
    destruct (Ha j Hja) as (t' & Ht' & Hin). exists t'. rewrite vget_insert_ne by (lia || done). split; [done|].
    apply elem_of_difference. split; [done|]. intros E%elem_of_singleton. destruct Hk as [Hk|Hk]; [|congruence].
    destruct (Ho j t' (Hl j Hja) Ht' Hin) as (c1 & Hc1 & <-). rewrite E in Hin.
    destruct (Ho k t Hk Hv Hin) as (c2 & Hc2 & <-). rewrite E in Hc1. congruence.
  - intros j t' Hj [[-> ->]|[Hjk Ht']]%vget_insert_inv Hin; [exfalso; set_solver +Hin| |done].
    eapply Ho; [done|done|set_solver +Hin].
  - intros j t' Hj [[-> ->]|[Hjk Ht']]%vget_insert_inv; [|by apply (Hop j)|done]. by apply (Hop k t).
Qed.

Lemma sockets_inv_step {X} `{!ServerType X, !TcpServer X} w w' live live' :
  ws_step (X:=X) (w, live) (w', live') → sockets_inv w live → sockets_inv w' live'.
Proof.
  intros Hstep Hinv. inversion Hstep; subst.
  - destruct (new_tcp_client_run k w) as (l & E & Hv & Hlen & Hoth); [done|].
    match goal with H : new_tcp_client _ _ = _ |- _ => rewrite E in H; injection H as <- end.
    apply sockets_inv_accept; try done. by apply vget_range in Hv.
  - destruct (new_ws_client_run k w) as (i' & ws' & E & How).
    { intros j Hj. apply (si_range _ _ Hinv). set_solver. }
    match goal with H : new_ws_client _ _ = _ |- _ => rewrite E in H; injection H as <- <- end.
    destruct (vget_is_Ok (tcp_clients w) k) as [t Ht]; [by eapply si_clients|].
    match goal with H : upd_tcp_client _ _ _ = _ |- _ =>
      rewrite (upd_tcp_client_run k _ (set_web_sockets ws' w) t Ht) in H; injection H as <- end.
    by apply sockets_inv_open.
  - match goal with H : close_ws_connection_req _ _ _ = _ |- _ =>
      apply close_req_inv in H as (c & Hv & ->) end.
    by apply sockets_inv_close.
  - match goal with H : mfor _ _ _ = _ |- _ =>
      apply kill_many, kill_client_inv in H as (t & c & Hv & _ & ->) end.
    by apply sockets_inv_kill.
Qed.

Lemma sockets_inv_steps {X} `{!ServerType X, !TcpServer X} w w' live live' :
  rtc (ws_step (X:=X)) (w, live) (w', live') → sockets_inv w live → sockets_inv w' live'.
Proof.
  intros Hr. remember (w, live) as st eqn:E. remember (w', live') as st' eqn:E'.
  revert w live E. induction Hr as [st|st1 [w2 l2] st3 Hs _ IH]; intros w live -> Hinv.
  - by injection E' as <- <-.
  - eapply IH; [exact E'|done|]. by eapply sockets_inv_step.
Qed.

(** Index [i] is in no set, and not beyond the records. *)
Definition lost (i : Z) (ws : websockets) : Prop :=
  i ∉ all_websocket_connections ws ∧ i ∉ ws_freed_indexes ws ∧ 0 ≤ i < len (websocket_clients ws).

Lemma lost_step {X} `{!ServerType X, !TcpServer X} i w w' live live' :
  ws_step (X:=X) (w, live) (w', live') → sockets_inv w live →
  lost i (web_sockets w) → lost i (web_sockets w').
Proof.
  intros Hstep Hinv (Ha & Hf & Hl). inversion Hstep; subst.
  - destruct (new_tcp_client_run k w) as (l & E & _); [done|].
    match goal with H : new_tcp_client _ _ = _ |- _ => rewrite E in H; injection H as <- end.
    done.
  - destruct (new_ws_client_run k w) as (i' & ws' & E & [Hi' Ef Ea _ _ _ _ Hlen]).
    { intros j Hj. apply (si_range _ _ Hinv). set_solver. }
    match goal with H : new_ws_client _ _ = _ |- _ => rewrite E in H; injection H as <- <- end.
    destruct (vget_is_Ok (tcp_clients w) k) as [t Ht]; [by eapply si_clients|].
    match goal with H : upd_tcp_client _ _ _ = _ |- _ =>
      rewrite (upd_tcp_client_run k _ (set_web_sockets ws' w) t Ht) in H; injection H as <- end.
    assert (i ≠ i') by (destruct Hi'; [set_solver|lia]).
    unfold lost. simpl. rewrite Ef, Ea. split_and!; [set_solver|set_solver|lia|lia].
  - match goal with H : close_ws_connection_req _ _ _ = _ |- _ =>
      apply close_req_inv in H as (c & Hv & ->) end.
    unfold lost. simpl. by rewrite len_insert.
  - match goal with H : mfor _ _ _ = _ |- _ =>
      apply kill_many, kill_client_inv in H as (t & c & Hv & _ & ->) end.
    unfold lost, killed. simpl. unfold kill_sockets. cbn [active_websocket_connections_client_idxs ws_set_all].
    destruct (decide (k ∈ active_websocket_connections_client_idxs (web_sockets w))) as [Hk|Hk]; simpl;
      [|split_and!; [set_solver|done|lia|lia]].
    destruct (si_active _ _ Hinv k Hk) as (t' & Hv' & Hin). rewrite Hv in Hv'. injection Hv' as <-.
    split_and!; [set_solver|set_solver|lia|lia].
Qed.

Lemma lost_steps {X} `{!ServerType X, !TcpServer X} i w w' live live' :
  rtc (ws_step (X:=X)) (w, live) (w', live') → sockets_inv w live →
  lost i (web_sockets w) → lost i (web_sockets w').
Proof.
  intros Hr. remember (w, live) as st eqn:E. remember (w', live') as st' eqn:E'.
  revert w live E. induction Hr as [st|st1 [w2 l2] st3 Hs _ IH]; intros w live -> Hinv Hl.
  - by injection E' as <- <-.
  - eapply IH; [exact E'|done| |]; [by eapply sockets_inv_step|by eapply lost_step].
Qed.

(** ** The handshake *)

Lemma accept_header_run e key :
  openssl_ok e → get_accept_header_value e key = Ok (accept_value e key).
Proof.
  intros [Hs He]. unfold get_accept_header_value. cbv zeta. fold (accept_value e key).
  assert (length (accept_value e key) = 28%nat) as Hl.
  { unfold accept_value. specialize (He _ (Hs (key ++ lit "258EAFA5-E914-47DA-95CA-C5AB0DC85B11"))).
    unfold len in He. lia. }
  pose proof (vsplice_app [] (c_str (replicate 28 nul)) [] (accept_value e key ++ [nul]) 0) as E.
  rewrite app_nil_r, !app_nil_l, app_nil_r in E. rewrite E; [|done|].
  - step_ok. apply vslice_prefix. unfold len. by rewrite Hl.
  - rewrite length_app, Hl. done.
Qed.

Lemma vsplice_whole (l : list char) : vsplice (replicate (length l) nul) 0 l = Ok l.
Proof.
  pose proof (vsplice_app [] (replicate (length l) nul) [] l 0) as E.
  rewrite !app_nil_l, !app_nil_r in E. apply E; [done|]. by rewrite length_replicate.
Qed.

(** ** Reading messages *)

Section Reading.
Context {X : Type} `{!ServerType X, !TcpServer X, !TcpServerLaws X}.
Implicit Types (s : server_base X) (w : web_server).

(** The web server when websocket [i] is [c] and [del] was delivered. *)
Definition with_ws (i : Z) (c : ws_client) (del : list (Z * list char)) (w : web_server) : web_server :=
  set_web_sockets (ws_set_delivered del
    (ws_set_clients (<[Z.to_nat i := c]> (websocket_clients (web_sockets w))) (web_sockets w))) w.

(** What reading leaves of a websocket: its fragments are [p]. *)
Record read_ws (p : list char) (c c' : ws_client) : Prop := {
  rw_frames : wc_websocket_frames c' = p;
  rw_idx : wc_client_idx c' = wc_client_idx c;
  rw_receiving : wc_receiving_data c' = wc_receiving_data c;
  rw_close : wc_close c' = wc_close c;
  rw_id : wc_id c' = wc_id c
}.

Lemma with_ws_twice i c c' del del' w : with_ws i c' del' (with_ws i c del w) = with_ws i c' del' w.
Proof.
  unfold with_ws, set_web_sockets, ws_set_delivered, ws_set_clients. simpl.
  by rewrite list_insert_insert_eq.
Qed.

Lemma with_ws_get i c del w :
  0 ≤ i < len (websocket_clients (web_sockets w)) →
  vget (websocket_clients (web_sockets (with_ws i c del w))) i = Ok c.
Proof. intros Hi. by apply vget_insert_eq. Qed.

Lemma upd_with_ws i g c w :
  vget (websocket_clients (web_sockets w)) i = Ok c →
  upd_ws_client i g w = Ok (tt, with_ws i (g c) (ws_delivered (web_sockets w)) w).
Proof. intros Hv. by rewrite (upd_ws_client_run _ _ _ _ Hv). Qed.

Lemma with_ws_same i c w :
  vget (websocket_clients (web_sockets w)) i = Ok c → with_ws i c (ws_delivered (web_sockets w)) w = w.
Proof.
  intros [_ Hv]%vget_lookup. destruct w as [? ? ? ? [? ? ? ? ?] ? ? ?].
  unfold with_ws, set_web_sockets, ws_set_delivered, ws_set_clients. simpl in *.
  by rewrite list_insert_id.
Qed.

(** A ping is answered. *)
Lemma websocket_write_run i b s w c :
  tcp_inv s → tcp_server_set w = true → vget (websocket_clients (web_sockets w)) i = Ok c →
  wc_client_idx c ∈ active_connections s →
  ∃ s' c', websocket_write i b (s, w) = Ok (tt, (s', with_ws i c' (ws_delivered (web_sockets w)) w)) ∧
    tcp_inv s' ∧ sent_to (wc_client_idx c) [QBytes b] s s' ∧ read_ws (wc_websocket_frames c) c c'.
Proof.
  intros Hs Hw Hv Hk. pose proof (vget_range _ _ _ Hv) as Hr. unfold websocket_write.
  rewrite (on_web_bind _ _ _ _ _ _ (upd_with_ws _ _ _ _ Hv)).
  set (c' := wc_set_writing _ c). set (w1 := with_ws i c' _ w).
  rewrite (on_web_bind _ _ _ _ _ _ (get_ws_client_run i w1 c' (with_ws_get i c' _ w Hr))).
  destruct (law_write s (wc_client_idx c) b Hs Hk) as (s' & E & Hs' & Hq).
  exists s', c'. split_and!; [|done|by apply sent_to_one|done].
  apply (on_tcp_run (tcp_write (wc_client_idx c') b) s w1 tt s'); [done|exact E].
Qed.

Lemma decode_open_msg m :
  open_msg m → decode_websocket_frame (msg_frame m) =
    Ok (if cm_opcode m =? 9 then 2 else if cm_opcode m =? 10 then 3
        else if cm_fin m then 1 else -2, if cm_opcode m =? 10 then [] else cm_payload m).
Proof.
  intros [(Ho & Hk & Hp) H8]. unfold msg_frame. rewrite decode_client_frame by done.
  unfold decode_code. rewrite (proj2 (Z.eqb_neq _ 8) H8). simpl.
  destruct (Z.eqb_spec (cm_opcode m) 9) as [->|]; [done|]. by destruct (cm_opcode m =? 10).
Qed.

(** A fragment goes in front of the ones before it. *)
Lemma process_fragment_run i m s w c :
  vget (websocket_clients (web_sockets w)) i = Ok c → open_msg m → is_fragment m = true →
  process_frame i (msg_frame m) (s, w) =
    Ok (([], false), (s, with_ws i (wc_set_frames (cm_payload m ++ wc_websocket_frames c) c)
                           (ws_delivered (web_sockets w)) w)).
Proof.
  intros Hv Hm Hf. unfold process_frame.
  rewrite (on_web_bind _ _ _ _ _ w (proj2 (mlift_Ok _ _ _ _) (conj (decode_open_msg m Hm) eq_refl))).
  unfold is_fragment in Hf. apply andb_true_iff in Hf as [[H9 H10]%andb_true_iff Hfin].
  apply negb_true_iff in H9, H10, Hfin. rewrite H9, H10, Hfin. simpl.
  by rewrite (on_web_bind _ _ _ _ _ _ (upd_with_ws _ _ _ _ Hv)).
Qed.

Lemma process_msg_run i m s w c :
  tcp_inv s → tcp_server_set w = true → vget (websocket_clients (web_sockets w)) i = Ok c →
  wc_client_idx c ∈ active_connections s → open_msg m →
  (is_fragment m = true → wc_websocket_frames c = []) →
  let '(msg, pings, p) := msg_effect (wc_websocket_frames c) m in
  ∃ s' c', process_frame i (msg_frame m) (s, w) =
      Ok ((msg, false), (s', with_ws i c' (ws_delivered (web_sockets w)) w)) ∧ tcp_inv s' ∧
    sent_to (wc_client_idx c) (QBytes ∘ server_frame 10 <$> pings) s s' ∧ read_ws p c c'.
Proof.
  intros Hs Hw Hv Hk Hm Hfr. unfold process_frame.
  rewrite (on_web_bind _ _ _ _ _ w (proj2 (mlift_Ok _ _ _ _) (conj (decode_open_msg m Hm) eq_refl))).
  unfold msg_effect, is_fragment in *.
  destruct (Z.eqb_spec (cm_opcode m) 9) as [E9|E9]; simpl in *.
  { destruct (Z.eqb_spec (cm_opcode m) 10) as [|_]; [congruence|].
    assert (make_ws_frame (cm_payload m) pong = Ok (server_frame 10 (cm_payload m))) as Ep.
    { apply make_ws_frame_spec. destruct Hm as [(_ & _ & ?) _]. lia. }
    rewrite (on_web_bind _ _ _ _ _ w (proj2 (mlift_Ok _ _ _ _) (conj Ep eq_refl))).
    destruct (websocket_write_run i (server_frame 10 (cm_payload m)) s w c Hs Hw Hv Hk)
      as (s' & c' & E & ? & ? & ?).
    rewrite (M_bind_run _ _ _ _ _ E). exists s', c'. by split_and!. }
  assert (sent_to (wc_client_idx c) [] s s) as Hnil by by apply sent_to_nil.
  destruct (Z.eqb_spec (cm_opcode m) 10) as [E10|E10]; simpl in *.
  { exists s, c. rewrite with_ws_same by done. by split_and!. }
  destruct (cm_fin m); simpl in *.
  - rewrite (on_web_bind _ _ _ _ _ _ (get_ws_client_run _ _ _ Hv)).
    destruct (Z.ltb_spec 0 (len (wc_websocket_frames c))) as [Hl|Hl].
    + rewrite (on_web_bind _ _ _ _ _ _ (upd_with_ws _ _ _ _ Hv)).
      exists s, (wc_set_frames [] c). by split_and!.
    + assert (wc_websocket_frames c = []) as Hf.
      { apply len_0_nil. pose proof (len_nonneg (wc_websocket_frames c)). lia. }
      rewrite Hf. exists s, c. rewrite with_ws_same by done. by split_and!.
  - rewrite (on_web_bind _ _ _ _ _ _ (upd_with_ws _ _ _ _ Hv)). rewrite Hfr by done.
    rewrite app_nil_r. exists s, (wc_set_frames (cm_payload m) c). by split_and!.
Qed.

Lemma deliver_run i msg s w c :
  vget (websocket_clients (web_sockets w)) i = Ok c →
  deliver i msg (s, w) = Ok (tt, (s, with_ws i c
    (ws_delivered (web_sockets w) ++ (if decide (msg = []) then [] else [(i, msg)])) w)).
Proof.
  intros Hv. unfold deliver. destruct msg as [|x msg].
  - simpl. by rewrite app_nil_r, with_ws_same.
  - rewrite (proj2 (Z.ltb_lt _ _)) by len_lia. simpl. unfold with_ws, on_web, mod_sockets, mmodify.
    do 4 f_equal. unfold ws_set_delivered, ws_set_clients. simpl. f_equal.
    apply vget_lookup in Hv as [_ Hv]. by rewrite list_insert_id.
Qed.

Lemma msg_frame_pos m : open_msg m → 0 <? len (msg_frame m) = true.
Proof.
  intros [Hm _]. apply Z.ltb_lt.
  destruct (frame_ok_client (cm_fin m) (cm_opcode m) (cm_key m) (cm_payload m)) as [_ ?]; [apply Hm..|].
  unfold msg_frame. lia.
Qed.

Lemma process_frames_run i k ms : ∀ fc s w c,
  tcp_inv s → tcp_server_set w = true → vget (websocket_clients (web_sockets w)) i = Ok c →
  wc_client_idx c = k → k ∈ active_connections s → Forall open_msg ms →
  two_fragments (wc_websocket_frames c) ms →
  let '(msgs, pings, p) := ws_session (wc_websocket_frames c) ms in
  ∃ s' c', process_frames i fc (msg_frame <$> ms) (s, w) =
      Ok (false, (s', with_ws i c' (ws_delivered (web_sockets w) ++ ((i,.) <$> msgs)) w)) ∧ tcp_inv s' ∧
    sent_to k (QBytes ∘ server_frame 10 <$> pings) s s' ∧ read_ws p c c'.
Proof.
  induction ms as [|m ms IH]; intros fc s w c Hs Hw Hv Hck Hk Hms Htf.
  { exists s, c. cbn. rewrite app_nil_r, with_ws_same by done. split_and!; [done|done| |done].
    by apply sent_to_nil. }
  apply Forall_cons in Hms as [Hm Hms]. cbn [two_fragments] in Htf. destruct Htf as [Hf Htf].
  pose proof (vget_range _ _ _ Hv) as Hr. rewrite <-Hck in Hk.
  pose proof (process_msg_run i m s w c Hs Hw Hv Hk Hm Hf) as H1. cbn [ws_session].
  destruct (msg_effect (wc_websocket_frames c) m) as [[msg pings1] p1]. simpl in Htf.
  destruct H1 as (s1 & c1 & E1 & Hs1 & Hsent1 & Hread1).
  set (w1 := with_ws i c1 (ws_delivered (web_sockets w)) w) in *.
  assert (vget (websocket_clients (web_sockets w1)) i = Ok c1) as Hv1 by by apply with_ws_get.
  set (w2 := with_ws i c1 (ws_delivered (web_sockets w1) ++ (if decide (msg = []) then [] else [(i, msg)])) w1).
  assert (active_connections s1 = active_connections s) as Ea1 by apply Hsent1.
  assert (vget (websocket_clients (web_sockets w2)) i = Ok c1) as Hv2.
  { apply with_ws_get. simpl. by rewrite len_insert. }
  pose proof (IH msg s1 w2 c1 Hs1 Hw Hv2) as H2. rewrite (rw_frames _ _ _ Hread1) in H2.
  destruct (ws_session p1 ms) as [[msgs pings2] p2].
  destruct H2 as (s2 & c2 & E2 & Hs2 & Hsent2 & Hread2);
    [rewrite (rw_idx _ _ _ Hread1); exact Hck|by rewrite Ea1, <-Hck|done|done|].
  exists s2, c2. split_and!; [|done| |].
  - cbn [fmap list_fmap process_frames].
    rewrite (msg_frame_pos m Hm), (M_bind_run _ _ _ _ _ E1). cbn [fst snd].
    rewrite (M_bind_run _ _ _ _ _ (deliver_run i msg s1 w1 c1 Hv1)). fold w2.
    rewrite E2. do 3 f_equal. unfold w2, w1. rewrite !with_ws_twice. f_equal. simpl.
    rewrite <-app_assoc. f_equal. by case_decide.
  - rewrite fmap_app. rewrite Hck in Hsent1. by eapply sent_to_trans.
  - destruct Hread1, Hread2. split; congruence.
Qed.

End Reading.

(** A read that holds complete frames. *)
Lemma parse_client_frames ms slack n :
  Forall client_msg_wf ms → n = len (concat (msg_frame <$> ms)) → n < 2 ^ 31 →
  parse_ws_frames (S (Z.to_nat n)) (concat (msg_frame <$> ms) ++ slack) n no_receiving_data
    = Ok (Some (msg_frame <$> ms, no_receiving_data)).
Proof.
  intros Hwf Hn Hlt. pose proof (msg_frames_ok _ Hwf) as Hok.
  pose proof (length_le_concat _ Hok) as Hle.
  destruct (parse_ws_frames_fresh (msg_frame <$> ms) [] slack n (S (Z.to_nat n)))
    as (slack' & Hp); [done|by left|rewrite len_nil; lia|done|lia|].
  rewrite app_nil_l in Hp. rewrite Hp. by rewrite app_nil_l, len_nil, stash_remaining_nil.
Qed.

(** ** A web server with an active websocket, for concrete runs *)

Definition run_web {A} (m : Web A) (w : web_server) : web_server :=
  match m w with Ok (_, w') => w' | Err _ => w end.

Definition demo_env : env :=
  {| os_open := λ n _, 20 + Z.of_nat n; os_stat := λ _ _, Some {| st_kind := RegularFile; st_size := 3 |};
     os_ioctl := λ _ _, None; os_watch := λ n _, 40 + Z.of_nat n;
     sha1 := λ _, replicate 20 nul; encode_block := λ _, replicate 28 (cchar 65);
     env_iter := elements |}.

Lemma demo_env_ok : openssl_ok demo_env.
Proof. split; [done|]. done. Qed.

(** One client, then as a websocket. *)
Definition demo_web0 : web_server := set_tcp_set true (run_web (new_tcp_client 0) (new_web_server 4)).
Definition demo_web1 : web_server := run_web (new_tcp_client 0) (new_web_server 4).
Definition demo_web2 : web_server := run_web (new_ws_client 0) demo_web1.
Definition demo_web3 : web_server := run_web (upd_tcp_client 0 (tc_set_ws_client_idx 0)) demo_web2.
Definition demo_web : web_server := set_tcp_set true demo_web3.

Lemma demo_web_steps : rtc (ws_step (X:=unit)) (new_web_server 4, ∅) (demo_web3, {[0]}).
Proof.
  eapply rtc_l; [apply (ws_accept 0 (new_web_server 4) demo_web1); [set_solver|lia|by vm_compute]|].
  rewrite union_empty_r_L. apply rtc_once.
  apply (ws_open 0 0 demo_web1 demo_web2 demo_web3); [set_solver|by vm_compute|by vm_compute].
Qed.

(** * Properties *)



(** C33: a handshake is answered as RFC 6455 asks: the 101 response with the base64 of
    the SHA1 of the key and the protocol's GUID is queued for the connection and
    nothing else is; the connection becomes an active websocket with an index that was
    free or new, and with fresh websocket data. *)
Theorem websocket_handshake {X} `{!ServerType X, !TcpServer X, !TcpServerLaws X} e key path k
    (s : server_base X) w t :
  openssl_ok e → tcp_inv s → tcp_server_set w = true → k ∈ active_connections s →
  vget (tcp_clients w) k = Ok t →
  (∀ i, i ∈ ws_freed_indexes (web_sockets w) → 0 ≤ i < len (websocket_clients (web_sockets w))) →
  ∃ s' i ws', websocket_accept_read_cb e key path k (s, w) =
      Ok (tt, (s', set_tcp_clients (<[Z.to_nat k := tc_set_ws_client_idx i t]> (tcp_clients w))
                     (set_web_sockets ws' w))) ∧
    opened_ws k i (web_sockets w) ws' ∧ tcp_inv s' ∧
    sent_to k [QBytes (handshake_response (accept_value e key))] s s'.
Proof.
  intros Hssl Hs Hw Hk Hv Hfr. unfold websocket_accept_read_cb.
  rewrite (on_web_bind _ _ _ _ _ w (proj2 (mlift_Ok _ _ _ _) (conj (accept_header_run e key Hssl) eq_refl))).
  cbv zeta. set (resp := handshake_response (accept_value e key)).
  rewrite (on_web_bind _ _ _ _ _ w (proj2 (mlift_Ok _ _ _ _) (conj (vsplice_whole resp) eq_refl))).
  destruct (new_ws_client_run k w Hfr) as (i & ws' & E & How).
  rewrite (on_web_bind _ _ _ _ _ _ E).
  rewrite (on_web_bind _ _ _ _ _ _ (upd_tcp_client_run k _ (set_web_sockets ws' w) t Hv)).
  destruct (law_write s k resp Hs Hk) as (s' & E' & Hs' & Hq).
  exists s', i, ws'. split_and!; [|done|done|by apply sent_to_one].
  by apply on_tcp_run.
Qed.

Lemma websocket_handshake_witness :
  ∃ s' w', websocket_accept_read_cb demo_env (lit "dGhlIHNhbXBsZQ==") (lit "chat") 0 (two_conns, demo_web0) =
    Ok (tt, (s', w')) ∧
    tcp_queue s' 0 = [QBytes (handshake_response (accept_value demo_env (lit "dGhlIHNhbXBsZQ==")))].
Proof.
  destruct (websocket_handshake demo_env (lit "dGhlIHNhbXBsZQ==") (lit "chat") 0 two_conns demo_web0
    new_tcp_client_data) as (s' & i & ws' & E & _ & _ & [_ Hq]).
  - exact demo_env_ok.
  - exact two_conns_inv.
  - reflexivity.
  - apply (bool_decide_unpack _). vm_compute. exact I.
  - reflexivity.
  - intros i Hi. by apply elem_of_empty in Hi.
  - do 2 eexists. split; [exact E|]. rewrite Hq. reflexivity.
Defined.


(** A text message in two fragments with a ping between them. *)
Definition demo_msgs : list client_msg :=
  [{| cm_fin := false; cm_opcode := 1; cm_key := lit "abcd"; cm_payload := lit "Hel" |};
   {| cm_fin := true; cm_opcode := 9; cm_key := lit "efgh"; cm_payload := lit "p" |};
   {| cm_fin := true; cm_opcode := 0; cm_key := lit "ijkl"; cm_payload := lit "lo" |}].

Lemma demo_msgs_open : Forall open_msg demo_msgs.
Proof. repeat (apply Forall_cons; split); [by repeat split..|constructor]. Qed.


(** A message in three fragments is put together in the wrong order: the
    second fragment is inserted before the first, so the application gets the
    second, the first and the third. *)
Theorem third_fragment_reverses {X} `{!ServerType X, !TcpServer X} i m1 m2 m3 fc
    (s : server_base X) w c :
  vget (websocket_clients (web_sockets w)) i = Ok c → wc_websocket_frames c = [] →
  Forall open_msg [m1; m2; m3] → is_fragment m1 = true → is_fragment m2 = true →
  cm_opcode m3 = 0 → cm_fin m3 = true → cm_payload m1 ≠ [] →
  ∃ c', process_frames i fc (msg_frame <$> [m1; m2; m3]) (s, w) =
    Ok (false, (s, with_ws i c' (ws_delivered (web_sockets w) ++
      [(i, cm_payload m2 ++ cm_payload m1 ++ cm_payload m3)]) w)).
Proof.
  intros Hv Hf Hms Hf1 Hf2 Ho3 Hf3 Hne. pose proof (vget_range _ _ _ Hv) as Hr.
  apply Forall_cons in Hms as [Hm1 Hms]. apply Forall_cons in Hms as [Hm2 Hms].
  apply Forall_cons in Hms as [Hm3 _].
  cbn [fmap list_fmap process_frames].
  rewrite (msg_frame_pos m1 Hm1), (M_bind_run _ _ _ _ _ (process_fragment_run i m1 s w c Hv Hm1 Hf1)).
  set (c1 := wc_set_frames _ c). set (w1 := with_ws i c1 _ w). cbn [fst snd].
  assert (vget (websocket_clients (web_sockets w1)) i = Ok c1) as Hv1 by by apply with_ws_get.
  rewrite (M_bind_run _ _ (s, w1) tt (s, w1)) by done.
  rewrite (msg_frame_pos m2 Hm2), (M_bind_run _ _ _ _ _ (process_fragment_run i m2 s w1 c1 Hv1 Hm2 Hf2)).
  set (c2 := wc_set_frames _ c1). set (w2 := with_ws i c2 _ w1). cbn [fst snd].
  assert (vget (websocket_clients (web_sockets w2)) i = Ok c2) as Hv2.
  { apply with_ws_get. simpl. by rewrite len_insert. }
  rewrite (M_bind_run _ _ (s, w2) tt (s, w2)) by done.
  assert (wc_websocket_frames c2 = cm_payload m2 ++ cm_payload m1) as E2.
  { simpl. by rewrite Hf, app_nil_r. }
  assert (0 <? len (wc_websocket_frames c2) = true) as Hlt.
  { apply Z.ltb_lt. rewrite E2, len_app. pose proof (len_nonneg (cm_payload m2)).
    destruct (cm_payload m1); [done|]. len_lia. }
  assert (process_frame i (msg_frame m3) (s, w2) = Ok ((wc_websocket_frames c2 ++ cm_payload m3, false),
    (s, with_ws i (wc_set_frames [] c2) (ws_delivered (web_sockets w2)) w2))) as E3.
  { unfold process_frame.
    rewrite (on_web_bind _ _ _ _ _ w2 (proj2 (mlift_Ok _ _ _ _) (conj (decode_open_msg m3 Hm3) eq_refl))).
    rewrite Ho3, Hf3. simpl. rewrite (on_web_bind _ _ _ _ _ _ (get_ws_client_run _ _ _ Hv2)), Hlt.
    by rewrite (on_web_bind _ _ _ _ _ _ (upd_with_ws _ _ _ _ Hv2)). }
  rewrite (msg_frame_pos m3 Hm3), (M_bind_run _ _ _ _ _ E3). set (c3 := wc_set_frames [] c2). set (w3 := with_ws i c3 _ w2).
  cbn [fst snd]. assert (vget (websocket_clients (web_sockets w3)) i = Ok c3) as Hv3.
  { apply with_ws_get. simpl. by rewrite !len_insert. }
  rewrite (M_bind_run _ _ _ _ _ (deliver_run i _ s w3 c3 Hv3)). exists c3.
  rewrite decide_False by (intros E; rewrite E2 in E; apply app_nil in E as [[_ ?]%app_nil _]; done).
  rewrite E2, <-app_assoc. unfold w3, w2, w1. by rewrite !with_ws_twice.
Qed.

(** A websocket that the server closes itself loses its index for good: closing
    takes the connection off the active ones, so that ending the client does not
    give the index back; it is neither in use nor free in any later state, and the
    records only grow. *)
Theorem closed_websocket_loses_index {X} `{!ServerType X, !TcpServer X} fd w live k t b n
    (s s' : server_base X) r w1 w2 w3 live3 :
  rtc (ws_step (X:=X)) (new_web_server fd, ∅) (w, live) →
  k ∈ active_websocket_connections_client_idxs (web_sockets w) → vget (tcp_clients w) k = Ok t →
  close_ws_connection_req (tc_ws_client_idx t) b (s, w) = Ok (r, (s', w1)) →
  mfor (replicate (S n) k) kill_client w1 = Ok (tt, w2) →
  rtc (ws_step (X:=X)) (w2, live ∖ {[k]}) (w3, live3) →
  lost (tc_ws_client_idx t) (web_sockets w3).
Proof.
  intros Hr Hk Hv Hclose Hend Hr3. pose proof (sockets_inv_steps _ _ _ _ Hr (sockets_inv_new fd)) as Hinv.
  pose proof (si_live _ _ Hinv k Hk) as Hlive.
  destruct (si_active _ _ Hinv k Hk) as (t' & Hv' & Hin). rewrite Hv in Hv'. injection Hv' as <-.
  destruct (si_owner _ _ Hinv k t Hlive Hv Hin) as (c & Hc & Hck).
  apply close_req_inv in Hclose as (c' & Hc' & ->). rewrite Hc in Hc'. injection Hc' as <-.
  pose proof (sockets_inv_close _ _ _ _ Hinv Hc) as Hinv1.
  apply kill_many, kill_client_inv in Hend as (t1 & ca & Hv1 & _ & ->). simpl in Hv1.
  rewrite Hv in Hv1. injection Hv1 as <-.
  eapply lost_steps; [exact Hr3|by apply sockets_inv_kill|].
  pose proof (vget_range _ _ _ Hc). unfold lost, killed. simpl. unfold kill_sockets. simpl.
  rewrite decide_False by set_solver. simpl. rewrite len_insert.
  split_and!; [set_solver| |lia|lia]. pose proof (si_disj _ _ Hinv). set_solver.
Qed.

(** The message Hello in three fragments. *)
Definition frag1 : client_msg :=
  {| cm_fin := false; cm_opcode := 1; cm_key := lit "abcd"; cm_payload := lit "He" |}.
Definition frag2 : client_msg :=
  {| cm_fin := false; cm_opcode := 0; cm_key := lit "efgh"; cm_payload := lit "ll" |}.
Definition frag3 : client_msg :=
  {| cm_fin := true; cm_opcode := 0; cm_key := lit "ijkl"; cm_payload := lit "o" |}.

Lemma third_fragment_reverses_witness :
  ∃ w', process_frames 0 [] (msg_frame <$> [frag1; frag2; frag3]) (two_conns, demo_web) = Ok (false, (two_conns, w')) ∧
    ws_delivered (web_sockets w') = [(0, lit "llHeo")].
Proof.
  destruct (vget (websocket_clients (web_sockets demo_web)) 0) as [c|] eqn:Hc;
    [|vm_compute in Hc; discriminate Hc].
  assert (wc_websocket_frames c = []) as Hf by (vm_compute in Hc; injection Hc as <-; reflexivity).
  pose proof (third_fragment_reverses (X:=unit) 0 frag1 frag2 frag3 [] two_conns demo_web c Hc Hf) as H.
  destruct H as [c' E]; [|reflexivity..|discriminate|].
  - repeat (apply Forall_cons; split); [by repeat split..|constructor].
  - eexists. split; [exact E|]. vm_compute. reflexivity.
Defined.

Definition demo_closing : result (bool * (srv * web_server)) :=
  close_ws_connection_req 0 true (two_conns, demo_web3).
Definition demo_closed1 : web_server := match demo_closing with Ok (_, (_, w)) => w | Err _ => demo_web3 end.
Definition demo_closed2 : web_server := run_web (mfor [0] kill_client) demo_closed1.

Lemma closed_websocket_loses_index_witness : lost 0 (web_sockets demo_closed2).
Proof.
  destruct (vget (tcp_clients demo_web3) 0) as [t|] eqn:Hv; [|vm_compute in Hv; discriminate Hv].
  assert (tc_ws_client_idx t = 0) as Hi by (vm_compute in Hv; injection Hv as <-; reflexivity).
  pose proof (closed_websocket_loses_index (X:=unit) 4 demo_web3 {[0]} 0 t true 0 two_conns two_conns true
    demo_closed1 demo_closed2 demo_closed2 ({[0]} ∖ {[0]}) demo_web_steps) as H.
  rewrite Hi in H. apply H.
  - apply (bool_decide_unpack _). vm_compute. exact I.
  - exact Hv.
  - vm_compute. reflexivity.
  - vm_compute. reflexivity.
  - apply rtc_refl.
Defined.

(** Ending a connection twice, as the event loop does when a read fails after the connection was closed
    ([closed_twice] of NonTlsProps.v), takes the websocket of another one off the open ones: connection 1 took the index
    over in between, is still active, and is closed when its next write ends. *)
Definition demo_taken_over : web_server :=
  run_web (mfor [0] new_tcp_client ≫= λ _, new_ws_client 0 ≫= λ i, upd_tcp_client 0 (tc_set_ws_client_idx i) ≫= λ _,
    kill_client 0 ≫= λ _, new_tcp_client 1 ≫= λ _,
    new_ws_client 1 ≫= λ i, upd_tcp_client 1 (tc_set_ws_client_idx i)) (new_web_server 4).

Lemma ended_twice_closes_other :
  let w := run_web (kill_client 0) demo_taken_over in
  (1 ∈ active_websocket_connections_client_idxs (web_sockets demo_taken_over) ∧
   0 ∈ all_websocket_connections (web_sockets demo_taken_over)) ∧
  1 ∈ active_websocket_connections_client_idxs (web_sockets w) ∧ tc_ws_client_idx <$> vget (tcp_clients w) 1 = Ok 0 ∧
  0 ∉ all_websocket_connections (web_sockets w) ∧
  (λ r, r.1) <$> websocket_process_write_cb 1 (two_conns, w) = Ok false.
Proof.
  cbv zeta. split_and!; first [by vm_compute|apply (bool_decide_unpack _); vm_compute; exact I].
Qed.
