(* ===== verification/BroadcastProps.v ===== *)
(** * Correctness of broadcasts

    A broadcast of the program reaches every active websocket of the thread, and
    the program is told once that its buffer is no longer needed, after the last
    connection is done with it. *)

From S2P Require Import Prelude Bytes Utility CString WsFrame Cache ServerBase NonTls TcpServer WebBase WebSockets Http Callbacks WsProps.
From Stdlib Require Import ZArith Lia.
From stdpp Require Import base gmap strings list fin_maps sets.

#[local] Open Scope Z_scope.

(** ** Specification *)

(** The message that reports item [i] of a broadcast [m]. *)
Definition finished_msg (m : message_post_data) : message_post_data :=
  {| mp_type := broadcast_finished; mp_buff_ptr := mp_buff_ptr m; mp_length := mp_length m;
     mp_item_idx := mp_item_idx m; mp_additional_info := to_u64 (-1) |}.

(** The broadcast [m] has [n] uses left. *)
Definition uses_left (w : web_server) (m : message_post_data) (n : Z) : Prop :=
  vget (broadcast_data w) (mp_item_idx m) =
    Ok {| bd_buff_ptr := mp_buff_ptr m; bd_data_len := mp_length m; bd_uses := n |}.

(** The entries of [broadcast_data] for other items stay. *)
Definition only_item (m : message_post_data) (w w' : web_server) : Prop :=
  web_sockets w' = web_sockets w ∧
  ∀ i x, i ≠ mp_item_idx m → vget (broadcast_data w) i = Ok x → vget (broadcast_data w') i = Ok x.

(** The program's queue and its eventfd after [k] reports [l]. *)
Definition reported (l : list message_post_data) (w w' : web_server) : Prop :=
  to_program_queue (web_queues w') = to_program_queue (web_queues w) ++ l ∧
  central_eventfd (web_queues w') = central_eventfd (web_queues w) + len l.

(** * Lemmas *)

Section Lemmas.
Context {X : Type} `{!ServerType X, !TcpServer X, !TcpServerLaws X}.
Implicit Types (s : server_base X) (w : web_server) (m : message_post_data).

Lemma post_run ty p l i a w :
  tcp_server_set w = true →
  ∃ w', post_message_to_program ty p l i a w = Ok (tt, w') ∧
    reported [{| mp_type := ty; mp_buff_ptr := p; mp_length := l; mp_item_idx := i;
                 mp_additional_info := a |}] w w' ∧
    tcp_server_set w' = true ∧ broadcast_data w' = broadcast_data w ∧ web_sockets w' = web_sockets w ∧
    to_server_queue (web_queues w') = to_server_queue (web_queues w).
Proof.
  intros Hw. unfold post_message_to_program. rewrite (M_bind_run _ _ w w w) by done. rewrite Hw. simpl.
  eexists. split; [done|]. split_and!; [|done..]. by split.
Qed.

(** One connection is done: the last one reports. *)
Lemma broadcast_done_run m n s w :
  tcp_server_set w = true → 0 ≤ mp_item_idx m → 1 ≤ n < 2 ^ 64 → uses_left w m n →
  ∃ w', broadcast_done (mp_item_idx m) (s, w) = Ok (tt, (s, w')) ∧ uses_left w' m (n - 1) ∧
    reported (if n =? 1 then [finished_msg m] else []) w w' ∧ tcp_server_set w' = true ∧
    only_item m w w' ∧ to_server_queue (web_queues w') = to_server_queue (web_queues w).
Proof.
  intros Hw Hi Hn Hu. pose proof (vget_range _ _ _ Hu) as Hr. unfold broadcast_done.
  rewrite (proj2 (Z.eqb_neq _ _)) by lia. simpl. unfold on_web.
  rewrite (M_bind_run _ _ w w w) by done. rewrite (vupd_is_Ok _ _ _ _ Hu). simpl.
  set (it := {| bd_buff_ptr := mp_buff_ptr m; bd_data_len := mp_length m; bd_uses := to_u64 (n - 1) |}).
  set (l := <[Z.to_nat (mp_item_idx m) := it]> (broadcast_data w)).
  rewrite (M_bind_run _ _ w l w) by done.
  set (w1 := set_broadcast_data l w). rewrite (M_bind_run _ _ w tt w1) by done.
  assert (vget l (mp_item_idx m) = Ok it) as Hv by by apply vget_insert_eq.
  rewrite (M_bind_run _ _ w1 it w1) by (unfold mlift; by rewrite Hv).
  assert (∀ i x, i ≠ mp_item_idx m → vget (broadcast_data w) i = Ok x → vget l i = Ok x) as Hother.
  { intros i x Hne Hx. unfold l. by rewrite vget_insert_ne by (done || lia). }
  assert (bd_uses it = n - 1) as Eu by (simpl; rewrite to_u64_small; lia).
  assert (it = {| bd_buff_ptr := mp_buff_ptr m; bd_data_len := mp_length m; bd_uses := n - 1 |}) as Eit
    by (rewrite <-Eu; done).
  rewrite Eu. destruct (Z.eqb_spec n 1) as [->|Hn1].
  - change (1 - 1 =? 0) with true. unfold mwhen. cbv iota.
    destruct (post_run broadcast_finished (bd_buff_ptr it) (bd_data_len it) (mp_item_idx m) (to_u64 (-1)) w1 Hw)
      as (w2 & E & Hrep & Hw2 & Hb & Hs & Hq). rewrite E. exists w2. split_and!; [done| |done|done| |by rewrite Hq].
    + unfold uses_left. rewrite Hb. simpl. by rewrite Hv, Eit.
    + split; [done|]. rewrite Hb. exact Hother.
  - rewrite (proj2 (Z.eqb_neq (n - 1) 0)) by lia. simpl. exists w1. split_and!; [done| | |done|by split|done].
    + unfold uses_left. simpl. by rewrite Hv, Eit.
    + split; simpl; [by rewrite app_nil_r|unfold len; simpl; lia].
Qed.

Lemma broadcast_done_many m (k : nat) : ∀ n s w,
  tcp_server_set w = true → 0 ≤ mp_item_idx m → Z.of_nat k ≤ n < 2 ^ 64 → 1 ≤ n → uses_left w m n →
  ∃ w', mfor (replicate k (mp_item_idx m)) broadcast_done (s, w) = Ok (tt, (s, w')) ∧
    reported (if n =? Z.of_nat k then [finished_msg m] else []) w w'.
Proof.
  induction k as [|k IH]; intros n s w Hw Hi Hkn Hn Hu.
  { exists w. rewrite (proj2 (Z.eqb_neq _ _)) by lia. split; [done|].
    split; [by rewrite app_nil_r|unfold len; simpl; lia]. }
  destruct (broadcast_done_run m n s w Hw Hi) as (w1 & E1 & Hu1 & [Hq1 He1] & Hw1 & _ & _); [lia|done|].
  simpl. rewrite (M_bind_run _ _ _ _ _ E1). destruct (Z.eqb_spec n 1) as [->|Hn1].
  - assert (k = 0)%nat as -> by lia. exists w1. done.
  - destruct (IH (n - 1) s w1 Hw1 Hi) as (w2 & E2 & Hq2 & He2); [lia|lia|done|].
    exists w2. split; [done|]. assert ((n =? Z.of_nat (S k)) = (n - 1 =? Z.of_nat k)) as ->
      by (destruct (Z.eqb_spec n (Z.of_nat (S k))), (Z.eqb_spec (n - 1) (Z.of_nat k)); (done || lia)).
    rewrite app_nil_r in Hq1. split; [by rewrite Hq2, Hq1|rewrite He2, He1; unfold len; simpl; lia].
Qed.

(** The buffer is resized so that the item has a place. *)
Lemma resize_items l i :
  0 ≤ i < 2 ^ 63 →
  i < len (if len l <=? to_u64 i then vresize no_broadcast l (i + 1) else l).
Proof.
  intros Hi. rewrite to_u64_small by lia. destruct (Z.leb_spec (len l) i); [|done].
  rewrite vresize_len by lia. lia.
Qed.

Lemma vresize_keeps {A} (d : A) l n i x : len l ≤ n → vget l i = Ok x → vget (vresize d l n) i = Ok x.
Proof.
  intros Hn Hx. rewrite vresize_grow by done. rewrite vget_app_l; [done|]. apply vget_range in Hx. lia.
Qed.

(** What [event_cb] does with the message [m] at the head of the queue. *)
Record taken_up e m rest s w s' w' : Prop := {
  tk_queued : queued_for (env_iter e (active_websocket_connections_client_idxs (web_sockets w)))
                (QPtr (mp_buff_ptr m) (mp_length m) (mp_item_idx m)) s s';
  tk_ready : tcp_server_set w' = true;
  tk_item : only_item m w w';
  tk_queue : to_server_queue (web_queues w') = rest;
  tk_uses : 0 < Z.of_nat (size (active_websocket_connections_client_idxs (web_sockets w))) →
    uses_left w' m (Z.of_nat (size (active_websocket_connections_client_idxs (web_sockets w))));
  tk_report : reported
    (if Z.of_nat (size (active_websocket_connections_client_idxs (web_sockets w))) =? 0
     then [finished_msg m] else []) w w'
}.

Lemma resized_item m l w :
  0 ≤ mp_item_idx m < 2 ^ 63 →
  l = (if len (broadcast_data w) <=? to_u64 (mp_item_idx m)
       then vresize no_broadcast (broadcast_data w) (mp_item_idx m + 1) else broadcast_data w) →
  mp_item_idx m < len l ∧ ∀ i x, vget (broadcast_data w) i = Ok x → vget l i = Ok x.
Proof.
  intros Hi ->. split; [by apply resize_items|]. intros i x Hx. rewrite to_u64_small by lia.
  destruct (Z.leb_spec (len (broadcast_data w)) (mp_item_idx m)); [|done].
  apply vresize_keeps; [lia|done].
Qed.

(** The active websockets of the thread are connections of its server. *)
Definition sockets_served s w : Prop :=
  let A := active_websocket_connections_client_idxs (web_sockets w) in
  A ⊆ active_connections s ∧ (∀ i, i ∈ A → 0 ≤ i < 2 ^ 31) ∧ Z.of_nat (size A) < 2 ^ 31.

Lemma event_cb_run e s w m rest :
  IterOrder (env_iter e) → tcp_inv s → tcp_server_set w = true → sockets_served s w →
  to_server_queue (web_queues w) = m :: rest → 0 ≤ mp_item_idx m < 2 ^ 31 - 1 → mp_buff_ptr m ≠ PNull →
  ∃ s' w', event_cb e (s, w) = Ok (tt, (s', w')) ∧ tcp_inv s' ∧ taken_up e m rest s w s' w'.
Proof.
  intros Hiter Hs Hw (HA & Hrange & Hn) Hq Hi Hp.
  set (A := active_websocket_connections_client_idxs (web_sockets w)) in *.
  set (n := Z.of_nat (size A)) in *. unfold event_cb.
  set (w1 := set_web_queues {| to_server_queue := rest; to_program_queue := to_program_queue (web_queues w);
                               central_eventfd := central_eventfd (web_queues w) |} w).
  rewrite (on_web_bind _ _ _ _ m w1).
  2: { unfold get_from_to_server_queue. rewrite (M_bind_run _ _ w w w) by done. cbv zeta. by rewrite Hq. }
  set (l := if len (broadcast_data w) <=? to_u64 (mp_item_idx m)
    then vresize no_broadcast (broadcast_data w) (mp_item_idx m + 1) else broadcast_data w).
  set (w2 := set_broadcast_data l w1). rewrite (on_web_bind _ _ _ _ tt w2).
  2: { unfold mmodify, w2, l. change (broadcast_data w1) with (broadcast_data w). by destruct (_ <=? _). }
  rewrite (on_web_bind _ _ _ _ w2 w2) by done.
  change (active_websocket_connections_client_idxs (web_sockets w2)) with A. fold n. cbv zeta.
  destruct (resized_item m l w) as [Hl Hkeep]; [lia|done|]. destruct (Z.ltb_spec 0 n) as [Hpos|Hzero].
  - set (it := {| bd_buff_ptr := mp_buff_ptr m; bd_data_len := mp_length m; bd_uses := n |}).
    set (l' := <[Z.to_nat (mp_item_idx m) := it]> l). rewrite (on_web_bind _ _ _ _ l' w2).
    2: { apply mlift_Ok. split; [|done]. apply vset_is_Ok. simpl. lia. }
    rewrite (on_web_bind _ _ _ _ tt (set_broadcast_data l' w2)) by done.
    destruct (law_broadcast s (env_iter e A) (to_i32 n) (mp_buff_ptr m) (mp_length m) (mp_item_idx m) Hs)
      as (s' & E & Hs' & Hqf).
    { apply Forall_forall. intros i Hin. apply (iter_elem (env_iter e)) in Hin. split; [set_solver|].
      apply to_i32_small. specialize (Hrange i Hin). lia. }
    { by apply iter_NoDup. }
    { rewrite to_i32_small; lia. }
    { done. }
    exists s', (set_broadcast_data l' w2). rewrite to_i32_small in Hqf by lia.
    split_and!; [by apply on_tcp_run|done|]. split; [exact Hqf|done| |done| |].
    + split; [done|]. intros i x Hne Hx. simpl. unfold l'.
      rewrite vget_insert_ne by (done || lia). by apply Hkeep.
    + intros _. apply vget_insert_eq. lia.
    + fold A. fold n. rewrite (proj2 (Z.eqb_neq _ _)) by lia.
      split; simpl; [by rewrite app_nil_r|unfold len; simpl; lia].
  - assert (A = ∅) as HA0 by (apply leibniz_equiv, size_empty_inv; lia).
    assert (n = 0) as En by lia.
    destruct (post_run broadcast_finished (mp_buff_ptr m) (mp_length m) (mp_item_idx m) (to_u64 (-1)) w2 Hw)
      as (w3 & E & Hrep & Hw3 & Hb & Hk & Hsq).
    exists s, w3. split_and!; [by apply on_web_run|done|]. split; [|done| |by rewrite Hsq| |].
    + split; [done|]. intros j. rewrite decide_False, app_nil_r; [done|].
      fold A. rewrite (iter_elem (env_iter e)), HA0. set_solver.
    + split; [by rewrite Hk|]. intros i x _ Hx. rewrite Hb. by apply Hkeep.
    + fold A. fold n. lia.
    + fold A. fold n. by rewrite En.
Qed.

End Lemmas.

(** * Properties *)


(** A thread with one active websocket and a broadcast posted. *)
Definition demo_post : message_post_data :=
  {| mp_type := websocket_broadcast; mp_buff_ptr := PStoreItem 2; mp_length := 6; mp_item_idx := 2;
     mp_additional_info := to_u64 (-1) |}.

