(* ===== verification/FileProps.v ===== *)
(** * Correctness of file responses

    A file that is not cached is read in as many pieces as the kernel delivers
    and sent behind its headers; a cached one is sent from the cache.  The faults
    a request can cause are at the end. *)

From S2P Require Import Prelude Bytes Utility CString WsFrame Cache ServerBase NonTls TcpServer WebBase WebSockets Http Callbacks WsProps.
From Stdlib Require Import ZArith Lia.
From stdpp Require Import base gmap strings list fin_maps sets.

#[local] Open Scope Z_scope.

(** ** Specification *)

(** The bytes a queued message sends. *)
Definition msg_text (store : Z → result (list char)) (w : web_server) (m : queued_msg)
  : result (list char) :=
  match m with
  | QBytes b => Ok b
  | QPtr p n _ => take (Z.to_nat n) <$> web_mem store w p
  | QMulti _ => Err UseAfterFree
  end.

(** The request that reads a file of [n] bytes, after [j] of them. *)
Definition file_sqe (fd k n : Z) (headers got : list char) : sqe :=
  let j := len got in
  prep_read fd (len headers + j) READ_SIZE j
    {| rq_event := CUSTOM_READ; rq_client_idx := k; rq_ID := -1; rq_written := 0;
       rq_total_length := n; rq_buffer := None;
       rq_read_data := headers ++ got ++ replicate (Z.to_nat (n - j)) nul;
       rq_read_amount := len headers + j; rq_custom_info := fd |}.

(** The file arrives in pieces: completions of the request at [pos]. *)
Definition file_cqes (pos : nat) (pieces : list (list char)) : list cqe :=
  (λ p, {| cq_wait := 0; cq_pos := pos; cq_res := len p; cq_data := p; cq_peek := λ _, -1; cq_iter := elements |})
    <$> pieces.

Definition piece_ok (p : list char) : Prop := 1 ≤ len p ≤ READ_SIZE.

(** * Lemmas *)

(** ** The cache *)

(** A path that is inserted is found with what was inserted. *)
Lemma insert_fetch_run iter `{!IterOrder iter} N c o l wa k f buff t :
  cache_rel N c o l → filepath_to_cache_idx c !! f = None →
  ∃ b c1, try_insert_item iter wa k f buff c = Ok (b, c1) ∧
    (b = false → c1 = c) ∧
    (b = true → ∃ i c2, fetch_item f k t c1 =
       Ok ({| cf_found := true; cf_size := len buff; cf_buff := Some i |}, set_using_file true t, c2) ∧
       content c2 i = Ok buff ∧ client_idx_to_cache_idx c2 !! k = Some i).
Proof.
  intros Hrel Hf. destruct (try_insert_run iter N c o l wa k f buff Hrel Hf) as
    (b & c1 & o1 & l1 & E & _ & Hrel1 & Hshape & Hsame & _).
  exists b, c1. split_and!; [done|done|]. intros ->.
  set (e := {| le_path := f; le_data := buff; le_locks := 0 |}).
  assert (∃ o0 i l0, o1 = o0 ++ [i] ∧ l1 = l0 ++ [e] ∧ length o0 = length l0) as (o0 & i & l0 & -> & -> & Hl0).
  { pose proof (Forall2_length _ _ _ (cr_entries _ _ _ _ Hrel1)) as Hlen1.
    destruct Hshape as [(i & _ & -> & ->)|(i & o2 & e2 & l2 & _ & _ & _ & -> & ->)];
      rewrite !length_app in Hlen1; simpl in Hlen1; do 3 eexists; split_and!; try done; lia. }
  assert (entry_rel (payload <$> cache_buffer c1) (cache_idx_to_filepath c1) i e) as [Hn _].
  { pose proof (cr_entries _ _ _ _ Hrel1) as H. apply Forall2_app_inv in H as [_ H]; [|done].
    by apply Forall2_cons_1 in H as [H _]. }
  assert (filepath_to_cache_idx c1 !! f = Some i) as Hfi
    by (apply (cr_names _ _ _ _ Hrel1); split; [set_solver|done]).
  destruct (fetch_item_hit N c1 _ _ f k t i Hrel1 Hfi) as
    (oa & ob & la & e' & lb & c2 & Eo & El & Hlen & Ef & _ & _ & (it & Hv & Hb) & Hm & _).
  assert (e' = e) as ->.
  { assert (ob = []) as ->.
    { pose proof (cr_dup _ _ _ _ Hrel1) as Hd. destruct ob as [|j ob] using rev_ind; [done|].
      rewrite app_comm_cons, app_assoc in Eo. apply app_inj_tail in Eo as [Eo <-].
      rewrite Eo in Hd. apply NoDup_app in Hd as (_ & Hd & _). exfalso. apply (Hd i); set_solver. }
    apply app_inj_tail in Eo as [-> _]. assert (length la = length l0) as Hla by congruence.
    apply app_inj_1 in El as [_ El]; [|done]. congruence. }
  exists i, c2. split; [exact Ef|]. split; [unfold content; rewrite Hv; simpl; by rewrite Hb|].
  rewrite Hm. apply lookup_insert_eq.
Qed.

(** ** Reading the file *)

Section Reading.
Context {X : Type} `{!ServerType X, !TcpServer X, !TcpServerLaws X}.
Implicit Types (s : server_base X) (w : web_server).

(** The request after a piece, before it is submitted again. *)
Definition file_req (fd k n : Z) (headers got p : list char) : request :=
  rq_set_read_data (headers ++ (got ++ p) ++ replicate (Z.to_nat (n - len (got ++ p))) nul)
    (sq_req (file_sqe fd k n headers got)).

Lemma replicate_split_at (a b : nat) (x : char) :
  (a ≤ b)%nat → replicate b x = replicate a x ++ replicate (b - a) x.
Proof. intros H. rewrite <-replicate_add. f_equal. lia. Qed.

(** The kernel puts a piece behind the ones before it. *)
Lemma file_io mem fd k n headers got p s w :
  1 ≤ len p → len got + len p ≤ n →
  kernel_io (X:=X) (W:=web_server) mem (file_sqe fd k n headers got) (len p) p (s, w) =
    Ok (file_req fd k n headers got p, (s, w)).
Proof.
  intros Hp Hn. unfold kernel_io. rewrite (proj2 (Z.leb_gt (len p) 0)) by lia.
  cbn [sq_op file_sqe prep_read sq_req sq_buf_off rq_read_data].
  rewrite (replicate_split_at (length p) (Z.to_nat (n - len got))) by (unfold len in *; lia).
  rewrite (app_assoc headers), vsplice_app.
  - assert (Z.to_nat (n - len got) - length p = Z.to_nat (n - len (got ++ p)))%nat as ->
      by (rewrite len_app; unfold len in *; lia).
    unfold file_req. by rewrite <-!app_assoc.
  - by rewrite len_app.
  - by rewrite length_replicate.
Qed.

Lemma drop_last_request s q : delete (length (ring s)) (ring s ++ [q]) = ring s.
Proof. by rewrite delete_middle, app_nil_r. Qed.

Lemma set_ring_same s q : set_ring (ring s) (set_ring (ring s ++ [q]) s) = s.
Proof. by destruct s. Qed.

(** One piece arrives. *)
Lemma file_loop_step cb mem s w fd k n headers got p :
  1 ≤ len p → len got + len p ≤ n → len headers + n < 2 ^ 63 →
  ∀ e, cq_wait e = 0 → cq_pos e = length (ring s) → cq_res e = len p → cq_data e = p →
  loop_step (W:=web_server) cb mem e (set_ring (ring s ++ [file_sqe fd k n headers got]) s, w) =
  (if len got + len p =? n
   then call (ServerBase.custom_read_cb cb) (λ f, f k (to_i32 fd) (headers ++ got ++ p)) ≫= λ _, mret true
   else on_server (custom_read_req_continued (file_req fd k n headers got p) (len p)) ≫= λ _, mret true) (s, w).
Proof.
  intros Hp Hn Hmax e Ewait Epos Eres Edata.
  set (s1 := set_ring (ring s ++ [_]) s).
  rewrite (loop_step_take cb mem e s1 w (file_sqe fd k n headers got) Ewait) by
    (rewrite Epos; simpl; by rewrite lookup_app_r, Nat.sub_diag by lia).
  rewrite Epos, Eres, Edata. change (ring s1) with (ring s ++ [file_sqe fd k n headers got]).
  rewrite drop_last_request. unfold s1. rewrite set_ring_same.
  rewrite (M_bind_run _ _ _ _ _ (file_io mem fd k n headers got p s w Hp Hn)).
  unfold handle_event. change (rq_event (file_req fd k n headers got p)) with CUSTOM_READ.
  rewrite (M_bind_run _ _ (s, w) false (s, w)) by done. cbv iota. rewrite Eres.
  unfold handle_custom_read.
  change (rq_read_amount (file_req fd k n headers got p)) with (len headers + len got).
  change (rq_client_idx (file_req fd k n headers got p)) with k.
  change (rq_custom_info (file_req fd k n headers got p)) with fd.
  set (d := rq_read_data _). assert (len d = len headers + n) as Hd.
  { unfold d. simpl. unfold len in *. rewrite !length_app, length_replicate. lia. }
  pose proof (len_nonneg headers). pose proof (len_nonneg got). rewrite Hd, to_u64_small by lia.
  destruct (Z.eqb_spec (len got + len p) n) as [En|Hne].
  - rewrite (proj2 (Z.eqb_eq _ _)) by lia. do 2 f_equal. unfold d. simpl.
    rewrite len_app, En, Z.sub_diag. simpl. by rewrite app_nil_r.
  - rewrite (proj2 (Z.eqb_neq _ _)) by lia. do 2 f_equal. by rewrite to_u64_small by lia.
Qed.

(** The request is submitted again for the rest. *)
Lemma file_continue s fd k n headers got p :
  len got + len p ≤ n → len headers + n < 2 ^ 63 → 0 ≤ fd < 2 ^ 31 →
  custom_read_req_continued (file_req fd k n headers got p) (len p) s =
    Ok (tt, set_ring (ring s ++ [file_sqe fd k n headers (got ++ p)]) s).
Proof.
  intros Hn Hmax Hfd. unfold custom_read_req_continued, submit, mmodify. cbv zeta.
  do 3 f_equal. unfold file_sqe. cbv zeta. len_facts.
  assert (len (headers ++ (got ++ p) ++ replicate (Z.to_nat (n - len (got ++ p))) nul) = len headers + n) as Hl.
  { rewrite !len_app. unfold len. rewrite length_replicate. unfold len in *. lia. }
  unfold file_req, rq_set_read_amount, rq_set_read_data, prep_read, file_sqe. cbn. rewrite Hl, !len_app.
  rewrite to_i32_small, !to_u64_small by (rewrite ?to_u64_small; lia).
  by replace (len headers + len got + len p) with (len headers + (len got + len p)) by lia;
    replace (len headers + (len got + len p) - (len headers + n - n)) with (len got + len p) by lia.
Qed.

(** All pieces arrive: the callback gets the whole. *)
Lemma file_loop cb mem s w fd k n headers pieces : ∀ got,
  0 ≤ fd < 2 ^ 31 → len headers + n < 2 ^ 63 → Forall piece_ok pieces → pieces ≠ [] →
  len got + len (concat pieces) = n →
  loop (W:=web_server) cb mem (file_cqes (length (ring s)) pieces)
    (set_ring (ring s ++ [file_sqe fd k n headers got]) s, w) =
  (call (ServerBase.custom_read_cb cb) (λ f, f k fd (headers ++ got ++ concat pieces)) ≫= λ _, mret true) (s, w).
Proof.
  induction pieces as [|p pieces IH]; intros got Hfd Hmax Hps Hne Hlen; [done|].
  apply Forall_cons in Hps as [[Hp _] Hps]. simpl in Hlen. rewrite len_app in Hlen.
  pose proof (len_nonneg (concat pieces)). cbn [file_cqes fmap list_fmap loop].
  set (e := {| cq_wait := 0; cq_pos := _ |}).
  pose proof (file_loop_step cb mem s w fd k n headers got p Hp ltac:(lia) Hmax e eq_refl eq_refl eq_refl eq_refl) as E.
  destruct (decide (pieces = [])) as [->|Hne'].
  - simpl in Hlen. unfold mbind at 1, M_bind at 1. rewrite E. rewrite (proj2 (Z.eqb_eq _ _)) by len_lia.
    rewrite to_i32_small by lia. simpl. rewrite app_nil_r.
    destruct ((call _ _ ≫= _) (s, w)) as [[[] ?]|] eqn:Ec; [done| |done].
    apply M_bind_Ok in Ec as (? & ? & _ & [=]).
  - assert (0 < len (concat pieces)) as Hpos.
    { destruct pieces as [|q ps]; [done|]. apply Forall_cons in Hps as [[? _] _]. simpl. len_lia. }
    unfold mbind at 1, M_bind at 1. rewrite E. rewrite (proj2 (Z.eqb_neq _ _)) by lia.
    rewrite (M_bind_run _ _ (s, w) tt (set_ring (ring s ++ [file_sqe fd k n headers (got ++ p)]) s, w)).
    2: { unfold on_server. by rewrite file_continue by lia. }
    cbn. fold (file_cqes (length (ring s)) pieces). rewrite IH by (done || len_lia).
    simpl. by rewrite <-!app_assoc.
Qed.

End Reading.

(** ** Answering *)

Lemma cache_fetch_run k path w t r t' c :
  vget (tcp_clients w) k = Ok t → fetch_item path k t (web_cache w) = Ok (r, t', c) →
  cache_fetch path k w = Ok (r, set_tcp_clients (<[Z.to_nat k := t']> (tcp_clients w)) (set_web_cache c w)).
Proof.
  intros Hv Hf. unfold cache_fetch. rewrite (M_bind_run _ _ w w w) by done.
  rewrite (M_bind_run _ _ _ _ _ (get_tcp_client_run _ _ _ Hv)), Hf. simpl.
  rewrite (M_bind_run _ _ w (r, t', c) w) by done.
  rewrite (M_bind_run _ _ w tt (set_web_cache c w)) by done.
  by rewrite (M_bind_run _ _ _ _ _ (upd_tcp_client_run k (λ _, t') (set_web_cache c w) t Hv)).
Qed.

(** What [open], [fstat] and the content type give for a regular file. *)
Record file_opens (e : env) (w : web_server) (path : list char) (fd n : Z) (line : list char) : Prop := {
  fo_open : os_open e (sys_calls w) path = fd;
  fo_fd : 0 ≤ fd < 2 ^ 31;
  fo_stat : os_stat e (S (sys_calls w)) fd = Some {| st_kind := RegularFile; st_size := n |};
  fo_size : 0 ≤ n < 2 ^ 63;
  fo_type : get_content_type path = Ok line
}.

(** The web server after the file was opened and its size asked for. *)
Definition opened_file (fd : Z) (w : web_server) : web_server :=
  set_os (S (S (sys_calls w))) (open_fds w ++ [fd]) w.

(** The web server when client [k] waits for [path]. *)
Definition waiting (fd k : Z) (t : tcp_client) (path : list char) (w : web_server) : web_server :=
  set_tcp_clients (<[Z.to_nat k := tc_set_filepath path t]> (tcp_clients w)) (opened_file fd w).

Lemma header_buffer headers n :
  0 ≤ n → n + len headers < 2 ^ 63 →
  new_vector (to_u64 (n + len headers)) ≫= (λ b, vsplice b 0 headers) =
    Ok (headers ++ replicate (Z.to_nat n) nul).
Proof.
  intros Hn Hmax. len_facts. rewrite to_u64_small by lia. unfold new_vector.
  rewrite (proj2 (Z.ltb_ge (2 ^ 63 - 1) _)) by lia. step_ok.
  rewrite (replicate_split_at (length headers)) by (unfold len in *; lia).
  pose proof (vsplice_app [] (replicate (length headers) nul)
    (replicate (Z.to_nat (n + len headers) - length headers) nul) headers 0) as E.
  rewrite !app_nil_l in E. rewrite E; [|done|by rewrite length_replicate].
  do 3 f_equal. unfold len. lia.
Qed.

Section Sending.
Context {X : Type} `{!ServerType X, !TcpServer X, !TcpServerLaws X}.
Implicit Types (s : server_base X) (w : web_server).
Variable e : env.

Lemma file_request s fd n k headers :
  0 ≤ n → n + len headers < 2 ^ 63 →
  custom_read_req fd n k (headers ++ replicate (Z.to_nat n) nul) (len headers) s =
    Ok (tt, set_ring (ring s ++ [file_sqe fd k n headers []]) s).
Proof.
  intros Hn Hmax. len_facts. unfold custom_read_req, submit, mmodify. cbv zeta. do 4 f_equal.
  unfold file_sqe. cbn. rewrite !Z.add_0_r, Z.sub_0_r. do 3 f_equal. rewrite to_u64_small by lia.
  unfold vresize. rewrite take_ge.
  - rewrite length_app, length_replicate. replace (_ - _)%nat with 0%nat by (unfold len in *; lia).
    by rewrite app_nil_r.
  - rewrite length_app, length_replicate. unfold len in *. lia.
Qed.

(** The part of [send_file_request] before it looks into the cache. *)
Lemma send_file_open k path ab code s w fd n line :
  file_opens e w path fd n line →
  send_file_request e k path ab code (s, w) =
  (on_web (cache_fetch path k) ≫= λ cache_data,
   let headers := response_headers code ab (cf_found cache_data) line (to_string n) in
   on_web (mlift (new_vector (to_u64 (n + len headers)))) ≫= λ send_buffer,
   on_web (mlift (vsplice send_buffer 0 headers)) ≫= λ send_buffer,
   (if cf_found cache_data then
      on_tcp (tcp_write_ptr k (cache_ptr (cf_buff cache_data)) (cf_size cache_data))
    else
      on_web (upd_tcp_client k (tc_set_filepath path)) ≫= λ _,
      on_tcp (custom_read_req fd n k send_buffer (len headers))) ≫= λ _, mret true)
  (s, opened_file fd w).
Proof.
  intros [Ho Hfd Hst Hn Hty]. unfold send_file_request, opened_file.
  set (w1 := set_os (S (sys_calls w)) (open_fds w ++ [fd]) w).
  rewrite (on_web_bind _ _ _ _ fd w1).
  2: { unfold sys_open. rewrite (M_bind_run _ _ w w w), Ho by done. cbv zeta.
       by rewrite (proj2 (Z.ltb_ge fd 0)) by lia. }
  rewrite (proj2 (Z.ltb_ge fd 0)) by lia.
  set (w2 := set_os (S (S (sys_calls w))) (open_fds w ++ [fd]) w).
  rewrite (on_web_bind _ _ _ _ n w2).
  2: { unfold file_size. rewrite (M_bind_run _ _ w1 w1 w1) by done. rewrite (M_bind_run _ _ w1 tt w2) by done.
       change (sys_calls w1) with (S (sys_calls w)). rewrite Hst. unfold get_file_size. simpl.
       by rewrite to_u64_small by lia. }
  cbv zeta. by rewrite (on_web_bind _ _ _ _ line w2) by by rewrite Hty.
Qed.

(** Not cached: the file is read behind its headers. *)
Lemma send_file_miss k path ab code s w fd n line t N o l :
  file_opens e w path fd n line → cache_rel N (web_cache w) o l → tcp_server_set w = true →
  filepath_to_cache_idx (web_cache w) !! path = None → vget (tcp_clients w) k = Ok t →
  let headers := response_headers code ab false line (to_string n) in
  n + len headers < 2 ^ 63 →
  send_file_request e k path ab code (s, w) =
    Ok (true, (set_ring (ring s ++ [file_sqe fd k n headers []]) s, waiting fd k t path w)).
Proof.
  intros Hfo Hrel Hw Hf Hv headers Hmax. pose proof (fo_size _ _ _ _ _ _ Hfo) as Hn.
  rewrite (send_file_open _ _ _ _ _ _ _ _ _ Hfo). set (w2 := opened_file fd w).
  destruct (fetch_item_miss N (web_cache w) o l path k t Hrel Hf) as [Em _].
  rewrite (on_web_bind _ _ _ _ fetch_miss w2).
  2: { rewrite (cache_fetch_run k path w2 t _ _ _ Hv Em). do 2 f_equal.
       apply vget_lookup in Hv as [_ Hv]. change (tcp_clients w2) with (tcp_clients w).
       rewrite list_insert_id by done. by destruct w. }
  cbn [cf_found fetch_miss]. fold headers. cbv zeta.
  pose proof (header_buffer headers n ltac:(lia) Hmax) as Hb.
  destruct (new_vector (to_u64 (n + len headers))) as [b|] eqn:Eb; [|done]. simpl in Hb.
  rewrite (on_web_bind _ _ _ _ b w2) by done.
  rewrite (on_web_bind _ _ _ _ (headers ++ replicate (Z.to_nat n) nul) w2) by by rewrite Hb.
  rewrite (M_bind_run _ _ (s, w2) tt
    (set_ring (ring s ++ [file_sqe fd k n headers []]) s, waiting fd k t path w)); [done|].
  rewrite (on_web_bind _ _ _ _ _ _ (upd_tcp_client_run k (tc_set_filepath path) w2 t Hv)).
  apply on_tcp_run; [done|]. apply file_request; [lia|done].
Qed.

(** The whole file was read: what is written then, and the web server that is left. *)
Lemma file_read_calls k fd data s w t N o l path :
  IterOrder (env_iter e) → tcp_server_set w = true →
  vget (tcp_clients w) k = Ok t → last_requested_read_filepath t = path →
  cache_rel N (web_cache w) o l → filepath_to_cache_idx (web_cache w) !! path = None →
  fd ≠ inotify_fd (web_cache w) →
  ∃ w', tcp_server_set w' = true ∧ web_sockets w' = web_sockets w ∧ fd ∉ open_fds w' ∧
    ((∃ i, custom_read_cb e k fd data (s, w) = on_tcp (tcp_write_ptr k (PCacheItem i) (len data)) (s, w') ∧
        content (web_cache w') i = Ok data ∧ vget (tcp_clients w') k = Ok (set_using_file true t) ∧
        client_idx_to_cache_idx (web_cache w') !! k = Some i) ∨
     (custom_read_cb e k fd data (s, w) = on_tcp (tcp_write k data) (s, w') ∧ vget (tcp_clients w') k = Ok t)).
Proof.
  intros Hiter Hw Hv Hpath Hrel Hf Hfd. unfold custom_read_cb.
  rewrite (on_web_bind _ _ _ _ w w) by done. rewrite (proj2 (Z.eqb_neq _ _) Hfd).
  set (w1 := set_os (S (sys_calls w)) (filter (λ fd', fd' ≠ fd) (open_fds w)) w).
  rewrite (on_web_bind _ _ _ _ tt w1) by done.
  rewrite (on_web_bind _ _ _ _ t w1) by by apply get_tcp_client_run. cbv zeta. rewrite Hpath.
  set (w2 := set_os (S (sys_calls w1)) (open_fds w1) w1).
  destruct (insert_fetch_run (env_iter e) N (web_cache w) o l (os_watch e (sys_calls w1) path) k path data t
    Hrel Hf) as (b & c1 & E & Hfalse & Htrue).
  assert (fd ∉ filter (λ fd', fd' ≠ fd) (open_fds w)) as Hclosed
    by (intros Hin; apply list_elem_of_filter in Hin as [? _]; congruence).
  rewrite (on_web_bind _ _ _ _ b (set_web_cache c1 w2)).
  2: { rewrite (M_bind_run _ _ w1 w1 w1) by done. rewrite (M_bind_run _ _ w1 tt w2) by done.
       rewrite (M_bind_run _ _ w2 (b, c1) w2); [done|].
       change (web_cache w1) with (web_cache w). by rewrite E. }
  destruct b; [|by exists (set_web_cache c1 w2); split_and!; [..|by right]].
  destruct (Htrue eq_refl) as (i & c2 & Ef & Hc & Hmap). set (w3 := set_web_cache c1 w2) in *.
  rewrite (on_web_bind _ _ _ _ _ _ (cache_fetch_run k path w3 t _ _ c2 Hv Ef)).
  set (w4 := set_tcp_clients _ (set_web_cache c2 w3)). exists w4. split_and!; [exact Hw|done|exact Hclosed|].
  left. exists i. split_and!; [done|exact Hc| |exact Hmap].
  apply vget_insert_eq. by eapply vget_range.
Qed.

Lemma file_read_run k fd data s w t N o l path :
  IterOrder (env_iter e) → tcp_inv s → tcp_server_set w = true → k ∈ active_connections s →
  vget (tcp_clients w) k = Ok t → last_requested_read_filepath t = path →
  cache_rel N (web_cache w) o l → filepath_to_cache_idx (web_cache w) !! path = None →
  fd ≠ inotify_fd (web_cache w) →
  ∃ s' w' m, custom_read_cb e k fd data (s, w) = Ok (tt, (s', w')) ∧ tcp_inv s' ∧ sent_to k [m] s s' ∧
    (∀ store, msg_text store w' m = Ok data) ∧ fd ∉ open_fds w'.
Proof.
  intros Hiter Hs Hw Hk Hv Hpath Hrel Hf Hfd.
  destruct (file_read_calls k fd data s w t N o l path Hiter Hw Hv Hpath Hrel Hf Hfd)
    as (w' & Hw' & _ & Hcl & [(i & -> & Hc & _ & _)|[-> _]]).
  - destruct (law_write_ptr s k (PCacheItem i) (len data) Hs Hk) as (s' & E' & Hs' & Hq); [done|].
    exists s', w', (QPtr (PCacheItem i) (len data) (-1)).
    split_and!; [by apply on_tcp_run|done|by apply sent_to_one| |done].
    intros store. simpl. fold (content (web_cache w') i). rewrite Hc. cbn. do 2 f_equal.
    rewrite take_ge; [done|]. unfold len. lia.
  - destruct (law_write s k data Hs Hk) as (s' & E' & Hs' & Hq).
    exists s', w', (QBytes data). split_and!; [by apply on_tcp_run|done|by apply sent_to_one|done|done].
Qed.

(** Cached: the response in the cache is sent. *)
Lemma send_file_hit k path ab code s w fd n line t N o l i :
  file_opens e w path fd n line → cache_rel N (web_cache w) o l → tcp_server_set w = true →
  filepath_to_cache_idx (web_cache w) !! path = Some i → vget (tcp_clients w) k = Ok t →
  tcp_inv s → k ∈ active_connections s →
  n + len (response_headers code ab true line (to_string n)) < 2 ^ 63 →
  ∃ s' w' m b, send_file_request e k path ab code (s, w) = Ok (true, (s', w')) ∧ tcp_inv s' ∧
    sent_to k [m] s s' ∧ content (web_cache w) i = Ok b ∧ (∀ store, msg_text store w' m = Ok b) ∧
    open_fds w' = open_fds w ++ [fd] ∧
    vget (tcp_clients w') k = Ok (set_using_file true t).
Proof.
  intros Hfo Hrel Hw Hf Hv Hs Hk Hmax. pose proof (fo_size _ _ _ _ _ _ Hfo) as Hn.
  rewrite (send_file_open _ _ _ _ _ _ _ _ _ Hfo). set (w2 := opened_file fd w).
  destruct (fetch_item_hit N (web_cache w) o l path k t i Hrel Hf) as
    (oa & ob & la & en & lb & c2 & -> & -> & Hlen & Ef & _ & _ & (it & Hit & Hb) & _).
  pose proof (entry_content _ _ _ _ _ _ _ _ Hrel Hlen) as Hc.
  rewrite (on_web_bind _ _ _ _ _ _ (cache_fetch_run k path w2 t _ _ c2 Hv Ef)).
  set (w3 := set_tcp_clients _ (set_web_cache c2 w2)). cbn [cf_found cf_buff cf_size cache_ptr]. cbv zeta.
  set (headers := response_headers code ab true line (to_string n)) in *.
  pose proof (header_buffer headers n ltac:(lia) Hmax) as Hbuf.
  destruct (new_vector (to_u64 (n + len headers))) as [v|] eqn:Ev; [|done]. simpl in Hbuf.
  rewrite (on_web_bind _ _ _ _ v w3) by done.
  rewrite (on_web_bind _ _ _ _ (headers ++ replicate (Z.to_nat n) nul) w3) by by rewrite Hbuf.
  destruct (law_write_ptr s k (PCacheItem i) (len (le_data en)) Hs Hk) as (s' & E' & Hs' & Hq); [done|].
  exists s', w3, (QPtr (PCacheItem i) (len (le_data en)) (-1)), (le_data en).
  split_and!; [|done|by apply sent_to_one|done| |done|].
  - by rewrite (on_tcp_bind _ _ s w3 tt s' Hw E').
  - intros store. simpl. rewrite Hit. cbn. rewrite Hb. do 2 f_equal. rewrite take_ge; [done|]. unfold len. lia.
  - apply vget_insert_eq. by eapply vget_range.
Qed.

End Sending.

(** ** Requests *)

(** The header lines in order. *)
Fixpoint read_lines (lines : list (list char)) (info : request_info) : result request_info :=
  match lines with
  | [] => Ok info
  | line :: lines => read_header info line ≫= read_lines lines
  end.

Lemma read_headers_lines text rest fuel info :
  nul ∉ text → (length text < fuel)%nat →
  read_headers fuel (text ++ nul :: rest) info = read_lines (fields crlf text) info.
Proof.
  revert text info. induction fuel as [|fuel IH]; intros text info Hn Hf; [lia|]. simpl.
  destruct (strtok_r_fields crlf text rest Hn) as [[-> [m ->]]|(t & s' & -> & _ & Hn' & Hl & ->)]; [done|].
  step_ok. simpl. destruct (read_header info t); [|done]. step_ok. apply IH; [done|lia].
Qed.

(** Without a websocket key the lines are collected and a range is noticed. *)
Lemma read_lines_plain lines : ∀ info,
  Forall (λ l, contains (lit "Sec-WebSocket-Key") l = false) lines →
  read_lines lines info =
    Ok {| ri_headers := ri_headers info ++ lines;
          ri_accept_bytes := ri_accept_bytes info || existsb (contains (lit "Range: bytes=")) lines;
          ri_sec_websocket_key := ri_sec_websocket_key info |}.
Proof.
  induction lines as [|l lines IH]; intros info Hl; simpl.
  - rewrite app_nil_r, orb_false_r. by destruct info.
  - apply Forall_cons in Hl as [Hl Hls]. unfold read_header. rewrite Hl. simpl. rewrite IH by done.
    simpl. by rewrite <-app_assoc, orb_assoc.
Qed.

Definition slash : char := cchar 47.

Lemma lit_space : lit " " = [space].
Proof. by vm_compute. Qed.

Lemma request_line_get (path tail : list char) :
  nul ∉ path → space ∉ path → request_line (lit "GET /" ++ path ++ space :: tail) = Ok (true, path).
Proof.
  intros Hn Hsp. unfold request_line, c_str. rewrite lit_space.
  assert ((lit "GET /" ++ path ++ space :: tail) ++ [nul] =
    (lit "GET") ++ space :: ((slash :: path) ++ space :: (tail ++ [nul]))) as ->.
  { change (lit "GET /") with (lit "GET" ++ [space; slash]). by rewrite <-!app_assoc. }
  assert (Forall (λ c, c ∉ [space]) (lit "GET")) as Hget.
  { apply (bool_decide_unpack _). vm_compute. exact I. }
  change (lit "GET") with (cchar 71 :: [cchar 69; cchar 84]) in *.
  rewrite strtok_r_token; [|by apply (bool_decide_unpack _)|done|set_solver|done]. step_ok.
  rewrite strtok_r_token; [step_ok| | |set_solver|done].
  - done.
  - intros [H|H]%elem_of_cons; [by vm_compute in H|done].
  - constructor; [intros H%list_elem_of_singleton; by vm_compute in H|]. apply Forall_forall.
    intros c Hc ->%list_elem_of_singleton. done.
Qed.

(** The text of a GET request: its path has no space, and no line break or NUL is
    in its first line. *)
Record get_text (path tail more text : list char) : Prop := {
  gt_text : text = (lit "GET /" ++ path ++ space :: tail) ++ crlf ++ more;
  gt_nul : nul ∉ text;
  gt_path : space ∉ path;
  gt_line : Forall (λ c, c ∉ crlf) (path ++ tail);
  gt_plain : Forall (λ l, contains (lit "Sec-WebSocket-Key") l = false)
    ((lit "GET /" ++ path ++ space :: tail) :: fields crlf more)
}.

(** The file a path names, and whether a range is asked for. *)
Definition public_path (path : list char) : list char :=
  if decide (path = []) then lit "public/index.html" else lit "public/" ++ path.

Definition wants_bytes (path tail more : list char) : bool :=
  existsb (contains (lit "Range: bytes="))
    ((lit "GET /" ++ path ++ space :: tail) :: fields crlf more).

Lemma get_text_fields path tail more text :
  get_text path tail more text →
  fields crlf text = (lit "GET /" ++ path ++ space :: tail) :: fields crlf more.
Proof.
  intros [-> _ _ Hl _].
  assert (Forall (λ c, c ∉ crlf) (lit "GET /" ++ path ++ space :: tail)) as Hline.
  { apply Forall_app in Hl as [Hp Ht].
    apply Forall_app_2; [apply (bool_decide_unpack _); vm_compute; exact I|].
    apply Forall_app_2; [done|]. constructor; [|done]. apply (bool_decide_unpack _). vm_compute. exact I. }
  change (lit "GET /") with (cchar 71 :: lit "ET /") in *.
  change (crlf ++ more) with (cchar 13 :: cchar 10 :: more).
  rewrite <-app_comm_cons in *. rewrite fields_token by (done || set_solver). done.
Qed.

Section Requests.
Context {X : Type} `{!ServerType X, !TcpServer X, !TcpServerLaws X}.
Implicit Types (s : server_base X) (w : web_server).
Variable e : env.

(** A path is no websocket request when there was no key. *)
Lemma get_process_file k path ab s w :
  nul ∉ path →
  get_process e path ab [] k (s, w) = send_file_request e k (public_path path) ab 200 (s, w).
Proof.
  intros Hn. unfold get_process, public_path.
  assert (∃ r, strtok_r (lit "/") (c_str path) = Ok r) as [r Er].
  { unfold c_str. destruct (strtok_r_fields (lit "/") path [] Hn) as [[_ [m ->]]|(t & s' & _ & _ & _ & _ & ->)];
      by eexists. }
  rewrite (on_web_bind _ _ _ _ r w) by by rewrite Er.
  rewrite (bool_decide_true ([] = [])) by done. rewrite andb_false_r. cbv zeta.
  destruct (decide (path = [])) as [->|Hne]; [done|]. by rewrite bool_decide_false.
Qed.

(** A buffer is taken for a request when it starts with a method. *)
Lemma read_cb_request k buff n s w :
  16 ≤ n ≤ len buff → n < 2 ^ 31 → lit "GET " `prefix_of` buff →
  read_cb e k buff n (s, w) = read_request e k buff (s, w).
Proof.
  intros Hl Hmax Hp. unfold read_cb. rewrite (on_web_bind _ _ _ _ true w); [done|].
  apply mlift_Ok. split; [|done]. rewrite to_i32_small by lia. unfold is_valid_http_req.
  rewrite (proj2 (Z.ltb_ge n 16)) by lia.
  destruct (check_types_prefix buff) as (v & -> & Hv); [lia|].
  step_ok. enough (v =? 0 = false) as -> by done. apply Z.eqb_neq, Hv. apply Exists_exists.
  exists (lit "GET "). split; [unfold request_types; set_solver|done].
Qed.

(** What [read_cb] does with a GET request. *)
Lemma read_get_run k path tail more text rest s w :
  get_text path tail more text → 16 ≤ len text < 2 ^ 31 →
  read_cb e k (text ++ nul :: rest) (len text) (s, w) =
  (send_file_request e k (public_path path) (wants_bytes path tail more) 200 ≫= λ processed : bool,
   if negb processed then
     send_file_request e k (lit "public/404.html") false 400 ≫= λ _, mret tt
   else
     on_web mget ≫= λ w,
     mwhen (bool_decide (k ∈ active_websocket_connections_client_idxs (web_sockets w)))
       (on_tcp (read_connection k))) (s, w).
Proof.
  intros Hg Hl. pose proof (get_text_fields _ _ _ _ Hg) as Hfields. pose proof Hg as [Htext Hn Hsp _ Hplain].
  assert (nul ∉ path) as Hnp by (intros Hin; apply Hn; rewrite Htext; set_solver).
  rewrite read_cb_request; [|len_lia|lia|].
  2: { rewrite Htext. exists (slash :: path ++ space :: tail ++ crlf ++ more ++ nul :: rest).
       change (lit "GET /") with (lit "GET " ++ [slash]). rewrite <-!app_assoc.
       simpl. by rewrite <-?app_assoc. }
  unfold read_request. rewrite (on_web_bind _ _ _ _ {| ri_headers := fields crlf text;
    ri_accept_bytes := wants_bytes path tail more; ri_sec_websocket_key := [] |} w).
  2: { apply mlift_Ok. split; [|done]. rewrite read_headers_lines by (done || (rewrite length_app; simpl; lia)).
       rewrite Hfields, read_lines_plain by done. done. }
  cbn [ri_headers ri_accept_bytes ri_sec_websocket_key].
  rewrite (on_web_bind _ _ _ _ (true, path) w).
  2: { apply mlift_Ok. split; [|done]. rewrite Hfields. rewrite vget_cons_0. step_ok.
       by apply request_line_get. }
  cbv beta iota. unfold mbind at 1 3, M_bind at 1 3. by rewrite get_process_file.
Qed.

End Requests.

(** ** Faults *)

Lemma send_file_directory {X} `{!ServerType X, !TcpServer X} e k path ab code (s : server_base X) w fd line t r t' c :
  os_open e (sys_calls w) path = fd → 0 ≤ fd →
  os_stat e (S (sys_calls w)) fd = Some {| st_kind := OtherFile; st_size := 0 |} →
  get_content_type path = Ok line → vget (tcp_clients w) k = Ok t →
  fetch_item path k t (web_cache w) = Ok (r, t', c) →
  (∀ found, len (response_headers code ab found line (to_string (to_u64 (-1)))) < 2 ^ 63) →
  send_file_request e k path ab code (s, w) = Err OutOfBounds.
Proof.
  intros Ho Hfd Hst Hty Hv Hf Hmax. unfold send_file_request.
  set (w1 := set_os (S (sys_calls w)) (open_fds w ++ [fd]) w).
  rewrite (on_web_bind _ _ _ _ fd w1).
  2: { unfold sys_open. rewrite (M_bind_run _ _ w w w), Ho by done. cbv zeta.
       by rewrite (proj2 (Z.ltb_ge fd 0)). }
  rewrite (proj2 (Z.ltb_ge fd 0)) by done.
  set (w2 := opened_file fd w). rewrite (on_web_bind _ _ _ _ (to_u64 (-1)) w2).
  2: { unfold file_size. rewrite (M_bind_run _ _ w1 w1 w1) by done. rewrite (M_bind_run _ _ w1 tt w2) by done.
       change (sys_calls w1) with (S (sys_calls w)). rewrite Hst. done. }
  cbv zeta. rewrite (on_web_bind _ _ _ _ line w2) by by rewrite Hty.
  rewrite (on_web_bind _ _ _ _ _ _ (cache_fetch_run k path w2 t r t' c Hv Hf)).
  set (w3 := set_tcp_clients _ _). set (headers := response_headers _ _ _ _ _).
  assert (1 ≤ len headers < 2 ^ 63) as Hh.
  { split; [|apply Hmax]. unfold headers, response_headers. rewrite !len_app.
    assert (len crlf = 2) as -> by done. len_facts. lia. }
  assert (to_u64 (to_u64 (-1) + len headers) = len headers - 1) as ->.
  { change (to_u64 (-1)) with (2 ^ 64 - 1). unfold to_u64.
    replace (2 ^ 64 - 1 + len headers) with (len headers - 1 + 1 * 2 ^ 64) by lia.
    rewrite Z_mod_plus_full. apply Z.mod_small. lia. }
  rewrite (on_web_bind _ _ _ _ (replicate (Z.to_nat (len headers - 1)) nul) w3).
  2: { unfold new_vector. by rewrite (proj2 (Z.ltb_ge (2 ^ 63 - 1) _)) by lia. }
  unfold mbind, M_bind, on_web, mlift, vsplice. rewrite decide_False; [done|].
  unfold len at 2. rewrite length_replicate. lia.
Qed.

(** The content type lines there are. *)
Definition type_lines : list (list char) :=
  (lit "Content-Type: application/octet-stream" ++ crlf) :: ((λ p, p.2 ++ crlf) <$> content_types).

Lemma content_type_line ext : content_type_of ext content_types ∈ type_lines.
Proof.
  unfold type_lines. generalize content_types. intros l.
  induction l as [|[exts line] l IH]; cbn [content_type_of fmap list_fmap]; [set_solver|].
  destruct (decide (ext ∈ exts)); [set_solver|]. set_solver.
Qed.

(** Headers are short, even for the size of a directory. *)
Lemma directory_headers code ab found ext :
  len (response_headers code ab found (content_type_of ext content_types) (to_string (to_u64 (-1)))) < 2 ^ 63.
Proof.
  assert (Forall (λ line, ∀ b1 b2 b3 : bool,
    len (response_headers (if b1 then 200 else 0) b2 b3 line (to_string (to_u64 (-1)))) < 2 ^ 63) type_lines) as H.
  { unfold type_lines, content_types. cbn [fmap list_fmap].
    repeat (apply Forall_cons; split); [intros [] [] []; vm_compute; reflexivity..|constructor]. }
  rewrite Forall_forall in H. specialize (H _ (content_type_line ext) (code =? 200) ab found).
  unfold response_headers, header_first_line in *. by destruct (code =? 200).
Qed.

Lemma read_headers_no_nul fuel mem info : nul ∉ mem → ∃ f, read_headers fuel mem info = Err f.
Proof.
  revert mem info. induction fuel as [|fuel IH]; intros mem info Hn; [by eexists|]. simpl.
  destruct (split_delims crlf mem) as (ds & s1 & -> & Hds & Hs1).
  rewrite strtok_r_skips by (done || set_solver). destruct s1 as [|c s1]; [by eexists|].
  destruct (split_token crlf s1) as (t & r & -> & Ht & Hr).
  assert (Forall (λ c, c ∉ crlf) (c :: t)) as Hct by by constructor. destruct r as [|d r].
  - rewrite app_nil_r in *. rewrite strtok_r_none by (done || set_solver). by eexists.
  - change (c :: t ++ d :: r) with ((c :: t) ++ d :: r).
    rewrite strtok_r_token by (done || set_solver). step_ok. simpl.
    destruct (read_header info (c :: t)) as [info'|f]; [|by eexists]. simpl. apply IH. set_solver.
Qed.

(** Requests that fault. *)
Section Malformed.
Context {X : Type} `{!ServerType X, !TcpServer X}.
Variable e : env.
Implicit Types (s : server_base X) (w : web_server).

Lemma read_request_headers k buff f s w :
  read_headers (S (length buff)) buff no_info = Err f → read_request e k buff (s, w) = Err f.
Proof. intros H. unfold read_request, mbind at 1, M_bind at 1, on_web at 1. by rewrite H. Qed.

Lemma pathless_request k more rest s w :
  nul ∉ more → Forall (λ l, contains (lit "Sec-WebSocket-Key") l = false) (fields crlf more) →
  10 ≤ len more < 2 ^ 30 →
  read_cb e k ((lit "GET " ++ crlf ++ more) ++ nul :: rest) (len (lit "GET " ++ crlf ++ more)) (s, w) =
    Err NullDeref.
Proof.
  intros Hn Hplain Hl. assert (len (lit "GET " ++ crlf ++ more) = 6 + len more) as Hlen.
  { rewrite !len_app, Z.add_assoc. done. }
  rewrite read_cb_request; [|rewrite (len_app _ (nul :: rest)), Hlen; len_facts; lia|lia|by rewrite <-app_assoc; eexists].
  assert (fields crlf (lit "GET " ++ crlf ++ more) = lit "GET " :: fields crlf more) as Hf.
  { change (lit "GET ") with (cchar 71 :: lit "ET "). change (crlf ++ more) with (cchar 13 :: cchar 10 :: more).
    rewrite fields_token; [done| |set_solver]. apply (bool_decide_unpack _). vm_compute. exact I. }
  unfold read_request. erewrite on_web_bind.
  2: { apply mlift_Ok. split; [|done]. rewrite read_headers_lines.
       - rewrite Hf, read_lines_plain; [done|]. constructor; [by vm_compute|done].
       - rewrite !elem_of_app. intros [H|[H|H]]; [..|done]; revert H;
           apply (bool_decide_unpack _); vm_compute; exact I.
       - rewrite (length_app _ (nul :: rest)). simpl. lia. }
  unfold mbind at 1, M_bind at 1, on_web at 1. cbn [ri_headers no_info app]. rewrite vget_cons_0. step_ok.
  assert (request_line (lit "GET ") = Err NullDeref) as -> by by vm_compute. done.
Qed.

Lemma short_key_request k short more rest s w :
  nul ∉ short → nul ∉ more → Forall (λ c, c ∉ crlf) short → len short < 19 →
  contains (lit "Sec-WebSocket-Key") short = true → len more < 2 ^ 30 →
  let text := lit "GET / HTTP/1.1" ++ crlf ++ short ++ crlf ++ more in
  read_cb e k (text ++ nul :: rest) (len text) (s, w) = Err (Uncaught (lit "std::out_of_range")).
Proof.
  intros Hns Hnm Hc Hl Hkey Hm text.
  assert (len text = 18 + len short + len more) as Hlen.
  { unfold text. rewrite !len_app. assert (len (lit "GET / HTTP/1.1") = 14) as -> by done.
    assert (len crlf = 2) as -> by done. lia. }
  rewrite read_cb_request; [|rewrite (len_app _ (nul :: rest)), Hlen; len_facts; lia|rewrite Hlen; len_facts; lia|].
  2: { exists (lit "/ HTTP/1.1" ++ crlf ++ short ++ crlf ++ more ++ nul :: rest). unfold text.
       change (lit "GET / HTTP/1.1") with (lit "GET " ++ lit "/ HTTP/1.1"). by rewrite <-!app_assoc. }
  apply read_request_headers. rewrite read_headers_lines.
  - assert (fields crlf text = lit "GET / HTTP/1.1" :: short :: fields crlf (cchar 10 :: more)) as ->.
    { unfold text. change (lit "GET / HTTP/1.1") with (cchar 71 :: lit "ET / HTTP/1.1").
      change (crlf ++ short ++ crlf ++ more) with (cchar 13 :: [cchar 10] ++ short ++ crlf ++ more).
      rewrite fields_token; [|apply (bool_decide_unpack _); vm_compute; exact I|set_solver].
      f_equal. rewrite (fields_skips crlf [cchar 10]);
        [|by apply Forall_singleton; set_solver].
      destruct short as [|c short]; [by vm_compute in Hkey|].
      change (crlf ++ more) with (cchar 13 :: cchar 10 :: more). by rewrite fields_token by (done || set_solver). }
    cbn [read_lines]. set (k1 := read_lines (fields crlf (cchar 10 :: more))).
    assert (∃ info, read_header no_info (lit "GET / HTTP/1.1") = Ok info) as [info ->]
      by (eexists; vm_compute; reflexivity).
    step_ok. unfold read_header. rewrite Hkey. unfold substr.
    change (len (lit "Sec-WebSocket-Key: ")) with 19. by rewrite (proj2 (Z.ltb_lt _ _)).
  - unfold text. rewrite !elem_of_app. intros [H|[H|[H|[H|H]]]]; [| |done| |done]; revert H;
      apply (bool_decide_unpack _); vm_compute; exact I.
  - rewrite (length_app _ (nul :: rest)). simpl. lia.
Qed.

Lemma unterminated_request k more s w :
  nul ∉ more → 12 ≤ len more < 2 ^ 30 →
  ∃ f, read_cb e k (lit "GET " ++ more) (len (lit "GET " ++ more)) (s, w) = Err f.
Proof.
  intros Hn Hl. assert (len (lit "GET " ++ more) = 4 + len more) as Hlen by (rewrite len_app; done).
  rewrite read_cb_request by (lia || by eexists).
  destruct (read_headers_no_nul (S (length (lit "GET " ++ more))) (lit "GET " ++ more) no_info) as [f Hf].
  - rewrite elem_of_app. intros [H|?]; [|done]. revert H. apply (bool_decide_unpack _). vm_compute. exact I.
  - exists f. by apply read_request_headers.
Qed.
End Malformed.

(** * Properties *)

(** C9: a GET request is served: for a request text with any headers that ask for no
    websocket, whatever the path, the named file that exists and is not
    cached is read in as many pieces of any size as the kernel delivers, and
    one message is queued for that connection and none other: the 200 headers
    with the file's length and type followed by the whole file, whether or not the
    cache took it; the file's descriptor is closed. *)
Theorem get_request_served {X} `{!ServerType X, !TcpServer X, !TcpServerLaws X} e store k path tail more text
    rest pieces (s : server_base X) w fd line t N o l :
  IterOrder (env_iter e) → get_text path tail more text → 16 ≤ len text < 2 ^ 31 →
  tcp_inv s → tcp_server_set w = true → k ∈ active_connections s →
  k ∉ active_websocket_connections_client_idxs (web_sockets w) →
  vget (tcp_clients w) k = Ok t → cache_rel N (web_cache w) o l →
  filepath_to_cache_idx (web_cache w) !! public_path path = None →
  let n := len (concat pieces) in
  let headers := response_headers 200 (wants_bytes path tail more) false line (to_string n) in
  file_opens e w (public_path path) fd n line → fd ≠ inotify_fd (web_cache w) →
  pieces ≠ [] → Forall piece_ok pieces → n + len headers < 2 ^ 63 →
  ∃ s1 w1 s2 w2 m, read_cb e k (text ++ nul :: rest) (len text) (s, w) = Ok (tt, (s1, w1)) ∧
    loop (web_callbacks e) (web_mem store) (file_cqes (length (ring s)) pieces) (s1, w1) = Ok (true, (s2, w2)) ∧
    tcp_inv s2 ∧ sent_to k [m] s s2 ∧ msg_text store w2 m = Ok (headers ++ concat pieces) ∧
    fd ∉ open_fds w2.
Proof.
  intros Hiter Hg Hlen Hs Hw Hk Hws Hv Hrel Hf n headers Hfo Hfd Hne Hps Hmax.
  set (w1 := waiting fd k t (public_path path) w).
  set (s1 := set_ring (ring s ++ [file_sqe fd k n headers []]) s).
  assert (vget (tcp_clients w1) k = Ok (tc_set_filepath (public_path path) t)) as Hv1.
  { apply vget_insert_eq. by eapply vget_range. }
  destruct (file_read_run e k fd (headers ++ concat pieces) s w1 _ N o l (public_path path) Hiter Hs Hw Hk Hv1
    eq_refl Hrel Hf Hfd) as (s2 & w2 & m & E2 & Hs2 & Hsent & Hm & Hcl).
  exists s1, w1, s2, w2, m. split_and!; [| |done|done|done|done].
  - rewrite (read_get_run e k path tail more text rest s w Hg Hlen).
    rewrite (M_bind_run _ _ _ _ _ (send_file_miss e k (public_path path) (wants_bytes path tail more) 200 s w
      fd n line t N o l Hfo Hrel Hw Hf Hv Hmax)).
    simpl. fold headers n s1 w1. rewrite (on_web_bind _ _ _ _ w1 w1) by done.
    by rewrite bool_decide_false by done.
  - unfold s1. rewrite file_loop; [|apply Hfo|lia|done|done|done].
    cbn [web_callbacks ServerBase.custom_read_cb call]. rewrite app_nil_l.
    by rewrite (M_bind_run _ _ _ _ _ E2).
Qed.

Definition demo_text : list char :=
  lit "GET /a.txt HTTP/1.1" ++ crlf ++ lit "Host: localhost" ++ crlf ++ crlf.

Lemma demo_get_text :
  get_text (lit "a.txt") (lit "HTTP/1.1") (lit "Host: localhost" ++ crlf ++ crlf) demo_text.
Proof.
  split; [reflexivity|apply (bool_decide_unpack _); vm_compute; exact I..|].
  apply Forall_forall. intros l Hl.
  assert (Forall (λ l, contains (lit "Sec-WebSocket-Key") l = false)
    ((lit "GET /" ++ lit "a.txt" ++ space :: lit "HTTP/1.1") ::
     fields crlf (lit "Host: localhost" ++ crlf ++ crlf))) as H.
  { apply (bool_decide_unpack _). vm_compute. exact I. }
  rewrite Forall_forall in H. by apply H.
Qed.

Lemma demo_cache_rel : cache_rel 5 (web_cache demo_web0) [] [].
Proof. apply (new_cache_rel 5 4). simpl. lia. Qed.

Lemma demo_opens path line :
  get_content_type path = Ok line → file_opens demo_env demo_web0 path 20 3 line.
Proof. intros H. split; [reflexivity|lia|reflexivity|lia|exact H]. Qed.

Lemma get_request_served_witness :
  ∃ s1 w1 s2 w2 m, read_cb demo_env 0 (demo_text ++ [nul]) (len demo_text) (two_conns, demo_web0) =
      Ok (tt, (s1, w1)) ∧
    loop (web_callbacks demo_env) (web_mem (λ _, Err NullDeref)) (file_cqes 0 [lit "ab"; lit "c"]) (s1, w1) =
      Ok (true, (s2, w2)) ∧
    tcp_queue s2 0 = [m] ∧
    msg_text (λ _, Err NullDeref) w2 m =
      Ok (response_headers 200 false false (lit "Content-Type: text/plain" ++ crlf) (lit "3") ++ lit "abc").
Proof.
  assert (get_content_type (lit "public/a.txt") = Ok (lit "Content-Type: text/plain" ++ crlf)) as Hty
    by (vm_compute; reflexivity).
  destruct (get_request_served demo_env (λ _, Err NullDeref) 0 (lit "a.txt") (lit "HTTP/1.1")
    (lit "Host: localhost" ++ crlf ++ crlf) demo_text [] [lit "ab"; lit "c"] two_conns demo_web0 20
    (lit "Content-Type: text/plain" ++ crlf) new_tcp_client_data 5 [] [])
    as (s1 & w1 & s2 & w2 & m & E1 & E2 & _ & [_ Hq] & Hm & _).
  - exact iter_elements.
  - exact demo_get_text.
  - vm_compute. split; [discriminate|reflexivity].
  - exact two_conns_inv.
  - reflexivity.
  - apply (bool_decide_unpack _). vm_compute. exact I.
  - apply (bool_decide_unpack _). vm_compute. exact I.
  - reflexivity.
  - exact demo_cache_rel.
  - reflexivity.
  - exact (demo_opens _ _ Hty).
  - discriminate.
  - discriminate.
  - repeat (apply Forall_cons; split); [vm_compute; split; discriminate..|constructor].
  - vm_compute. reflexivity.
  - exists s1, w1, s2, w2, m. split_and!; [exact E1|exact E2| |exact Hm].
    rewrite Hq. reflexivity.
Defined.

(** Every request that is answered from the cache loses a descriptor: the file
    is opened before the cache is asked and not closed when it has the
    response, so each hit leaves one more descriptor open. *)
Theorem cached_hit_leaks_descriptor {X} `{!ServerType X, !TcpServer X, !TcpServerLaws X} e k path ab code
    (s : server_base X) w fd n line t N o l i :
  file_opens e w path fd n line → cache_rel N (web_cache w) o l → tcp_server_set w = true →
  filepath_to_cache_idx (web_cache w) !! path = Some i → vget (tcp_clients w) k = Ok t →
  tcp_inv s → k ∈ active_connections s →
  n + len (response_headers code ab true line (to_string n)) < 2 ^ 63 →
  ∃ s' w' m b, send_file_request e k path ab code (s, w) = Ok (true, (s', w')) ∧
    sent_to k [m] s s' ∧ content (web_cache w) i = Ok b ∧ (∀ store, msg_text store w' m = Ok b) ∧
    open_fds w' = open_fds w ++ [fd].
Proof.
  intros Hfo Hrel Hw Hf Hv Hs Hk Hmax.
  destruct (send_file_hit e k path ab code s w fd n line t N o l i Hfo Hrel Hw Hf Hv Hs Hk Hmax)
    as (s' & w' & m & b & E & _ & Hsent & Hb & Hm & Hfds & _). eauto 10.
Qed.

(** The cache after the file above was read. *)
Definition demo_hit : web_server :=
  match try_insert_item elements 40 0 (lit "public/a.txt") (lit "abc") (web_cache demo_web0) with
  | Ok (_, c) => set_web_cache c demo_web0
  | Err _ => demo_web0
  end.

Lemma demo_hit_rel : ∃ o l, cache_rel 5 (web_cache demo_hit) o l.
Proof.
  destruct (try_insert_run elements 5 (web_cache demo_web0) [] [] 40 0 (lit "public/a.txt") (lit "abc")
    demo_cache_rel eq_refl) as (b & c' & o & l & E & _ & Hrel & _).
  unfold demo_hit. rewrite E. by exists o, l.
Qed.

Lemma cached_hit_leaks_descriptor_witness :
  ∃ s' w', send_file_request demo_env 0 (lit "public/a.txt") false 200 (two_conns, demo_hit) =
      Ok (true, (s', w')) ∧ open_fds w' = [4; 20].
Proof.
  destruct demo_hit_rel as (o & l & Hrel).
  assert (∃ i, filepath_to_cache_idx (web_cache demo_hit) !! lit "public/a.txt" = Some i) as [i Hi]
    by (eexists; vm_compute; reflexivity).
  destruct (cached_hit_leaks_descriptor demo_env 0 (lit "public/a.txt") false 200 two_conns demo_hit 20 3
    (lit "Content-Type: text/plain" ++ crlf) new_tcp_client_data 5 o l i)
    as (s' & w' & m & b & E & _ & _ & _ & Hfds).
  - split; [vm_compute; reflexivity|lia|vm_compute; reflexivity|lia|vm_compute; reflexivity].
  - exact Hrel.
  - vm_compute. reflexivity.
  - exact Hi.
  - vm_compute. reflexivity.
  - exact two_conns_inv.
  - apply (bool_decide_unpack _). vm_compute. exact I.
  - vm_compute. reflexivity.
  - exists s', w'. split; [exact E|]. rewrite Hfds. vm_compute. reflexivity.
Defined.

(** A GET request for a directory, or for anything that is neither a regular file nor a
    block device, writes out of bounds: its size is taken for [2^64 - 1], the
    buffer for headers and file wraps to one byte less than the headers, and the
    headers are copied into it. *)
Theorem directory_request_overflows {X} `{!ServerType X, !TcpServer X, !TcpServerLaws X} e k path tail more
    text rest (s : server_base X) w fd t N o l :
  get_text path tail more text → 16 ≤ len text < 2 ^ 31 →
  os_open e (sys_calls w) (public_path path) = fd → 0 ≤ fd →
  os_stat e (S (sys_calls w)) fd = Some {| st_kind := OtherFile; st_size := 0 |} →
  vget (tcp_clients w) k = Ok t → cache_rel N (web_cache w) o l →
  read_cb e k (text ++ nul :: rest) (len text) (s, w) = Err OutOfBounds.
Proof.
  intros Hg Hlen Ho Hfd Hst Hv Hrel. rewrite (read_get_run e k path tail more text rest s w Hg Hlen).
  assert (nul ∉ public_path path) as Hn.
  { assert (nul ∉ path) as Hnp by (intros Hin; apply (gt_nul _ _ _ _ Hg); rewrite (gt_text _ _ _ _ Hg); set_solver).
    unfold public_path. case_decide; [apply (bool_decide_unpack _); vm_compute; exact I|].
    rewrite elem_of_app. intros [Hin|?]; [|done]. revert Hin. apply (bool_decide_unpack _). vm_compute. exact I. }
  assert (∃ r t' c, fetch_item (public_path path) k t (web_cache w) = Ok (r, t', c)) as (r & t' & c & Hf).
  { destruct (filepath_to_cache_idx (web_cache w) !! public_path path) as [i|] eqn:Ef.
    - destruct (fetch_item_hit N _ o l _ k t i Hrel Ef) as (? & ? & ? & ? & ? & c & _ & _ & _ & E & _). eauto.
    - destruct (fetch_item_miss N _ o l _ k t Hrel Ef) as [E _]. eauto. }
  unfold mbind, M_bind. erewrite send_file_directory; [done|exact Ho|exact Hfd|exact Hst| |exact Hv|exact Hf|].
  - by apply get_content_type_run.
  - intros found. apply directory_headers.
Qed.

Definition directory_env : env :=
  {| os_open := λ _ _, 20; os_stat := λ _ _, Some {| st_kind := OtherFile; st_size := 0 |};
     os_ioctl := λ _ _, None; os_watch := λ _ _, 40; sha1 := λ _, []; encode_block := λ _, [];
     env_iter := elements |}.

Lemma directory_request_overflows_witness :
  read_cb directory_env 0 (demo_text ++ [nul]) (len demo_text) (two_conns, demo_web0) = Err OutOfBounds.
Proof.
  apply (directory_request_overflows directory_env 0 (lit "a.txt") (lit "HTTP/1.1")
    (lit "Host: localhost" ++ crlf ++ crlf) demo_text [] two_conns demo_web0 20 new_tcp_client_data 5 [] []).
  - exact demo_get_text.
  - vm_compute. split; [discriminate|reflexivity].
  - reflexivity.
  - lia.
  - reflexivity.
  - reflexivity.
  - exact demo_cache_rel.
Defined.

(** C39: a request can crash the server: one without a path dereferences the null
    pointer [strtok_r] returns; a websocket key header shorter than the length
    that [substr] skips ends the program with an uncaught exception; and a read that
    fills its buffer leaves no NUL, so that parsing never ends within it. *)
Theorem malformed_request_faults {X} `{!ServerType X, !TcpServer X} e k more rest short (s : server_base X) w :
  (nul ∉ more → Forall (λ l, contains (lit "Sec-WebSocket-Key") l = false) (fields crlf more) →
   10 ≤ len more < 2 ^ 30 →
   read_cb e k ((lit "GET " ++ crlf ++ more) ++ nul :: rest) (len (lit "GET " ++ crlf ++ more)) (s, w) =
     Err NullDeref) ∧
  (nul ∉ short → nul ∉ more → Forall (λ c, c ∉ crlf) short → len short < 19 →
   contains (lit "Sec-WebSocket-Key") short = true → len more < 2 ^ 30 →
   let text := lit "GET / HTTP/1.1" ++ crlf ++ short ++ crlf ++ more in
   read_cb e k (text ++ nul :: rest) (len text) (s, w) = Err (Uncaught (lit "std::out_of_range"))) ∧
  (nul ∉ more → 12 ≤ len more < 2 ^ 30 →
   ∃ f, read_cb e k (lit "GET " ++ more) (len (lit "GET " ++ more)) (s, w) = Err f).
Proof.
  split; [|split].
  - apply pathless_request.
  - apply short_key_request.
  - apply unterminated_request.
Qed.

Lemma malformed_request_faults_witness :
  read_cb demo_env 0 ((lit "GET " ++ crlf ++ lit "Host: localhost") ++ [nul]) 21 (two_conns, demo_web0) =
    Err NullDeref.
Proof.
  destruct (malformed_request_faults (X:=unit) demo_env 0 (lit "Host: localhost") [] [] two_conns demo_web0)
    as [H _].
  apply H.
  - apply (bool_decide_unpack _). vm_compute. exact I.
  - apply (bool_decide_unpack _). vm_compute. exact I.
  - vm_compute. split; [discriminate|reflexivity].
Defined.

(** How far the kernel writes for a read of a file that is [fsize] bytes long by now. *)
Definition read_end (e : sqe) (fsize : Z) : Z :=
  sq_buf_off e + (sq_len e `min` (fsize - sq_off e)).

(** C36: a read of a file writes inside its buffer exactly when the file is no longer than it was
    when its size was taken, or when a full block still fits: the requests ask for
    [READ_SIZE] bytes whatever room is left, the first at the end of the headers, a later one after
    the [got] bytes that were read, in the buffer and in the file alike. *)
Theorem file_reads_bounded {X} (s : server_base X) fd to_read idx buff start got last fsize req :
  0 ≤ start → 0 ≤ last ≤ got → got ≤ to_read → to_read + start < 2 ^ 63 →
  len (rq_read_data req) = to_read + start → rq_total_length req = to_read → rq_read_amount req = start + got - last →
  (∃ e, custom_read_req fd to_read idx buff start s = Ok (tt, set_ring (ring s ++ [e]) s) ∧
     (read_end e fsize ≤ len (rq_read_data (sq_req e)) ↔ fsize ≤ to_read ∨ READ_SIZE ≤ to_read)) ∧
  (∃ e, custom_read_req_continued req last s = Ok (tt, set_ring (ring s ++ [e]) s) ∧
     (read_end e fsize ≤ len (rq_read_data (sq_req e)) ↔ fsize ≤ to_read ∨ READ_SIZE ≤ to_read - got)).
Proof.
  intros Hs Hl Hg Hmax Hlen Htot Hamt. split; eexists; (split; [reflexivity|]); unfold read_end; cbn.
  - unfold vresize. rewrite to_u64_small by lia. unfold len. rewrite length_app, length_take, length_replicate. lia.
  - rewrite Hlen, Hamt, Htot. rewrite (to_u64_small (to_read + start - to_read)) by lia.
    repeat rewrite to_u64_small by lia. lia.
Qed.

Lemma file_reads_bounded_witness :
  let s : server_base unit := new_server 3 4 5 6 in
  ∃ e, custom_read_req 9 10 0 (lit "headers") 7 s = Ok (tt, set_ring (ring s ++ [e]) s) ∧
    ¬ read_end e 11 ≤ len (rq_read_data (sq_req e)).
Proof.
  intros s. destruct (file_reads_bounded s 9 10 0 (lit "headers") 7 0 0 11
    {| rq_event := CUSTOM_READ; rq_client_idx := 0; rq_ID := -1; rq_written := 0; rq_total_length := 10; rq_buffer := None;
       rq_read_data := replicate 17 nul; rq_read_amount := 7; rq_custom_info := 9 |})
    as ((e & E & Hiff) & _); try done.
  exists e. split; [exact E|]. intros Hle. apply Hiff in Hle as [Hle|Hle]; by vm_compute in Hle.
Defined.
