(* ===== verification/Config.v ===== *)
(** * web_server/central_web_server.cpp: the configuration

    [start_server] reads the .config file, takes its lines apart in place and
    fills [config_data_map], from which it takes the server type and the number of
    threads.  The file's system calls are the record [config_file].

    The specification of a configuration text is the map [config_spec]: the first
    two fields between colons of each line, spaces left out. *)

From S2P Require Import Prelude CString Utility.
From Stdlib Require Import ZArith Lia.
From stdpp Require Import base gmap strings list fin_maps.

#[local] Open Scope Z_scope.

(** ** Reading the file *)

(** What [open], [fstat] and [ioctl] return for the file, and what the calls of
    [read] return and store, in order. *)
Record config_file := {
  cf_open : Z;
  cf_stat : option stat_struct;
  cf_ioctl : option Z;
  cf_reads : list (Z * list char)
}.

(** The loop of lines 54 and 55: every read goes to [&config[0]]. *)
Fixpoint read_config (reads : list (Z * list char)) (file_size : Z) (config : list char)
    (read_amount : Z) : result (list char * Z) :=
  if to_u64 read_amount =? file_size then mret (config, read_amount)
  else match reads with
  | [] => Err OutOfFuel
  | (res, data) :: reads =>
      vsplice config 0 data ≫= λ config,
      read_config reads file_size config (to_i32 (read_amount + res))
  end.

Definition newline : list char := [cchar 10].
Definition colon : list char := [cchar 58].
Definition hash : char := cchar 35.

(** ** Lines *)

(** Lines 72 to 77, for [n] more characters. *)
Fixpoint remove_spaces (n : nat) (i shrink_by : Z) (line : list char) : result (list char * Z) :=
  match n with
  | O => mret (line, shrink_by)
  | S n =>
      vget line i ≫= λ c,
      if decide (c = space) then remove_spaces n (i + 1) (shrink_by + 1) line
      else vset line (i - shrink_by) c ≫= remove_spaces n (i + 1) shrink_by
  end.

Abbreviation config_map := (gmap (list char) (list char)).

(** The body of the loop over the lines; [std::string(nullptr)] is undefined. *)
Definition config_line (line : list char) (m : config_map) : result config_map :=
  remove_spaces (length line) 0 0 line ≫= λ '(stripped, shrink_by),
  (if shrink_by =? 0 then mret stripped else vset stripped (len line - shrink_by) nul) ≫= λ line,
  vget line 0 ≫= λ c,
  if decide (c = hash) then mret m
  else
    strtok_r colon line ≫= λ '(key, saveptr),
    match key with
    | None => Err NullDeref
    | Some key =>
        strtok_r colon saveptr ≫= λ '(value, _),
        match value with
        | None => Err NullDeref
        | Some value => mret (<[key := value]> m)
        end
    end.

Fixpoint config_lines (lines : list (list char)) (m : config_map) : result config_map :=
  match lines with
  | [] => mret m
  | line :: lines => config_line line m ≫= config_lines lines
  end.

(** Lines 60 to 85. *)
Definition parse_config (config : list char) (m : config_map) : result config_map :=
  strtok_all (S (length config)) newline config ≫= λ lines, config_lines lines m.

(** Lines 47 to 85. *)
Definition load_config (f : config_file) (m : config_map) : result config_map :=
  if cf_open f =? -1 then fatal_error (lit "Ensure the .config file is in this directory")
  else
    get_file_size (cf_stat f) (cf_ioctl f) ≫= λ file_size,
    new_vector (to_u64 (file_size + 1)) ≫= λ config,
    read_config (cf_reads f) file_size config 0 ≫= λ '(config, read_amount),
    vset config read_amount nul ≫= λ config, parse_config config m.

(** ** Settings *)

(** [config_data_map[key]] adds an empty value for a key that is not there. *)
Definition map_index (key : list char) (m : config_map) : list char * config_map :=
  match m !! key with Some v => (v, m) | None => ([], <[key := []]> m) end.

Definition map_count (key : list char) (m : config_map) : bool := bool_decide (is_Some (m !! key)).

Definition is_space (c : char) : bool :=
  bool_decide (c = space) || (9 <=? cval c) && (cval c <=? 13).

Fixpoint skip_spaces (s : list char) : list char :=
  match s with [] => [] | c :: s' => if is_space c then skip_spaces s' else s end.

Definition digit_value (c : char) : option Z :=
  if (48 <=? cval c) && (cval c <=? 57) then Some (cval c - 48) else None.

(** The value of the digits at the start of [s], [None] when there are none. *)
Fixpoint digits_value (s : list char) (acc : Z) (any : bool) : option Z :=
  match s with
  | c :: s =>
      match digit_value c with
      | Some d => digits_value s (10 * acc + d) true
      | None => if any then Some acc else None
      end
  | [] => if any then Some acc else None
  end.

(** [std::stoi]: what follows the digits is left alone. *)
Definition stoi (s : list char) : result Z :=
  let s := skip_spaces s in
  let '(sign, s) :=
    match s with
    | c :: s' => if decide (c = cchar 45) then (-1, s') else if decide (c = cchar 43) then (1, s')
                 else (1, s)
    | [] => (1, s)
    end in
  match digits_value s 0 false with
  | None => Err (Uncaught (lit "std::invalid_argument"))
  | Some v =>
      if bool_decide (- 2 ^ 31 ≤ sign * v < 2 ^ 31) then Ok (sign * v)
      else Err (Uncaught (lit "std::out_of_range"))
  end.

(** Lines 87 to 92. *)
Definition check_config (m : config_map) : result unit :=
  if map_count (lit "TLS") m && bool_decide (fst (map_index (lit "TLS") m) = lit "yes") then
    if negb (map_count (lit "FULLCHAIN") m) || negb (map_count (lit "PKEY") m) ||
       negb (map_count (lit "TLS_PORT") m)
    then fatal_error (lit "Please provide FULLCHAIN, PKEY and TLS_PORT settings in the config file")
    else mret tt
  else if negb (map_count (lit "PORT") m)
  then fatal_error (lit "Please provide the PORT setting in the config file")
  else mret tt.

(** Line 97. *)
Definition server_threads (m : config_map) : result Z :=
  if map_count (lit "SERVER_THREADS") m then stoi (fst (map_index (lit "SERVER_THREADS") m)) else Ok 3.

(** What [start_server] runs: whether TLS is used, the number of threads, and the
    map the threads find. *)
Definition start_server (f : config_file) (m : config_map) : result (bool * Z * config_map) :=
  load_config f m ≫= λ m,
  check_config m ≫= λ _,
  server_threads m ≫= λ num_threads,
  let '(tls, m) := map_index (lit "TLS") m in
  mret (bool_decide (tls = lit "yes"), num_threads, m).

(** The ports the threads listen on, lines 11 and 31. *)
Definition listen_port (tls : bool) (m : config_map) : result Z :=
  stoi (fst (map_index (if tls then lit "TLS_PORT" else lit "PORT") m)).

(** ** Specification *)

Definition spaceless (line : list char) : list char := filter (λ c, c ≠ space) line.

(** A line adds its first two fields, unless it starts with a hash sign. *)
Definition line_spec (m : config_map) (line : list char) : config_map :=
  let line := spaceless line in
  if decide (head line = Some hash) then m
  else match fields colon line with
  | key :: value :: _ => <[key := value]> m
  | _ => m
  end.

Definition config_spec (text : list char) (m : config_map) : config_map :=
  foldl line_spec m (fields newline text).

(** A comment, or a key and a value with a space somewhere. *)
Definition line_ok (line : list char) : Prop :=
  head (spaceless line) = Some hash ∨
  (space ∈ line ∧ (2 ≤ length (fields colon (spaceless line)))%nat).

#[export] Instance line_ok_dec line : Decision (line_ok line).
Proof. apply _. Defined.

(** The file holds [text] and the kernel delivers it with one [read]. *)
Record delivers (f : config_file) (text : list char) : Prop := {
  dl_open : 0 ≤ cf_open f;
  dl_stat : cf_stat f = Some {| st_kind := RegularFile; st_size := len text |};
  dl_reads : ∃ more, cf_reads f = (len text, text) :: more;
  dl_small : len text < 2 ^ 31
}.

(** * Lemmas *)

(** ** Lines *)

Lemma snoc_cons {A} (l : list A) c : ∃ x l', l ++ [c] = x :: l' ∧ length l' = length l.
Proof.
  destruct l as [|x l]; [by exists c, []|]. exists x, (l ++ [c]). split; [done|].
  rewrite length_app. simpl. lia.
Qed.

Lemma spaceless_cons c l :
  spaceless (c :: l) = if decide (c = space) then spaceless l else c :: spaceless l.
Proof.
  unfold spaceless. rewrite filter_cons. destruct (decide (c = space)) as [->|Hc].
  - by rewrite decide_False by tauto.
  - by rewrite decide_True.
Qed.

(** The characters kept so far are at the front, and the rest is still to come. *)
Lemma remove_spaces_run rest : ∀ done gap,
  ∃ junk, remove_spaces (length rest) (len done + len gap) (len gap) (done ++ gap ++ rest) =
            Ok (done ++ spaceless rest ++ junk, len junk) ∧
    len junk = len gap + len rest - len (spaceless rest).
Proof.
  induction rest as [|c rest IH]; intros done gap; simpl.
  { exists gap. rewrite app_nil_r. split; [done|len_lia]. }
  assert (vget (done ++ gap ++ c :: rest) (len done + len gap) = Ok c) as ->.
  { rewrite app_assoc, vget_app_r by len_lia. len_norm. by rewrite Z.sub_diag. }
  step_ok.
  rewrite spaceless_cons. destruct (decide (c = space)) as [->|Hc].
  - destruct (IH done (gap ++ [space])) as (junk & E & Hj).
    exists junk. rewrite <-!app_assoc in E. simpl in E. split.
    + rewrite <-E. f_equal; len_norm; lia.
    + rewrite Hj. len_norm. lia.
  - destruct (snoc_cons gap c) as (x & gap' & Eg & Hl).
    replace (done ++ gap ++ c :: rest) with (done ++ x :: (gap' ++ rest))
      by (rewrite app_comm_cons, <-Eg, <-app_assoc; done).
    rewrite vset_middle by lia. step_ok.
    destruct (IH (done ++ [c]) gap') as (junk & E & Hj). exists junk.
    assert (len gap' = len gap) as El by (unfold len; lia).
    rewrite <-!app_assoc in E. simpl in E. split.
    + cbn [app]. rewrite <-E, El. f_equal; len_norm; lia.
    + rewrite Hj, El. len_norm. lia.
Qed.

Lemma spaceless_len line : len (spaceless line) ≤ len line.
Proof. unfold len, spaceless. pose proof (length_filter (λ c, c ≠ space) line). lia. Qed.

Lemma spaceless_space line : space ∈ line → len (spaceless line) < len line.
Proof.
  intros H. apply list_elem_of_split in H as (l1 & l2 & ->). pose proof (spaceless_len l1).
  pose proof (spaceless_len l2). unfold spaceless in *. rewrite filter_app, filter_cons.
  rewrite decide_False by tauto. len_norm. lia.
Qed.

Lemma spaceless_nul line : nul ∉ line → nul ∉ spaceless line.
Proof. intros H Hin. apply H. unfold spaceless in Hin. apply list_elem_of_filter in Hin. tauto. Qed.

(** The line [strtok_r] works on. *)
Lemma stripped_line line :
  ∃ junk, remove_spaces (length line) 0 0 line = Ok (spaceless line ++ junk, len junk) ∧
    len junk = len line - len (spaceless line).
Proof.
  destruct (remove_spaces_run line [] []) as (junk & E & Hj). exists junk. split; [exact E|].
  rewrite Hj. len_norm. lia.
Qed.

Lemma config_line_run line m : nul ∉ line → line_ok line → config_line line m = Ok (line_spec m line).
Proof.
  intros Hn Hok. unfold config_line, line_spec.
  destruct (stripped_line line) as (junk & -> & Hj). step_ok.
  pose proof (spaceless_nul line Hn) as Hn'. destruct Hok as [Hh|[Hs Hf]].
  - rewrite decide_True by done. destruct (spaceless line) as [|c l] eqn:El; [done|].
    injection Hh as ->. rewrite len_cons in Hj. pose proof (len_nonneg l).
    assert (vget ((hash :: l) ++ junk) 0 = Ok hash) as Hv by done.
    destruct (Z.eqb_spec (len junk) 0) as [E0|E0]; [by vm_compute|].
    rewrite vset_is_Ok by len_lia. step_ok. by rewrite vget_insert_ne, Hv by lia.
  - apply spaceless_space in Hs. destruct junk as [|x junk]; [unfold len in Hj, Hs; simpl in Hj; lia|].
    rewrite (proj2 (Z.eqb_neq _ 0)) by len_lia. rewrite vset_middle by lia. step_ok.
    destruct (strtok_r_fields colon (spaceless line) junk Hn')
      as [[Ef _]|(key & rest & Ef & _ & Hn2 & _ & Es)]; [rewrite Ef in Hf; simpl in Hf; lia|].
    destruct (strtok_r_fields colon rest junk Hn2)
      as [[Ef2 _]|(value & rest2 & Ef2 & _ & _ & _ & Es2)]; [rewrite Ef, Ef2 in Hf; simpl in Hf; lia|].
    rewrite Es, Ef, Ef2. destruct (spaceless line) as [|c l] eqn:El; [done|].
    change (vget ((c :: l) ++ nul :: junk) 0) with (@Ok char c). step_ok. simpl head.
    destruct (decide (c = hash)) as [->|Hc]; [by rewrite decide_True|].
    rewrite (decide_False (P := Some c = Some hash)) by congruence. step_ok. by rewrite Es2.
Qed.

Lemma config_lines_run lines m :
  Forall (λ l, nul ∉ l ∧ line_ok l) lines → config_lines lines m = Ok (foldl line_spec m lines).
Proof.
  intros H. revert m. induction H as [|line lines [Hn Hok] _ IH]; intros m; [done|]. simpl.
  rewrite config_line_run by done. step_ok. apply IH.
Qed.

(** The fields of a string have no characters it does not have. *)
Lemma fields_sub delims s acc f c : f ∈ fields_from delims acc s → c ∈ f → c ∈ acc ++ s.
Proof.
  revert acc. induction s as [|d s IH]; intros acc; simpl.
  - rewrite app_nil_r. destruct acc as [|a acc]; [by intros ?%not_elem_of_nil|].
    by intros ->%list_elem_of_singleton.
  - case_decide.
    + destruct acc as [|a acc]; [intros Hf Hc; specialize (IH [] Hf Hc); set_solver|].
      intros Hf Hc. apply elem_of_cons in Hf as [->|Hf]; [set_solver|]. specialize (IH [] Hf Hc). set_solver.
    + intros Hf Hc. specialize (IH _ Hf Hc). set_solver.
Qed.

(** ** The file *)

(** What is left of [load_config] for a regular file. *)
Lemma load_config_regular f n m :
  0 ≤ cf_open f → cf_stat f = Some {| st_kind := RegularFile; st_size := n |} → 0 ≤ n < 2 ^ 31 →
  load_config f m =
    (read_config (cf_reads f) n (replicate (Z.to_nat n) nul ++ [nul]) 0 ≫= λ '(config, read_amount),
     vset config read_amount nul ≫= λ config, parse_config config m).
Proof.
  intros Ho Hst Hn. unfold load_config. rewrite (proj2 (Z.eqb_neq _ _)) by lia.
  unfold get_file_size. rewrite Hst. cbn [st_kind st_size]. rewrite to_u64_small by lia. step_ok.
  rewrite to_u64_small by lia. unfold new_vector. rewrite (proj2 (Z.ltb_ge (2 ^ 63 - 1) (n + 1))) by lia.
  step_ok. replace (Z.to_nat (n + 1)) with (Z.to_nat n + 1)%nat by lia. by rewrite replicate_add.
Qed.

Lemma load_config_run f text m :
  delivers f text → load_config f m = parse_config (text ++ [nul]) m.
Proof.
  intros [Ho Hst (more & Hr) Hs]. pose proof (len_nonneg text).
  rewrite (load_config_regular f (len text)) by (done || lia).
  set (buf := replicate (Z.to_nat (len text)) nul).
  assert (length buf = length text) as Hbuf by (unfold buf; rewrite length_replicate; unfold len; lia).
  assert (read_config (cf_reads f) (len text) (buf ++ [nul]) 0 = Ok (text ++ [nul], len text)) as ->.
  { rewrite Hr. cbn [read_config]. destruct (Z.eqb_spec (to_u64 0) (len text)) as [E|E].
    - change (to_u64 0) with 0 in E. symmetry in E. apply len_0_nil in E as ->. done.
    - rewrite (vsplice_app [] buf [nul] text) by done. step_ok. rewrite to_i32_small by lia.
      destruct more; cbn [read_config]; rewrite to_u64_small by lia; by rewrite Z.eqb_refl. }
  step_ok. by rewrite vset_middle.
Qed.

(** ** Settings *)

Lemma parse_config_run text m :
  nul ∉ text → Forall line_ok (fields newline text) → parse_config (text ++ [nul]) m = Ok (config_spec text m).
Proof.
  intros Hn Hall. unfold parse_config. rewrite strtok_all_fields by (done || (rewrite length_app; simpl; lia)).
  step_ok. apply config_lines_run. apply Forall_forall. intros line Hl. split.
  - intros Hin. apply Hn. exact (fields_sub _ _ _ _ _ Hl Hin).
  - by eapply Forall_forall in Hall.
Qed.

(** ** Written settings *)

(** A key or a value as a configuration file can hold it. *)
Definition plain (s : list char) : Prop :=
  s ≠ [] ∧ Forall (λ c, c ≠ nul ∧ c ≠ space ∧ c ∉ newline ∧ c ∉ colon) s.

#[export] Instance plain_dec s : Decision (plain s).
Proof. apply _. Defined.

(** A setting is written the way the README does, [KEY: value]. *)
Definition setting_ok (kv : list char * list char) : Prop :=
  plain kv.1 ∧ plain kv.2 ∧ head kv.1 ≠ Some hash.

#[export] Instance setting_ok_dec kv : Decision (setting_ok kv).
Proof. apply _. Defined.

Definition setting_line (kv : list char * list char) : list char :=
  kv.1 ++ colon ++ [space] ++ kv.2.

Definition write_settings (l : list (list char * list char)) : list char :=
  concat ((λ kv, setting_line kv ++ newline) <$> l).

Definition set_all (m : config_map) (l : list (list char * list char)) : config_map :=
  foldl (λ m kv, <[kv.1 := kv.2]> m) m l.

Lemma plain_Forall (P : char → Prop) s :
  plain s → (∀ c, c ≠ nul ∧ c ≠ space ∧ c ∉ newline ∧ c ∉ colon → P c) → Forall P s.
Proof. intros [_ H] HP. eapply Forall_impl; [exact H|]. apply HP. Qed.

Lemma plain_nul s : plain s → nul ∉ s.
Proof.
  intros Hs Hin. apply (plain_Forall (λ c, c ≠ nul)) in Hs; [|tauto].
  by apply (proj1 (Forall_forall _ _) Hs nul).
Qed.

Lemma spaceless_plain s : plain s → spaceless s = s.
Proof.
  intros H. apply (plain_Forall (λ c, c ≠ space)) in H; [|tauto].
  induction H as [|c s Hc _ IH]; [done|]. rewrite spaceless_cons, decide_False, IH by done. done.
Qed.

Lemma spaceless_app l1 l2 : spaceless (l1 ++ l2) = spaceless l1 ++ spaceless l2.
Proof. apply filter_app. Qed.

Lemma key_value_fields key value :
  plain key → plain value → fields colon (key ++ colon ++ value) = [key; value].
Proof.
  intros Hk Hv. pose proof (plain_Forall (λ c, c ∉ colon) _ Hk) as Fk.
  pose proof (plain_Forall (λ c, c ∉ colon) _ Hv) as Fv.
  destruct key as [|c key]; [by destruct Hk|]. destruct value as [|d value]; [by destruct Hv|].
  change ((c :: key) ++ colon ++ d :: value) with ((c :: key) ++ cchar 58 :: (d :: value)).
  rewrite fields_token, fields_last; [done|apply Fv; tauto|apply Fk; tauto|set_solver].
Qed.

Lemma setting_spaceless kv :
  setting_ok kv → spaceless (setting_line kv) = kv.1 ++ colon ++ kv.2.
Proof.
  intros (Hk & Hv & _). unfold setting_line.
  by rewrite !spaceless_app, (spaceless_plain kv.1), (spaceless_plain kv.2).
Qed.

Lemma setting_line_spec kv m :
  setting_ok kv → nul ∉ setting_line kv ∧ line_ok (setting_line kv) ∧
  line_spec m (setting_line kv) = <[kv.1 := kv.2]> m.
Proof.
  intros Hok. pose proof (setting_spaceless kv Hok) as Es. destruct Hok as (Hk & Hv & Hh).
  split_and!.
  - unfold setting_line. rewrite !elem_of_app. apply plain_nul in Hk, Hv.
    assert (nul ∉ colon) by by apply (bool_decide_unpack _). assert (nul ∉ [space]) by by apply (bool_decide_unpack _).
    tauto.
  - right. split; [unfold setting_line; set_solver|]. by rewrite Es, key_value_fields.
  - unfold line_spec. rewrite Es, key_value_fields by done. apply decide_False.
    destruct kv as [[|c key] value]; [by destruct Hk|]. exact Hh.
Qed.

Lemma settings_fields l : Forall setting_ok l → fields newline (write_settings l) = setting_line <$> l.
Proof.
  induction 1 as [|kv l (Hk & Hv & _) _ IH]; [done|].
  assert (Forall (λ c, c ∉ newline) (setting_line kv)) as Hl.
  { unfold setting_line. repeat (apply Forall_app; split).
    - by eapply plain_Forall; [|tauto].
    - repeat constructor. by apply (bool_decide_unpack _).
    - repeat constructor. by apply (bool_decide_unpack _).
    - by eapply plain_Forall; [|tauto]. }
  destruct kv as [[|c key] value]; [by destruct Hk|].
  assert (write_settings ((c :: key, value) :: l) =
    (c :: (key ++ colon ++ [space] ++ value)) ++ cchar 10 :: write_settings l) as ->.
  { unfold write_settings, setting_line. simpl. by rewrite <-!app_assoc. }
  rewrite fields_token, IH; [done|exact Hl|set_solver].
Qed.

Lemma plain_line key value :
  plain key → plain value → Forall (λ c, c ∉ newline) (key ++ colon ++ value).
Proof.
  intros Hk Hv. repeat (apply Forall_app; split); [by eapply plain_Forall; [|tauto]| |by eapply plain_Forall; [|tauto]].
  repeat constructor. by apply (bool_decide_unpack _).
Qed.

Lemma config_line_overread key value m :
  plain key → plain value → head key ≠ Some hash →
  config_line (key ++ colon ++ value) m = Err OutOfBounds.
Proof.
  intros Hk Hv Hh. unfold config_line.
  destruct (stripped_line (key ++ colon ++ value)) as (junk & -> & Hj). step_ok.
  assert (spaceless (key ++ colon ++ value) = key ++ colon ++ value) as Es.
  { by rewrite !spaceless_app, (spaceless_plain key), (spaceless_plain value). }
  rewrite Es in *. assert (junk = []) as -> by (apply len_0_nil; lia). rewrite app_nil_r.
  pose proof (plain_nul _ Hk). pose proof (plain_nul _ Hv).
  pose proof (plain_Forall (λ c, c ∉ colon) _ Hk ltac:(tauto)).
  pose proof (plain_Forall (λ c, c ∉ colon) _ Hv ltac:(tauto)).
  destruct key as [|c key]; [by destruct Hk|]. destruct value as [|d value]; [by destruct Hv|].
  change (len [] =? 0) with true. cbv iota. change (mret ?a ≫= ?k) with (k a). cbv beta.
  change (vget ((c :: key) ++ colon ++ d :: value) 0) with (@Ok char c). step_ok.
  rewrite decide_False by (by intros ->).
  change ((c :: key) ++ colon ++ d :: value) with ((c :: key) ++ cchar 58 :: (d :: value)).
  rewrite strtok_r_token by (done || set_solver). step_ok. by rewrite strtok_r_none.
Qed.

(** * Properties *)


(** C29: settings written one per line as [KEY: value] are read back: the map holds
    every key with its last value, and what it held before for other keys. *)
Theorem settings_roundtrip f l m :
  Forall setting_ok l → delivers f (write_settings l) → load_config f m = Ok (set_all m l).
Proof.
  intros Hl Hd. rewrite (load_config_run f _ m Hd). rewrite parse_config_run.
  - f_equal. unfold config_spec, set_all. rewrite settings_fields by done. clear Hd. revert m.
    induction Hl as [|kv l Hk _ IH]; intros m; [done|]. simpl.
    destruct (setting_line_spec kv m Hk) as (_ & _ & ->). apply IH.
  - clear Hd. induction Hl as [|kv l Hk _ IH]; [set_solver|]. unfold write_settings. simpl.
    rewrite !elem_of_app. destruct (setting_line_spec kv m Hk) as (Hn & _).
    assert (nul ∉ newline) by by apply (bool_decide_unpack _). unfold write_settings in IH. tauto.
  - rewrite settings_fields by done. apply Forall_fmap. eapply Forall_impl; [exact Hl|].
    intros kv Hk. by apply (setting_line_spec kv m Hk).
Qed.

(** A setting without a space is read past the end of its line: only the
    removal of a space puts a NUL behind the line, so that [strtok_r] looks for the end of
    the value beyond the vector of the line. *)
Theorem spaceless_line_overreads f key value more m :
  plain key → plain value → head key ≠ Some hash →
  delivers f (key ++ colon ++ value ++ newline ++ more) → nul ∉ more →
  load_config f m = Err OutOfBounds.
Proof.
  intros Hk Hv Hh Hd Hn. rewrite (load_config_run f _ m Hd). unfold parse_config.
  assert (nul ∉ key ++ colon ++ value ++ newline ++ more) as Hn'.
  { rewrite !elem_of_app. apply plain_nul in Hk, Hv.
    assert (nul ∉ colon) by by apply (bool_decide_unpack _).
    assert (nul ∉ newline) by by apply (bool_decide_unpack _). tauto. }
  rewrite strtok_all_fields by (done || (rewrite (length_app _ [nul]); simpl; lia)). step_ok.
  pose proof (plain_line key value Hk Hv) as Hl. pose proof (config_line_overread key value m Hk Hv Hh) as E.
  destruct key as [|c key]; [by destruct Hk|].
  replace ((c :: key) ++ colon ++ value ++ newline ++ more)
    with ((c :: (key ++ colon ++ value)) ++ cchar 10 :: more) by (simpl; by rewrite <-!app_assoc).
  rewrite fields_token by (done || set_solver). simpl. simpl in E. by rewrite E.
Qed.

(** A file the kernel delivers in two pieces is not put together: the second piece
    is stored over the first. *)
Theorem second_read_overwrites f a b more m :
  0 ≤ cf_open f → cf_stat f = Some {| st_kind := RegularFile; st_size := len a + len b |} →
  cf_reads f = (len a, a) :: (len b, b) :: more → 0 < len b → len b ≤ len a → len a + len b < 2 ^ 31 →
  load_config f m =
    parse_config (b ++ drop (length b) a ++ replicate (length b) nul ++ [nul]) m.
Proof.
  intros Ho Hst Hr Hb Hle Hs. pose proof (len_nonneg a).
  rewrite (load_config_regular f (len a + len b)) by (done || lia). rewrite Hr. cbn [read_config].
  change (to_u64 0) with 0. rewrite (proj2 (Z.eqb_neq 0 _)) by lia.
  replace (Z.to_nat (len a + len b)) with (length a + length b)%nat by (unfold len; lia).
  rewrite replicate_add, <-app_assoc, (vsplice_app [] (replicate (length a) nul) (replicate (length b) nul ++ [nul]) a) by
    (done || by rewrite length_replicate). step_ok.
  rewrite to_i32_small, to_u64_small, (proj2 (Z.eqb_neq _ (len a + len b))) by lia.
  rewrite <-(take_drop (length b) a) at 1. cbn [app]. rewrite <-app_assoc.
  rewrite (vsplice_app [] (take (length b) a) (drop (length b) a ++ replicate (length b) nul ++ [nul]) b) by
    (done || (rewrite length_take; unfold len in Hle; lia)). step_ok.
  rewrite to_i32_small by lia.
  assert (∀ c, read_config more (len a + len b) c (0 + len a + len b) = Ok (c, 0 + len a + len b)) as E.
  { intros c. destruct more; cbn [read_config]; rewrite to_u64_small by lia; by rewrite Z.eqb_refl. }
  rewrite E. step_ok. cbn [app]. rewrite !app_assoc, (vset_middle _ []); [done|].
  unfold len. rewrite !length_app, length_drop, length_replicate. unfold len in Hle. lia.
Qed.

(** The README's example. *)
Definition readme_settings : list (list char * list char) :=
  [(lit "TLS", lit "yes"); (lit "FULLCHAIN", lit "/home/me/ssl/fullchain.cer");
   (lit "PKEY", lit "/home/me/ssl/example.abc.key"); (lit "PORT", lit "80");
   (lit "TLS_PORT", lit "443"); (lit "SERVER_THREADS", lit "10")].

Definition demo_file (text : list char) : config_file :=
  {| cf_open := 3; cf_stat := Some {| st_kind := RegularFile; st_size := len text |};
     cf_ioctl := None; cf_reads := [(len text, text)] |}.

Lemma demo_file_delivers text : len text < 2 ^ 31 → delivers (demo_file text) text.
Proof. intros H. split; [done|done|by exists []|done]. Qed.

Example readme_starts :
  (λ r, r.1) <$> start_server (demo_file (write_settings readme_settings)) ∅ = Ok (true, 10).
Proof. vm_compute. reflexivity. Qed.


Lemma settings_roundtrip_witness :
  Forall setting_ok readme_settings ∧
  load_config (demo_file (write_settings readme_settings)) ∅ = Ok (list_to_map readme_settings).
Proof.
  assert (Forall setting_ok readme_settings) as Hok by
    (apply (bool_decide_unpack _); vm_compute; exact I).
  split; [exact Hok|]. rewrite (settings_roundtrip _ readme_settings ∅ Hok).
  - vm_compute. reflexivity.
  - apply demo_file_delivers. by vm_compute.
Defined.

Lemma spaceless_line_overreads_witness :
  let text := lit "PORT:80" ++ newline in
  delivers (demo_file text) text ∧ load_config (demo_file text) ∅ = Err OutOfBounds.
Proof.
  intros text. assert (delivers (demo_file text) text) as Hd by (apply demo_file_delivers; by vm_compute).
  split; [exact Hd|].
  apply (spaceless_line_overreads (demo_file text) (lit "PORT") (lit "80") [] ∅).
  - apply (bool_decide_unpack _). vm_compute. exact I.
  - apply (bool_decide_unpack _). vm_compute. exact I.
  - discriminate.
  - exact Hd.
  - apply (bool_decide_unpack _). vm_compute. exact I.
Defined.
