(* ===== verification/Central.v ===== *)
(** * web_server/central_web_server.cpp: the program thread

    The program thread has an io_uring of its own: it waits for a timer and for the
    eventfds of the server threads.  Each tick of the timer puts a websocket frame
    into the data store, with one use per thread, and posts it to every thread; when a
    thread reports that it is done with an item, one use is given up.

    The threads are the list [c_threads] of their TCP and web servers; the only
    operations that cross the threads are [on_thread] with the message queues of
    WebBase.v and the eventfds.  Requests are objects of a heap [c_reqs], named
    by their address: [delete req] takes them off, and completing or submitting
    one that was deleted is a use after free. *)

From S2P Require Import Prelude Bytes Utility CString WsFrame DataStore Cache ServerBase TcpServer WebBase.
From Stdlib Require Import ZArith Lia.
From stdpp Require Import base gmap strings list fin_maps sets.

#[local] Open Scope Z_scope.

(** ** Data *)

Inductive central_web_server_event := TIMERFD | READ | WRITE | SERVER_THREAD_COMMUNICATION | KILL_SERVER.

Record central_web_server_req := {
  cr_event : central_web_server_event;
  cr_buff : list char;
  cr_buff_ptr : char_ptr;
  cr_size : Z;
  cr_progress_bytes : Z;
  cr_fd : Z;
  cr_custom_info : Z
}.

(** [new central_web_server_req()] *)
Definition new_central_req : central_web_server_req :=
  {| cr_event := TIMERFD; cr_buff := []; cr_buff_ptr := PNull; cr_size := to_u64 (-1);
     cr_progress_bytes := 0; cr_fd := -1; cr_custom_info := to_u64 (-1) |}.

Definition cr_set_progress (n : Z) (r : central_web_server_req) : central_web_server_req :=
  {| cr_event := cr_event r; cr_buff := cr_buff r; cr_buff_ptr := cr_buff_ptr r; cr_size := cr_size r;
     cr_progress_bytes := n; cr_fd := cr_fd r; cr_custom_info := cr_custom_info r |}.
Definition cr_set_buff (b : list char) (r : central_web_server_req) : central_web_server_req :=
  {| cr_event := cr_event r; cr_buff := b; cr_buff_ptr := cr_buff_ptr r; cr_size := cr_size r;
     cr_progress_bytes := cr_progress_bytes r; cr_fd := cr_fd r; cr_custom_info := cr_custom_info r |}.

(** A submitted request: the operation on [cs_fd], the place in the buffer or
    behind the pointer, and the address of the user data. *)
Record central_sqe := {
  cs_op : io_op;
  cs_fd : Z;
  cs_buf_off : Z;
  cs_len : Z;
  cs_off : Z;
  cs_req : Z
}.

(** [c_ring] is [None] after [io_uring_queue_exit]; [c_eventfd_writes] are the calls
    of [write] on an eventfd, with the number of bytes; [c_comm_fds] are the
    [central_communication_eventfd]s of the threads; [c_servers] are the threads
    whose TCP server is in the static vector of all servers. *)
Record central (X : Type) := {
  c_ring : option (list central_sqe);
  c_reqs : gmap Z central_web_server_req;
  c_next : Z;
  c_store : data_store;
  c_event_fd : Z;
  c_kill_server_efd : Z;
  c_timer_fd : Z;
  c_closed : list Z;
  c_eventfd_writes : list (Z * Z);
  c_comm_fds : list Z;
  c_servers : list Z;
  c_threads : list (server_base X * web_server)
}.
Arguments c_ring {X}. Arguments c_reqs {X}. Arguments c_next {X}. Arguments c_store {X}.
Arguments c_event_fd {X}. Arguments c_kill_server_efd {X}. Arguments c_timer_fd {X}.
Arguments c_closed {X}. Arguments c_eventfd_writes {X}. Arguments c_comm_fds {X}.
Arguments c_servers {X}. Arguments c_threads {X}.

(** What a call of [io_uring_wait_cqe] brings: an error, or the completion of the
    request at a position, with its result and the data read. *)
Inductive central_wait := WaitFailed | Completed (pos : nat) (res : Z) (data : list char).

Section Updates.
Context {X : Type}.

Definition set_c_io (r : option (list central_sqe)) (q : gmap Z central_web_server_req) (n : Z)
    (c : central X) : central X :=
  {| c_ring := r; c_reqs := q; c_next := n; c_store := c_store c; c_event_fd := c_event_fd c;
     c_kill_server_efd := c_kill_server_efd c; c_timer_fd := c_timer_fd c; c_closed := c_closed c;
     c_eventfd_writes := c_eventfd_writes c; c_comm_fds := c_comm_fds c; c_servers := c_servers c;
     c_threads := c_threads c |}.
Definition set_c_ring (r : option (list central_sqe)) (c : central X) : central X :=
  set_c_io r (c_reqs c) (c_next c) c.
Definition set_c_reqs (q : gmap Z central_web_server_req) (c : central X) : central X :=
  set_c_io (c_ring c) q (c_next c) c.
Definition set_c_data (st : data_store) (cl : list Z) (ew : list (Z * Z)) (sv : list Z)
    (th : list (server_base X * web_server)) (c : central X) : central X :=
  {| c_ring := c_ring c; c_reqs := c_reqs c; c_next := c_next c; c_store := st;
     c_event_fd := c_event_fd c; c_kill_server_efd := c_kill_server_efd c;
     c_timer_fd := c_timer_fd c; c_closed := cl; c_eventfd_writes := ew; c_comm_fds := c_comm_fds c;
     c_servers := sv; c_threads := th |}.
Definition set_c_timer (fd : Z) (c : central X) : central X :=
  {| c_ring := c_ring c; c_reqs := c_reqs c; c_next := c_next c; c_store := c_store c;
     c_event_fd := c_event_fd c; c_kill_server_efd := c_kill_server_efd c; c_timer_fd := fd;
     c_closed := c_closed c; c_eventfd_writes := c_eventfd_writes c; c_comm_fds := c_comm_fds c;
     c_servers := c_servers c; c_threads := c_threads c |}.
Definition set_c_store (st : data_store) (c : central X) : central X :=
  set_c_data st (c_closed c) (c_eventfd_writes c) (c_servers c) (c_threads c) c.
Definition set_c_threads (th : list (server_base X * web_server)) (c : central X) : central X :=
  set_c_data (c_store c) (c_closed c) (c_eventfd_writes c) (c_servers c) th c.

End Updates.

(** ** Operations *)

Section Central.
Context {X : Type}.
Abbreviation Cen := (M (central X)).

(** [thread_data_container[k].server...] *)
Definition on_thread {A} (k : Z) (m : M (server_base X * web_server) A) : Cen A := λ c,
  vget (c_threads c) k ≫= λ t, m t ≫= λ '(a, t'),
  vset (c_threads c) k t' ≫= λ th, Ok (a, set_c_threads th c).

Definition c_close (fd : Z) : Cen unit := mmodify (λ c,
  set_c_data (c_store c) (c_closed c ++ [fd]) (c_eventfd_writes c) (c_servers c) (c_threads c) c).

(** [new central_web_server_req()]: the address. *)
Definition new_req (r : central_web_server_req) : Cen Z := λ c,
  Ok (c_next c, set_c_io (c_ring c) (<[c_next c := r]> (c_reqs c)) (c_next c + 1) c).

Definition get_req (a : Z) : Cen central_web_server_req := λ c,
  match c_reqs c !! a with Some r => Ok (r, c) | None => Err UseAfterFree end.

Definition put_req (a : Z) (r : central_web_server_req) : Cen unit :=
  mmodify (λ c, set_c_reqs (<[a := r]> (c_reqs c)) c).

(** [delete req]; deleting the null pointer does nothing. *)
Definition delete_req (a : option Z) : Cen unit :=
  match a with
  | None => mret tt
  | Some a => get_req a ≫= λ _, mmodify (λ c, set_c_reqs (delete a (c_reqs c)) c)
  end.

(** [io_uring_get_sqe] to [io_uring_submit] *)
Definition c_submit (e : central_sqe) : Cen unit := λ c,
  match c_ring c with
  | None => Err UseAfterFree
  | Some l => Ok (tt, set_c_ring (Some (l ++ [e])) c)
  end.

Definition c_read (fd buf_off len off req : Z) : central_sqe :=
  {| cs_op := IoRead; cs_fd := fd; cs_buf_off := buf_off; cs_len := len; cs_off := off; cs_req := req |}.
Definition c_write (fd buf_off len req : Z) : central_sqe :=
  {| cs_op := IoWrite; cs_fd := fd; cs_buf_off := buf_off; cs_len := len; cs_off := 0; cs_req := req |}.

Definition add_event_read_req (event_fd : Z) (event : central_web_server_event) (custom_info : Z) : Cen unit :=
  new_req {| cr_event := event; cr_buff := replicate 8 nul; cr_buff_ptr := PNull;
             cr_size := to_u64 (-1); cr_progress_bytes := 0; cr_fd := event_fd;
             cr_custom_info := custom_info |} ≫= λ req,
  c_submit (c_read event_fd 0 8 0 req).

Definition add_read_req (fd size : Z) : Cen unit :=
  new_req {| cr_event := READ; cr_buff := replicate (Z.to_nat size) nul; cr_buff_ptr := PNull;
             cr_size := to_u64 (-1); cr_progress_bytes := 0; cr_fd := fd;
             cr_custom_info := to_u64 (-1) |} ≫= λ req,
  c_submit (c_read fd 0 (to_u32 size) 0 req).

Definition add_timer_read_req (timer_fd : Z) : Cen unit :=
  new_req {| cr_event := TIMERFD; cr_buff := replicate 8 nul; cr_buff_ptr := PNull;
             cr_size := to_u64 (-1); cr_progress_bytes := 0; cr_fd := timer_fd;
             cr_custom_info := to_u64 (-1) |} ≫= λ req,
  c_submit (c_read timer_fd 0 8 0 req).

Definition add_write_req (fd : Z) (buff_ptr : char_ptr) (size : Z) : Cen unit :=
  new_req {| cr_event := WRITE; cr_buff := []; cr_buff_ptr := buff_ptr; cr_size := size;
             cr_progress_bytes := 0; cr_fd := fd; cr_custom_info := to_u64 (-1) |} ≫= λ req,
  c_submit (c_write fd 0 (to_u32 size) req).

(** The lengths given to [io_uring_prep_read] and [io_uring_prep_write] are
    [unsigned]. *)
Definition read_req_continued (req last_read : Z) : Cen unit :=
  get_req req ≫= λ r,
  let r := cr_set_progress (to_u64 (cr_progress_bytes r + last_read)) r in
  put_req req r ≫= λ _,
  c_submit (c_read (cr_fd r) (cr_progress_bytes r) (to_u32 (len (cr_buff r) - cr_progress_bytes r))
              (cr_progress_bytes r) req).

Definition write_req_continued (req written : Z) : Cen unit :=
  get_req req ≫= λ r,
  let r := cr_set_progress (to_u64 (cr_progress_bytes r + written)) r in
  put_req req r ≫= λ _,
  c_submit (c_write (cr_fd r) (cr_progress_bytes r) (to_u32 (cr_size r - cr_progress_bytes r)) req).

(** ** The servers of the threads *)

(** The end of the constructors of [server<T>]. *)
Definition register_server (k : Z) : Cen unit := mmodify (λ c,
  set_c_data (c_store c) (c_closed c) (c_eventfd_writes c) (c_servers c ++ [k]) (c_threads c) c).

Definition kill_all_servers : Cen unit :=
  mget ≫= λ c, mfor (c_servers c) (λ k, on_thread k (on_server ServerBase.kill_server)).

(** [sizeof(kill_sig)] *)
Definition kill_sig_size : Z := 4.

(** The servers of the other type have none in their vector. *)
Definition kill_server : Cen unit :=
  mmodify (λ c, set_c_data (c_store c) (c_closed c)
                  (c_eventfd_writes c ++ [(c_event_fd c, kill_sig_size)]) (c_servers c) (c_threads c) c) ≫= λ _,
  kill_all_servers.

(** The handler of SIGINT, apart from its message. *)
Definition sigint_handler : Cen unit := kill_server.

Section Run.
Context `{!ServerType X, !TcpServer X}.

(** The body of [thread_server_runner] up to [start]. *)
Definition thread_server_runner (k : Z) : Cen unit :=
  register_server k ≫= λ _, on_thread k set_tcp_server.

(** The head of [run]: lines 185 to 218. *)
Definition run_init (timer_fd : Z) : Cen unit :=
  mmodify (set_c_ring (Some [])) ≫= λ _,
  mget ≫= λ c,
  mfor (seqZ 0 (len (c_threads c))) (λ idx,
    mget ≫= λ c, mlift (vget (c_comm_fds c) idx) ≫= λ fd,
    add_event_read_req fd SERVER_THREAD_COMMUNICATION idx) ≫= λ _,
  add_event_read_req (c_kill_server_efd c) KILL_SERVER 0 ≫= λ _,
  mmodify (set_c_timer timer_fd) ≫= λ _,
  add_timer_read_req timer_fd.

(** A tick: the message becomes an item that is posted to every thread. *)
Definition handle_tick (iter : gset Z → list Z) : Cen unit :=
  mlift (make_ws_frame (lit "haha") text_frame) ≫= λ ws_data,
  mget ≫= λ c,
  let num_threads := len (c_threads c) in
  mlift (insert_item iter (c_store c) ws_data num_threads) ≫= λ '((idx, size), store),
  mmodify (set_c_store store) ≫= λ _,
  mfor (seqZ 0 num_threads) (λ k, on_thread k
    (post_message_to_server_thread websocket_broadcast (PStoreItem idx) size idx (to_u64 (-1)))) ≫= λ _,
  add_timer_read_req (c_timer_fd c).

(** A thread is done with an item. *)
Definition handle_report (r : central_web_server_req) : Cen unit :=
  mwhen (negb (cr_custom_info r =? to_u64 (-1))) (
    on_thread (cr_custom_info r) (on_web get_from_to_program_queue) ≫= λ data,
    mget ≫= λ c,
    mlift (free_item (c_store c) (mp_item_idx data)) ≫= λ store,
    mmodify (set_c_store store) ≫= λ _,
    add_event_read_req (cr_fd r) SERVER_THREAD_COMMUNICATION (cr_custom_info r)).

(** The [switch]: whether to go on, and what [req] points to then. *)
Definition handle_event (iter : gset Z → list Z) (req res : Z) : Cen (bool * option Z) :=
  get_req req ≫= λ r,
  match cr_event r with
  | KILL_SERVER =>
      mmodify (set_c_ring None) ≫= λ _, mget ≫= λ c, c_close (c_event_fd c) ≫= λ _,
      mret (false, Some req)
  | TIMERFD => handle_tick iter ≫= λ _, mret (true, Some req)
  | SERVER_THREAD_COMMUNICATION => handle_report r ≫= λ _, mret (true, Some req)
  | READ =>
      if len (cr_buff r) =? to_u64 (res + cr_progress_bytes r) then mret (true, Some req)
      else read_req_continued req res ≫= λ _, mret (true, None)
  | WRITE =>
      mwhen (to_u64 (res + cr_progress_bytes r) <? cr_size r) (write_req_continued req res) ≫= λ _,
      mret (true, Some req)
  end.

(** [io_uring_cqe_seen] writes into the ring. *)
Definition cqe_seen : Cen unit := λ c,
  match c_ring c with None => Err UseAfterFree | Some _ => Ok (tt, c) end.

(** Reading an eventfd sets its counter to 0. *)
Definition reset_eventfd (fd : Z) : Cen unit := λ c,
  match list_find (λ x, x = fd) (c_comm_fds c) with
  | None => Ok (tt, c)
  | Some (k, _) => on_thread (Z.of_nat k) (on_web (mmodify (λ w,
      set_web_queues {| to_server_queue := to_server_queue (web_queues w);
                        to_program_queue := to_program_queue (web_queues w);
                        central_eventfd := 0 |} w))) c
  end.

(** What the kernel does for a request that ends with [res]. *)
Definition c_kernel_io (q : central_sqe) (res : Z) (data : list char) : Cen unit :=
  mwhen (0 <? res) (
    get_req (cs_req q) ≫= λ r,
    match cs_op q with
    | IoRead =>
        mlift (vsplice (cr_buff r) (cs_buf_off q) data) ≫= λ b,
        put_req (cs_req q) (cr_set_buff b r) ≫= λ _, reset_eventfd (cs_fd q)
    | _ => mret tt
    end).

(** One round of the loop; [false] ends it. *)
Definition central_step (iter : gset Z → list Z) (e : central_wait) : Cen bool :=
  match e with
  | WaitFailed =>
      mmodify (set_c_ring None) ≫= λ _, mget ≫= λ c, c_close (c_event_fd c) ≫= λ _, mret false
  | Completed pos res data =>
      mget ≫= λ c,
      match c_ring c with
      | None => mfault UseAfterFree
      | Some l =>
          match l !! pos with
          | None => mfault OutOfBounds
          | Some q =>
              mput (set_c_ring (Some (delete pos l)) c) ≫= λ _,
              c_kernel_io q res data ≫= λ _,
              if res <? 0 then cqe_seen ≫= λ _, mret true
              else
                handle_event iter (cs_req q) res ≫= λ '(run_server, req),
                delete_req req ≫= λ _, cqe_seen ≫= λ _, mret run_server
          end
      end
  end.

(** The loop, and what follows it; the threads are joined by the caller. *)
Fixpoint central_loop (iter : gset Z → list Z) (es : list central_wait) : Cen bool :=
  match es with
  | [] => mret true
  | e :: es => central_step iter e ≫= λ go : bool,
      if go then central_loop iter es
      else mget ≫= λ c, c_close (c_timer_fd c) ≫= λ _, mret false
  end.

Definition run (iter : gset Z → list Z) (timer_fd : Z) (es : list central_wait) : Cen bool :=
  run_init timer_fd ≫= λ _, central_loop iter es.

End Run.
End Central.
