(* ===== verification/CentralProps.v ===== *)
(** * Correctness of the program thread

    The program thread and the server threads as one system: steps of the
    program's loop, of [kill_server], and of each thread, in any interleaving.
    The buffer of a broadcast is shared by pointer; the invariant [system_inv] says
    who may still use an item of the data store: the threads with the item in a
    message queue or in the queues of their connections. *)

From S2P Require Import Prelude Bytes Utility CString WsFrame DataStore Cache ServerBase NonTls TcpServer WebBase WebSockets Http Callbacks WsProps BroadcastProps Central.
From Stdlib Require Import ZArith Lia.
From stdpp Require Import base gmap strings list fin_maps sets.

#[local] Open Scope Z_scope.

(** * Counting *)

Lemma sum_list_insert {A} (f : A → nat) (l : list A) k x y :
  l !! k = Some x → (sum_list_with f (<[k := y]> l) + f x = sum_list_with f l + f y)%nat.
Proof.
  revert k. induction l as [|z l IH]; intros [|k] H; try done; simpl in *.
  - injection H as ->. lia.
  - specialize (IH k H). lia.
Qed.

Lemma sum_list_fmap {A} (f g : A → nat) (h : A → A) (l : list A) :
  Forall (λ x, f (h x) = f x + g x)%nat l →
  sum_list_with f (h <$> l) = (sum_list_with f l + sum_list_with g l)%nat.
Proof. induction 1 as [|x l Hx _ IH]; [done|]. rewrite fmap_cons. cbn in *. lia. Qed.

Lemma sum_list_const {A} (f : A → nat) n (l : list A) :
  Forall (λ x, f x = n) l → sum_list_with f l = (n * length l)%nat.
Proof. induction 1 as [|x l Hx _ IH]; simpl in *; lia. Qed.

Lemma sum_list_le {A} (f : A → nat) n (l : list A) :
  Forall (λ x, (f x ≤ n)%nat) l → (sum_list_with f l ≤ n * length l)%nat.
Proof. induction 1 as [|x l Hx _ IH]; simpl in *; lia. Qed.

Lemma sum_list_0 {A} (f : A → nat) (l : list A) k x :
  sum_list_with f l = 0%nat → l !! k = Some x → f x = 0%nat.
Proof.
  revert k. induction l as [|y l IH]; intros [|k] Hs Hk; simpl in *; try done.
  - injection Hk as ->. lia.
  - apply (IH k); [lia|done].
Qed.

(** One element is added to the lists of some of the indexes. *)
Lemma bind_adds {A B} `{EqDecision A} (L idxs : list A) (f : A → list B) x :
  L ≫= (λ j, f j ++ (if decide (j ∈ idxs) then [x] else [])) ≡ₚ
  (L ≫= f) ++ replicate (length (filter (λ j, j ∈ idxs) L)) x.
Proof.
  induction L as [|j L IH]; simpl; [done|]. rewrite filter_cons, IH. case_decide; simpl.
  - solve_Permutation.
  - by rewrite app_nil_r, app_assoc.
Qed.

Lemma filter_all_idxs {A} `{EqDecision A} (L idxs : list A) :
  NoDup L → NoDup idxs → idxs ⊆ L → length (filter (λ j, j ∈ idxs) L) = length idxs.
Proof.
  intros HL Hi Hsub. apply Permutation_length, NoDup_Permutation; [by apply NoDup_filter|done|].
  intros x. rewrite list_elem_of_filter. split; [tauto|]. intros Hx. split; [done|]. by apply Hsub.
Qed.

(** * Broadcasts in the queues of a thread *)

Section Broadcasts.
Context {X : Type}.
Implicit Types (s : server_base X) (w : web_server).

(** A queued write with the [custom_info] of a broadcast: pointer, length, item. *)
Abbreviation entry := (char_ptr * Z * Z)%type.

Definition entry_of (m : queued_msg) : list entry :=
  match m with QPtr p n i => if i =? -1 then [] else [(p, n, i)] | _ => [] end.

Definition broadcasts s : list entry :=
  seqZ 0 (len (clients s)) ≫= λ j, tcp_queue s j ≫= entry_of.

(** The queued writes of item [i]. *)
Definition item_writes (i : Z) s : nat := length (filter (λ x : entry, x.2 = i) (broadcasts s)).

Lemma item_writes_perm i s l : broadcasts s ≡ₚ l → item_writes i s = length (filter (λ x : entry, x.2 = i) l).
Proof. intros H. unfold item_writes. by rewrite H. Qed.

Lemma bind_ext_in {A B} (L : list A) (f g : A → list B) :
  (∀ j, f j = g j) → L ≫= f = L ≫= g.
Proof. intros H. induction L as [|j L IH]; [done|]. simpl. f_equal; [apply H|exact IH]. Qed.

(** A message that is queued for connections of the server. *)
Lemma queued_broadcasts idxs p n i s s' :
  queued_for idxs (QPtr p n i) s s' → i ≠ -1 → NoDup idxs → idxs ⊆ seqZ 0 (len (clients s)) →
  broadcasts s' ≡ₚ broadcasts s ++ replicate (length idxs) (p, n, i).
Proof.
  intros [Hc Hq] Hi Hnd Hsub. unfold broadcasts. rewrite (same_conns_len _ _ Hc).
  rewrite (bind_ext_in _ _ (λ j, (tcp_queue s j ≫= entry_of) ++ (if decide (j ∈ idxs) then [(p, n, i)] else []))).
  - rewrite bind_adds, filter_all_idxs by (done || apply NoDup_seqZ). done.
  - intros j. rewrite Hq, bind_app. f_equal. case_decide; [|done]. simpl.
    by rewrite (proj2 (Z.eqb_neq i (-1))).
Qed.

End Broadcasts.

(** * The state of a thread *)

(** The frame of a tick, and the message that posts item [i]. *)
Definition frame : list char := server_frame 1 (lit "haha").

Definition posted (i : Z) : message_post_data :=
  {| mp_type := websocket_broadcast; mp_buff_ptr := PStoreItem i; mp_length := len frame;
     mp_item_idx := i; mp_additional_info := to_u64 (-1) |}.

Definition msgs_of (i : Z) (l : list message_post_data) : nat :=
  length (filter (λ m, mp_item_idx m = i) l).

Section Threads.
Context {X : Type} `{!ServerType X, !TcpServer X, !TcpServerLaws X}.
Implicit Types (s : server_base X) (w : web_server) (t : server_base X * web_server).

(** Thread [t] has not given up its use of item [i]: the item is posted and not
    taken up, queued for a connection, or reported and not read. *)
Definition owes (i : Z) t : nat :=
  msgs_of i (to_server_queue (web_queues t.2)) +
  (if decide (item_writes i t.1 = 0%nat) then 0 else 1) +
  msgs_of i (to_program_queue (web_queues t.2)).

Record thread_inv t : Prop := {
  ti_posts : Forall (λ m, ∃ i, m = posted i ∧ 0 ≤ i < 2 ^ 31 - 1) (to_server_queue (web_queues t.2));
  ti_entries : Forall (λ x, ∃ i, x = (PStoreItem i, len frame, i) ∧ 0 ≤ i) (broadcasts t.1);
  ti_uses : ∀ i, item_writes i t.1 ≠ 0%nat →
    tcp_server_set t.2 = true ∧ Z.of_nat (item_writes i t.1) < 2 ^ 31 ∧
    uses_left t.2 (posted i) (Z.of_nat (item_writes i t.1));
  ti_owes : ∀ i, (owes i t ≤ 1)%nat;
  ti_counter : central_eventfd (web_queues t.2) ≤ len (to_program_queue (web_queues t.2))
}.

Lemma msgs_of_cons i m l : msgs_of i (m :: l) = ((if decide (mp_item_idx m = i) then 1 else 0) + msgs_of i l)%nat.
Proof. unfold msgs_of. rewrite filter_cons. by case_decide. Qed.

Lemma msgs_of_nil i : msgs_of i [] = 0%nat.
Proof. done. Qed.

Lemma msgs_of_one i m : msgs_of i [m] = if decide (mp_item_idx m = i) then 1%nat else 0%nat.
Proof. rewrite msgs_of_cons, msgs_of_nil. by case_decide. Qed.

Lemma msgs_of_app i l1 l2 : msgs_of i (l1 ++ l2) = (msgs_of i l1 + msgs_of i l2)%nat.
Proof. unfold msgs_of. by rewrite filter_app, length_app. Qed.

Lemma entries_of_replicate (i j : Z) n p l :
  length (filter (λ x : char_ptr * Z * Z, x.2 = i) (replicate n (p, l, j))) = if decide (j = i) then n else 0%nat.
Proof.
  induction n as [|n IH]; simpl; [by case_decide|]. rewrite filter_cons. simpl.
  destruct (decide (j = i)); simpl; by rewrite IH.
Qed.

Lemma served_idxs e s w :
  IterOrder (env_iter e) → tcp_inv s → sockets_served s w →
  NoDup (env_iter e (active_websocket_connections_client_idxs (web_sockets w))) ∧
  env_iter e (active_websocket_connections_client_idxs (web_sockets w)) ⊆ seqZ 0 (len (clients s)) ∧
  length (env_iter e (active_websocket_connections_client_idxs (web_sockets w))) =
    size (active_websocket_connections_client_idxs (web_sockets w)).
Proof.
  intros Hiter Hs (HA & _ & _). split_and!; [by apply iter_NoDup| |by rewrite (iter_perm (iter := env_iter e))].
  intros i Hi. apply (iter_elem (env_iter e)) in Hi. destruct (law_client s i Hs) as [c Hc]; [set_solver|].
  apply vget_range in Hc. apply elem_of_seqZ. lia.
Qed.

(** The counts after [event_cb] took up item [i0]. *)
Lemma taken_up_counts e i0 rest s w s' w' :
  IterOrder (env_iter e) → tcp_inv s → sockets_served s w → 0 ≤ i0 →
  taken_up e (posted i0) rest s w s' w' →
  let n := size (active_websocket_connections_client_idxs (web_sockets w)) in
  broadcasts s' ≡ₚ broadcasts s ++ replicate n (PStoreItem i0, len frame, i0) ∧
  (∀ i, item_writes i s' = item_writes i s + if decide (i0 = i) then n else 0)%nat ∧
  to_program_queue (web_queues w') =
    to_program_queue (web_queues w) ++ (if decide (n = 0%nat) then [finished_msg (posted i0)] else []) ∧
  central_eventfd (web_queues w') = central_eventfd (web_queues w) + (if decide (n = 0%nat) then 1 else 0).
Proof.
  intros Hiter Hs HA Hi0 [Hq _ _ _ _ [Hp He]] n. destruct (served_idxs e s w Hiter Hs HA) as (Hnd & Hsub & Hlen).
  assert (broadcasts s' ≡ₚ broadcasts s ++ replicate n (PStoreItem i0, len frame, i0)) as Hb.
  { unfold n. rewrite <-Hlen. eapply queued_broadcasts; [exact Hq|simpl; lia|done|done]. }
  split_and!; [exact Hb| | |].
  - intros i. rewrite (item_writes_perm i s' _ Hb), filter_app, length_app, entries_of_replicate. done.
  - rewrite Hp. fold n. f_equal. case_decide as Hn; [by rewrite Hn|].
    by rewrite (proj2 (Z.eqb_neq _ 0)) by lia.
  - rewrite He. fold n. case_decide as Hn; [by rewrite Hn|].
    by rewrite (proj2 (Z.eqb_neq _ 0)) by lia.
Qed.

(** Taking up a post moves the thread's use of the item to its connections. *)
Lemma take_up_inv e s w s' w' :
  IterOrder (env_iter e) → thread_inv (s, w) → tcp_inv s → tcp_server_set w = true →
  sockets_served s w → to_server_queue (web_queues w) ≠ [] →
  event_cb e (s, w) = Ok (tt, (s', w')) →
  thread_inv (s', w') ∧ tcp_server_set w' = true ∧ ∀ i, owes i (s', w') = owes i (s, w).
Proof.
  intros Hiter [Hposts Hent Huses Howes Hcnt] Hs Hset HA Hne Hrun. simpl in *.
  destruct (to_server_queue (web_queues w)) as [|m rest] eqn:Eq; [done|]. clear Hne.
  apply Forall_cons in Hposts as [(i0 & -> & Hi0) Hposts].
  destruct (event_cb_run e s w (posted i0) rest Hiter Hs Hset HA Eq Hi0 ltac:(done)) as (s2 & w2 & E & Hs2 & Ht).
  rewrite Hrun in E. injection E as <- <-.
  destruct (taken_up_counts e i0 rest s w s' w' Hiter Hs HA ltac:(lia) Ht) as (Hb & Hw & Hp & He).
  destruct Ht as [_ Hset' [_ Hother] Hq' Hleft _]. set (n := size _) in *.
  assert (∀ i, owes i (s, w) = (if decide (i0 = i) then 1 else 0) + msgs_of i rest +
    (if decide (item_writes i s = 0%nat) then 0 else 1) + msgs_of i (to_program_queue (web_queues w)))%nat as Eo.
  { intros i. unfold owes. simpl. rewrite Eq, msgs_of_cons. done. }
  pose proof (Howes i0) as Ho0. rewrite Eo, decide_True in Ho0 by done.
  assert (item_writes i0 s = 0%nat) as Hw0 by (destruct (decide (item_writes i0 s = 0%nat)); [done|lia]).
  assert (∀ i, owes i (s', w') = owes i (s, w)) as Hsame.
  { intros i. rewrite Eo. unfold owes. simpl. rewrite Hq', Hp, Hw, msgs_of_app.
    destruct (decide (i0 = i)) as [<-|Hi].
    - rewrite Hw0. destruct (decide (n = 0%nat)) as [Hn|Hn].
      + rewrite Hn, msgs_of_one, !decide_True by done. lia.
      + rewrite decide_False, decide_True, msgs_of_nil by lia. lia.
    - rewrite Nat.add_0_r. destruct (decide (n = 0%nat)); [|rewrite msgs_of_nil; lia].
      rewrite msgs_of_one, (decide_False (P := _ = i)) by done. lia. }
  split_and!; [|done|exact Hsame]. split; simpl.
  - by rewrite Hq'.
  - rewrite Hb. apply Forall_app. split; [done|]. apply Forall_replicate. exists i0. split; [done|lia].
  - intros i. rewrite Hw. destruct (decide (i0 = i)) as [<-|Hi].
    + rewrite Hw0. simpl. intros Hn. destruct HA as (_ & _ & Hmax). fold n in Hmax.
      split_and!; [done|lia|]. apply Hleft. lia.
    + rewrite Nat.add_0_r. intros Hn. destruct (Huses i Hn) as (_ & Hlt & Hl).
      split_and!; [done|done|]. apply Hother; [simpl; congruence|exact Hl].
  - intros i. rewrite Hsame. apply Howes.
  - rewrite Hp, He, len_app. destruct (decide (n = 0%nat)); unfold len in *; simpl in *; lia.
Qed.

(** A queued write of an item ends; the last one of the thread reports it. *)
Lemma write_ended_inv x s w s1 s' w' :
  thread_inv (s, w) → broadcasts s ≡ₚ x :: broadcasts s1 →
  broadcast_done x.2 (s1, w) = Ok (tt, (s', w')) →
  s' = s1 ∧ thread_inv (s', w') ∧ tcp_server_set w' = true ∧ ∀ i, owes i (s', w') = owes i (s, w).
Proof.
  intros [Hposts Hent Huses Howes Hcnt] Hb Hrun. simpl in *. rewrite Hb in Hent.
  apply Forall_cons in Hent as [(i0 & -> & Hi0) Hent].
  assert (∀ i, item_writes i s = (if decide (i0 = i) then 1 else 0) + item_writes i s1)%nat as Hw.
  { intros i. rewrite (item_writes_perm i s _ Hb). rewrite filter_cons. simpl. by case_decide. }
  pose proof (Hw i0) as Hw0. rewrite decide_True in Hw0 by done.
  destruct (Huses i0) as (Hset & Hlt & Hl); [lia|].
  destruct (broadcast_done_run (posted i0) (Z.of_nat (item_writes i0 s)) s1 w Hset)
    as (w2 & E & Hl' & [Hp He] & Hset' & [_ Hother] & Hq); [done|lia|done|].
  simpl in *. rewrite Hrun in E. injection E as -> ->.
  pose proof (Howes i0) as Ho0. unfold owes in Ho0. simpl in Ho0. rewrite decide_False in Ho0 by lia.
  assert (∀ i, owes i (s1, w2) = owes i (s, w)) as Hsame.
  { intros i. specialize (Hw i). unfold owes. simpl. rewrite Hq, Hp, msgs_of_app.
    destruct (decide (i0 = i)) as [<-|Hi].
    - rewrite (decide_False (P := item_writes i0 s = 0%nat)) by lia.
      destruct (Z.eqb_spec (Z.of_nat (item_writes i0 s)) 1).
      + rewrite msgs_of_one, !decide_True by (done || lia). lia.
      + rewrite decide_False, msgs_of_nil by lia. lia.
    - simpl in Hw. rewrite Hw. destruct (Z.eqb_spec (Z.of_nat (item_writes i0 s)) 1);
        [|rewrite msgs_of_nil; lia]. rewrite msgs_of_one, (decide_False (P := _ = i)) by done. lia. }
  split_and!; [done| |done|exact Hsame]. split; simpl.
  - by rewrite Hq.
  - done.
  - intros i Hi. destruct (decide (i0 = i)) as [<-|Hne].
    + split_and!; [done|lia|]. by replace (Z.of_nat (item_writes i0 s1)) with (Z.of_nat (item_writes i0 s) - 1) by lia.
    + destruct (Huses i) as (_ & Hlt2 & Hl2); rewrite Hw, decide_False in * by done; [done|]. simpl in *.
      split_and!; [done|done|]. apply Hother; [simpl; congruence|exact Hl2].
  - intros i. rewrite Hsame. apply Howes.
  - rewrite Hp, He, len_app. destruct (_ =? 1); unfold len in *; simpl in *; lia.
Qed.

(** What the rest of a thread does leaves the messages and the broadcasts alone. *)
Record other_step t t' : Prop := {
  os_broadcasts : broadcasts t'.1 ≡ₚ broadcasts t.1;
  os_queues : web_queues t'.2 = web_queues t.2;
  os_data : broadcast_data t'.2 = broadcast_data t.2;
  os_set : tcp_server_set t.2 = true → tcp_server_set t'.2 = true
}.

Lemma other_step_inv t t' :
  thread_inv t → other_step t t' → thread_inv t' ∧ ∀ i, owes i t' = owes i t.
Proof.
  intros [Hposts Hent Huses Howes Hcnt] [Hb Hq Hd Hs].
  assert (∀ i, item_writes i t'.1 = item_writes i t.1) as Hw.
  { intros i. by rewrite (item_writes_perm i _ _ Hb). }
  assert (∀ i, owes i t' = owes i t) as Hsame by (intros i; unfold owes; by rewrite Hq, Hw).
  split; [|done]. split; rewrite ?Hq; [done|by rewrite Hb| |intros i; by rewrite Hsame|done].
  intros i. rewrite Hw. intros Hi. destruct (Huses i Hi) as (Hset & Hlt & Hl).
  split_and!; [auto|done|]. unfold uses_left. by rewrite Hd.
Qed.

(** The program posts item [i] to a thread: nothing happens before the thread is
    ready. *)
Definition post_to (i : Z) t : server_base X * web_server :=
  let '(s, w) := t in
  if tcp_server_set w then
    (srv_obs (ran_server s) (is_active s) (closed s) (eventfd_writes s ++ [notification_efd s]) (wire s) s,
     push_to_server (posted i) w)
  else (s, w).

Lemma post_to_run i t :
  post_message_to_server_thread websocket_broadcast (PStoreItem i) (len frame) i (to_u64 (-1)) t =
    Ok (tt, post_to i t).
Proof.
  destruct t as [s w]. unfold post_message_to_server_thread. rewrite (on_web_bind _ _ _ _ w w) by done.
  simpl. destruct (tcp_server_set w) eqn:Hw; [|done]. simpl.
  rewrite (on_web_bind _ _ _ _ tt (push_to_server (posted i) w)) by done. by apply on_tcp_run.
Qed.

Lemma post_to_inv i t :
  thread_inv t → 0 ≤ i < 2 ^ 31 - 1 → owes i t = 0%nat →
  thread_inv (post_to i t) ∧
  ∀ j, owes j (post_to i t) = (owes j t + if decide (i = j ∧ tcp_server_set t.2 = true) then 1 else 0)%nat.
Proof.
  destruct t as [s w]. intros Hinv Hi H0. pose proof Hinv as [Hposts Hent Huses Howes Hcnt]. simpl in *.
  assert (∀ j, owes j (post_to i (s, w)) =
    (owes j (s, w) + if decide (i = j ∧ tcp_server_set w = true) then 1 else 0)%nat) as Ho.
  { intros j. unfold owes, post_to. destruct (tcp_server_set w); simpl.
    - rewrite msgs_of_app, msgs_of_one. change (mp_item_idx (posted i)) with i.
      change (item_writes j (srv_obs _ _ _ _ _ s)) with (item_writes j s).
      destruct (decide (i = j)); [rewrite (decide_True (P := _ ∧ _)) by done|
        rewrite (decide_False (P := _ ∧ _)) by tauto]; lia.
    - rewrite (decide_False (P := _ ∧ _)) by (by intros []). lia. }
  split; [|exact Ho]. unfold post_to in *. destruct (tcp_server_set w) eqn:Hw; [|done].
  split; simpl; [|done| |intros j|done].
  - apply Forall_app. split; [done|]. constructor; [|constructor]. by exists i.
  - intros j Hj. exact (ti_uses _ Hinv j Hj).
  - rewrite Ho. destruct (decide (i = j ∧ true = true)) as [[<- _]|_]; [rewrite H0; lia|].
    rewrite Nat.add_0_r. apply Howes.
Qed.

(** The program reads a report. *)
Definition report_read t : server_base X * web_server :=
  (t.1, set_web_queues {| to_server_queue := to_server_queue (web_queues t.2);
                          to_program_queue := tail (to_program_queue (web_queues t.2));
                          central_eventfd := 0 |} t.2).

Lemma report_read_inv t m rest :
  thread_inv t → to_program_queue (web_queues t.2) = m :: rest →
  thread_inv (report_read t) ∧
  ∀ i, owes i t = ((if decide (mp_item_idx m = i) then 1 else 0) + owes i (report_read t))%nat.
Proof.
  intros [Hposts Hent Huses Howes Hcnt] Hq.
  assert (∀ i, owes i t = ((if decide (mp_item_idx m = i) then 1 else 0) + owes i (report_read t))%nat) as Ho.
  { intros i. unfold owes, report_read. simpl. rewrite Hq, msgs_of_cons. simpl. lia. }
  split; [|exact Ho]. split; simpl; try done.
  - intros i. specialize (Howes i). rewrite Ho in Howes. lia.
  - rewrite Hq. simpl. apply len_nonneg.
Qed.

End Threads.

(** * The system *)

Section System.
Context {X : Type} `{!ServerType X, !TcpServer X, !TcpServerLaws X}.
Implicit Types (c : central X) (t : server_base X * web_server).

(** ** Invariant *)

(** A request the kernel has is one for 8 bytes of the timer, of the eventfd of a
    thread, or of [kill_server_efd]. *)
Definition sqe_ok c (q : central_sqe) : Prop :=
  ∃ r, c_reqs c !! cs_req q = Some r ∧ q = c_read (cr_fd r) 0 8 0 (cs_req q) ∧ len (cr_buff r) = 8 ∧
    match cr_event r with
    | TIMERFD => cr_fd r = c_timer_fd c
    | SERVER_THREAD_COMMUNICATION => vget (c_comm_fds c) (cr_custom_info r) = Ok (cr_fd r)
    | KILL_SERVER => cr_fd r = c_kill_server_efd c
    | _ => False
    end.

Record control_inv c (l : list central_sqe) : Prop := {
  ct_ring : c_ring c = Some l;
  ct_once : NoDup (cs_req <$> l);
  ct_sqes : Forall (sqe_ok c) l;
  ct_next : ∀ a, is_Some (c_reqs c !! a) → a < c_next c;
  ct_fds : NoDup (c_timer_fd c :: c_kill_server_efd c :: c_comm_fds c);
  ct_threads : length (c_comm_fds c) = length (c_threads c) ∧ 1 ≤ len (c_threads c) < 2 ^ 31;
  ct_writes : Forall (λ x, x.2 = kill_sig_size) (c_eventfd_writes c)
}.

(** The threads that have not given up item [i]. *)
Definition owing (i : Z) (th : list (server_base X * web_server)) : nat := sum_list_with (owes i) th.

(** A live item has a use left for each thread that owes one, and no more when all
    threads were ready from the start ([R]). *)
Definition uses_cover (R : Prop) (m : spec_store) (th : list (server_base X * web_server)) : Prop :=
  ∀ i, match m !! i with
       | Some (b, u) => b = frame ∧ Z.of_nat (owing i th) ≤ u ∧ (R → Z.of_nat (owing i th) = u)
       | None => owing i th = 0%nat
       end.

Record items_inv (R : Prop) c : Prop := {
  it_store : ∃ m, store_rel (c_store c) m ∧ uses_cover R m (c_threads c);
  it_threads : Forall thread_inv (c_threads c);
  it_ready : R → Forall (λ t, tcp_server_set t.2 = true) (c_threads c)
}.

Definition system_inv (R : Prop) c : Prop := (∃ l, control_inv c l) ∧ items_inv R c.

(** ** The kernel and the steps *)

(** A descriptor that can be read: the timer, a signalled eventfd of a thread, or an
    eventfd that 8 bytes were written to. *)
Definition signalled c (fd : Z) : Prop :=
  fd = c_timer_fd c ∨
  (∃ k t, c_comm_fds c !! k = Some fd ∧ c_threads c !! k = Some t ∧ 0 < central_eventfd (web_queues t.2)) ∨
  (fd, 8) ∈ c_eventfd_writes c.

Definition central_legal c (e : central_wait) : Prop :=
  match e with
  | WaitFailed => False
  | Completed pos res data =>
      ∃ l q, c_ring c = Some l ∧ l !! pos = Some q ∧
        (res < 0 ∨ (res = 8 ∧ len data = 8 ∧ signalled c (cs_fd q)))
  end.

Definition put_thread (k : nat) t c : central X := set_c_threads (<[k := t]> (c_threads c)) c.

Inductive system_step (iter : gset Z → list Z) (e : env) : central X → central X → Prop :=
| step_program ev go c c' :
    central_legal c ev → len (ds_vec (c_store c)) < 2 ^ 31 - 2 →
    central_step iter ev c = Ok (go, c') → system_step iter e c c'
| step_kill_server c c' : Central.kill_server c = Ok (tt, c') → system_step iter e c c'
| step_take_up k s w s' w' c :
    c_threads c !! k = Some (s, w) → tcp_inv s → tcp_server_set w = true → sockets_served s w →
    to_server_queue (web_queues w) ≠ [] → event_cb e (s, w) = Ok (tt, (s', w')) →
    system_step iter e c (put_thread k (s', w') c)
| step_write_ended k s w x s1 s' w' c :
    c_threads c !! k = Some (s, w) → broadcasts s ≡ₚ x :: broadcasts s1 →
    broadcast_done x.2 (s1, w) = Ok (tt, (s', w')) → system_step iter e c (put_thread k (s', w') c)
| step_other k t t' c :
    c_threads c !! k = Some t → other_step t t' → system_step iter e c (put_thread k t' c).

(** Before [run]: no items, no requests, and threads with empty queues. *)
Record not_started c : Prop := {
  ns_store : c_store c = empty_store;
  ns_reqs : c_reqs c = ∅;
  ns_writes : c_eventfd_writes c = [];
  ns_threads : Forall (λ t, broadcasts t.1 = [] ∧
     web_queues t.2 = {| to_server_queue := []; to_program_queue := []; central_eventfd := 0 |}) (c_threads c);
  ns_len : length (c_comm_fds c) = length (c_threads c) ∧ 1 ≤ len (c_threads c) < 2 ^ 31
}.

(** The states that [run] and the threads reach. *)
Definition reachable (iter : gset Z → list Z) (e : env) (c0 c : central X) : Prop :=
  not_started c0 ∧ ∃ timer c1, NoDup (timer :: c_kill_server_efd c0 :: c_comm_fds c0) ∧
    run_init timer c0 = Ok (tt, c1) ∧ rtc (system_step iter e) c1 c.

(** ** Running the operations *)

Lemma on_thread_run {A} k t (m : M (server_base X * web_server) A) a t' c :
  vget (c_threads c) k = Ok t → m t = Ok (a, t') →
  on_thread k m c = Ok (a, put_thread (Z.to_nat k) t' c).
Proof.
  intros Hk Hm. pose proof (vget_range _ _ _ Hk). unfold on_thread. rewrite Hk. step_ok. rewrite Hm.
  step_ok. by rewrite vset_is_Ok by done.
Qed.

Lemma set_threads_same c : set_c_threads (c_threads c) c = c.
Proof. by destruct c. Qed.

(** A loop that does the same in every thread. *)
Lemma on_all_threads (m : M (server_base X * web_server) unit) g :
  (∀ t, m t = Ok (tt, g t)) → ∀ l2 l1 c, c_threads c = l1 ++ l2 →
  mfor (seqZ (len l1) (len l2)) (λ k, on_thread k m) c =
    Ok (tt, set_c_threads (l1 ++ (g <$> l2)) c).
Proof.
  intros Hm. induction l2 as [|t l2 IH]; intros l1 c Hc.
  - simpl. rewrite <-Hc, set_threads_same. done.
  - rewrite len_cons. rewrite seqZ_cons by len_lia. simpl.
    assert (vget (c_threads c) (len l1) = Ok t) as Hk.
    { rewrite Hc, vget_app_r, Z.sub_diag by lia. done. }
    rewrite (M_bind_run _ _ _ _ _ (on_thread_run _ _ _ _ _ _ Hk (Hm t))).
    replace (Z.succ (len l1)) with (len (l1 ++ [g t])) by (len_norm; lia).
    replace (Z.pred (1 + len l2)) with (len l2) by lia. rewrite IH.
    + rewrite <-app_assoc. done.
    + simpl. rewrite Hc. unfold len. rewrite Nat2Z.id.
      rewrite insert_app_r_alt, Nat.sub_diag by lia. simpl. by rewrite <-app_assoc.
Qed.

(** The state after a request for an eventfd or the timer is submitted. *)
Definition event_request (fd : Z) (event : central_web_server_event) (info : Z) : central_web_server_req :=
  {| cr_event := event; cr_buff := replicate 8 nul; cr_buff_ptr := PNull; cr_size := to_u64 (-1);
     cr_progress_bytes := 0; cr_fd := fd; cr_custom_info := info |}.

Definition with_request (fd : Z) (event : central_web_server_event) (info : Z) l c : central X :=
  set_c_io (Some (l ++ [c_read fd 0 8 0 (c_next c)]))
    (<[c_next c := event_request fd event info]> (c_reqs c)) (c_next c + 1) c.

Lemma add_event_run fd event info l c :
  c_ring c = Some l → add_event_read_req fd event info c = Ok (tt, with_request fd event info l c).
Proof. intros Hl. unfold add_event_read_req, new_req, c_submit, mbind, M_bind. simpl. by rewrite Hl. Qed.

Lemma add_timer_run fd l c :
  c_ring c = Some l → add_timer_read_req fd c = Ok (tt, with_request fd TIMERFD (to_u64 (-1)) l c).
Proof. intros Hl. unfold add_timer_read_req, new_req, c_submit, mbind, M_bind. simpl. by rewrite Hl. Qed.

(** ** Requests *)

Lemma sqe_ok_ext c c' q :
  c_reqs c' !! cs_req q = c_reqs c !! cs_req q → c_timer_fd c' = c_timer_fd c →
  c_kill_server_efd c' = c_kill_server_efd c → c_comm_fds c' = c_comm_fds c → sqe_ok c q → sqe_ok c' q.
Proof. unfold sqe_ok. by intros -> -> -> ->. Qed.

Lemma sqe_live c l a : control_inv c l → a ∈ cs_req <$> l → is_Some (c_reqs c !! a).
Proof.
  intros Hc Ha. apply list_elem_of_fmap in Ha as (q & -> & Hq).
  pose proof (proj1 (Forall_forall _ _) (ct_sqes _ _ Hc) q Hq) as (r & Hr & _). by exists r.
Qed.

(** The memory of the requests the kernel does not have may change. *)
Lemma reqs_control c l q :
  control_inv c l → (∀ a, a ∈ cs_req <$> l → q !! a = c_reqs c !! a) →
  (∀ a, is_Some (q !! a) → a < c_next c) → control_inv (set_c_reqs q c) l.
Proof.
  intros [Hr Ho Hs Hn Hf Ht Hw] Hq Hlt. split; try done.
  apply Forall_forall. intros e He. apply (sqe_ok_ext c); [|done..|exact (proj1 (Forall_forall _ _) Hs e He)].
  apply Hq. by apply list_elem_of_fmap_2.
Qed.

Lemma data_control c l st cl ew sv th :
  control_inv c l → length th = length (c_threads c) → Forall (λ x, x.2 = kill_sig_size) ew →
  control_inv (set_c_data st cl ew sv th c) l.
Proof.
  intros [Hr Ho Hs Hn Hf [Ht Ht2] Hw] Hth Hew. split; try done. simpl. unfold len in *. by rewrite Hth.
Qed.

Lemma with_request_control c l fd event info :
  control_inv c l →
  match event with
  | TIMERFD => fd = c_timer_fd c
  | SERVER_THREAD_COMMUNICATION => vget (c_comm_fds c) info = Ok fd
  | KILL_SERVER => fd = c_kill_server_efd c
  | _ => False
  end → control_inv (with_request fd event info l c) (l ++ [c_read fd 0 8 0 (c_next c)]).
Proof.
  intros Hc Hev. pose proof Hc as [Hr Ho Hs Hn Hf Ht Hw].
  assert (∀ a, a ∈ cs_req <$> l → a ≠ c_next c) as Hfresh.
  { intros a Ha ->. specialize (Hn _ (sqe_live c l _ Hc Ha)). lia. }
  split; try done.
  - rewrite fmap_app. apply NoDup_app. split_and!; [done| |apply NoDup_singleton].
    intros a Ha. specialize (Hfresh a Ha). simpl. by rewrite list_elem_of_singleton.
  - apply Forall_app. split.
    + apply Forall_forall. intros q Hq. apply (sqe_ok_ext c); [|done..|exact (proj1 (Forall_forall _ _) Hs q Hq)].
      simpl. apply lookup_insert_ne. intros E. by apply (Hfresh (cs_req q)); [apply list_elem_of_fmap_2|].
    + constructor; [|constructor]. exists (event_request fd event info). simpl.
      rewrite lookup_insert_eq. by destruct event.
  - simpl. intros a. destruct (decide (a = c_next c)) as [->|Hne]; [lia|].
    rewrite lookup_insert_ne by done. intros Ha%Hn. lia.
Qed.

Lemma take_control c l pos q :
  control_inv c l → l !! pos = Some q →
  control_inv (set_c_ring (Some (delete pos l)) c) (delete pos l) ∧ cs_req q ∉ cs_req <$> delete pos l ∧ sqe_ok c q.
Proof.
  intros [Hr Ho Hs Hn Hf Ht Hw] Hq. pose proof (delete_Permutation l pos q Hq) as Hp.
  assert (NoDup (cs_req <$> q :: delete pos l)) as Hnd by (by rewrite <-Hp). simpl in Hnd.
  apply NoDup_cons in Hnd as [Hnin Hnd]. rewrite Hp in Hs. apply Forall_cons in Hs as [Hok Hs].
  split_and!; [by split|done|done].
Qed.

(** The request the loop works on. *)
Lemma get_req_run a r c : c_reqs c !! a = Some r → get_req a c = Ok (r, c).
Proof. intros H. unfold get_req. by rewrite H. Qed.

Lemma delete_run a c :
  is_Some (c_reqs c !! a) → delete_req (Some a) c = Ok (tt, set_c_reqs (delete a (c_reqs c)) c).
Proof. intros [r H]. unfold delete_req. by rewrite (M_bind_run _ _ _ _ _ (get_req_run _ _ _ H)). Qed.

(** Deleting the request and marking its completion as seen ends a round. *)
Lemma round_end a l c :
  control_inv c l → a ∉ cs_req <$> l → is_Some (c_reqs c !! a) →
  ∃ c', (delete_req (Some a) ≫= λ _, cqe_seen ≫= λ _, mret true) c = Ok (true, c') ∧
    control_inv c' l ∧ c_store c' = c_store c ∧ c_threads c' = c_threads c.
Proof.
  intros Hc Ha Hlive. rewrite (M_bind_run _ _ _ _ _ (delete_run a c Hlive)).
  exists (set_c_reqs (delete a (c_reqs c)) c). split_and!; [| |done|done].
  - rewrite (M_bind_run _ _ _ tt (set_c_reqs (delete a (c_reqs c)) c)); [done|].
    unfold cqe_seen. simpl. by rewrite (ct_ring _ _ Hc).
  - apply reqs_control; [done| |].
    + intros b Hb. apply lookup_delete_ne. by intros ->.
    + intros b [r Hr]. apply lookup_delete_Some in Hr as [_ Hr]. apply (ct_next _ _ Hc). by exists r.
Qed.

(** ** Items *)

Lemma owing_update i k t t' th :
  th !! k = Some t → (owing i (<[k := t']> th) + owes i t = owing i th + owes i t')%nat.
Proof. apply sum_list_insert. Qed.

(** A thread does something that gives up no use. *)
Lemma put_thread_items R c k t t' :
  items_inv R c → c_threads c !! k = Some t → thread_inv t' →
  (tcp_server_set t.2 = true → tcp_server_set t'.2 = true) → (∀ i, owes i t' = owes i t) →
  items_inv R (put_thread k t' c).
Proof.
  intros [(m & Hrel & Hu) Hth Hready] Hk Ht' Hset Ho. split; simpl.
  - exists m. split; [done|]. intros i. pose proof (owing_update i k t t' _ Hk) as E. rewrite Ho in E.
    replace (owing i (<[k := t']> (c_threads c))) with (owing i (c_threads c)) by lia. apply Hu.
  - by apply Forall_insert.
  - intros HR. specialize (Hready HR). apply Forall_insert; [done|]. apply Hset.
    exact (proj1 (Forall_lookup _ _) Hready k t Hk).
Qed.

Lemma insert_item_range iter `{!IterOrder iter} st m b u idx size st' :
  store_rel st m → insert_item iter st b u = Ok ((idx, size), st') → 0 ≤ idx ≤ len (ds_vec st).
Proof.
  intros Hrel. unfold insert_item. destruct (fresh_idx iter st) as [idx' st1] eqn:E.
  destruct (fresh_idx_spec iter st m idx' st1 Hrel E) as (_ & Hr & _ & _ & _ & Hl).
  rewrite vset_is_Ok by lia. step_ok. intros [= <- _ _]. lia.
Qed.

(** How many threads a post reaches. *)
Lemma post_owing i th :
  Forall thread_inv th → 0 ≤ i < 2 ^ 31 - 1 → owing i th = 0%nat →
  Forall thread_inv (post_to i <$> th) ∧
  (∀ j, j ≠ i → owing j (post_to i <$> th) = owing j th) ∧
  (owing i (post_to i <$> th) ≤ length th)%nat ∧
  (Forall (λ t, tcp_server_set t.2 = true) th → owing i (post_to i <$> th) = length th).
Proof.
  intros Hth Hi H0.
  assert (Forall (λ t, thread_inv t ∧ owes i t = 0%nat) th) as Hall.
  { apply Forall_lookup. intros k t Hk. split; [exact (proj1 (Forall_lookup _ _) Hth k t Hk)|].
    by eapply sum_list_0. }
  assert (∀ j, owing j (post_to i <$> th) =
    (owing j th + sum_list_with (λ t : server_base X * web_server, if decide (i = j ∧ tcp_server_set t.2 = true) then 1 else 0) th))%nat as E.
  { intros j. apply sum_list_fmap. eapply Forall_impl; [exact Hall|]. intros t [Ht Hz].
    by destruct (post_to_inv i t Ht Hi Hz) as [_ ->]. }
  split_and!.
  - apply Forall_fmap. eapply Forall_impl; [exact Hall|]. intros t [Ht Hz].
    by destruct (post_to_inv i t Ht Hi Hz).
  - intros j Hj. rewrite E, (sum_list_const _ 0); [lia|]. apply Forall_true. intros t.
    by rewrite decide_False by (intros [? _]; congruence).
  - rewrite E, H0. rewrite <-(Nat.mul_1_l (length th)). apply sum_list_le. apply Forall_true.
    intros t. case_decide; lia.
  - intros Hset. rewrite E, H0, (sum_list_const _ 1); [lia|]. eapply Forall_impl; [exact Hset|].
    intros t Ht. by rewrite decide_True.
Qed.

Lemma tick_run R iter `{!IterOrder iter} c l :
  items_inv R c → c_ring c = Some l → len (ds_vec (c_store c)) < 2 ^ 31 - 2 → 1 ≤ len (c_threads c) →
  ∃ st th, handle_tick iter c = Ok (tt, with_request (c_timer_fd c) TIMERFD (to_u64 (-1)) l
      (set_c_data st (c_closed c) (c_eventfd_writes c) (c_servers c) th c)) ∧
    length th = length (c_threads c) ∧
    items_inv R (set_c_data st (c_closed c) (c_eventfd_writes c) (c_servers c) th c).
Proof.
  intros [(m & Hrel & Hu) Hth Hready] Hl Hlen Hn. unfold handle_tick.
  rewrite (M_bind_run _ _ c frame c) by (unfold mlift; by rewrite make_ws_frame_spec).
  rewrite (M_bind_run _ _ c c c) by done. cbv zeta.
  destruct (insert_item_rel iter (c_store c) m frame (len (c_threads c)) Hrel Hn) as (i & st & Ei & Hm & Hrel').
  pose proof (insert_item_range iter _ _ _ _ _ _ _ Hrel Ei) as Hi.
  rewrite (M_bind_run _ _ c ((i, len frame), st) c) by (unfold mlift; by rewrite Ei).
  rewrite (M_bind_run _ _ c tt (set_c_store st c)) by done.
  rewrite (M_bind_run _ _ _ _ _ (on_all_threads _ _ (post_to_run i) (c_threads c) [] (set_c_store st c) eq_refl)).
  set (th := post_to i <$> c_threads c). exists st, th. split_and!.
  - apply (add_timer_run _ l). done.
  - unfold th. by rewrite length_fmap.
  - pose proof (Hu i) as H0. rewrite Hm in H0.
    destruct (post_owing i (c_threads c) Hth) as (Hth' & Hoth & Hle & Hall); [lia|done|].
    split; simpl; [|exact Hth'|].
    + exists (<[i := (frame, len (c_threads c))]> m). split; [done|]. intros j.
      destruct (decide (j = i)) as [->|Hj].
      * rewrite lookup_insert_eq. split_and!; [done|unfold th, len; lia|]. intros HR.
        unfold th. rewrite Hall by auto. done.
      * rewrite lookup_insert_ne by done. unfold th. rewrite Hoth by done. apply Hu.
    + intros HR. unfold th. apply Forall_fmap. eapply Forall_impl; [exact (Hready HR)|].
      intros [s w] Hw. simpl in *. by rewrite Hw.
Qed.

(** A report gives up one use of its item. *)
Lemma report_items R c k t msg rest st cl ew sv :
  items_inv R c → c_threads c !! k = Some t → to_program_queue (web_queues t.2) = msg :: rest →
  free_item (c_store c) (mp_item_idx msg) = Ok st →
  items_inv R (set_c_data st cl ew sv (<[k := report_read t]> (c_threads c)) c).
Proof.
  intros [(m & Hrel & Hu) Hth Hready] Hk Hq Hf.
  pose proof (proj1 (Forall_lookup _ _) Hth k t Hk) as Ht.
  destruct (report_read_inv t msg rest Ht Hq) as [Ht' Ho]. set (i := mp_item_idx msg) in *.
  assert (∀ j, owing j (c_threads c) =
    ((if decide (i = j) then 1 else 0) + owing j (<[k := report_read t]> (c_threads c))))%nat as Hj.
  { intros j. pose proof (owing_update j k t (report_read t) _ Hk). rewrite (Ho j) in H. lia. }
  pose proof (Hu i) as Hi. specialize (Hj i) as Hji. rewrite decide_True in Hji by done.
  destruct (m !! i) as [[b u]|] eqn:Em; [|lia].
  destruct (free_item_rel (c_store c) m i b u Hrel Em) as (st' & Hf' & Hrel').
  rewrite Hf in Hf'. injection Hf' as <-. split; simpl.
  - exists (spec_free m i). split; [done|]. intros j. unfold spec_free. rewrite Em.
    destruct Hi as (-> & Hle & HR). pose proof (sr_uses _ _ Hrel i _ _ Em). destruct (decide (j = i)) as [->|Hne].
    + destruct (Z.eqb_spec u 1); [rewrite lookup_delete_eq; lia|]. rewrite lookup_insert_eq.
      split_and!; [done|lia|]. intros HR'. specialize (HR HR'). lia.
    + specialize (Hj j). rewrite decide_False in Hj by done. simpl in Hj. specialize (Hu j). rewrite Hj in Hu.
      destruct (u =? 1); [by rewrite lookup_delete_ne|by rewrite lookup_insert_ne].
  - by apply Forall_insert.
  - intros HR. apply Forall_insert; [by apply Hready|]. simpl.
    exact (proj1 (Forall_lookup _ _) (Hready HR) k t Hk).
Qed.

(** The item of a report is live. *)
Lemma report_frees R c k t msg rest :
  items_inv R c → c_threads c !! k = Some t → to_program_queue (web_queues t.2) = msg :: rest →
  ∃ st, free_item (c_store c) (mp_item_idx msg) = Ok st.
Proof.
  intros [(m & Hrel & Hu) Hth _] Hk Hq. specialize (Hu (mp_item_idx msg)).
  destruct (m !! mp_item_idx msg) as [[b u]|] eqn:Em.
  - destruct (free_item_rel _ _ _ _ _ Hrel Em) as (st & E & _). by exists st.
  - pose proof (sum_list_0 _ _ _ _ Hu Hk) as H0. unfold owes in H0.
    rewrite Hq, msgs_of_cons, (decide_True (P := _ = mp_item_idx msg)) in H0 by done. lia.
Qed.

(** ** A round of the loop *)

Lemma find_fd (l : list Z) fd k : NoDup l → l !! k = Some fd → list_find (λ x, x = fd) l = Some (k, fd).
Proof.
  intros Hnd Hk. apply list_find_Some. split_and!; [done|done|]. intros j y Hj Hlt ->.
  pose proof (NoDup_lookup _ _ _ _ Hnd Hj Hk). lia.
Qed.

Lemma find_no_fd l fd : fd ∉ l → list_find (λ x : Z, x = fd) l = None.
Proof. intros H. apply list_find_None. apply Forall_forall. intros x Hx ->. done. Qed.

(** The 8 bytes of a completed read are stored. *)
Lemma read_stored c q r data :
  c_reqs c !! cs_req q = Some r → q = c_read (cr_fd r) 0 8 0 (cs_req q) → len (cr_buff r) = 8 → len data = 8 →
  c_kernel_io q 8 data c =
    reset_eventfd (cr_fd r) (set_c_reqs (<[cs_req q := cr_set_buff data r]> (c_reqs c)) c).
Proof.
  destruct q as [op fd off n foff a]. unfold c_read. simpl. intros Hr [= -> -> -> -> ->] Hb Hd.
  unfold c_kernel_io. simpl. rewrite (M_bind_run _ _ _ _ _ (get_req_run _ _ _ Hr)).
  rewrite (M_bind_run _ _ c data c).
  - by rewrite (M_bind_run _ _ _ tt (set_c_reqs (<[a := cr_set_buff data r]> (c_reqs c)) c)).
  - unfold mlift. rewrite <-(app_nil_r (cr_buff r)).
    rewrite (vsplice_app [] (cr_buff r) [] data) by (done || (unfold len in *; lia)).
    by rewrite app_nil_r.
Qed.

(** The request the loop works on: live, and not with the kernel. *)
Lemma working_control c l a r :
  control_inv c l → a ∉ cs_req <$> l → is_Some (c_reqs c !! a) →
  control_inv (set_c_reqs (<[a := r]> (c_reqs c)) c) l.
Proof.
  intros Hc Ha Hlive. apply reqs_control; [done| |].
  - intros b Hb. apply lookup_insert_ne. by intros ->.
  - intros b [x Hb]. apply (ct_next _ _ Hc). destruct (decide (b = a)) as [->|Hne]; [done|].
    rewrite lookup_insert_ne in Hb by done. by exists x.
Qed.

Lemma new_not_working c l a fd event info :
  control_inv c l → a ∉ cs_req <$> l → is_Some (c_reqs c !! a) →
  a ∉ cs_req <$> (l ++ [c_read fd 0 8 0 (c_next c)]) ∧
  is_Some (c_reqs (with_request fd event info l c) !! a).
Proof.
  intros Hc Ha Hlive. pose proof (ct_next _ _ Hc a Hlive). split.
  - rewrite fmap_app, elem_of_app. simpl. rewrite list_elem_of_singleton. intros [?|?]; [done|lia].
  - simpl. rewrite lookup_insert_ne by lia. done.
Qed.

Lemma items_ext R c c' :
  items_inv R c → c_store c' = c_store c → c_threads c' = c_threads c → items_inv R c'.
Proof. intros [H1 H2 H3] E1 E2. split; by rewrite ?E1, ?E2. Qed.

(** A round that handles its event and goes on with the request to delete. *)
Lemma round_with R iter (a res : Z) c l1 l2 c2 :
  handle_event iter a res c = Ok ((true, Some a), c2) → control_inv c2 l2 → a ∉ cs_req <$> l2 →
  is_Some (c_reqs c2 !! a) → items_inv R c2 → c_ring c = Some l1 →
  ∃ c', (handle_event iter a res ≫= λ '(run_server, req),
         delete_req req ≫= λ _, cqe_seen ≫= λ _, mret run_server) c = Ok (true, c') ∧ system_inv R c'.
Proof.
  intros E Hc Ha Hlive Hi Hl. rewrite (M_bind_run _ _ _ _ _ E).
  destruct (round_end a l2 c2 Hc Ha Hlive) as (c' & E' & Hc' & Es & Et). exists c'. split; [exact E'|].
  split; [by exists l2|]. by eapply items_ext.
Qed.

Lemma tick_round R iter `{!IterOrder iter} a r res c l :
  control_inv c l → items_inv R c → c_reqs c !! a = Some r → a ∉ cs_req <$> l → cr_event r = TIMERFD →
  len (ds_vec (c_store c)) < 2 ^ 31 - 2 →
  ∃ c', (handle_event iter a res ≫= λ '(run_server, req),
         delete_req req ≫= λ _, cqe_seen ≫= λ _, mret run_server) c = Ok (true, c') ∧ system_inv R c'.
Proof.
  intros Hc Hi Hr Ha Hev Hlen. pose proof Hc as [Hl _ _ _ _ [_ Hn] Hw].
  destruct (tick_run R iter c l Hi Hl Hlen) as (st & th & E & Hth & Hi'); [lia|].
  set (c1 := set_c_data st (c_closed c) (c_eventfd_writes c) (c_servers c) th c) in *.
  assert (control_inv c1 l) as Hc1 by by apply data_control.
  destruct (new_not_working c1 l a (c_timer_fd c) TIMERFD (to_u64 (-1)) Hc1 Ha) as [Ha' Hlive]; [by exists r|].
  eapply round_with; [|exact (with_request_control c1 l (c_timer_fd c) TIMERFD (to_u64 (-1)) Hc1 eq_refl)|exact Ha'|exact Hlive| |exact Hl].
  - unfold handle_event. rewrite (M_bind_run _ _ _ _ _ (get_req_run _ _ _ Hr)), Hev.
    rewrite (M_bind_run _ _ _ _ _ E). done.
  - by eapply items_ext.
Qed.

Lemma pop_report_run (s : server_base X) w msg rest :
  to_program_queue (web_queues w) = msg :: rest →
  on_web get_from_to_program_queue
    (s, set_web_queues {| to_server_queue := to_server_queue (web_queues w);
                          to_program_queue := to_program_queue (web_queues w); central_eventfd := 0 |} w) =
    Ok (msg, report_read (s, w)).
Proof.
  intros Hq. unfold on_web, get_from_to_program_queue.
  set (w0 := set_web_queues _ w).
  rewrite (M_bind_run _ _ w0 w0 w0) by done. unfold w0. simpl. rewrite Hq. unfold report_read. simpl. by rewrite Hq.
Qed.

Lemma put_put_thread k t t' c : put_thread k t' (put_thread k t c) = put_thread k t' c.
Proof. unfold put_thread. simpl. by rewrite list_insert_insert_eq. Qed.

(** A thread's eventfd was read, and with it the report. *)
Lemma report_round R iter a r res c l k t msg rest :
  control_inv c l → items_inv R c → c_reqs c !! a = Some r → a ∉ cs_req <$> l →
  cr_event r = SERVER_THREAD_COMMUNICATION → c_comm_fds c !! k = Some (cr_fd r) → cr_custom_info r = Z.of_nat k →
  c_threads c !! k = Some t → to_program_queue (web_queues t.2) = msg :: rest →
  ∃ c', (reset_eventfd (cr_fd r) ≫= λ _, handle_event iter a res ≫= λ '(run_server, req),
         delete_req req ≫= λ _, cqe_seen ≫= λ _, mret run_server) c = Ok (true, c') ∧ system_inv R c'.
Proof.
  intros Hc Hi Hr Ha Hev Hfd Hinfo Hk Hq. pose proof Hc as [Hl _ _ _ Hfds [Hth Hn] Hw]. destruct t as [s w].
  apply NoDup_cons in Hfds as [_ Hfds]. apply NoDup_cons in Hfds as [_ Hfds].
  set (t0 := (s, set_web_queues {| to_server_queue := to_server_queue (web_queues w);
    to_program_queue := to_program_queue (web_queues w); central_eventfd := 0 |} w)).
  rewrite (M_bind_run _ _ c tt (put_thread k t0 c)).
  2: { unfold reset_eventfd. rewrite (find_fd _ _ k Hfds Hfd).
       rewrite (on_thread_run _ (s, w) _ tt t0) by (done || by apply vget_nat). by rewrite Nat2Z.id. }
  assert (k < length (c_threads c))%nat as Hlt by by eapply lookup_lt_Some.
  destruct (report_frees R c k (s, w) msg rest Hi Hk Hq) as [st Hst].
  set (c2 := set_c_data st (c_closed c) (c_eventfd_writes c) (c_servers c)
    (<[k := report_read (s, w)]> (c_threads c)) c).
  assert (control_inv c2 l) as Hc2 by (by apply data_control; [|rewrite length_insert|]).
  destruct (new_not_working c2 l a (cr_fd r) SERVER_THREAD_COMMUNICATION (cr_custom_info r) Hc2 Ha)
    as [Ha' Hlive]; [by exists r|].
  assert (vget (c_comm_fds c2) (cr_custom_info r) = Ok (cr_fd r)) as Hv by (rewrite Hinfo; by apply vget_nat).
  eapply round_with; [|exact (with_request_control c2 l _ SERVER_THREAD_COMMUNICATION _ Hc2 Hv)|exact Ha'|exact Hlive| |exact Hl].
  - unfold handle_event. rewrite (M_bind_run _ _ (put_thread k t0 c) r (put_thread k t0 c)) by by apply get_req_run.
    rewrite Hev. unfold handle_report. rewrite Hinfo.
    rewrite (proj2 (Z.eqb_neq _ _)) by (change (to_u64 (-1)) with (2 ^ 64 - 1); unfold len in Hn; lia).
    simpl. rewrite (M_bind_run _ _ _ tt (with_request (cr_fd r) SERVER_THREAD_COMMUNICATION (Z.of_nat k) l c2)); [done|].
    rewrite (M_bind_run _ _ _ msg (put_thread k (report_read (s, w)) c)).
    2: { rewrite (on_thread_run _ t0 _ msg (report_read (s, w))).
         - by rewrite Nat2Z.id, put_put_thread.
         - apply vget_nat. simpl. by apply list_lookup_insert_eq.
         - exact (pop_report_run s w msg rest Hq). }
    rewrite (M_bind_run _ _ (put_thread k (report_read (s, w)) c) _ _ eq_refl).
    rewrite (M_bind_run _ _ _ st (put_thread k (report_read (s, w)) c)) by (unfold mlift; simpl; by rewrite Hst).
    rewrite (M_bind_run _ _ _ tt c2) by done. by apply add_event_run.
  - eapply (items_ext R c2); [|done|done]. by apply (report_items R c k (s, w) msg rest).
Qed.

(** A legal completion is handled without a fault, and the loop goes on. *)
Lemma central_round R iter `{!IterOrder iter} c e :
  system_inv R c → central_legal c e → len (ds_vec (c_store c)) < 2 ^ 31 - 2 →
  ∃ c', central_step iter e c = Ok (true, c') ∧ system_inv R c'.
Proof.
  intros [[l Hc] Hi] Hlegal Hlen. destruct e as [|pos res data]; [done|].
  destruct Hlegal as (l0 & q & Hl & Hq & Hres). rewrite (ct_ring _ _ Hc) in Hl. injection Hl as <-.
  destruct (take_control c l pos q Hc Hq) as (Hc1 & Ha & (r & Hr & Eq & Hb & Hev)).
  unfold central_step. rewrite (M_bind_run _ _ c c c) by done. rewrite (ct_ring _ _ Hc), Hq.
  set (l1 := delete pos l) in *. set (c1 := set_c_ring (Some l1) c) in *.
  rewrite (M_bind_run _ _ c tt c1) by done. destruct Hres as [Hneg|(-> & Hd & Hsig)].
  - unfold c_kernel_io. rewrite (proj2 (Z.ltb_ge 0 res)), (proj2 (Z.ltb_lt res 0)) by lia. simpl.
    exists c1. split; [done|]. split; [by exists l1|]. by eapply items_ext.
  - change (8 <? 0) with false. cbv iota. set (a := cs_req q) in *.
    set (c2 := set_c_reqs (<[a := cr_set_buff data r]> (c_reqs c1)) c1).
    assert (control_inv c2 l1) as Hc2 by (apply working_control; [done|done|by exists r]).
    assert (items_inv R c2) as Hi2 by by eapply items_ext.
    assert (c_reqs c2 !! a = Some (cr_set_buff data r)) as Hr2 by (simpl; by rewrite lookup_insert_eq).
    assert (cs_fd q = cr_fd r) as Efd by by rewrite Eq.
    unfold mbind at 1, M_bind at 1. rewrite (read_stored c1 q r data Hr Eq Hb Hd). fold a c2.
    pose proof (ct_fds _ _ Hc) as Hfds. apply NoDup_cons in Hfds as [Ht Hfds].
    apply NoDup_cons in Hfds as [Hk Hfds]. destruct (cr_event r) eqn:Eev; try done.
    + unfold reset_eventfd. change (c_comm_fds c2) with (c_comm_fds c).
      rewrite find_no_fd by (rewrite Hev; set_solver).
      by apply (tick_round R iter a (cr_set_buff data r) 8 c2 l1).
    + rewrite Efd in Hsig. destruct Hsig as [E|[(k & t & Hfd & Ht2 & Hpos)|Hw]].
      * apply vget_lookup in Hev as [_ Hev%list_elem_of_lookup_2]. rewrite E in Hev. set_solver.
      * pose proof (proj1 (Forall_lookup _ _) (it_threads _ _ Hi) k t Ht2) as Hti.
        pose proof (ti_counter _ Hti). destruct (to_program_queue (web_queues t.2)) as [|msg rest] eqn:Eq2.
        { unfold len in *. simpl in *. lia. }
        assert (cr_custom_info r = Z.of_nat k) as Ek.
        { apply vget_lookup in Hev as [Hge Hev]. pose proof (NoDup_lookup _ _ _ _ Hfds Hev Hfd). lia. }
        exact (report_round R iter a (cr_set_buff data r) 8 c2 l1 k t msg rest Hc2 Hi2 Hr2 Ha Eev Hfd Ek Ht2 Eq2).
      * pose proof (proj1 (Forall_forall _ _) (ct_writes _ _ Hc) _ Hw). done.
    + exfalso. rewrite Efd, Hev in Hsig. destruct Hsig as [E|[(k & t & Hfd & _)|Hw]].
      * rewrite <-E in Ht. set_solver.
      * by apply list_elem_of_lookup_2 in Hfd.
      * pose proof (proj1 (Forall_forall _ _) (ct_writes _ _ Hc) _ Hw). done.
Qed.

(** ** Reachable states *)

Lemma put_thread_inv R c k t t' :
  system_inv R c → c_threads c !! k = Some t → thread_inv t' →
  (tcp_server_set t.2 = true → tcp_server_set t'.2 = true) → (∀ i, owes i t' = owes i t) →
  system_inv R (put_thread k t' c).
Proof.
  intros [[l Hc] Hi] Hk Ht' Hs Ho. split; [|by eapply put_thread_items].
  exists l. apply data_control; [done|by rewrite length_insert|by apply (ct_writes _ _ Hc)].
Qed.

Lemma thread_at R c k t : system_inv R c → c_threads c !! k = Some t → thread_inv t.
Proof. intros [_ Hi] Hk. exact (proj1 (Forall_lookup _ _) (it_threads _ _ Hi) k t Hk). Qed.

Lemma other_inv R c k t t' :
  system_inv R c → c_threads c !! k = Some t → other_step t t' → system_inv R (put_thread k t' c).
Proof.
  intros Hinv Hk Ho. destruct (other_step_inv t t' (thread_at R c k t Hinv Hk) Ho) as [Ht' Hsame].
  by apply (put_thread_inv R c k t t'); [|done| |apply Ho|].
Qed.

Lemma kill_one R k c u c' :
  system_inv R c → on_thread k (on_server ServerBase.kill_server) c = Ok (u, c') → system_inv R c'.
Proof.
  intros Hinv H. unfold on_thread in H. apply result_bind_Ok in H as ([s w] & Hk & H).
  simpl in H. rewrite vset_is_Ok in H by (by eapply vget_range). injection H as _ <-.
  apply vget_lookup in Hk as [_ Hk]. apply (other_inv R c (Z.to_nat k) (s, w)); [done|done|]. by split.
Qed.

Lemma kill_server_inv R c c' : system_inv R c → Central.kill_server c = Ok (tt, c') → system_inv R c'.
Proof.
  intros Hinv H. unfold Central.kill_server in H. apply M_bind_Ok in H as ([] & c1 & [= <-] & H).
  set (c1 := set_c_data _ _ _ _ _ c) in H. unfold kill_all_servers in H.
  rewrite (M_bind_run _ _ c1 c1 c1) in H by done.
  eapply (mfor_inv (system_inv R)); [|  |exact H].
  - intros k c2 u c3 _. apply kill_one.
  - destruct Hinv as [[l Hc] Hi]. split; [|by eapply items_ext]. exists l.
    apply data_control; [done|done|]. apply Forall_app. split; [exact (ct_writes _ _ Hc)|by repeat constructor].
Qed.

Lemma system_step_inv R iter e c c' `{!IterOrder iter, !IterOrder (env_iter e)} :
  system_inv R c → system_step iter e c c' → system_inv R c'.
Proof.
  intros Hinv Hstep. destruct Hstep as [ev go c c' Hl Hlen E|c c' E|k s w s' w' c Hk Hs Hw HA Hq E
    |k s w x s1 s' w' c Hk Hb E|k t t' c Hk Ho].
  - destruct (central_round R iter c ev Hinv Hl Hlen) as (c2 & E2 & H2). rewrite E in E2. by injection E2 as _ <-.
  - by eapply kill_server_inv.
  - destruct (take_up_inv e s w s' w' _ (thread_at R c k _ Hinv Hk) Hs Hw HA Hq E) as (Ht & Hset & Ho).
    by apply (put_thread_inv R c k (s, w)).
  - destruct (write_ended_inv x s w s1 s' w' (thread_at R c k _ Hinv Hk) Hb E) as (_ & Ht & Hset & Ho).
    by apply (put_thread_inv R c k (s, w)).
  - by eapply other_inv.
Qed.

(** The requests of [run_init], before the timer is known. *)
Lemma init_requests timer ks : ∀ c l,
  control_inv (set_c_timer timer c) l → Forall (λ k, 0 ≤ k < len (c_comm_fds c)) ks →
  ∃ c' l', mfor ks (λ idx, mget ≫= λ c, mlift (vget (c_comm_fds c) idx) ≫= λ fd,
      add_event_read_req fd SERVER_THREAD_COMMUNICATION idx) c = Ok (tt, c') ∧
    control_inv (set_c_timer timer c') l' ∧ c_store c' = c_store c ∧ c_threads c' = c_threads c ∧
    c_kill_server_efd c' = c_kill_server_efd c.
Proof.
  induction ks as [|k ks IH]; intros c l Hc Hks; simpl; [by exists c, l|].
  apply Forall_cons in Hks as [Hk Hks]. destruct (vget_is_Ok (c_comm_fds c) k Hk) as [fd Hfd].
  rewrite (M_bind_run _ _ c tt (with_request fd SERVER_THREAD_COMMUNICATION k l c)).
  - destruct (IH (with_request fd SERVER_THREAD_COMMUNICATION k l c) (l ++ [c_read fd 0 8 0 (c_next c)]))
      as (c' & l' & E & H & Es & Et & Ek); [|done|by exists c', l'].
    apply (with_request_control (set_c_timer timer c)); [done|exact Hfd].
  - rewrite (M_bind_run _ _ c c c), (M_bind_run _ _ c fd c) by (done || (unfold mlift; by rewrite Hfd)).
    apply add_event_run. exact (ct_ring _ _ Hc).
Qed.

Lemma no_owes t :
  broadcasts t.1 = [] →
  web_queues t.2 = {| to_server_queue := []; to_program_queue := []; central_eventfd := 0 |} →
  thread_inv t ∧ ∀ i, owes i t = 0%nat.
Proof.
  intros Hb Hq. assert (∀ i, item_writes i t.1 = 0%nat) as Hw by (intros i; unfold item_writes; by rewrite Hb).
  assert (∀ i, owes i t = 0%nat) as Ho by (intros i; unfold owes; by rewrite Hq, Hw). split; [|done].
  split; rewrite ?Hq, ?Hb; simpl; [done|done| |intros i; rewrite Ho; lia|done].
  intros i. by rewrite Hw.
Qed.

Lemma not_started_items c :
  not_started c → items_inv (Forall (λ t, tcp_server_set t.2 = true) (c_threads c)) c.
Proof.
  intros [Hst _ _ Hth _]. split; [|eapply Forall_impl; [exact Hth|]; intros t []; by apply no_owes|done].
  exists ∅. rewrite Hst. split; [apply store_rel_empty|]. intros i. rewrite lookup_empty.
  unfold owing. rewrite (sum_list_const _ 0); [lia|]. eapply Forall_impl; [exact Hth|]. intros t []. by apply no_owes.
Qed.

Lemma run_init_run timer c :
  not_started c → NoDup (timer :: c_kill_server_efd c :: c_comm_fds c) →
  ∃ c', run_init timer c = Ok (tt, c') ∧
    system_inv (Forall (λ t, tcp_server_set t.2 = true) (c_threads c)) c'.
Proof.
  intros Hns Hnd. pose proof (not_started_items c Hns) as Hi. destruct Hns as [_ Hr Hw _ Hlen].
  set (c0 := set_c_ring (Some []) c). unfold run_init.
  rewrite (M_bind_run _ _ c tt c0), (M_bind_run _ _ c0 c0 c0) by done.
  destruct (init_requests timer (seqZ 0 (len (c_threads c0))) c0 []) as (c1 & l1 & E1 & H1 & Es & Et & Ek).
  { split; simpl; [done|constructor|constructor| |done|done|by rewrite Hw].
    intros a. rewrite Hr, lookup_empty. by intros []. }
  { apply Forall_forall. intros k Hk%elem_of_seqZ. simpl in *. unfold len in *. rewrite (proj1 Hlen). lia. }
  rewrite (M_bind_run _ _ _ _ _ E1). change (c_kill_server_efd c0) with (c_kill_server_efd c).
  rewrite (M_bind_run _ _ _ _ _ (add_event_run (c_kill_server_efd c) KILL_SERVER 0 l1 c1 (ct_ring _ _ H1))).
  pose proof (with_request_control (set_c_timer timer c1) l1 (c_kill_server_efd c) KILL_SERVER 0 H1 (eq_sym Ek)) as H2.
  set (c2 := with_request (c_kill_server_efd c) KILL_SERVER 0 l1 (set_c_timer timer c1)) in *.
  rewrite (M_bind_run _ _ _ tt c2), (add_timer_run timer _ c2 eq_refl) by done.
  eexists. split; [done|]. split.
  - eexists. exact (with_request_control c2 _ timer TIMERFD (to_u64 (-1)) H2 eq_refl).
  - eapply items_ext; [exact Hi|simpl; by rewrite Es|simpl; by rewrite Et].
Qed.

Lemma run_init_inv timer c c' :
  not_started c → NoDup (timer :: c_kill_server_efd c :: c_comm_fds c) → run_init timer c = Ok (tt, c') →
  system_inv (Forall (λ t, tcp_server_set t.2 = true) (c_threads c)) c'.
Proof.
  intros Hns Hnd Hrun. destruct (run_init_run timer c Hns Hnd) as (c1 & E & H).
  rewrite Hrun in E. by injection E as <-.
Qed.

Lemma reachable_system iter e c0 c `{!IterOrder iter, !IterOrder (env_iter e)} :
  reachable iter e c0 c → system_inv (Forall (λ t, tcp_server_set t.2 = true) (c_threads c0)) c.
Proof.
  intros (Hns & timer & c1 & Hnd & Hrun & Hsteps). pose proof (run_init_inv timer c0 c1 Hns Hnd Hrun) as Hinv.
  clear Hns Hnd Hrun. induction Hsteps as [c|c1 c2 c Hstep _ IH]; [done|]. apply IH. exact (system_step_inv _ iter e c1 c2 Hinv Hstep).
Qed.

(** A queued write of a broadcast is one of a live item. *)
Lemma broadcast_live R c k s w p n i :
  system_inv R c → c_threads c !! k = Some (s, w) → (p, n, i) ∈ broadcasts s →
  p = PStoreItem i ∧ i ∉ ds_free (c_store c) ∧ get_item (c_store c) i = Ok frame ∧ n = len frame.
Proof.
  intros Hinv Hk Hin. pose proof (thread_at R c k _ Hinv Hk) as Ht.
  destruct (proj1 (Forall_forall _ _) (ti_entries _ Ht) _ Hin) as (j & [= -> -> ->] & _). split; [done|].
  destruct Hinv as [_ [(m & Hrel & Hu) _ _]]. specialize (Hu j).
  assert (owes j (s, w) ≠ 0%nat) as Hne.
  { unfold owes. assert (item_writes j s ≠ 0%nat) as Hw; [|simpl; rewrite (decide_False (P := item_writes j s = 0%nat)) by done; lia].
    unfold item_writes. intros H0%length_zero_iff_nil. apply (not_elem_of_nil (PStoreItem j, len frame, j)).
    rewrite <-H0. by apply list_elem_of_filter. }
  destruct (m !! j) as [[b u]|] eqn:Em; [|by destruct Hne; apply (sum_list_0 (owes j) (c_threads c) k)].
  destruct Hu as (-> & _). apply (sr_live _ _ Hrel) in Em as [Hf Hv].
  split_and!; [done|unfold get_item; by rewrite Hv|done].
Qed.

End System.

(** * Properties *)

(** C4: the buffers of broadcasts are never used after they are freed: however the
    program thread and the server threads interleave, every write of a broadcast that is
    queued for a connection of a thread points to an item of the data store that is still
    live and holds exactly the frame, with its length. *)
Theorem broadcast_buffers_live {X} `{!ServerType X, !TcpServer X, !TcpServerLaws X} iter e c0 c
    `{!IterOrder iter, !IterOrder (env_iter e)} k (s : server_base X) w p n i :
  reachable iter e c0 c → c_threads c !! k = Some (s, w) → (p, n, i) ∈ broadcasts s →
  p = PStoreItem i ∧ i ∉ ds_free (c_store c) ∧ get_item (c_store c) i = Ok frame ∧ n = len frame.
Proof. intros Hr. exact (broadcast_live _ c k s w p n i (reachable_system iter e c0 c Hr)). Qed.


(** The program thread never faults and never stops by itself: in every reachable
    state, whatever completion of a timer or an eventfd the kernel delivers, the round
    ends normally and the loop goes on; [kill_server] is among the steps, so that calling
    it does not end the loop either. *)
Theorem central_never_faults {X} `{!ServerType X, !TcpServer X, !TcpServerLaws X} iter e (c0 c : central X) ev
    `{!IterOrder iter, !IterOrder (env_iter e)} :
  reachable iter e c0 c → central_legal c ev → len (ds_vec (c_store c)) < 2 ^ 31 - 2 →
  ∃ c', central_step iter ev c = Ok (true, c').
Proof.
  intros Hr Hl Hlen. pose proof (reachable_system iter e c0 c Hr) as Hinv.
  destruct (central_round _ iter c ev Hinv Hl Hlen) as (c' & E & _). by exists c'.
Qed.

(** A write that the kernel did only in part is continued with a request that is
    then deleted: the loop submits the rest and frees the request in the same round,
    and the completion of the rest is a use after free. *)
Theorem continued_write_deleted {X} `{!ServerType X, !TcpServer X} iter (c : central X) l pos q r res data :
  c_ring c = Some l → l !! pos = Some q → cs_op q = IoWrite → c_reqs c !! cs_req q = Some r →
  cr_event r = WRITE → 0 < res → to_u64 (res + cr_progress_bytes r) < cr_size r →
  ∃ c' rest, central_step iter (Completed pos res data) c = Ok (true, c') ∧
    c_ring c' = Some (delete pos l ++ [rest]) ∧ cs_req rest = cs_req q ∧
    ∀ res' data', 0 ≤ res' →
      central_step iter (Completed (length l - 1) res' data') c' = Err UseAfterFree.
Proof.
  intros Hl Hq Hop Hr Hev Hres Hmore. set (a := cs_req q) in *. set (l1 := delete pos l).
  set (r' := cr_set_progress (to_u64 (cr_progress_bytes r + res)) r).
  set (rest := c_write (cr_fd r') (cr_progress_bytes r') (to_u32 (cr_size r' - cr_progress_bytes r')) a).
  set (c1 := set_c_ring (Some l1) c).
  set (c2 := set_c_ring (Some (l1 ++ [rest])) (set_c_reqs (<[a := r']> (c_reqs c)) c1)).
  assert (write_req_continued a res c1 = Ok (tt, c2)) as Ew.
  { unfold write_req_continued. by rewrite (M_bind_run _ _ c1 r c1) by by apply get_req_run. }
  exists (set_c_reqs (delete a (c_reqs c2)) c2), rest. split_and!; [|done|done|].
  - unfold central_step. rewrite (M_bind_run _ _ c c c), Hl, Hq by done. fold l1.
    rewrite (M_bind_run _ _ c tt c1) by done. rewrite (M_bind_run _ _ c1 tt c1).
    2: { unfold c_kernel_io. rewrite (proj2 (Z.ltb_lt 0 res)) by done. unfold mwhen. cbv iota.
         rewrite (M_bind_run _ _ c1 r c1) by by apply get_req_run. by rewrite Hop. }
    rewrite (proj2 (Z.ltb_ge res 0)) by lia. rewrite (M_bind_run _ _ c1 (true, Some a) c2).
    2: { unfold handle_event. rewrite (M_bind_run _ _ c1 r c1) by by apply get_req_run.
         rewrite Hev, (proj2 (Z.ltb_lt _ _)) by done. unfold mwhen. cbv iota.
         by rewrite (M_bind_run _ _ c1 tt c2) by exact Ew. }
    rewrite (M_bind_run _ _ c2 tt (set_c_reqs (delete a (c_reqs c2)) c2)); [done|].
    apply delete_run. simpl. rewrite lookup_insert_eq. by eexists.
  - intros res' data' Hres'. set (c3 := set_c_reqs _ c2). unfold central_step.
    rewrite (M_bind_run _ _ c3 c3 c3) by done. change (c_ring c3) with (Some (l1 ++ [rest])). cbv iota.
    assert (length l - 1 = length l1)%nat as ->.
    { unfold l1. rewrite length_delete; [done|by exists q]. }
    rewrite (list_lookup_middle l1 [] rest) by done.
    set (c4 := set_c_ring _ c3). rewrite (M_bind_run _ _ c3 tt c4) by done.
    assert (∀ A (k : central_web_server_req → M (central X) A), (get_req a ≫= k) c4 = Err UseAfterFree) as Hdead.
    { intros A k. unfold mbind, M_bind, get_req. simpl. by rewrite lookup_delete_eq. }
    unfold c_kernel_io. destruct (Z.ltb_spec 0 res') as [Hp|Hp]; simpl.
    + unfold mbind at 1, M_bind at 1. by rewrite Hdead.
    + rewrite (M_bind_run _ _ c4 tt c4), (proj2 (Z.ltb_ge res' 0)) by (done || lia).
      unfold mbind at 1, M_bind at 1. unfold handle_event. by rewrite Hdead.
Qed.

(** The end that [kill_server] means to start, a readable [kill_server_efd], would fault:
    the completion is marked as seen in the ring that was just torn down. *)
Theorem kill_event_faults {X} `{!ServerType X, !TcpServer X} iter (c : central X) l pos q r data :
  c_ring c = Some l → l !! pos = Some q → c_reqs c !! cs_req q = Some r → cr_event r = KILL_SERVER →
  central_step iter (Completed pos 0 data) c = Err UseAfterFree.
Proof.
  intros Hl Hq Hr Hev. unfold central_step. rewrite (M_bind_run _ _ c c c), Hl, Hq by done.
  set (c1 := set_c_ring (Some (delete pos l)) c). rewrite (M_bind_run _ _ c tt c1) by done.
  rewrite (M_bind_run _ _ c1 tt c1) by done. simpl.
  rewrite (M_bind_run _ _ c1 (false, Some (cs_req q))
    (set_c_data (c_store c) (c_closed c ++ [c_event_fd c]) (c_eventfd_writes c) (c_servers c) (c_threads c)
       (set_c_ring None c1))).
  - set (c2 := set_c_data _ _ _ _ _ _). assert (is_Some (c_reqs c2 !! cs_req q)) as Hlive by by exists r.
    by rewrite (M_bind_run _ _ c2 _ _ (delete_run (cs_req q) c2 Hlive)).
  - unfold handle_event. rewrite (M_bind_run _ _ c1 r c1) by by apply get_req_run. by rewrite Hev.
Qed.

(** A thread with a websocket, and its program thread: started, after a tick, and
    after the thread took the message up. *)
Definition demo_central : central unit :=
  {| c_ring := None; c_reqs := ∅; c_next := 0; c_store := empty_store; c_event_fd := 20;
     c_kill_server_efd := 21; c_timer_fd := -1; c_closed := []; c_eventfd_writes := [];
     c_comm_fds := [22]; c_servers := [0]; c_threads := [(two_conns, demo_web)] |}.

Definition state_of {A} (r : result (A * central unit)) : central unit :=
  match r with Ok (_, c) => c | Err _ => demo_central end.

Definition demo_started : central unit := state_of (run_init 23 demo_central).
Definition timer_event : central_wait := Completed 2 8 (replicate 8 nul).
Definition demo_ticked : central unit := state_of (central_step elements timer_event demo_started).
Definition demo_before : server_base unit * web_server :=
  match c_threads demo_ticked with t :: _ => t | [] => (two_conns, demo_web) end.
Definition demo_after : server_base unit * web_server :=
  match event_cb demo_env demo_before with Ok (_, t) => t | Err _ => demo_before end.
Definition demo_broadcast : central unit := put_thread 0 demo_after demo_ticked.

Lemma write_inv_obs ran act cl ew wi s : write_inv None s → write_inv None (srv_obs ran act cl ew wi s).
Proof. intros [[] []]. split; by split. Qed.

Lemma demo_timer_legal (c : central unit) q :
  c_ring c ≫= (λ l, l !! 2%nat) = Some q → cs_fd q = c_timer_fd c → central_legal c timer_event.
Proof.
  intros Hq Hfd. simpl. destruct (c_ring c) as [l|]; [|done]. exists l, q. split_and!; [done|done|].
  right. split_and!; [done|done|by left].
Qed.

Lemma demo_started_reachable : reachable elements demo_env demo_central demo_started.
Proof.
  split.
  - split; [done..| |split; [done|split; by vm_compute]].
    constructor; [|constructor]. split; vm_compute; reflexivity.
  - exists 23, demo_started. split_and!; [|vm_compute; reflexivity|apply rtc_refl].
    apply (bool_decide_unpack _). vm_compute. exact I.
Qed.

Lemma demo_broadcast_reachable : reachable elements demo_env demo_central demo_broadcast.
Proof.
  destruct demo_started_reachable as (H1 & timer & c1 & H2 & H3 & H4). split; [done|].
  exists timer, c1. split_and!; [done|done|]. etransitivity; [exact H4|].
  eapply rtc_l; [apply (step_program _ _ timer_event true demo_started demo_ticked)|].
  - eapply demo_timer_legal; vm_compute; reflexivity.
  - vm_compute. reflexivity.
  - vm_compute. reflexivity.
  - apply rtc_once. unfold demo_broadcast. rewrite (surjective_pairing demo_after).
    apply (step_take_up _ _ 0 demo_before.1 demo_before.2).
    + vm_compute. reflexivity.
    + apply write_inv_obs, two_conns_inv.
    + vm_compute. reflexivity.
    + split_and!; [apply (bool_decide_unpack _); vm_compute; exact I| |vm_compute; reflexivity].
      intros i Hi. apply elem_of_elements in Hi. vm_compute in Hi. apply list_elem_of_singleton in Hi as ->. lia.
    + vm_compute. discriminate.
    + vm_compute. reflexivity.
Qed.


Lemma broadcast_buffers_live_witness :
  ∃ s w, c_threads demo_broadcast !! 0%nat = Some (s, w) ∧ (PStoreItem 0, 6, 0) ∈ broadcasts s ∧
    get_item (c_store demo_broadcast) 0 = Ok frame.
Proof.
  exists demo_after.1, demo_after.2.
  assert (c_threads demo_broadcast !! 0%nat = Some (demo_after.1, demo_after.2)) as Hk by (vm_compute; reflexivity).
  assert ((PStoreItem 0, 6, 0) ∈ broadcasts demo_after.1) as Hin.
  { apply (bool_decide_unpack _). vm_compute. exact I. }
  split_and!; [exact Hk|exact Hin|].
  by destruct (broadcast_buffers_live elements demo_env demo_central demo_broadcast 0 _ _ _ _ _
    demo_broadcast_reachable Hk Hin) as (_ & _ & H & _).
Defined.


Lemma central_never_faults_witness :
  central_legal demo_broadcast timer_event ∧
  ∃ c', central_step elements timer_event demo_broadcast = Ok (true, c').
Proof.
  assert (central_legal demo_broadcast timer_event) as Hl by (eapply demo_timer_legal; vm_compute; reflexivity).
  split; [exact Hl|].
  apply (central_never_faults elements demo_env demo_central demo_broadcast timer_event demo_broadcast_reachable Hl).
  vm_compute. reflexivity.
Defined.

(** A program thread that writes 10 bytes of an item. *)
Definition demo_write : central unit :=
  state_of (add_write_req 9 (PStoreItem 0) 10 (set_c_ring (Some []) demo_central)).

Lemma continued_write_deleted_witness :
  ∃ c' : central unit, central_step elements (Completed 0 4 []) demo_write = Ok (true, c') ∧
    central_step elements (Completed 0 6 []) c' = Err UseAfterFree.
Proof.
  destruct (continued_write_deleted elements demo_write [c_write 9 0 10 0] 0 (c_write 9 0 10 0)
    {| cr_event := WRITE; cr_buff := []; cr_buff_ptr := PStoreItem 0; cr_size := 10; cr_progress_bytes := 0;
       cr_fd := 9; cr_custom_info := to_u64 (-1) |} 4 []) as (c' & rest & E & _ & _ & H); [vm_compute; reflexivity..|].
  exists c'. split; [exact E|]. apply (H 6 []). lia.
Defined.
