(* ===== verification/ThreadProps.v ===== *)
(** * The event loop of a thread in the system

    The theorems of CentralProps.v are on a system whose threads take messages up, end writes
    of broadcasts, and do anything else that leaves the broadcasts alone.  Here the threads of
    the plain server are shown to do nothing but that: a round of their event loop
    ([loop_step] with [web_callbacks]) is a sequence of such steps. *)

From S2P Require Import Prelude Utility CString Bytes WsFrame Cache ServerBase NonTls NonTlsLoop TcpServer WebBase WebSockets Http Callbacks WsProps BroadcastProps DataStore Central CentralProps.
From Stdlib Require Import ZArith Lia.
From stdpp Require Import base gmap strings list fin_maps sets.

#[local] Open Scope Z_scope.

(** ** The web server's part *)

(** The messages and the broadcasts of a web server are left alone. *)
Record same_web (w w' : web_server) : Prop := {
  sw_queues : web_queues w' = web_queues w;
  sw_data : broadcast_data w' = broadcast_data w;
  sw_set : tcp_server_set w' = tcp_server_set w
}.

#[export] Instance same_web_preorder : PreOrder same_web.
Proof. split; [by split|]. intros w1 w2 w3 [] []. split; congruence. Qed.

Abbreviation web_quiet := (keeps same_web).

Lemma upd_tcp_client_quiet i g : web_quiet (upd_tcp_client i g).
Proof. unfold upd_tcp_client. solve_keeps. Qed.
Lemma get_tcp_client_quiet i : web_quiet (get_tcp_client i).
Proof. unfold get_tcp_client. solve_keeps. Qed.
Lemma mod_sockets_quiet g : web_quiet (mod_sockets g).
Proof. unfold mod_sockets. solve_keeps. Qed.
#[export] Hint Resolve upd_tcp_client_quiet get_tcp_client_quiet mod_sockets_quiet : keeps.

Lemma upd_ws_client_quiet i g : web_quiet (upd_ws_client i g).
Proof. unfold upd_ws_client. solve_keeps. Qed.
Lemma get_ws_client_quiet i : web_quiet (get_ws_client i).
Proof. unfold get_ws_client. solve_keeps. Qed.
Lemma new_tcp_client_quiet i : web_quiet (new_tcp_client i).
Proof. unfold new_tcp_client. solve_keeps. Qed.
Lemma cache_finished_quiet i : web_quiet (cache_finished i).
Proof. unfold cache_finished. solve_keeps. Qed.
Lemma cache_fetch_quiet p i : web_quiet (cache_fetch p i).
Proof. unfold cache_fetch. solve_keeps. Qed.
Lemma sys_open_quiet e p : web_quiet (sys_open e p).
Proof. unfold sys_open. cbv zeta. solve_keeps. Qed.
Lemma sys_close_quiet fd : web_quiet (sys_close fd).
Proof. unfold sys_close. solve_keeps. Qed.
Lemma file_size_quiet e fd : web_quiet (file_size e fd).
Proof. unfold file_size. solve_keeps. Qed.
#[export] Hint Resolve upd_ws_client_quiet get_ws_client_quiet new_tcp_client_quiet cache_finished_quiet
  cache_fetch_quiet sys_open_quiet sys_close_quiet file_size_quiet : keeps.

Lemma kill_client_quiet i : web_quiet (kill_client i).
Proof. unfold kill_client. solve_keeps. Qed.
Lemma new_ws_client_quiet i : web_quiet (new_ws_client i).
Proof. unfold new_ws_client. solve_keeps. Qed.
#[export] Hint Resolve kill_client_quiet new_ws_client_quiet : keeps.

(** ** The server's part *)

(** The broadcasts of a connection. *)
Definition entries (c : client unit) : list (char_ptr * Z * Z) := (msg_of <$> send_data c) ≫= entry_of.

Lemma broadcasts_clients (s : srv) : broadcasts s = concat (entries <$> clients s).
Proof.
  unfold broadcasts, tcp_queue. generalize (clients s). intros cls.
  induction cls as [|c cls IH] using rev_ind; [done|].
  rewrite len_app, seqZ_app, bind_app by len_lia. rewrite fmap_app, concat_app. f_equal.
  - rewrite <-IH. apply Forall_bind_ext, Forall_forall.
    intros j Hj%elem_of_seqZ. by rewrite vget_app_l by lia.
  - change (len [c]) with 1. simpl. rewrite vget_app_r by lia. rewrite Z.add_0_l, Z.sub_diag. done.
Qed.

(** A connection without a write in flight has no broadcast queued. *)
Definition client_settled (c : client unit) : Prop :=
  0 ≤ num_write_reqs c ∧ (num_write_reqs c = 0 → entries c = []).
Definition settled (s : srv) : Prop := Forall client_settled (clients s).

(** The broadcasts of the queues are left alone. *)
Definition same_broadcasts (s s' : srv) : Prop := settled s → settled s' ∧ broadcasts s' = broadcasts s.
Abbreviation srv_quiet := (keeps same_broadcasts).

#[export] Instance same_broadcasts_preorder : PreOrder same_broadcasts.
Proof.
  split; [by intros s|]. intros s1 s2 s3 H1 H2 Hs. destruct (H1 Hs) as [Hs2 E]. rewrite <-E. by apply H2.
Qed.

Lemma same_clients s s' : clients s' = clients s → broadcasts s' = broadcasts s ∧ (settled s → settled s').
Proof. intros H. unfold settled. by rewrite !broadcasts_clients, H. Qed.

Lemma srv_quiet_modify g : (∀ s, clients (g s) = clients s) → srv_quiet (mmodify g).
Proof. intros H. apply keeps_modify. intros s Hs. destruct (same_clients s (g s) (H s)). auto. Qed.

(** One connection changes, with the same broadcasts. *)
Lemma update_broadcasts (s s' : srv) i c c' :
  vget (clients s) i = Ok c → clients s' = <[Z.to_nat i := c']> (clients s) → entries c' = entries c →
  broadcasts s' = broadcasts s.
Proof.
  intros [_ Hv]%vget_lookup Ec He. rewrite !broadcasts_clients, Ec. f_equal.
  rewrite list_fmap_insert, list_insert_id; [done|]. by rewrite list_lookup_fmap, Hv, He.
Qed.

Lemma update_quiet s s' i c c' :
  settled s → vget (clients s) i = Ok c → clients s' = <[Z.to_nat i := c']> (clients s) →
  entries c' = entries c → (client_settled c → client_settled c') → settled s' ∧ broadcasts s' = broadcasts s.
Proof.
  intros Hs Hv Ec He Hc. split; [|by eapply update_broadcasts]. unfold settled. rewrite Ec. apply Forall_insert; [exact Hs|].
  apply Hc. apply vget_lookup in Hv as [_ Hv]. by eapply Forall_lookup_1.
Qed.

Lemma upd_client_quiet i g :
  (∀ c, entries (g c) = entries c ∧ (client_settled c → client_settled (g c))) → srv_quiet (upd_client i g).
Proof.
  intros Hg s a s' H Hs. destruct (vget (clients s) i) as [c|] eqn:Hv.
  - rewrite (upd_client_run i g s c Hv) in H. injection H as _ <-. destruct (Hg c). by apply (update_quiet s _ i c (g c)).
  - unfold upd_client, vupd in H. inv_ok. match goal with H : mget _ = _ |- _ => injection H as <- <- end.
    match goal with H : mlift _ _ = _ |- _ => apply mlift_Ok in H as [H _]; rewrite Hv in H; discriminate H end.
Qed.

Lemma get_client_quiet i : srv_quiet (get_client i).
Proof. unfold get_client. solve_keeps. Qed.

Lemma submit_quiet q : srv_quiet (submit q).
Proof. by apply srv_quiet_modify. Qed.
#[export] Hint Resolve get_client_quiet submit_quiet : keeps.

Lemma emplace_quiet i mk : (∀ a, entry_of (msg_of (mk a)) = []) → srv_quiet (emplace i mk).
Proof.
  intros Hmk. unfold emplace. keeps_step; [solve_keeps|]. keeps_step; [|solve_keeps].
  apply upd_client_quiet. intros c. unfold client_settled, entries. simpl.
  rewrite fmap_app, bind_app. simpl. by rewrite Hmk, !app_nil_r.
Qed.

Lemma get_client_Ok i s (c : client unit) s' : get_client i s = Ok (c, s') → vget (clients s) i = Ok c ∧ s' = s.
Proof. intros (s1 & s2 & [= <- <-] & H)%M_bind_Ok. by apply mlift_Ok in H. Qed.

Lemma add_write_req_quiet i src n : srv_quiet (ServerBase.add_write_req i ServerBase.WRITE src n).
Proof.
  intros s a s' H Hs. assert (∃ c, vget (clients s) i = Ok c) as [c Hv].
  { unfold ServerBase.add_write_req in H. apply M_bind_Ok in H as (c & s1 & Hg & _).
    apply get_client_Ok in Hg as [Hv _]. by exists c. }
  rewrite (add_write_req_run i src n s c Hv) in H. injection H as _ <-.
  apply (update_quiet s _ i c (cl_set_num_write_reqs (num_write_reqs c + 1) c)); [done..|].
  intros [H0 _]. split; simpl; lia.
Qed.

Lemma add_read_req_quiet i ev : srv_quiet (ServerBase.add_read_req (X := unit) i ev).
Proof.
  unfold ServerBase.add_read_req. solve_keeps. by apply upd_client_quiet.
Qed.
#[export] Hint Resolve add_write_req_quiet add_read_req_quiet : keeps.

Lemma read_connection_quiet i : srv_quiet (read_connection i).
Proof. unfold read_connection. solve_keeps. Qed.
Lemma custom_read_req_quiet fd n i b a : srv_quiet (custom_read_req fd n i b a).
Proof. apply submit_quiet. Qed.
Lemma queue_size_quiet i : srv_quiet (queue_size i).
Proof. unfold queue_size. solve_keeps. Qed.
Lemma send_front_quiet i : srv_quiet (send_front i).
Proof. unfold send_front. solve_keeps. Qed.
#[export] Hint Resolve read_connection_quiet custom_read_req_quiet queue_size_quiet send_front_quiet : keeps.

Lemma write_connection_quiet i b : srv_quiet (write_connection i b).
Proof. unfold write_connection. keeps_step; [by apply emplace_quiet|solve_keeps]. Qed.

Lemma write_connection_ptr_quiet i p n : srv_quiet (write_connection_ptr i p n).
Proof.
  unfold write_connection_ptr. keeps_step; [|solve_keeps]. apply emplace_quiet.
  intros a. unfold msg_of. simpl. by case_decide.
Qed.

Lemma add_write_req_continued_quiet req n : srv_quiet (NonTls.add_write_req_continued req n).
Proof. unfold NonTls.add_write_req_continued, get_ptr_and_size. solve_keeps. Qed.

Lemma destroy_clients wd (s : srv) u s' : destroy_write_data wd s = Ok (u, s') → clients s' = clients s.
Proof.
  unfold destroy_write_data. destruct (wd_multi wd) as [h|]; [|by intros [= _ <-]].
  intros (s1 & s2 & [= <- <-] & H)%M_bind_Ok. destruct (multi_heap s !! h) as [[b n]|]; [|done].
  destruct (_ =? _); by injection H as _ <-.
Qed.

Lemma destroy_all_clients l : ∀ (s : srv) u s', mfor l destroy_write_data s = Ok (u, s') → clients s' = clients s.
Proof.
  induction l as [|wd l IH]; intros s u s' H; simpl in H; [by injection H as _ <-|].
  apply M_bind_Ok in H as (u1 & s1 & H1 & H2). apply destroy_clients in H1. rewrite <-H1. by eapply IH.
Qed.

(** Closing drops the queue, when no write is in flight. *)
Lemma close_connection_clients i (s : srv) u s' :
  NonTls.close_connection i s = Ok (u, s') →
  ∃ c, vget (clients s) i = Ok c ∧
    clients s' = if num_write_reqs c =? 0 then <[Z.to_nat i := cl_set_send_data [] c]> (clients s) else clients s.
Proof.
  unfold NonTls.close_connection. intros (c & s0 & [Hv ->]%get_client_Ok & H)%M_bind_Ok. exists c. split; [done|].
  destruct (num_write_reqs c =? 0); [|by injection H as _ <-]. simpl mwhen in H.
  set (s1 := set_active (active_connections s ∖ {[i]}) s) in H. rewrite (M_bind_run _ _ s tt s1) in H by done.
  apply M_bind_Ok in H as (u2 & s2 & H2 & H). assert (clients s' = clients s2) as -> by by injection H as _ <-.
  unfold send_clear in H2. rewrite (M_bind_run _ _ _ _ _ (get_client_run i s1 c Hv)) in H2.
  rewrite (M_bind_run _ _ _ _ _ (upd_client_run i _ s1 c Hv)) in H2. by apply destroy_all_clients in H2 as ->.
Qed.

Lemma close_connection_quiet i : srv_quiet (NonTls.close_connection i).
Proof.
  intros s u s' (c & Hv & E)%close_connection_clients Hs.
  destruct (Z.eqb_spec (num_write_reqs c) 0) as [Hn|_]; [|destruct (same_clients s s' E); auto].
  assert (client_settled c) as [_ Hc].
  { apply vget_lookup in Hv as [_ Hv]. by eapply Forall_lookup_1. }
  apply (update_quiet s s' i c (cl_set_send_data [] c)); [done..|by rewrite Hc|]. by split; [simpl; lia|].
Qed.
#[export] Hint Resolve write_connection_quiet write_connection_ptr_quiet close_connection_quiet : keeps.

(** ** The callbacks *)

(** Steps of a thread that leave its messages and broadcasts alone. *)
Definition same_thread (t t' : srv * web_server) : Prop :=
  settled t.1 → settled t'.1 ∧ broadcasts t'.1 = broadcasts t.1 ∧ same_web t.2 t'.2.
Abbreviation quiet := (keeps same_thread).

#[export] Instance same_thread_preorder : PreOrder same_thread.
Proof.
  split; [by intros t|]. intros t1 t2 t3 H1 H2 Hs. destruct (H1 Hs) as (Hs2 & E & Hw). destruct (H2 Hs2) as (Hs3 & E3 & Hw3).
  split_and!; [done|by rewrite E3|by transitivity t2.2].
Qed.

Lemma quiet_web {A} (m : M web_server A) : web_quiet m → quiet (on_web m).
Proof. intros Hm. eapply keeps_on_web, Hm. by intros s w w' Hw. Qed.

Lemma quiet_tcp {A} (m : M srv A) : srv_quiet m → quiet (on_tcp m).
Proof. intros Hm. eapply keeps_on_tcp, Hm. intros s s' w H Hs. by destruct (H Hs). Qed.

Lemma quiet_server {A} (m : M srv A) : srv_quiet m → quiet (on_server m).
Proof. intros Hm. eapply keeps_on_server, Hm. intros s s' w H Hs. by destruct (H Hs). Qed.
#[export] Hint Resolve quiet_tcp quiet_server : keeps.
#[export] Hint Extern 1 (keeps same_thread (on_web _)) => apply quiet_web; solve_keeps : keeps.

Lemma web_close_connection_quiet i : quiet (web_close_connection (X := unit) i).
Proof. unfold web_close_connection. solve_keeps. Qed.
#[export] Hint Resolve web_close_connection_quiet : keeps.

Lemma websocket_write_quiet i b : quiet (websocket_write (X := unit) i b).
Proof. unfold websocket_write. solve_keeps. Qed.
Lemma close_ws_connection_req_quiet i b : quiet (close_ws_connection_req (X := unit) i b).
Proof. unfold close_ws_connection_req. solve_keeps. Qed.
Lemma potential_confirm_quiet i : quiet (close_ws_connection_potential_confirm (X := unit) i).
Proof. unfold close_ws_connection_potential_confirm. solve_keeps. Qed.
#[export] Hint Resolve websocket_write_quiet close_ws_connection_req_quiet potential_confirm_quiet : keeps.

Lemma process_frame_quiet i f : quiet (process_frame (X := unit) i f).
Proof. unfold process_frame. solve_keeps. Qed.
Lemma deliver_quiet i f : quiet (WebSockets.deliver (X := unit) i f).
Proof. unfold WebSockets.deliver. solve_keeps. Qed.
#[export] Hint Resolve process_frame_quiet deliver_quiet : keeps.
Lemma process_frames_quiet i fs : ∀ c, quiet (process_frames (X := unit) i c fs).
Proof. induction fs as [|f fs IH]; intros c; simpl; solve_keeps. Qed.
Lemma get_ws_frames_quiet b n i : quiet (get_ws_frames (X := unit) b n i).
Proof. unfold get_ws_frames. solve_keeps. Qed.
#[export] Hint Resolve process_frames_quiet get_ws_frames_quiet : keeps.
Lemma websocket_process_read_cb_quiet i b n : quiet (websocket_process_read_cb (X := unit) i b n).
Proof. unfold websocket_process_read_cb. solve_keeps. Qed.
Lemma websocket_process_write_cb_quiet i : quiet (websocket_process_write_cb (X := unit) i).
Proof. unfold websocket_process_write_cb. solve_keeps. Qed.
Lemma websocket_accept_read_cb_quiet e k p i : quiet (websocket_accept_read_cb (X := unit) e k p i).
Proof. unfold websocket_accept_read_cb. solve_keeps. Qed.
Lemma send_file_request_quiet e i p b c : quiet (send_file_request (X := unit) e i p b c).
Proof. unfold send_file_request. solve_keeps. Qed.
#[export] Hint Resolve websocket_process_read_cb_quiet websocket_process_write_cb_quiet
  websocket_accept_read_cb_quiet send_file_request_quiet : keeps.
Lemma get_process_quiet e p b k i : quiet (get_process (X := unit) e p b k i).
Proof. unfold get_process. solve_keeps. Qed.
#[export] Hint Resolve get_process_quiet : keeps.

(** The callbacks for accepting, reading and files. *)
Lemma accept_cb_quiet i : quiet (accept_cb (X := unit) i).
Proof. apply quiet_web, new_tcp_client_quiet. Qed.
Lemma read_cb_quiet e i b n : quiet (read_cb (X := unit) e i b n).
Proof. unfold read_cb, read_request. solve_keeps. Qed.
Lemma custom_read_cb_quiet e i fd b : quiet (custom_read_cb (X := unit) e i fd b).
Proof. unfold custom_read_cb, read_inotify. solve_keeps. Qed.

(** * The steps of a thread *)

(** What a thread does in the system: it takes a message up, a write of a broadcast ends, or
    anything else that leaves the broadcasts alone. *)
Inductive thread_step {X} `{!ServerType X, !TcpServer X, !TcpServerLaws X} (e : env)
  : server_base X * web_server → server_base X * web_server → Prop :=
| thread_take_up s w s' w' :
    tcp_inv s → tcp_server_set w = true → sockets_served s w → to_server_queue (web_queues w) ≠ [] →
    event_cb e (s, w) = Ok (tt, (s', w')) → thread_step e (s, w) (s', w')
| thread_write_ended s w x s1 s' w' :
    broadcasts s ≡ₚ x :: broadcasts s1 → broadcast_done x.2 (s1, w) = Ok (tt, (s', w')) →
    thread_step e (s, w) (s', w')
| thread_other t t' : other_step t t' → thread_step e t t'.

Section Steps.
Context {X : Type} `{!ServerType X, !TcpServer X, !TcpServerLaws X}.
Implicit Types (c : central X) (t : server_base X * web_server).

Lemma put_thread_same c k t : c_threads c !! k = Some t → put_thread k t c = c.
Proof. intros H. unfold put_thread. rewrite list_insert_id by done. by destruct c. Qed.

(** They are steps of the system. *)
Lemma thread_step_system iter e c k t t' :
  c_threads c !! k = Some t → thread_step e t t' → system_step iter e c (put_thread k t' c).
Proof.
  intros Hk Hstep. destruct Hstep as [s w s' w'|s w x s1 s' w'|t t' Ho].
  - by eapply step_take_up.
  - by eapply step_write_ended.
  - by eapply step_other.
Qed.

Lemma thread_steps_system iter e c k t t' :
  c_threads c !! k = Some t → rtc (thread_step e) t t' → rtc (system_step iter e) c (put_thread k t' c).
Proof.
  intros Hk Hsteps. revert c Hk. induction Hsteps as [t|t1 t2 t3 Hstep _ IH]; intros c Hk.
  - by rewrite put_thread_same.
  - eapply rtc_l; [by eapply thread_step_system|]. rewrite <-(put_put_thread k t2 t3). apply IH.
    simpl. apply list_lookup_insert_eq. by eapply lookup_lt_Some.
Qed.
End Steps.

(** ** Reports *)

(** The queued writes are made by the constructors of [write_data]: a broadcast is one of a
    pointer. *)
Definition marked (wd : write_data) : Prop :=
  wd_broadcast wd = true → wd_multi wd = None ∧ wd_ptr_buff wd ≠ PNull.
Definition all_marked (s : srv) : Prop := Forall (λ c, Forall marked (send_data c)) (clients s).

Lemma marked_entry wd :
  marked wd → entry_of (msg_of wd) =
    if additional_info wd =? -1 then [] else [(wd_ptr_buff wd, wd_total_length wd, additional_info wd)].
Proof.
  unfold marked, msg_of, additional_info. destruct (wd_broadcast wd).
  - intros [-> Hp]; [done|]. rewrite decide_False by done. simpl. by rewrite Z.eqb_refl || done.
  - intros _. destruct (wd_multi wd); [done|]. by case_decide.
Qed.

(** The front of a queue is taken off. *)
Lemma pop_broadcasts (s s' : srv) i c c' wd :
  vget (clients s) i = Ok c → send_data c = wd :: send_data c' → clients s' = <[Z.to_nat i := c']> (clients s) →
  broadcasts s ≡ₚ entry_of (msg_of wd) ++ broadcasts s'.
Proof.
  intros [_ Hv]%vget_lookup Hq Ec. rewrite !broadcasts_clients, Ec.
  pose proof (lookup_lt_Some _ _ _ Hv) as Hlt. rewrite insert_take_drop by done.
  rewrite <-(take_drop_middle _ _ _ Hv) at 1. rewrite !fmap_app, !fmap_cons, !concat_app. cbn [concat].
  unfold entries at 2. rewrite Hq, fmap_cons. cbn [mbind list_bind]. fold (entries c').
  solve_Permutation.
Qed.

Section Rounds.
Variable e : env.
Abbreviation steps := (rtc (thread_step (X := unit) e)).
Implicit Types (s : srv) (w : web_server).

Lemma other_steps s s' w w' : broadcasts s' ≡ₚ broadcasts s → same_web w w' → steps (s, w) (s', w').
Proof. intros Hb []. apply rtc_once, thread_other. split; [done..|]. intros H. simpl in *. congruence. Qed.

(** A write is reported and leaves the queue. *)
Lemma report_steps wd s s0 s2 w u s1 w1 :
  marked wd → broadcasts s ≡ₚ entry_of (msg_of wd) ++ broadcasts s2 →
  broadcast_done (additional_info wd) (s0, w) = Ok (u, (s1, w1)) → steps (s, w) (s2, w1).
Proof.
  intros Hm Hb H. rewrite (marked_entry wd Hm) in Hb. unfold broadcast_done in H.
  destruct (Z.eqb_spec (additional_info wd) (-1)) as [Hi|Hi].
  - injection H as _ _ <-. apply other_steps; [by symmetry|done].
  - simpl mwhen in H. apply on_web_Ok in H as [H ->]. apply rtc_once.
    apply (thread_write_ended e s w (wd_ptr_buff wd, wd_total_length wd, additional_info wd) s2); [done|].
    destruct u. unfold broadcast_done. rewrite (proj2 (Z.eqb_neq _ _)) by done. simpl mwhen. by apply on_web_run.
Qed.

Lemma send_pop_Ok i s u s' :
  send_pop i s = Ok (u, s') →
  ∃ c wd q, vget (clients s) i = Ok c ∧ send_data c = wd :: q ∧
    clients s' = <[Z.to_nat i := cl_set_send_data q c]> (clients s).
Proof.
  unfold send_pop. intros (c & s0 & [Hv ->]%get_client_Ok & H)%M_bind_Ok.
  destruct (send_data c) as [|wd q] eqn:Hq; [done|]. exists c, wd, q. split_and!; [done|done|].
  rewrite (M_bind_run _ _ _ _ _ (upd_client_run i _ s c Hv)) in H. by apply destroy_clients in H as ->.
Qed.

Lemma marked_client s i c : all_marked s → vget (clients s) i = Ok c → Forall marked (send_data c).
Proof. intros Hm [_ Hv]%vget_lookup. by apply (Forall_lookup_1 _ _ _ _ Hm Hv). Qed.

Lemma marked_update s s' i c' :
  all_marked s → clients s' = <[Z.to_nat i := c']> (clients s) → Forall marked (send_data c') → all_marked s'.
Proof. intros Hm Ec Hc. unfold all_marked. rewrite Ec. by apply Forall_insert. Qed.

(** The callbacks do not touch the server when they report. *)
Lemma broadcast_done_server i s w u s1 w1 : broadcast_done i (s, w) = Ok (u, (s1, w1)) → s1 = s.
Proof.
  unfold broadcast_done. destruct (negb _); [by intros [_ ->]%on_web_Ok|by intros [= _ -> _]].
Qed.

Lemma close_cb_server i info s w u s1 w1 : close_cb i info (s, w) = Ok (u, (s1, w1)) → s1 = s.
Proof. intros (v & [sa wa] & ->%broadcast_done_server & [_ ->]%on_web_Ok)%M_bind_Ok. done. Qed.

(** The close callback for a write that then leaves the queue. *)
Lemma close_cb_steps i wd s s2 w u s1 w1 :
  marked wd → broadcasts s ≡ₚ entry_of (msg_of wd) ++ broadcasts s2 →
  close_cb i (additional_info wd) (s, w) = Ok (u, (s1, w1)) → steps (s, w) (s2, w1).
Proof.
  intros Hm Hb (v & [sa wa] & Hd & Hk)%M_bind_Ok. pose proof (report_steps wd s s s2 w v sa wa Hm Hb Hd) as Hs.
  apply on_web_Ok in Hk as [Hk ->]. transitivity (s2, wa); [done|].
  apply other_steps; [done|]. by eapply kill_client_quiet.
Qed.

Lemma drain_steps i fuel : ∀ s w u s' w',
  all_marked s → drain (web_callbacks e) fuel i (s, w) = Ok (u, (s', w')) →
  steps (s, w) (s', w') ∧ all_marked s' ∧ ∃ c, vget (clients s') i = Ok c ∧ send_data c = [].
Proof.
  induction fuel as [|fuel IH]; intros s w u s' w' Hm H; simpl in H;
    apply M_bind_Ok in H as (c & [s0 w0] & [[Hv ->]%get_client_Ok ->]%on_server_Ok & H);
    destruct (send_data c) as [|wd q] eqn:Hq; try done; try (injection H as _ <- <-; split_and!; [apply rtc_refl|done|by exists c]).
  apply M_bind_Ok in H as (u1 & [s1 w1] & Hcl & H). apply M_bind_Ok in H as (u2 & [s2 w2] & [Hpop ->]%on_server_Ok & H).
  apply send_pop_Ok in Hpop as (c1 & wd1 & q1 & Hv1 & Hq1 & Ec).
  pose proof (marked_client s i c Hm Hv) as Hmc. rewrite Hq in Hmc. apply Forall_cons in Hmc as [Hmw Hmq].
  pose proof (close_cb_server _ _ _ _ _ _ _ Hcl) as ->.
  rewrite Hv in Hv1. injection Hv1 as <-. rewrite Hq in Hq1. injection Hq1 as <- <-.
  assert (steps (s, w) (s2, w1)) as Hs.
  { apply (close_cb_steps i wd s s2 w u1 s w1 Hmw); [|exact Hcl].
    by apply (pop_broadcasts s s2 i c (cl_set_send_data q c)). }
  destruct (IH s2 w1 u s' w') as (Hs' & Hm' & Hc'); [by eapply marked_update|done|].
  split_and!; [by transitivity (s2, w1)|done|done].
Qed.

Lemma close_client_steps i s w u s' w' :
  all_marked s → close_client (web_callbacks e) i (s, w) = Ok (u, (s', w')) →
  steps (s, w) (s', w') ∧ all_marked s'.
Proof.
  intros Hm H. unfold close_client in H. apply M_bind_Ok in H as (c & [s0 w0] & [[Hv ->]%get_client_Ok ->]%on_server_Ok & H).
  apply M_bind_Ok in H as (u1 & [s1 w1] & Hd & H). apply drain_steps in Hd as (Hs & Hm1 & c1 & Hv1 & Hq); [|done].
  apply M_bind_Ok in H as (c2 & [s0 w0] & [[Hv2 ->]%get_client_Ok ->]%on_server_Ok & H).
  rewrite Hv1 in Hv2. injection Hv2 as <-. rewrite Hq in H. cbn [len length Z.of_nat Z.eqb] in H. simpl mwhen in H.
  apply M_bind_Ok in H as (u2 & [s2 w2] & Hcl & H). pose proof (close_cb_server _ _ _ _ _ _ _ Hcl) as ->.
  apply on_server_Ok in H as [Hc ->]. apply close_connection_clients in Hc as (c2 & Hv2 & Ec).
  rewrite Hv1 in Hv2. injection Hv2 as <-.
  assert (all_marked s' ∧ broadcasts s' = broadcasts s1) as [Hm' Hb].
  { destruct (num_write_reqs c1 =? 0); [|split; [unfold all_marked; rewrite Ec; exact Hm1|by rewrite !broadcasts_clients, Ec]].
    split; [by eapply marked_update|]. apply (update_broadcasts s1 s' i c1 (cl_set_send_data [] c1)); [done..|].
    unfold entries. by rewrite Hq. }
  split; [|done]. transitivity (s1, w1); [done|]. apply other_steps; [by rewrite Hb|].
  apply M_bind_Ok in Hcl as (v & [sa wa] & [= _ <- <-] & [Hk _]%on_web_Ok). by eapply kill_client_quiet.
Qed.

Lemma handle_failed_steps req res s w u s' w' :
  all_marked s → handle_failed (web_callbacks e) req res (s, w) = Ok (u, (s', w')) → steps (s, w) (s', w').
Proof.
  intros Hm H. unfold handle_failed in H. destruct (res <=? 0); [|injection H as _ <- <-; apply rtc_refl].
  apply M_bind_Ok in H as (c & [s0 w0] & [[Hv ->]%get_client_Ok ->]%on_server_Ok & H).
  destruct (cl_id c =? rq_ID req); [|injection H as _ <- <-; apply rtc_refl].
  apply M_bind_Ok in H as (u1 & [s1 w1] & Hn & H).
  assert (w1 = w ∧ all_marked s1 ∧ broadcasts s1 = broadcasts s) as (-> & Hm1 & Hb1).
  { unfold mwhen in Hn. destruct (is_write_event _); [|injection Hn as _ <- <-; by split_and!]. apply on_server_Ok in Hn as [Hn ->].
    rewrite (upd_client_run _ _ s c Hv) in Hn. injection Hn as _ <-. split_and!; [done| |].
    - eapply marked_update; [done..|]. exact (marked_client s _ c Hm Hv).
    - by eapply update_broadcasts. }
  transitivity (s1, w); [apply other_steps; [by rewrite Hb1|done]|].
  apply M_bind_Ok in H as (c1 & [s2 w2] & [[Hv1 ->]%get_client_Ok ->]%on_server_Ok & H).
  unfold mwhen in H. destruct (num_write_reqs c1 =? 0); [by eapply close_client_steps|injection H as _ <- <-; apply rtc_refl].
Qed.

Lemma handle_timer_steps peek iter s w u s' w' :
  all_marked s → handle_timer (web_callbacks e) peek iter (s, w) = Ok (u, (s', w')) → steps (s, w) (s', w').
Proof.
  intros Hm H. unfold handle_timer in H. apply M_bind_Ok in H as (x & [s0 w0] & [[= -> ->] ->]%on_server_Ok & H).
  apply M_bind_Ok in H as (u1 & [s1 w1] & Hl & H). apply on_server_Ok in H as [H ->].
  transitivity (s1, w1).
  - eapply (mfor_inv (λ sw, steps (s0, w) sw ∧ all_marked sw.1)); [|by split; [apply rtc_refl|]|exact Hl].
    clear. intros i [s w0] u [s' w'] _ [Hs Hm] H. simpl in Hm.
    apply M_bind_Ok in H as (c & [s1 w1] & [[Hv ->]%get_client_Ok ->]%on_server_Ok & H).
    unfold mwhen in H. destruct (peek _ =? 0); [|by injection H as _ <- <-].
    apply close_client_steps in H as [Hs' Hm']; [|done]. split; [|done]. by transitivity (s, w0).
  - injection H as _ <-. by apply other_steps.
Qed.

(** ** One round *)

Lemma conn_settled r s : conn_inv None r s → settled s.
Proof.
  intros Hc. apply Forall_lookup. intros k c Hk.
  pose proof (ci_clients _ _ _ Hc (Z.of_nat k) c (vget_nat _ _ _ Hk)) as Hok. unfold client_ok in Hok.
  destruct (write_reqs r (Z.of_nat k)) as [|q [|]]; [| |done].
  - destruct Hok as [Hn [Hq|?]]; [|done]. unfold client_settled, entries. rewrite Hn, Hq. done.
  - destruct Hok as (Hn & _). unfold client_settled. rewrite Hn. lia.
Qed.

Lemma quiet_steps {A} (m : M (srv * web_server) A) s w a s' w' :
  quiet m → settled s → m (s, w) = Ok (a, (s', w')) → steps (s, w) (s', w').
Proof.
  intros Hm Hs H. destruct (Hm (s, w) a (s', w') H Hs) as (_ & Hb & Hw). simpl in Hb.
  apply other_steps; [by rewrite Hb|done].
Qed.

Lemma setup_broadcasts fd i s s' :
  write_inv None s → setup_client tt fd s = Ok (i, s') → broadcasts s' = broadcasts s.
Proof.
  intros [Hc _] H. pose proof (set_begin_spec (freed_indexes s)) as Hb.
  destruct (set_begin (freed_indexes s)) as [k|] eqn:Eb.
  - destruct Hb as [Hk _]. destruct (vget_is_Ok (clients s) k) as [c Hv]; [apply (ci_idx _ _ _ Hc); set_solver|].
    assert (send_data c = []) as Hq.
    { pose proof (ci_clients _ _ _ Hc k c Hv) as Hok. unfold client_ok in Hok.
      destruct (write_reqs (ring s) k) as [|q [|]]; [|destruct Hok as (_ & Ha & _)|done].
      - by destruct Hok as [_ [?|?]].
      - pose proof (ci_disj _ _ _ Hc). set_solver. }
    rewrite (setup_reuse_run s fd k c Eb Hv Hq) in H. injection H as _ <-.
    eapply update_broadcasts; [exact Hv|done|]. unfold entries. by rewrite Hq.
  - rewrite (setup_new_run s fd Eb) in H. injection H as _ <-. rewrite !broadcasts_clients. simpl.
    rewrite fmap_app, concat_app. simpl. by rewrite app_nil_r.
Qed.

Lemma handle_accept_steps res s w u s' w' :
  write_inv None s → handle_accept (web_callbacks e) res (s, w) = Ok (u, (s', w')) → steps (s, w) (s', w').
Proof.
  intros Hinv H. unfold handle_accept in H.
  apply M_bind_Ok in H as (u1 & [s1 w1] & [Ha ->]%on_server_Ok & H).
  apply M_bind_Ok in H as (i & [s2 w2] & [Hs ->]%on_server_Ok & H).
  apply M_bind_Ok in H as (u3 & [s3 w3] & [[= _ <-] ->]%on_server_Ok & H).
  assert (write_inv None s1 ∧ broadcasts s1 = broadcasts s) as [Hinv1 Hb1].
  { injection Ha as _ <-. split; [|done]. destruct Hinv as [Hc Hh]. apply submit_inv; [done|done| |done]. by repeat split. }
  destruct (setup_client_inv s1 res Hinv1) as (i' & s2' & Hs' & _ & _ & Hinv2 & _).
  rewrite Hs in Hs'. injection Hs' as <- <-. pose proof (setup_broadcasts res i s1 s2 Hinv1 Hs) as Hb2.
  set (s3 := set_active _ s2) in *. transitivity (s3, w); [apply other_steps; [by rewrite <-Hb1, <-Hb2|done]|].
  apply (quiet_steps (accept_cb i ≫= λ _, on_server (ServerBase.add_read_req i ServerBase.READ) ≫= λ _, mret tt)) in H;
    [done| |by apply (conn_settled _ _ (proj1 Hinv2))].
  apply keeps_bind; [apply accept_cb_quiet|]. intros _. apply keeps_bind; [|intros _; apply keeps_ret].
  apply quiet_server, add_read_req_quiet.
Qed.

Lemma handle_read_steps req res s w u s' w' :
  settled s → handle_read (web_callbacks e) req res (s, w) = Ok (u, (s', w')) → steps (s, w) (s', w').
Proof.
  intros Hs H. unfold handle_read in H. apply M_bind_Ok in H as (u1 & [s1 w1] & [Hu ->]%on_server_Ok & H).
  destruct (upd_client_quiet (rq_client_idx req) (cl_set_read_req_active false) ltac:(done) s u1 s1 Hu Hs) as [Hs1 Hb].
  transitivity (s1, w); [apply other_steps; [by rewrite Hb|done]|].
  eapply quiet_steps; [apply read_cb_quiet|done|exact H].
Qed.

Lemma handle_write_steps q res s w u s' w' :
  conn_inv None (q :: ring s) s → heap_inv no_extra s → all_marked s → is_write_for (rq_client_idx (sq_req q)) q →
  handle_write (web_callbacks e) (sq_req q) res (s, w) = Ok (u, (s', w')) → steps (s, w) (s', w').
Proof.
  intros Hc Hh Hm Hq H. unfold handle_write in H.
  apply M_bind_Ok in H as (c & [s0 w0] & [[_ ->]%get_client_Ok ->]%on_server_Ok & H).
  destruct (unfinished _ _).
  - apply M_bind_Ok in H as (rc & [s1 w1] & [Hr ->]%on_server_Ok & H).
    destruct (rc =? 0); [|done]. injection H as _ <- <-. apply other_steps; [|done].
    destruct (add_write_req_continued_quiet (sq_req q) res s rc s1 Hr (conn_settled _ _ Hc)) as [_ ->]. done.
  - destruct (write_done_inv _ q s Hc Hh Hq) as (c1 & wd & rest & s1 & Hv & Hsd & Hd & Hinv1 & Hoc & _).
    apply M_bind_Ok in H as (info & [s2 w2] & [Hd2 ->]%on_server_Ok & H). rewrite Hd in Hd2. injection Hd2 as <- <-.
    destruct Hoc as [(c2 & c' & Hv2 & Ec & Hq' & _) _ _]. rewrite Hv in Hv2. injection Hv2 as <-.
    assert (marked wd) as Hmw.
    { pose proof (marked_client s _ c1 Hm Hv) as Hf. rewrite Hsd in Hf. by apply Forall_cons in Hf as [? _]. }
    pose proof (pop_broadcasts s s1 _ c1 c' wd Hv ltac:(by rewrite Hsd, Hq') Ec) as Hb.
    cbn [web_callbacks ServerBase.write_cb call] in H.
    unfold write_cb in H. apply M_bind_Ok in H as (v & [sa wa] & Hbd & H).
    pose proof (broadcast_done_server _ _ _ _ _ _ Hbd) as ->.
    transitivity (s1, wa).
    + eapply report_steps; [exact Hmw|exact Hb|exact Hbd].
    + eapply quiet_steps; [|by apply (conn_settled _ _ (proj1 Hinv1))|exact H]. solve_keeps.
Qed.

Lemma handle_custom_read_steps req res s w u s' w' :
  settled s → handle_custom_read (web_callbacks e) req res (s, w) = Ok (u, (s', w')) → steps (s, w) (s', w').
Proof.
  intros Hs. unfold handle_custom_read. destruct (_ =? _).
  - apply quiet_steps; [apply custom_read_cb_quiet|done].
  - apply quiet_steps; [apply quiet_server, submit_quiet|done].
Qed.

(** The threads' promise for a message that is taken up: the web server is ready, websockets are
    on active connections, and there is a message. *)
Definition may_take_up s w : Prop :=
  tcp_server_set w = true ∧ sockets_served s w ∧ to_server_queue (web_queues w) ≠ [].

Lemma handle_notification_steps s w u s1 w1 u2 s' w' :
  write_inv None s → may_take_up s w → event_read (notification_efd s) NOTIFICATION s = Ok (u, s1) → w1 = w →
  event_cb e (s1, w1) = Ok (u2, (s', w')) → steps (s, w) (s', w').
Proof.
  intros [Hc Hh] (Hset & Hsock & Hq) Hr -> H. injection Hr as _ <-. set (s1 := set_ring _ s) in *.
  transitivity (s1, w); [by apply other_steps|]. apply rtc_once. destruct u2.
  apply thread_take_up; [|done|exact Hsock|done|exact H].
  apply submit_inv; [done|done| |done]. by apply read_sqe_ok.
Qed.

Section Round.
Variable mem : web_server → char_ptr → result (list char).
Variable q : sqe.

Lemma kernel_io_effect res data s w r s' w' :
  kernel_io mem q res data (s, w) = Ok (r, (s', w')) →
  w' = w ∧ (∃ wi, s' = srv_obs (ran_server s) (is_active s) (closed s) (eventfd_writes s) wi s) ∧
  (sq_op q ≠ IoRead → r = sq_req q) ∧ ∃ d, r = rq_set_read_data d (sq_req q).
Proof.
  assert (∃ d, sq_req q = rq_set_read_data d (sq_req q)) as Hd by (exists (rq_read_data (sq_req q)); by destruct (sq_req q)).
  assert (∃ wi, s = srv_obs (ran_server s) (is_active s) (closed s) (eventfd_writes s) wi s) as Hs by
    (exists (wire s); by destruct s).
  unfold kernel_io. destruct (res <=? 0); [by intros [= <- <- <-]|]. destruct (sq_op q).
  - by intros [= <- <- <-].
  - intros (d & [s1 w1] & [_ [= -> ->]]%mlift_Ok & [= <- <- <-])%M_bind_Ok. split_and!; [done|done|done|by exists d].
  - destruct (sq_src q) as [src|]; [|done]. intros (b & _ & H)%result_bind_Ok.
    apply result_bind_Ok in H as (sent & _ & [= <- <- <-]). split_and!; [done|by eexists|done|done].
Qed.

Lemma handle_event_steps r ev s w go s' w' :
  conn_inv None (q :: ring s) s → heap_inv no_extra s → all_marked s →
  (rq_event (sq_req q) = NOTIFICATION → may_take_up s w) →
  (sq_op q ≠ IoRead → r = sq_req q) → (∃ d, r = rq_set_read_data d (sq_req q)) →
  ServerBase.handle_event (web_callbacks e) r ev (s, w) = Ok (go, (s', w')) → steps (s, w) (s', w').
Proof.
  intros Hc Hh Hm Hn Hr1 [d Hr] H. assert (rq_event r = rq_event (sq_req q)) as Hev by by rewrite Hr.
  pose proof (conn_settled _ _ Hc) as Hs. pose proof (ci_sqes _ _ _ Hc) as [[Hwr Hac _ _] _]%Forall_cons.
  unfold ServerBase.handle_event in H. apply M_bind_Ok in H as (b & [s0 w0] & Hf & H).
  assert (s0 = s ∧ w0 = w) as [-> ->].
  { unfold failed_or_stale in Hf. destruct (negb _); [by injection Hf as _ <- <-|].
    destruct (_ <=? 0); [by injection Hf as _ <- <-|]. destruct (0 <? _); [|by injection Hf as _ <- <-].
    by apply M_bind_Ok in Hf as (c & [s1 w1] & [[_ ->]%get_client_Ok ->]%on_server_Ok & [= _ <- <-]). }
  destruct b; [apply M_bind_Ok in H as (u & [s1 w1] & Hfl & [= _ <- <-]); by eapply handle_failed_steps|].
  assert (rq_event (sq_req q) ≠ ServerBase.WRITE → write_inv None s) as Hw.
  { intros Hne. split; [|done]. eapply drop_other; [|exact Hc]. by intros ?%Hwr. }
  assert (∀ res u, rq_event (sq_req q) = ServerBase.WRITE →
    handle_write (web_callbacks e) r res (s, w) = Ok (u, (s', w')) → steps (s, w) (s', w')) as Hwrite.
  { intros res u He. pose proof (proj2 Hwr He) as Hop. rewrite Hr1 by congruence.
    by eapply handle_write_steps. }
  rewrite Hev in H. destruct (rq_event (sq_req q)) eqn:He;
    try (apply M_bind_Ok in H as (u & [s1 w1] & H & [= _ <- <-]));
    try (simpl req_event_handler in H; unfold non_tls_event_handler in H; rewrite Hev in H).
  - by eapply handle_accept_steps; [apply Hw|].
  - injection H as _ <- <-. apply rtc_refl.
  - injection H as _ <- <-. apply rtc_refl.
  - by eapply handle_read_steps.
  - by eapply Hwrite.
  - apply M_bind_Ok in H as (u1 & [s1 w1] & [He1 ->]%on_server_Ok & H).
    apply M_bind_Ok in He1 as (s0 & s2 & [= <- <-] & He1). apply M_bind_Ok in H as (u2 & [s2 w2] & H & [= _ <- <-]).
    eapply handle_notification_steps; [by apply Hw|by apply Hn|exact He1|done|exact H].
  - by eapply handle_custom_read_steps.
  - by eapply handle_timer_steps.
  - apply on_server_Ok in H as [H ->]. injection H as _ <-. by apply other_steps.
Qed.
End Round.

Lemma loop_step_steps mem ev s w go s' w' :
  write_inv None s → all_marked s →
  (∀ q, ring s !! cq_pos ev = Some q → rq_event (sq_req q) = NOTIFICATION → may_take_up s w) →
  loop_step (web_callbacks e) mem ev (s, w) = Ok (go, (s', w')) → steps (s, w) (s', w').
Proof.
  intros Hinv Hm Hn H. unfold loop_step in H. destruct (_ <? 0); [done|].
  apply M_bind_Ok in H as (s0 & [s1 w1] & [[= <- <-] ->]%on_server_Ok & H).
  destruct (ring s !! cq_pos ev) as [q|] eqn:Hq; [|done].
  apply M_bind_Ok in H as (u & [s1 w1] & [[= _ <-] ->]%on_server_Ok & H).
  destruct (take_write_inv s (cq_pos ev) q Hinv Hq) as [Hc Hh]. set (s1 := set_ring (delete (cq_pos ev) (ring s)) s) in *.
  apply M_bind_Ok in H as (r & [s2 w2] & Hk & H). apply kernel_io_effect in Hk as (-> & [wi ->] & Hr1 & Hr2).
  transitivity (s1, w); [by apply other_steps|]. set (s2 := srv_obs _ _ _ _ _ s1) in *.
  transitivity (s2, w); [by apply other_steps|].
  apply (handle_event_steps q r ev s2 w go); [by destruct Hc; split|by destruct Hh; split|done|by apply Hn|done..].
Qed.
End Rounds.

(** A thread may do a round of its event loop; [thread_ready] of Program.v has that a thread in order may. *)
Record round_ready (s : srv) (w : web_server) (ev : cqe) : Prop := {
  rr_inv : write_inv None s;
  rr_marked : all_marked s;
  rr_take_up q : ring s !! cq_pos ev = Some q → rq_event (sq_req q) = NOTIFICATION → may_take_up s w
}.

(** * Properties *)

(** C6: the threads refine the system: a round of the event loop of a plain server, with the callbacks of the web
    server, whatever completion it handles (a connection, a request, the end of a write, a failure, the timer,
    a notification), is a sequence of the steps that the theorems on the system allow a thread:
    taking a message up, reporting that one write of a broadcast ended, and
    anything that leaves messages and broadcasts alone; each broadcast that leaves a
    queue, by being sent or with its connection, is reported exactly once. *)
Theorem thread_round_refines e mem ev s w go s' w' :
  round_ready s w ev → loop_step (web_callbacks e) mem ev (s, w) = Ok (go, (s', w')) →
  rtc (thread_step e) (s, w) (s', w').
Proof. intros [Hinv Hm Hn]. by apply loop_step_steps. Qed.

(** A thread that is notified of a message. *)
Definition demo_notified : srv * web_server :=
  (set_ring [prep_read 5 0 8 0 (rq_set_read_data (replicate 8 nul) (new_request NOTIFICATION))] demo_before.1, demo_before.2).
Definition demo_notification : cqe :=
  {| cq_wait := 0; cq_pos := 0; cq_res := 8; cq_data := replicate 8 nul; cq_peek := λ _, -1; cq_iter := elements |}.

Lemma thread_round_refines_witness :
  ∃ s' w', loop_step (web_callbacks demo_env) (web_mem (λ _, Err NullDeref)) demo_notification demo_notified =
      Ok (true, (s', w')) ∧ rtc (thread_step demo_env) demo_notified (s', w') ∧
    broadcasts s' = [(PStoreItem 0, len frame, 0)].
Proof.
  destruct (loop_step (web_callbacks demo_env) (web_mem (λ _, Err NullDeref)) demo_notification demo_notified)
    as [[go [s' w']]|] eqn:E; [|exfalso; vm_compute in E; discriminate E].
  assert (go = true ∧ broadcasts s' = [(PStoreItem 0, len frame, 0)]) as [-> Hb].
  { vm_compute in E. injection E as <- <- _. split; vm_compute; reflexivity. }
  exists s', w'. split_and!; [reflexivity| |exact Hb].
  apply (thread_round_refines demo_env (web_mem (λ _, Err NullDeref)) demo_notification demo_notified.1 demo_notified.2 true);
    [|exact E]. split.
  - assert (write_inv None demo_before.1) as [Hc Hh] by apply write_inv_obs, two_conns_inv.
    apply (submit_inv None [] _ demo_before.1); [exact Hc|exact Hh| |discriminate]. by apply read_sqe_ok.
  - apply (bool_decide_unpack _). vm_compute. exact I.
  - intros q _ _. split_and!; [vm_compute; reflexivity| |vm_compute; discriminate].
    split_and!; [apply (bool_decide_unpack _); vm_compute; exact I| |vm_compute; reflexivity].
    intros i Hi. apply elem_of_elements in Hi. vm_compute in Hi. apply list_elem_of_singleton in Hi as ->. lia.
Defined.

(** Notifications coalesce: two messages posted before the eventfd is read are one completion, whose
    count (the bytes read) is not looked at: one message is taken up and the eventfd is read again, which
    waits for another notification while the second message stays in the queue. *)
Definition demo_two_messages : result (unit * (srv * web_server)) :=
  post_message_to_server_thread websocket_broadcast (PStoreItem 1) 6 1 (-1) demo_notified.

Lemma notifications_coalesce :
  ∃ t s' w', demo_two_messages = Ok (tt, t) ∧
    loop_step (web_callbacks demo_env) (web_mem (λ _, Err NullDeref))
      {| cq_wait := 0; cq_pos := 0; cq_res := 8; cq_data := le_bytes 8 2; cq_peek := λ _, -1; cq_iter := elements |} t =
      Ok (true, (s', w')) ∧
    mp_item_idx <$> to_server_queue (web_queues t.2) = [0; 1] ∧ mp_item_idx <$> to_server_queue (web_queues w') = [1] ∧
    (λ q, rq_event (sq_req q)) <$> ring s' = [NOTIFICATION; ServerBase.WRITE].
Proof.
  destruct demo_two_messages as [[[] t]|] eqn:E1; [|exfalso; vm_compute in E1; discriminate E1].
  exists t. vm_compute in E1. injection E1 as <-. eexists _, _. split; [reflexivity|].
  split; [vm_compute; reflexivity|]. split_and!; vm_compute; reflexivity.
Qed.
