(* ===== verification/ThreadInv.v ===== *)
(** * What holds of a thread between the rounds of its event loop

    The invariant [thread_ok] of a thread of the plain server: the invariant of its connections
    and writes, the marks of the queued broadcasts, and the websockets, which are on active
    connections.  Every round of the event loop with the callbacks of the web server keeps it,
    for the completions of [completion_ok]: those that are not late for a connection that the
    server closed in the meantime. *)

From S2P Require Import Prelude Utility CString Bytes WsFrame Cache CacheWatch ServerBase NonTls NonTlsLoop TcpServer WebBase WebSockets Http Callbacks WsProps BroadcastProps DataStore Central CentralProps ThreadProps.
From Stdlib Require Import ZArith Lia.
From stdpp Require Import base gmap strings list fin_maps sets.

#[local] Open Scope Z_scope.

(** * Specification *)

(** The websockets are in order, none is marked to be closed, and the messages have buffers;
    [live] are the connections that the web server has not ended. *)
Record web_ok (live : gset Z) (w : web_server) : Prop := {
  wo_set : tcp_server_set w = true;
  wo_sockets : sockets_inv w live;
  wo_open : ∀ i c, vget (websocket_clients (web_sockets w)) i = Ok c → wc_close c = false;
  wo_msgs : Forall (λ m, mp_buff_ptr m ≠ PNull) (to_server_queue (web_queues w));
  wo_cache : cache_good (web_cache w)
}.

Record thread_ok (t : srv * web_server) : Prop := {
  th_write : write_inv None t.1;
  th_marked : all_marked t.1;
  th_web : web_ok (active_connections t.1) t.2
}.

(** The completions of request [q] that a round may handle.  The kernel writes no more than asked; it
    reads an eventfd after something was posted; the data or the failure of a read, and a
    file, do not arrive late, for a connection that was closed in the meantime, unless the ID
    shows it; and connections that the timer finds closed have nothing queued.  (What the code does otherwise
    is in NonTlsProps.v and Serve.v.)  Indexes of connections fit [int]. *)
Record completion_ok (s : srv) (w : web_server) (ev : cqe) (q : sqe) : Prop := {
  cm_few : len (clients s) < 2 ^ 31 - 1;
  cm_len : sq_op q = IoWrite → cq_res ev ≤ sq_len q;
  cm_read : rq_event (sq_req q) = ServerBase.READ → rq_client_idx (sq_req q) ∈ active_connections s ∨
    (0 < rq_client_idx (sq_req q) ∨ cq_res ev ≤ 0) ∧
    ∃ c, vget (clients s) (rq_client_idx (sq_req q)) = Ok c ∧ cl_id c ≠ rq_ID (sq_req q);
  cm_file : rq_event (sq_req q) = CUSTOM_READ →
    to_i32 (rq_custom_info (sq_req q)) = inotify_fd (web_cache w) ∨ rq_client_idx (sq_req q) ∈ active_connections s;
  cm_timer : rq_event (sq_req q) = ServerBase.TIMERFD → IterOrder (cq_iter ev) ∧
    ∀ i c, i ∈ active_connections s → vget (clients s) i = Ok c → cq_peek ev (cl_sockfd c) = 0 → send_data c = [];
  cm_message : rq_event (sq_req q) = NOTIFICATION → to_server_queue (web_queues w) ≠ []
}.

(** * Lemmas *)

(** ** The web server's part *)

(** What a websocket's record says of its connection. *)
Definition ws_owner (c : ws_client) : Z * bool := (wc_client_idx c, wc_close c).

(** No websocket opens or ends, except that one may stop being active. *)
Record same_sockets (w w' : web_server) : Prop := {
  sm_set : tcp_server_set w' = tcp_server_set w;
  sm_msgs : to_server_queue (web_queues w') = to_server_queue (web_queues w);
  sm_clients : tc_ws_client_idx <$> tcp_clients w' = tc_ws_client_idx <$> tcp_clients w;
  sm_all : all_websocket_connections (web_sockets w') = all_websocket_connections (web_sockets w);
  sm_freed : ws_freed_indexes (web_sockets w') = ws_freed_indexes (web_sockets w);
  sm_active : active_websocket_connections_client_idxs (web_sockets w') ⊆
    active_websocket_connections_client_idxs (web_sockets w);
  sm_records : ws_owner <$> websocket_clients (web_sockets w') = ws_owner <$> websocket_clients (web_sockets w);
  sm_cache : cache_good (web_cache w) → cache_good (web_cache w')
}.

#[export] Instance same_sockets_preorder : PreOrder same_sockets.
Proof. split; [by split|]. intros w1 w2 w3 [] []. split; (congruence || set_solver || auto). Qed.

Lemma sockets_inv_same live w w' : same_sockets w w' → sockets_inv w live → sockets_inv w' live.
Proof.
  intros [_ _ Ec Eall Efr Hact Er _] [Hr Hd Hl Ha Ho Hop Hc].
  pose proof (len_fmap_same _ _ _ Er) as Hlen. pose proof (len_fmap_same _ _ _ Ec) as Hlen'.
  split; rewrite ?Eall, ?Efr, ?Hlen, ?Hlen'; [done|done|set_solver|..|done].
  - intros k Hk. destruct (Ha k) as (t & Ht & Hi); [set_solver|].
    destruct (vget_fmap_same _ _ _ k t (eq_sym Ec) Ht) as (t' & Ht' & E). exists t'. by rewrite E.
  - intros k t Hk Ht Hi. destruct (vget_fmap_same _ _ _ k t Ec Ht) as (t0 & Ht0 & E). rewrite <-E in Hi |- *.
    destruct (Ho k t0 Hk Ht0 Hi) as (c & Hcv & <-).
    destruct (vget_fmap_same _ _ _ _ c (eq_sym Er) Hcv) as (c' & Hc' & E'). exists c'. split; [done|]. by injection E'.
  - intros k t Hk Ht. destruct (vget_fmap_same _ _ _ k t Ec Ht) as (t0 & Ht0 & <-). by apply (Hop k).
Qed.

Lemma web_ok_same live w w' : same_sockets w w' → web_ok live w → web_ok live w'.
Proof.
  intros Hs [Hset Hsk Hop Hm Hca]. pose proof Hs as [E1 E2 _ _ _ _ E3 E4]. split.
  - by rewrite E1.
  - by eapply sockets_inv_same.
  - intros i c Hc. destruct (vget_fmap_same _ _ _ i c E3 Hc) as (c0 & Hc0 & E). rewrite <-(Hop i c0 Hc0). by injection E.
  - by rewrite E2.
  - by apply E4.
Qed.

(** Websocket [i] is the one of connection [k]. *)
Definition owned (i k : Z) (w : web_server) : Prop :=
  ∃ c, vget (websocket_clients (web_sockets w)) i = Ok c ∧ wc_client_idx c = k.

Lemma owned_same i k w w' : same_sockets w w' → owned i k w → owned i k w'.
Proof.
  intros [_ _ _ _ _ _ E _] (c & Hc & <-). destruct (vget_fmap_same _ _ _ i c (eq_sym E) Hc) as (c' & Hc' & E').
  exists c'. split; [done|]. by injection E'.
Qed.

Abbreviation web_same := (keeps same_sockets).

Lemma upd_ws_client_same i g : (∀ c, ws_owner (g c) = ws_owner c) → web_same (upd_ws_client i g).
Proof.
  intros Hg w u w' H. unfold upd_ws_client in H. apply M_bind_Ok in H as (w0 & w1 & [= <- <-] & H).
  apply M_bind_Ok in H as (l & w1 & [(c & Hc & ->)%vupd_Ok ->]%mlift_Ok & [= _ <-]).
  split; try done. simpl. by eapply fmap_insert_same.
Qed.

Lemma upd_tcp_client_same i g : (∀ t, tc_ws_client_idx (g t) = tc_ws_client_idx t) → web_same (upd_tcp_client i g).
Proof.
  intros Hg w u w' H. unfold upd_tcp_client in H. apply M_bind_Ok in H as (w0 & w1 & [= <- <-] & H).
  apply M_bind_Ok in H as (l & w1 & [(c & Hc & ->)%vupd_Ok ->]%mlift_Ok & [= _ <-]).
  split; try done. simpl. by eapply fmap_insert_same.
Qed.

Lemma get_tcp_client_same i : web_same (get_tcp_client i).
Proof. unfold get_tcp_client. solve_keeps. Qed.
Lemma get_ws_client_same i : web_same (get_ws_client i).
Proof. unfold get_ws_client. solve_keeps. Qed.
Lemma sys_open_same e p : web_same (sys_open e p).
Proof. unfold sys_open. cbv zeta. solve_keeps. Qed.
Lemma sys_close_same fd : web_same (sys_close fd).
Proof. unfold sys_close. solve_keeps. Qed.
Lemma file_size_same e fd : web_same (file_size e fd).
Proof. unfold file_size. solve_keeps. Qed.
Lemma inactive_same A : web_same (mod_sockets (λ ws, ws_set_active (active_websocket_connections_client_idxs ws ∖ A) ws)).
Proof. apply keeps_modify. intros w. split; try done. simpl. set_solver. Qed.
Lemma post_same ty p l i a : web_same (post_message_to_program ty p l i a).
Proof.
  intros w u w' H. unfold post_message_to_program in H. apply M_bind_Ok in H as (w0 & w1 & [= <- <-] & H).
  destruct (negb _); by injection H as _ <-.
Qed.
#[export] Hint Resolve get_tcp_client_same get_ws_client_same sys_open_same sys_close_same file_size_same
  inactive_same post_same : keeps.
#[export] Hint Extern 1 (keeps same_sockets (upd_ws_client _ _)) => by apply upd_ws_client_same : keeps.
#[export] Hint Extern 1 (keeps same_sockets (upd_tcp_client _ _)) => by apply upd_tcp_client_same : keeps.

(** A client's data and the cache are replaced. *)
Lemma put_client_same k t t' c w :
  vget (tcp_clients w) k = Ok t → tc_ws_client_idx t' = tc_ws_client_idx t →
  (cache_good (web_cache w) → cache_good c) →
  same_sockets w (set_tcp_clients (<[Z.to_nat k := t']> (tcp_clients w)) (set_web_cache c w)).
Proof. intros Hv E Hc. split; try done. simpl. by eapply fmap_insert_same. Qed.

Lemma cache_fetch_same f k w r w' :
  cache_good (web_cache w) → cache_fetch f k w = Ok (r, w') →
  same_sockets w w' ∧ (cf_found r = true → is_Some (cf_buff r)) ∧ (present f (web_cache w) → cf_found r = true).
Proof.
  intros Hc H. unfold cache_fetch in H. apply M_bind_Ok in H as (w0 & w1 & [= <- <-] & H).
  apply M_bind_Ok in H as (t & w1 & Hg & H). unfold get_tcp_client in Hg.
  apply M_bind_Ok in Hg as (w0 & w2 & [= <- <-] & [Hv ->]%mlift_Ok).
  apply M_bind_Ok in H as ([[r1 t'] c'] & w1 & [Hf ->]%mlift_Ok & H). rewrite (M_bind_run _ _ w tt (set_web_cache c' w)) in H by done.
  rewrite (M_bind_run _ _ _ _ _ (upd_tcp_client_run k (λ _, t') (set_web_cache c' w) t Hv)) in H. injection H as <- <-.
  destruct (fetch_good _ _ _ _ _ _ _ Hc Hf) as (Hc' & Ht & Hr). split_and!; [by apply (put_client_same k t)|done|].
  intros Hp. by eapply fetch_present.
Qed.

Lemma cache_finished_same k : web_same (cache_finished k).
Proof.
  intros w u w' (t & c & Hv & Hf & ->)%cache_finished_inv. apply (put_client_same k t); [done|done|].
  intros Hc. by eapply finished_good in Hf as [? _].
Qed.

(** ** The server's part *)

(** The connections [act] stay the active ones. *)
Record srv_ok (act : gset Z) (s : srv) : Prop := {
  sv_inv : write_inv None s;
  sv_marked : all_marked s;
  sv_active : active_connections s = act
}.

Abbreviation srv_keeps act := (keeps (preserves (srv_ok act))).

Lemma all_marked_queued s : all_marked s ↔ ∀ wd, wd ∈ all_queued s → marked wd.
Proof.
  unfold all_marked, all_queued. rewrite <-Forall_forall, Forall_concat, Forall_fmap. done.
Qed.

Lemma enqueued_marked i wd s s' : enqueued i wd s s' → marked wd → all_marked s → all_marked s'.
Proof.
  rewrite !all_marked_queued. intros [Hp _]%enqueued_queued Hwd Hm x. rewrite Hp. intros [->|Hx]%elem_of_cons; auto.
Qed.

Lemma only_client_marked i q s s' : only_client i q s s' → Forall marked q → all_marked s → all_marked s'.
Proof. intros [(c & c' & Hv & Ec & <- & _) _ _] Hq Hm. by eapply marked_update. Qed.

Lemma write_connection_ok act i b : i ∈ act → srv_keeps act (write_connection i b).
Proof.
  intros Hi s u s' H [Hinv Hm <-]. destruct (write_connection_inv None i b s Hinv Hi) as (s1 & E & Hinv' & Hen); [done|].
  rewrite E in H. injection H as _ <-. split; [done| |apply Hen]. by eapply enqueued_marked.
Qed.

Lemma write_connection_ptr_ok act i p n : i ∈ act → p ≠ PNull → srv_keeps act (write_connection_ptr i p n).
Proof.
  intros Hi Hp s u s' H [Hinv Hm <-].
  destruct (write_connection_ptr_inv None i p n s Hinv Hi) as (s1 & E & Hinv' & Hen); [done|done|].
  rewrite E in H. injection H as _ <-. split; [done| |apply Hen]. by eapply enqueued_marked.
Qed.

Lemma broadcast_ptr_ok act idxs n p l info :
  Forall (λ i, i ∈ act ∧ to_i32 i = i) idxs → p ≠ PNull → srv_keeps act (broadcast_message_ptr idxs n p l info).
Proof.
  intros Hidx Hp s u s' H [Hinv Hm <-].
  destruct (broadcast_message_ptr_inv None idxs n p l info s Hinv) as (s1 & E & Hinv' & Ha & _ & Hq); [|done|].
  { eapply Forall_impl; [exact Hidx|]. intros i [? ->]. done. }
  rewrite E in H. injection H as _ <-. split; [done| |done]. apply all_marked_queued. rewrite all_marked_queued in Hm.
  intros wd Hwd. destruct (Hq wd Hwd) as [?|[a ->]]; [auto|]. by intros _.
Qed.

Lemma add_read_req_ok act i : srv_keeps act (ServerBase.add_read_req i ServerBase.READ).
Proof.
  intros s n s' H [Hinv Hm <-]. pose proof H as Hg. unfold ServerBase.add_read_req in Hg.
  apply M_bind_Ok in Hg as (c & s0 & [Hv ->]%get_client_Ok & _).
  destruct (add_read_req_inv None s i c Hinv Hv) as (n' & s1 & E & Hinv' & Ho). rewrite E in H. injection H as _ <-.
  split; [done| |apply Ho]. eapply only_client_marked; [exact Ho| |done]. by eapply marked_client.
Qed.

Lemma read_connection_ok act i : srv_keeps act (read_connection i).
Proof. unfold read_connection. apply keeps_bind; [apply add_read_req_ok|]. intros _. apply keeps_ret. Qed.

Lemma submit_ok act q : (∀ n, NonTls.sqe_ok n q) → sq_op q ≠ IoWrite → srv_keeps act (submit q).
Proof.
  intros Hq Hop s u s' [= _ <-] [[Hc Hh] Hm <-]. split; [|done|done]. by apply submit_inv.
Qed.

Lemma custom_read_req_ok act fd n i b a : srv_keeps act (custom_read_req fd n i b a).
Proof. apply submit_ok; [|done]. intros m. by apply read_sqe_ok. Qed.

Lemma tcp_write_ok act k b : k ∈ act → srv_keeps act (tcp_write k b).
Proof. apply write_connection_ok. Qed.
Lemma tcp_write_ptr_ok act k p n : k ∈ act → p ≠ PNull → srv_keeps act (tcp_write_ptr k p n).
Proof. apply write_connection_ptr_ok. Qed.
#[export] Hint Resolve read_connection_ok custom_read_req_ok tcp_write_ok tcp_write_ptr_ok : keeps.

(** ** Both parts *)

Definition both (act : gset Z) (J : web_server → Prop) (t : srv * web_server) : Prop := srv_ok act t.1 ∧ J t.2.

(** What does not depend on more than the websockets. *)
Class Stable (J : web_server → Prop) : Prop := stable w w' : same_sockets w w' → J w → J w'.

#[export] Instance web_ok_stable live : Stable (web_ok live).
Proof. intros w w'. apply web_ok_same. Qed.

(** Connection [k] is served as websocket [i]. *)
Definition read_ok (act : gset Z) (i k : Z) (w : web_server) : Prop := web_ok act w ∧ owned i k w.

#[export] Instance read_ok_stable act i k : Stable (read_ok act i k).
Proof. intros w w' Hs []. split; [by eapply web_ok_same|by eapply owned_same]. Qed.

Abbreviation ok_keeps act J := (keeps (preserves (both act J))).

Lemma ok_web {A} act J `{!Stable J} (m : M web_server A) : web_same m → ok_keeps act J (on_web m).
Proof. intros Hm. eapply keeps_on_web, Hm. intros s w w' Hs [H1 H2]. split; [done|]. by eapply stable. Qed.

Lemma ok_tcp {A} act J (m : M srv A) : srv_keeps act m → ok_keeps act J (on_tcp m).
Proof. intros Hm. eapply keeps_on_tcp, Hm. intros s s' w Hs [H1 H2]. split; [by apply Hs|done]. Qed.
#[export] Hint Resolve ok_tcp : keeps.
#[export] Hint Extern 1 (keeps (preserves (both _ _)) (on_web _)) => apply ok_web; [apply _|solve [solve_keeps]] : keeps.

(** *** Websockets *)

Section Websocket.
Context (act : gset Z) (i k : Z) (Hk : k ∈ act).

Lemma owned_record t c t' :
  both act (read_ok act i k) t → on_web (get_ws_client i) t = Ok (c, t') →
  both act (read_ok act i k) t' ∧ wc_client_idx c = k.
Proof.
  destruct t as [s w], t' as [s' w']. intros Ht [H ->]%on_web_Ok. unfold get_ws_client in H.
  apply M_bind_Ok in H as (w0 & w1 & [= <- <-] & [Hv ->]%mlift_Ok). split; [done|].
  destruct Ht as [_ [_ (c' & Hc' & <-)]]. simpl in Hc'. rewrite Hv in Hc'. by injection Hc' as <-.
Qed.

Lemma websocket_write_ok b : ok_keeps act (read_ok act i k) (websocket_write i b).
Proof.
  unfold websocket_write. apply keeps_bind; [solve_keeps|]. intros _.
  apply (keeps_bind_result _ (λ c, wc_client_idx c = k)); [apply owned_record|]. intros c ->. solve_keeps.
Qed.

Lemma close_req_ok b : ok_keeps act (read_ok act i k) (close_ws_connection_req i b).
Proof.
  unfold close_ws_connection_req. apply keeps_bind; [solve_keeps|]. intros _.
  apply (keeps_bind_result _ (λ c, wc_client_idx c = k)); [apply owned_record|]. intros c ->. solve_keeps.
Qed.
#[local] Hint Resolve websocket_write_ok close_req_ok : keeps.

Lemma get_ws_frames_ok b n : ok_keeps act (read_ok act i k) (get_ws_frames b n i).
Proof. unfold get_ws_frames. solve_keeps. Qed.

Lemma process_frame_ok f : ok_keeps act (read_ok act i k) (process_frame i f).
Proof. unfold process_frame. solve_keeps. Qed.

Lemma deliver_ok f : ok_keeps act (read_ok act i k) (WebSockets.deliver i f).
Proof.
  unfold WebSockets.deliver. apply keeps_when, ok_web; [apply _|]. apply keeps_modify. intros w. by split.
Qed.
#[local] Hint Resolve process_frame_ok deliver_ok : keeps.

Lemma process_frames_ok fs : ∀ c, ok_keeps act (read_ok act i k) (process_frames i c fs).
Proof. induction fs as [|f fs IH]; intros c; simpl; solve_keeps. Qed.
End Websocket.
#[export] Hint Resolve get_ws_frames_ok process_frames_ok : keeps.

(** An active websocket has its record. *)
Lemma active_owned act w k :
  web_ok act w → k ∈ active_websocket_connections_client_idxs (web_sockets w) →
  k ∈ act ∧ ∃ t, vget (tcp_clients w) k = Ok t ∧ owned (tc_ws_client_idx t) k w.
Proof.
  intros [_ [_ _ Hl Ha Ho _ _] _ _ _] Hk. destruct (Ha k Hk) as (t & Ht & Hin).
  split; [by apply Hl|]. exists t. split; [done|]. by apply (Ho k t (Hl k Hk)).
Qed.

Lemma get_tcp_client_Ok k w t w' : get_tcp_client k w = Ok (t, w') → vget (tcp_clients w) k = Ok t ∧ w' = w.
Proof.
  intros H. unfold get_tcp_client in H. by apply M_bind_Ok in H as (w0 & w1 & [= <- <-] & [Hv ->]%mlift_Ok).
Qed.

Lemma process_read_ok act k b n s w u s' w' :
  both act (web_ok act) (s, w) → k ∈ active_websocket_connections_client_idxs (web_sockets w) →
  websocket_process_read_cb k b n (s, w) = Ok (u, (s', w')) → both act (web_ok act) (s', w').
Proof.
  intros [Hs Hw] Hk H. destruct (active_owned act w k Hw Hk) as (Hact & t & Ht & Hown).
  unfold websocket_process_read_cb in H.
  apply M_bind_Ok in H as (t' & [s1 w1] & [[Ht' ->]%get_tcp_client_Ok ->]%on_web_Ok & H).
  rewrite Ht in Ht'. injection Ht' as <-. cbv zeta in H. set (i := tc_ws_client_idx t) in *.
  assert (both act (read_ok act i k) (s', w')) as [? [? _]]; [|done].
  eapply (λ Hm, (Hm : ok_keeps act (read_ok act i k) _) _ _ _ H); [|done]. solve_keeps.
Qed.

(** Opening a websocket. *)
Lemma open_ok act key path k e : k ∈ act → ok_keeps act (web_ok act) (websocket_accept_read_cb e key path k).
Proof.
  intros Hk. unfold websocket_accept_read_cb. apply keeps_bind; [solve_keeps|]. intros v. cbv zeta.
  apply keeps_bind; [solve_keeps|]. intros buf [s w] u [s' w'] H [Hs Hw]. simpl in Hs, Hw.
  pose proof Hw as [Hset Hsk Hop Hm Hca].
  destruct (new_ws_client_run k w) as (i & ws' & E & How).
  { intros j Hj. apply (si_range _ _ Hsk). set_solver. }
  rewrite (on_web_bind _ _ _ _ _ _ E) in H. destruct (vget_is_Ok (tcp_clients w) k) as [t Ht]; [by eapply si_clients|].
  rewrite (on_web_bind _ _ _ _ _ _ (upd_tcp_client_run k _ (set_web_sockets ws' w) t Ht)) in H.
  set (w2 := set_tcp_clients _ _) in H. assert (web_ok act w2) as Hw2.
  { split; [done|exact (sockets_inv_open k i t ws' w act Hsk Hk How Ht)| |done|done]. simpl. intros j c Hj.
    destruct (decide (j = i)) as [->|Hne].
    - destruct (ow_client _ _ _ _ How) as (id & Hc). rewrite Hc in Hj. by injection Hj as <-.
    - pose proof (vget_range _ _ _ Hj). pose proof (ow_len _ _ _ _ How). rewrite (ow_others _ _ _ _ How) in Hj; [by eapply Hop|done|].
      destruct (ow_index _ _ _ _ How) as [Hi| ->]; [|lia]. assert (0 ≤ i < len (websocket_clients (web_sockets w))) by
        (apply (si_range _ _ Hsk); set_solver). lia. }
  assert (both act (web_ok act) (s', w')); [|done].
  by apply (ok_tcp act (web_ok act) _ (tcp_write_ok act k buf Hk) _ _ _ H).
Qed.
#[export] Hint Resolve open_ok : keeps.

(** *** HTTP *)

Lemma fetched act f k t r t' :
  both act (web_ok act) t → on_web (cache_fetch f k) t = Ok (r, t') →
  both act (web_ok act) t' ∧ (cf_found r = true → is_Some (cf_buff r)).
Proof.
  destruct t as [s w], t' as [s' w']. intros [Hs Hw] [H ->]%on_web_Ok.
  apply cache_fetch_same in H as (Hsame & Hr & _); [|apply Hw]. split; [|done]. split; [done|]. by eapply web_ok_same.
Qed.

Lemma cache_ptr_Some o : is_Some o → cache_ptr o ≠ PNull.
Proof. by intros [i ->]. Qed.

Lemma send_file_ok act e k p b code : k ∈ act → ok_keeps act (web_ok act) (send_file_request e k p b code).
Proof.
  intros Hk. unfold send_file_request. apply keeps_bind; [solve_keeps|]. intros fd. destruct (fd <? 0); [solve_keeps|].
  apply keeps_bind; [solve_keeps|]. intros size. cbv zeta. apply keeps_bind; [solve_keeps|]. intros ty.
  apply (keeps_bind_result _ (λ r, cf_found r = true → is_Some (cf_buff r))); [intros ???; apply fetched|].
  intros r Hr. apply keeps_bind; [solve_keeps|]. intros buf. apply keeps_bind; [solve_keeps|]. intros buf'.
  apply keeps_bind; [|intros _; apply keeps_ret].
  destruct (cf_found r); [|solve_keeps]. apply ok_tcp, tcp_write_ptr_ok; [done|]. by apply cache_ptr_Some, Hr.
Qed.
#[export] Hint Resolve send_file_ok : keeps.

Lemma get_process_ok act e p b key k : k ∈ act → ok_keeps act (web_ok act) (get_process e p b key k).
Proof. intros Hk. unfold get_process. solve_keeps. Qed.
#[export] Hint Resolve get_process_ok : keeps.

Lemma read_request_ok act e k b : k ∈ act → ok_keeps act (web_ok act) (read_request e k b).
Proof. intros Hk. unfold read_request. solve_keeps. Qed.

(** *** Ending connections *)

Lemma both_thread act s w : both act (web_ok act) (s, w) → thread_ok (s, w).
Proof. intros [[Hi Hm <-] Hw]. by split. Qed.

Lemma thread_both s w : thread_ok (s, w) → both (active_connections s) (web_ok (active_connections s)) (s, w).
Proof. intros [Hi Hm Hw]. by split. Qed.

Lemma killed_ok live live' k t c w :
  web_ok live w → finished_with_item k t (web_cache w) = Ok (set_using_file false t, c) →
  sockets_inv (killed k t c w) live' → web_ok live' (killed k t c w).
Proof.
  intros [Hset _ Hop Hm Hca] Hf Hsk. destruct (kill_sockets_effect k (tc_ws_client_idx t) (web_sockets w)) as (_ & Ecl & _ & _).
  split; [done|done| |done|].
  - simpl. by rewrite Ecl.
  - by eapply finished_good in Hf as [? _].
Qed.

Lemma web_close_ok act k s w u s' w' :
  both act (web_ok act) (s, w) → k ∈ act → k ∉ active_websocket_connections_client_idxs (web_sockets w) →
  web_close_connection k (s, w) = Ok (u, (s', w')) → thread_ok (s', w').
Proof.
  intros [[Hinv Hm <-] Hw] Hk Hna H. simpl in *. unfold web_close_connection in H.
  apply M_bind_Ok in H as (u1 & [s1 w1] & [Hkill ->]%on_web_Ok & H). apply on_tcp_Ok in H as [H ->].
  change (NonTls.close_connection k s = Ok (u, s')) in H. apply kill_client_inv in Hkill as (t & c & Ht & Hf & ->).
  destruct (active_client _ _ _ _ (proj1 Hinv) Hk) as [cl Hv].
  destruct (close_connection_inv s k cl Hinv Hv) as (s2 & E & Hinv' & ->). rewrite E in H. injection H as _ <-.
  case_decide; split; try done; simpl; (eapply killed_ok; [exact Hw|exact Hf|]).
  - apply sockets_inv_kill; [apply Hw|done|done].
  - apply sockets_inv_kill_idle; [apply Hw|done|by left|done].
Qed.

(** ** The callbacks *)

Section Callbacks.
Variable e : env.
Context `{!IterOrder (env_iter e)}.

Lemma read_cb_ok k b n s w u s' w' :
  thread_ok (s, w) → k ∈ active_connections s → read_cb e k b n (s, w) = Ok (u, (s', w')) → thread_ok (s', w').
Proof.
  intros Ht Hk H. pose proof (thread_both _ _ Ht) as Hb. unfold read_cb in H.
  apply M_bind_Ok in H as (valid & [s1 w1] & [[_ ->]%mlift_Ok ->]%on_web_Ok & H). destruct valid.
  - apply (both_thread (active_connections s)). by apply (read_request_ok _ e k b Hk _ _ _ H).
  - apply M_bind_Ok in H as (w0 & [s1 w1] & [[= <- <-] ->]%on_web_Ok & H). case_bool_decide as Hws.
    + apply M_bind_Ok in H as (u1 & [s2 w2] & H1 & H). apply (both_thread (active_connections s)).
      apply (ok_tcp _ (web_ok (active_connections s)) _ (read_connection_ok _ k) _ _ _ H). by eapply process_read_ok.
    + by apply (web_close_ok (active_connections s) k s w u).
Qed.

Lemma broadcast_done_same i (s : srv) w u s' w' :
  broadcast_done i (s, w) = Ok (u, (s', w')) → s' = s ∧ same_sockets w w'.
Proof.
  unfold broadcast_done, mwhen. destruct (negb _); [|by intros [= _ <- <-]]. intros [H ->]%on_web_Ok. split; [done|].
  eapply (λ Hm, (Hm : web_same _) _ _ _ H). solve_keeps.
Qed.

Lemma broadcast_done_ok act i : ok_keeps act (web_ok act) (broadcast_done i).
Proof.
  intros [s w] u [s' w'] [-> Hs]%broadcast_done_same [H1 H2]. split; [done|]. by eapply web_ok_same.
Qed.

Lemma potential_confirm_ok act i : ok_keeps act (web_ok act) (close_ws_connection_potential_confirm i).
Proof.
  unfold close_ws_connection_potential_confirm. apply (keeps_bind_result _ (λ c, wc_close c = false)).
  - intros [s w] c [s' w'] [Hs Hw] [H ->]%on_web_Ok. unfold get_ws_client in H.
    apply M_bind_Ok in H as (w0 & w1 & [= <- <-] & [Hv ->]%mlift_Ok). split; [done|]. by eapply wo_open.
  - intros c ->. cbn [mwhen]. solve_keeps.
Qed.

Lemma process_write_ok act k s w b s' w' :
  both act (web_ok act) (s, w) → websocket_process_write_cb k (s, w) = Ok (b, (s', w')) →
  both act (web_ok act) (s', w') ∧ (b = false → k ∉ active_websocket_connections_client_idxs (web_sockets w')).
Proof.
  intros Hb H. unfold websocket_process_write_cb in H.
  apply M_bind_Ok in H as (t & [s1 w1] & [[Ht ->]%get_tcp_client_Ok ->]%on_web_Ok & H). cbv zeta in H.
  apply M_bind_Ok in H as (w0 & [s1 w1] & [[= <- <-] ->]%on_web_Ok & H). case_bool_decide as Hin.
  - apply M_bind_Ok in H as (b1 & [s1 w1] & H & [= <- <- <-]). split; [|done]. by apply (potential_confirm_ok act _ _ _ _ H).
  - injection H as <- <- <-. split; [done|]. intros _ Hk. destruct Hb as [_ Hw].
    destruct (si_active _ _ (wo_sockets _ _ Hw) k Hk) as (t' & Ht' & Hi). simpl in *.
    rewrite Ht in Ht'. injection Ht' as <-. done.
Qed.

Lemma write_cb_ok k i s w u s' w' :
  thread_ok (s, w) → k ∈ active_connections s → write_cb k i (s, w) = Ok (u, (s', w')) → thread_ok (s', w').
Proof.
  intros Ht Hk H. pose proof (thread_both _ _ Ht) as Hb. unfold write_cb in H.
  apply M_bind_Ok in H as (u1 & [s1 w1] & H1 & H). apply (broadcast_done_ok _ i _ _ _ H1) in Hb.
  apply M_bind_Ok in H as (used & [s2 w2] & H2 & H). destruct (process_write_ok _ k s1 w1 used s2 w2 Hb H2) as [Hb2 Hna].
  destruct used; simpl in H.
  - injection H as _ <- <-. by eapply both_thread.
  - by apply (web_close_ok (active_connections s) k s2 w2 u); [done|done|apply Hna|].
Qed.

Lemma event_cb_ok s w u s' w' :
  thread_ok (s, w) → len (clients s) < 2 ^ 31 → to_server_queue (web_queues w) ≠ [] →
  event_cb e (s, w) = Ok (u, (s', w')) → thread_ok (s', w').
Proof.
  intros Ht Hlen Hq H. pose proof (thread_both _ _ Ht) as Hb. set (act := active_connections s) in *.
  assert (∀ i, i ∈ act → to_i32 i = i) as Hact.
  { intros i Hi. assert (0 ≤ i < len (clients s)); [|apply to_i32_small; lia].
    apply (ci_idx _ _ _ (proj1 (th_write _ Ht))). subst act. simpl. set_solver. }
  unfold event_cb in H. apply M_bind_Ok in H as (m & [s1 w1] & [Hm ->]%on_web_Ok & H).
  assert (both act (web_ok act) (s, w1) ∧ mp_buff_ptr m ≠ PNull) as [Hb1 Hp].
  { destruct Hb as [Hs [Hset Hsk Hop Hms Hca]]. simpl in *. unfold get_from_to_server_queue in Hm.
    apply M_bind_Ok in Hm as (w0 & w2 & [= <- <-] & Hm). cbv zeta in Hm.
    destruct (to_server_queue (web_queues w)) as [|m1 l] eqn:Eq; [done|]. injection Hm as <- <-.
    apply Forall_cons in Hms as [? ?]. split; [|done]. split; [done|]. split; try done. by destruct Hsk. }
  apply (both_thread act). clear Hq Hm Hb. eapply (λ Hk, (Hk : ok_keeps act (web_ok act) _) _ _ _ H); [|exact Hb1].
  apply keeps_bind; [solve_keeps|]. intros _.
  apply (keeps_bind_result _ (λ w, active_websocket_connections_client_idxs (web_sockets w) ⊆ act)).
  { intros [s2 w2] w3 [s3 w4] Hb [[= <- <-] ->]%on_web_Ok. split; [done|]. apply (si_live w2), Hb. }
  intros w2 Hsub. cbv zeta. destruct (0 <? _); [|solve_keeps].
  apply keeps_bind; [solve_keeps|]. intros l. apply keeps_bind; [solve_keeps|]. intros _.
  apply ok_tcp, broadcast_ptr_ok; [|done]. apply Forall_forall. intros j Hj%(iter_elem (env_iter e)). auto.
Qed.

(** A file that was read is offered to the cache. *)
Lemma offer_ok act (w : web_server) k path buff b w' :
  web_ok act w →
  (mget ≫= λ w,
   mput (set_os (S (sys_calls w)) (open_fds w) w) ≫= λ _,
   mlift (try_insert_item (env_iter e) (os_watch e (sys_calls w) path) k path buff (web_cache w)) ≫= λ '(b, c),
   mmodify (set_web_cache c) ≫= λ _, mret b) w = Ok (b, w') →
  web_ok act w' ∧ (b = true → present path (web_cache w')).
Proof.
  intros Hw H. apply M_bind_Ok in H as (w0 & w1 & [= <- <-] & H). apply M_bind_Ok in H as (u & w1 & [= _ <-] & H).
  apply M_bind_Ok in H as ([b1 c] & w1 & [Hi ->]%mlift_Ok & H). injection H as <- <-.
  apply (try_insert_good (env_iter e)) in Hi as [Hc Hp]; [|apply Hw]. split; [|done]. eapply web_ok_same; [|exact Hw]. by split.
Qed.

Lemma custom_read_cb_ok k fd b s w u s' w' :
  thread_ok (s, w) → fd = inotify_fd (web_cache w) ∨ k ∈ active_connections s →
  custom_read_cb e k fd b (s, w) = Ok (u, (s', w')) → thread_ok (s', w').
Proof.
  intros Ht Hk H. pose proof (thread_both _ _ Ht) as Hb. set (act := active_connections s) in *. apply (both_thread act).
  unfold custom_read_cb in H. apply M_bind_Ok in H as (w0 & [s1 w1] & [[= <- <-] ->]%on_web_Ok & H).
  destruct (Z.eqb_spec fd (inotify_fd (web_cache w))) as [_|Hfd].
  - apply M_bind_Ok in H as (wd & [s1 w1] & [[_ ->]%mlift_Ok ->]%on_web_Ok & H).
    apply M_bind_Ok in H as (u1 & [s1 w1] & [Hi ->]%on_web_Ok & H).
    apply M_bind_Ok in Hi as (c & w2 & [Hc ->]%mlift_Ok & [= _ <-]).
    eapply (λ Hm, (Hm : ok_keeps act (web_ok act) _) _ _ _ H); [unfold read_inotify; solve_keeps|].
    destruct Hb as [Hs Hw]. split; [done|]. eapply web_ok_same; [|exact Hw]. split; try done.
    intros Hwf. by eapply inotify_good.
  - destruct Hk as [?|Hk]; [done|]. apply M_bind_Ok in H as (u1 & [s1 w1] & H1 & H).
    apply (ok_web act (web_ok act) _ (sys_close_same fd) _ _ _ H1) in Hb. clear H1.
    apply M_bind_Ok in H as (t & [s2 w2] & [[_ ->]%get_tcp_client_Ok ->]%on_web_Ok & H). cbv zeta in H.
    apply M_bind_Ok in H as (ins & [s2 w2] & [Hoff ->]%on_web_Ok & H).
    apply (offer_ok act) in Hoff as [Hw2 Hp]; [|apply Hb]. assert (both act (web_ok act) (s1, w2)) as Hb2 by (split; [apply Hb|done]).
    destruct ins; [|by apply (ok_tcp act (web_ok act) _ (tcp_write_ok act k b Hk) _ _ _ H)].
    apply M_bind_Ok in H as (r & [s3 w3] & [Hf ->]%on_web_Ok & H).
    apply cache_fetch_same in Hf as (Hs & Hr & Hfound); [|apply Hw2].
    assert (cache_ptr (cf_buff r) ≠ PNull) as Hptr by (apply cache_ptr_Some, Hr, Hfound; by apply Hp).
    apply (ok_tcp act (web_ok act) _ (tcp_write_ptr_ok act k _ _ Hk Hptr) _ _ _ H). split; [apply Hb|]. by eapply web_ok_same.
Qed.

Lemma accept_cb_ok i act s w u s' w' :
  srv_ok ({[i]} ∪ act) s → web_ok act w → i ∉ act → 0 ≤ i < 2 ^ 31 - 1 →
  accept_cb i (s, w) = Ok (u, (s', w')) → both ({[i]} ∪ act) (web_ok ({[i]} ∪ act)) (s', w').
Proof.
  intros Hs [Hset Hsk Hop Hm Hca] Hi Hr [H ->]%on_web_Ok. split; [done|].
  destruct (new_tcp_client_run i w Hr) as (l & E & Hv & Hlen & Hoth). rewrite E in H. injection H as _ <-.
  split; try done. apply sockets_inv_accept; try done. by apply vget_range in Hv.
Qed.

(** ** The event loop *)

(** Connection [i] was ended by the web server and is about to be closed: ending it again changes nothing
    that matters. *)
Definition web_closing (act : gset Z) (i : Z) (w : web_server) : Prop :=
  web_ok (act ∖ {[i]}) w ∧ i ∉ active_websocket_connections_client_idxs (web_sockets w) ∧
  ∃ t, vget (tcp_clients w) i = Ok t ∧ tc_ws_client_idx t ∉ all_websocket_connections (web_sockets w).

Definition web_open (act : gset Z) (i : Z) (w : web_server) : Prop := web_ok act w ∧ i ∈ act ∨ web_closing act i w.

#[export] Instance web_closing_stable act i : Stable (web_closing act i).
Proof.
  intros w w' Hs (Hw & Hna & t & Ht & Hi). split; [by eapply web_ok_same|]. pose proof Hs as [_ _ Ec Eall _ Ha _ _].
  split; [set_solver +Ha Hna|]. destruct (vget_fmap_same _ _ _ i t (eq_sym Ec) Ht) as (t' & Ht' & E). exists t'. by rewrite E, Eall.
Qed.

#[export] Instance web_open_stable act i : Stable (web_open act i).
Proof. intros w w' Hs [[Hw Hi]|Hw]; [left; split; [by eapply web_ok_same|done]|right; by eapply stable]. Qed.

Lemma kill_closing act i w u w' : web_open act i w → kill_client i w = Ok (u, w') → web_closing act i w'.
Proof.
  intros Hw (t & c & Ht & Hf & ->)%kill_client_inv. pose proof (vget_range _ _ _ Ht) as Hr.
  destruct (kill_sockets_effect i (tc_ws_client_idx t) (web_sockets w)) as (Eall & _ & Eact & _).
  split; [|split; [simpl; rewrite Eact; set_solver|exists (set_using_file false t); simpl; rewrite Eall; split; [by apply vget_insert_eq|set_solver]]].
  destruct Hw as [[Hw Hi]|(Hw & Hna & t0 & Ht0 & Hall)]; (eapply killed_ok; [exact Hw|exact Hf|]).
  - apply sockets_inv_kill; [apply Hw|done|done].
  - rewrite Ht in Ht0. injection Ht0 as <-. apply sockets_inv_kill_idle; [apply Hw|done|by right|done].
Qed.

Lemma close_cb_closing act i info (s : srv) w u s' w' :
  web_open act i w → close_cb i info (s, w) = Ok (u, (s', w')) → s' = s ∧ web_closing act i w'.
Proof.
  intros Hw (u1 & [s1 w1] & [-> Hs]%broadcast_done_same & [H ->]%on_web_Ok)%M_bind_Ok. split; [done|].
  eapply kill_closing; [|exact H]. by eapply stable.
Qed.

Lemma drain_ok act i fuel : ∀ s w u s' w' c,
  write_inv (Some i) s → all_marked s → web_open act i w → vget (clients s) i = Ok c →
  drain (web_callbacks e) fuel i (s, w) = Ok (u, (s', w')) →
  write_inv (Some i) s' ∧ all_marked s' ∧ web_open act i w' ∧ active_connections s' = active_connections s ∧
  (∃ c', vget (clients s') i = Ok c' ∧ send_data c' = []) ∧ (send_data c = [] → s' = s).
Proof.
  induction fuel as [|fuel IH]; intros s w u s' w' c Hinv Hm Hw Hv H; simpl in H;
    rewrite (on_server_bind _ _ _ _ _ _ (get_client_run _ _ _ Hv)) in H;
    destruct (send_data c) as [|wd q] eqn:Hq; try done; try (injection H as _ <- <-; split_and!; by eauto).
  apply M_bind_Ok in H as (u1 & [s1 w1] & Hcl & H). apply (close_cb_closing act i) in Hcl as [-> Hw1]; [|done].
  destruct (closing_no_writes i s c Hinv Hv) as [Hnw _].
  destruct (send_pop_inv (Some i) s i c wd q Hinv ltac:(by right) Hv Hq Hnw) as (s2 & E & Hinv2 & Ho).
  rewrite (on_server_bind _ _ _ _ _ _ E) in H. destruct (only_heap_conn _ _ Ho) as (Ec & Ea & _). simpl in Ec, Ea.
  assert (all_marked s2) as Hm2.
  { eapply marked_update; [exact Hm|exact Ec|]. pose proof (marked_client s i c Hm Hv) as Hf. rewrite Hq in Hf. by inversion Hf. }
  destruct (IH s2 w1 u s' w' (cl_set_send_data q c)) as (H1 & H2 & H3 & H4 & H5 & _); [done|done|by right| |done|].
  { rewrite Ec. apply vget_insert_eq. by eapply vget_range. }
  split_and!; [done|done|done|by rewrite H4|done|done].
Qed.

Lemma close_client_ok i s w u s' w' c :
  write_inv (Some i) s → all_marked s → web_ok (active_connections s) w → i ∈ active_connections s →
  vget (clients s) i = Ok c → close_client (web_callbacks e) i (s, w) = Ok (u, (s', w')) →
  thread_ok (s', w') ∧ active_connections s' = active_connections s ∖ {[i]} ∧ (send_data c = [] → conns s' = conns s).
Proof.
  intros Hinv Hm Hw Hi Hv H. unfold close_client in H. rewrite (on_server_bind _ _ _ _ _ _ (get_client_run _ _ _ Hv)) in H.
  apply M_bind_Ok in H as (u1 & [s1 w1] & Hd & H).
  destruct (drain_ok (active_connections s) i _ s w u1 s1 w1 c Hinv Hm ltac:(by left) Hv Hd)
    as (Hinv1 & Hm1 & Hw1 & Ha1 & (c1 & Hv1 & Hq1) & Hsame).
  rewrite (on_server_bind _ _ _ _ _ _ (get_client_run _ _ _ Hv1)), Hq1 in H. cbn [len length Z.of_nat Z.eqb mwhen] in H.
  apply M_bind_Ok in H as (u2 & [s2 w2] & Hcl & H). apply (close_cb_closing (active_connections s) i) in Hcl as [-> [Hw2 _]]; [|done].
  apply on_server_Ok in H as [H ->]. change (NonTls.close_connection i s1 = Ok (u, s')) in H.
  pose proof (closing_idle s1 i c1 Hinv1 Hv1 Hq1) as Hidle. destruct (closing_no_writes i s1 c1 Hinv1 Hv1) as [_ Hn].
  destruct (close_connection_inv s1 i c1 Hidle Hv1) as (s3 & E & Hinv3 & E3). rewrite E in H. injection H as _ <-.
  rewrite decide_True in E3 by done. subst s3. split_and!.
  - split; simpl; [done|done|]. by rewrite Ha1.
  - simpl. by rewrite Ha1.
  - intros Hq. simpl. by rewrite (Hsame Hq).
Qed.

(** While request [q] is handled it is no longer in the ring. *)
Record thread_hole (q : sqe) (s : srv) (w : web_server) : Prop := {
  hl_conn : conn_inv None (q :: ring s) s;
  hl_heap : heap_inv no_extra s;
  hl_marked : all_marked s;
  hl_web : web_ok (active_connections s) w
}.

Lemma hole_drop q s w : sq_op q ≠ IoWrite → thread_hole q s w → thread_ok (s, w).
Proof. intros Hq [Hc Hh Hm Hw]. split; [|done|done]. split; [by eapply drop_other|done]. Qed.

Lemma handle_failed_ok q ev s w u s' w' :
  thread_hole q s w → completion_ok s w ev q → is_client_event (rq_event (sq_req q)) = true → cq_res ev ≤ 0 →
  handle_failed (web_callbacks e) (sq_req q) (cq_res ev) (s, w) = Ok (u, (s', w')) → thread_ok (s', w').
Proof.
  intros Hhole Hok He Hres H. pose proof Hhole as [Hc Hh Hm Hw]. set (i := rq_client_idx (sq_req q)) in *.
  pose proof (ci_sqes _ _ _ Hc) as [Hq _]%Forall_cons. destruct (sqe_client _ _ Hq He) as [Hev Hr].
  unfold handle_failed in H. rewrite (proj2 (Z.leb_le _ _)) in H by done. fold i in H.
  destruct Hev as [[Hev Hop]|[Hev Hop]].
  - assert (is_write_for i q) as Hwf by done.
    destruct (in_flight_client _ _ _ Hc Hwf) as (c & wd & rest & Hv & Hn & Hi & Hsd & Hro & Hnw).
    rewrite (on_server_bind _ _ _ _ _ _ (get_client_run _ _ _ Hv)), (ro_ID _ _ _ _ Hro), Z.eqb_refl, Hev in H. simpl in H.
    rewrite (on_server_bind _ _ _ _ _ _ (upd_client_run _ _ _ _ Hv)), Hn in H. simpl in H.
    pose proof (complete_inv _ _ _ _ Hc Hh Hwf Hv Hn Hnw) as Hinv1.
    set (c1 := cl_set_num_write_reqs 0 c) in *. set (s1 := set_clients _ s) in *.
    assert (vget (clients s1) i = Ok c1) as Hv1 by by apply vget_insert_eq.
    rewrite (on_server_bind _ _ _ _ _ _ (get_client_run _ _ _ Hv1)) in H. simpl in H.
    apply (close_client_ok i s1 w u s' w' c1); [done| |done|done|done|done].
    eapply marked_update; [exact Hm|done|]. exact (marked_client s i c Hm Hv).
  - pose proof (hole_drop _ _ _ Hop Hhole) as Ht. destruct (vget_is_Ok _ _ Hr) as [c Hv].
    rewrite (on_server_bind _ _ _ _ _ _ (get_client_run _ _ _ Hv)) in H.
    destruct (Z.eqb_spec (cl_id c) (rq_ID (sq_req q))) as [Hid|Hid]; [|by injection H as _ <- <-].
    rewrite Hev in H. cbn [is_write_event mwhen] in H. rewrite (M_bind_run _ _ (s, w) tt (s, w)) in H by done.
    rewrite (on_server_bind _ _ _ _ _ _ (get_client_run _ _ _ Hv)) in H.
    destruct (Z.eqb_spec (num_write_reqs c) 0) as [Hn|Hn]; [|by injection H as _ <- <-]. simpl in H.
    assert (i ∈ active_connections s) as Hi.
    { destruct (cm_read _ _ _ _ Hok Hev) as [?|(_ & c' & Hv' & Hid')]; [done|].
      rewrite Hv in Hv'. by injection Hv' as <-. }
    apply (close_client_ok i s w u s' w' c); [|done..]. eapply idle_closing; [apply Ht|done|done].
Qed.

(** The timer: one connection, all of them, and the round. *)
Definition close_gone (peek : Z → Z) (idx : Z) : M (srv * web_server) unit :=
  on_server (get_client idx) ≫= λ c, mwhen (peek (cl_sockfd c) =? 0) (close_client (web_callbacks e) idx).

Lemma close_gone_ok peek s0 i s w u s' w' :
  (∀ c, vget (clients s0) i = Ok c → peek (cl_sockfd c) = 0 → send_data c = []) →
  thread_ok (s, w) → conns s = conns s0 → i ∈ active_connections s →
  close_gone peek i (s, w) = Ok (u, (s', w')) →
  thread_ok (s', w') ∧ conns s' = conns s0 ∧ ∀ j, j ≠ i → j ∈ active_connections s → j ∈ active_connections s'.
Proof.
  intros Hidle Ht Ec Hi H. destruct (active_client _ _ _ _ (proj1 (th_write _ Ht)) Hi) as [c Hv].
  unfold close_gone in H. rewrite (on_server_bind _ _ _ _ _ _ (get_client_run _ _ _ Hv)) in H.
  destruct (Z.eqb_spec (peek (cl_sockfd c)) 0) as [Hp|]; simpl in H; [|by injection H as _ <- <-].
  destruct (conns_client s s0 i c (eq_sym Ec) Hv) as (c0 & Hv0 & Hfd & Hq).
  assert (send_data c = []) as Hnil by (rewrite <-Hq; apply Hidle; [done|by rewrite Hfd]).
  destruct Ht as [Hinv Hm Hw]. simpl in *.
  apply (close_client_ok i s w u s' w' c) in H as (Ht' & Ea & Hsame); [|eapply idle_closing; [done|done|]|done..].
  - split_and!; [done|rewrite Hsame by done; done|]. intros j Hj Hja. rewrite Ea. set_solver.
  - destruct Hinv as [Hc _]. pose proof (ci_clients _ _ _ Hc i c Hv) as Hok. unfold client_ok in Hok.
    destruct (write_reqs (ring s) i) as [|q [|]]; [apply Hok| |done].
    destruct Hok as (_ & _ & _ & wd & rest & Hsd & _). congruence.
Qed.

Lemma close_all_gone_ok peek s0 l : ∀ s w u s' w',
  (∀ i c, i ∈ l → vget (clients s0) i = Ok c → peek (cl_sockfd c) = 0 → send_data c = []) →
  thread_ok (s, w) → conns s = conns s0 → NoDup l → (∀ i, i ∈ l → i ∈ active_connections s) →
  mfor l (close_gone peek) (s, w) = Ok (u, (s', w')) → thread_ok (s', w').
Proof.
  induction l as [|i l IH]; intros s w u s' w' Hidle Ht Ec Hnd Ha H; [by injection H as _ <- <-|].
  apply NoDup_cons in Hnd as [Hil Hnd]. simpl in H. apply M_bind_Ok in H as (u1 & [s1 w1] & H1 & H).
  apply (close_gone_ok peek s0 i) in H1 as (Ht1 & Ec1 & Ha1); [|intros c; apply Hidle; set_solver|done|done|apply Ha; set_solver].
  apply (IH s1 w1 u); [|done|done|done| |done].
  - intros j c Hj. apply Hidle. set_solver.
  - intros j Hj. apply Ha1; [by intros ->|apply Ha; set_solver].
Qed.

Lemma handle_timer_ok peek iter s w u s' w' :
  thread_ok (s, w) → IterOrder iter →
  (∀ i c, i ∈ active_connections s → vget (clients s) i = Ok c → peek (cl_sockfd c) = 0 → send_data c = []) →
  handle_timer (web_callbacks e) peek iter (s, w) = Ok (u, (s', w')) → thread_ok (s', w').
Proof.
  intros Ht Hiter Hidle H. unfold handle_timer in H. rewrite (on_server_bind _ _ _ _ _ s) in H by done.
  apply M_bind_Ok in H as (u1 & [s1 w1] & Hl & H).
  apply (close_all_gone_ok peek s) in Hl as [[Hc Hh] Hm Hw]; [|intros i c Hi%(iter_elem iter); by apply Hidle|done|done
    |by apply (iter_NoDup iter)|by intros i Hi%(iter_elem iter)].
  apply on_server_Ok in H as [H ->]. injection H as _ <-. simpl in *. split; [|done|done].
  apply submit_inv; [done|done| |done]. by apply read_sqe_ok.
Qed.

Lemma setup_index fd s i s' : write_inv None s → setup_client tt fd s = Ok (i, s') → 0 ≤ i ≤ len (clients s).
Proof.
  intros [Hc _] H. pose proof (set_begin_spec (freed_indexes s)) as Hb. pose proof (len_nonneg (clients s)).
  destruct (set_begin (freed_indexes s)) as [j|] eqn:Ej.
  - destruct Hb as [Hj _]. assert (0 ≤ j < len (clients s)) as Hr by (apply (ci_idx _ _ _ Hc); set_solver).
    destruct (vget_is_Ok _ _ Hr) as [c Hv]. unfold setup_client in H. rewrite (M_bind_run _ _ s s s) in H by done.
    rewrite Ej in H. apply M_bind_Ok in H as (k & s1 & H1 & H). apply M_bind_Ok in H as (u & s2 & _ & [= <- _]).
    apply M_bind_Ok in H1 as (u1 & s3 & _ & H1). apply M_bind_Ok in H1 as (c1 & s4 & _ & H1). cbv zeta in H1.
    apply M_bind_Ok in H1 as (u2 & s5 & _ & H1). apply M_bind_Ok in H1 as (u3 & s6 & _ & [= <- _]). lia.
  - rewrite (setup_new_run s fd Ej) in H. injection H as <- _. lia.
Qed.

Lemma handle_accept_ok res s w u s' w' :
  thread_ok (s, w) → len (clients s) < 2 ^ 31 - 1 → handle_accept (web_callbacks e) res (s, w) = Ok (u, (s', w')) →
  thread_ok (s', w').
Proof.
  intros [Hinv Hm Hw] Hlen H. simpl in *. unfold handle_accept in H.
  apply M_bind_Ok in H as (u1 & [s1 w1] & [Ha ->]%on_server_Ok & H).
  apply M_bind_Ok in H as (i & [s2 w2] & [Hs ->]%on_server_Ok & H).
  apply M_bind_Ok in H as (u3 & [s3 w3] & [[= _ <-] ->]%on_server_Ok & H).
  assert (write_inv None s1 ∧ clients s1 = clients s ∧ active_connections s1 = active_connections s) as (Hinv1 & Ec1 & Ea1).
  { injection Ha as _ <-. split; [|done]. destruct Hinv as [Hc Hh]. apply submit_inv; [done|done| |done]. by repeat split. }
  destruct (setup_client_inv s1 res Hinv1) as (i' & s2' & Hs' & Hni & Ea2 & Hinv2 & Hq & _).
  rewrite Hs in Hs'. injection Hs' as <- <-. pose proof (setup_index res s1 i s2 Hinv1 Hs) as Hi. rewrite Ec1 in Hi.
  rewrite Ea1 in Hni, Ea2. set (act := active_connections s) in *. set (s3 := set_active _ s2) in *.
  assert (srv_ok ({[i]} ∪ act) s3) as Hs3.
  { split; [done| |by simpl; rewrite Ea2]. apply all_marked_queued. intros wd Hwd. apply (proj1 (all_marked_queued s) Hm).
    unfold all_queued. rewrite <-Ec1. by apply Hq. }
  apply M_bind_Ok in H as (u4 & [s4 w4] & H4 & H). apply (accept_cb_ok i act) in H4; [|done|done|done|lia].
  apply M_bind_Ok in H as (u5 & [s5 w5] & [H5 ->]%on_server_Ok & [= _ <- <-]).
  apply (both_thread ({[i]} ∪ act)). destruct H4 as [H4 Hw4]. split; [|done]. by apply (add_read_req_ok _ i _ _ _ H5).
Qed.

Lemma handle_read_ok req res s w u s' w' :
  thread_ok (s, w) → rq_client_idx req ∈ active_connections s →
  handle_read (web_callbacks e) req res (s, w) = Ok (u, (s', w')) → thread_ok (s', w').
Proof.
  intros [[Hc Hh] Hm Hw] Hi H. simpl in *. destruct (active_client _ _ _ _ Hc Hi) as [c Hv]. unfold handle_read in H.
  rewrite (on_server_bind _ _ _ _ _ _ (upd_client_run _ _ _ _ Hv)) in H. set (s1 := set_clients _ s) in H.
  destruct (flags_inv None _ _ s1 _ c false Hc Hh Hv eq_refl) as [Hc1 Hh1].
  apply read_cb_ok in H; [done| |done]. split; [done| |done]. eapply marked_update; [exact Hm|done|].
  exact (marked_client s _ c Hm Hv).
Qed.

Lemma handle_write_ok q ev s w u s' w' :
  thread_hole q s w → completion_ok s w ev q → is_write_for (rq_client_idx (sq_req q)) q → 0 < cq_res ev →
  handle_write (web_callbacks e) (sq_req q) (cq_res ev) (s, w) = Ok (u, (s', w')) → thread_ok (s', w').
Proof.
  intros [Hc Hh Hm Hw] Hok Hq Hres H. unfold handle_write in H.
  apply M_bind_Ok in H as (c & [s0 w0] & [[_ ->]%get_client_Ok ->]%on_server_Ok & H).
  assert (cq_res ev ≤ sq_len q) as Hle by apply (cm_len _ _ _ _ Hok), Hq. destruct (unfinished _ _).
  - destruct (write_continued_inv _ q s (cq_res ev) Hc Hh Hq ltac:(lia)) as (c1 & wd & rest & q' & _ & _ & E & Hinv & _).
    rewrite (on_server_bind _ _ _ _ _ _ E) in H. injection H as _ <- <-. by split.
  - destruct (write_done_inv _ q s Hc Hh Hq) as (c1 & wd & rest & s1 & Hv & Hsd & E & Hinv & Ho & _).
    rewrite (on_server_bind _ _ _ _ _ _ E) in H.
    destruct (in_flight_client _ _ _ Hc Hq) as (_ & _ & _ & _ & _ & Hi & _). pose proof (oc_active _ _ _ _ Ho) as Ea.
    apply write_cb_ok in H; [done| |simpl; by rewrite Ea]. split; simpl; [done| |by rewrite Ea].
    eapply only_client_marked; [exact Ho| |done]. pose proof (marked_client s _ c1 Hm Hv) as Hf. rewrite Hsd in Hf. by inversion Hf.
Qed.

Lemma handle_custom_ok req res s w u s' w' :
  thread_ok (s, w) → rq_event req = CUSTOM_READ →
  to_i32 (rq_custom_info req) = inotify_fd (web_cache w) ∨ rq_client_idx req ∈ active_connections s →
  handle_custom_read (web_callbacks e) req res (s, w) = Ok (u, (s', w')) → thread_ok (s', w').
Proof.
  intros Ht Hev Hi H. unfold handle_custom_read in H. destruct (_ =? _); [exact (custom_read_cb_ok _ _ _ _ _ _ _ _ Ht Hi H)|].
  apply on_server_Ok in H as [H ->]. apply (both_thread (active_connections s)). destruct (thread_both _ _ Ht) as [Hs Hw].
  split; [|done]. eapply (submit_ok (active_connections s)); [| |exact H|exact Hs]; [|done].
  intros n. apply read_sqe_ok; simpl; by rewrite Hev.
Qed.

Lemma handle_notification_ok s w u s1 u2 s' w' :
  thread_ok (s, w) → len (clients s) < 2 ^ 31 → to_server_queue (web_queues w) ≠ [] →
  event_read (notification_efd s) NOTIFICATION s = Ok (u, s1) → event_cb e (s1, w) = Ok (u2, (s', w')) → thread_ok (s', w').
Proof.
  intros [[Hc Hh] Hm Hw] Hlen Hq Hr H. injection Hr as _ <-. apply event_cb_ok in H; [done| |done|done].
  split; [|done|done]. apply submit_inv; [done|done| |done]. by apply read_sqe_ok.
Qed.

(** One completion, of request [q] with the data in [r]. *)
Lemma handle_event_ok q r ev s w s' w' :
  thread_hole q s w → completion_ok s w ev q → (cq_res ev ≤ 0 ∨ sq_op q ≠ IoRead → r = sq_req q) →
  (∃ d, r = rq_set_read_data d (sq_req q)) →
  ServerBase.handle_event (web_callbacks e) r ev (s, w) = Ok (true, (s', w')) → thread_ok (s', w').
Proof.
  intros Hhole Hok Hr1 Hr H. pose proof (ci_sqes _ _ _ (hl_conn _ _ _ Hhole)) as [Hsq _]%Forall_cons.
  destruct (failed_or_stale_run q s w r (cq_res ev) (hl_conn _ _ _ Hhole) ltac:(by right)) as (b & Eb & Hb1 & Hb2 & Hb3).
  destruct Hr as [d Hr]. assert (rq_event r = rq_event (sq_req q)) as Hev by by rewrite Hr.
  assert (rq_event (sq_req q) ≠ ServerBase.WRITE → thread_ok (s, w)) as Ht.
  { intros Hne. eapply hole_drop; [|exact Hhole]. by intros ?%(so_write _ _ Hsq). }
  unfold ServerBase.handle_event in H. rewrite (M_bind_run _ _ _ _ _ Eb) in H. destruct b.
  { apply M_bind_Ok in H as (u & [s1 w1] & H & [= <- <-]). destruct (Z.leb_spec (cq_res ev) 0) as [Hle|Hpos].
    - rewrite Hr1 in H by by left. by eapply handle_failed_ok; [..|by apply Hb1| |].
    - unfold handle_failed in H. rewrite (proj2 (Z.leb_gt _ _)) in H by done. injection H as _ <- <-. apply Ht.
      intros Hw%(so_write _ _ Hsq). specialize (Hb3 eq_refl Hw). lia. }
  specialize (Hb2 eq_refl). pose proof (cm_few _ _ _ _ Hok) as Hfew.
  rewrite Hev in H. destruct (rq_event (sq_req q)) eqn:He; try done;
    try (apply M_bind_Ok in H as (u & [s1 w1] & H & [= <- <-]));
    try (simpl req_event_handler in H; unfold non_tls_event_handler in H; rewrite Hev in H).
  - by eapply handle_accept_ok; [apply Ht|..].
  - injection H as _ <- <-. by apply Ht.
  - injection H as _ <- <-. by apply Ht.
  - apply handle_read_ok in H; [done|by apply Ht|]. rewrite Hr. simpl. destruct (Hb2 eq_refl) as [Hpos Hid].
    destruct (cm_read _ _ _ _ Hok He) as [?|([?|?] & c & Hv & Hne)]; [done| |lia]. by destruct Hne, (Hid c Hv).
  - assert (sq_op q = IoWrite) as Hop by by apply (so_write _ _ Hsq). destruct (Hb2 eq_refl) as [Hpos _].
    rewrite Hr1 in H by (right; congruence). by eapply handle_write_ok.
  - apply M_bind_Ok in H as (u1 & [s1 w1] & [He1 ->]%on_server_Ok & H).
    apply M_bind_Ok in He1 as (s0 & s2 & [= <- <-] & He1). apply M_bind_Ok in H as (u2 & [s2 w2] & H & [= <- <-]).
    eapply (handle_notification_ok s w); [by apply Ht|lia|by apply (cm_message _ _ _ _ Hok)|exact He1|exact H].
  - apply handle_custom_ok in H; [done|by apply Ht|done|]. rewrite Hr. by apply (cm_file _ _ _ _ Hok).
  - destruct (cm_timer _ _ _ _ Hok He) as [Hiter Hidle]. by eapply handle_timer_ok; [apply Ht|..].
Qed.

(** One round of the loop that does not end it. *)
Lemma loop_step_ok mem q ev s w s' w' :
  thread_ok (s, w) → ring s !! cq_pos ev = Some q → completion_ok s w ev q →
  loop_step (web_callbacks e) mem ev (s, w) = Ok (true, (s', w')) → thread_ok (s', w').
Proof.
  intros [Hinv Hm Hw] Hq Hok H. simpl in *. unfold loop_step in H. destruct (_ <? 0); [done|].
  apply M_bind_Ok in H as (s0 & [s1 w1] & [[= <- <-] ->]%on_server_Ok & H). rewrite Hq in H.
  apply M_bind_Ok in H as (u & [s1 w1] & [[= _ <-] ->]%on_server_Ok & H).
  destruct (take_write_inv s (cq_pos ev) q Hinv Hq) as [Hc Hh]. set (s1 := set_ring (delete (cq_pos ev) (ring s)) s) in *.
  apply M_bind_Ok in H as (r & [s2 w2] & Hk & H).
  assert (cq_res ev ≤ 0 → r = sq_req q) as Hr0.
  { intros Hle. unfold kernel_io in Hk. rewrite (proj2 (Z.leb_le _ _)) in Hk by done. by injection Hk as <- _ _. }
  apply kernel_io_effect in Hk as (-> & [wi ->] & Hr1 & Hr2). set (s2 := srv_obs _ _ _ _ _ s1) in *.
  apply (handle_event_ok q r ev s2 w); [|by destruct Hok; split|by intros [?|?]; auto|done|done].
  split; [by destruct Hc; split|by destruct Hh; split|done|done].
Qed.
End Callbacks.
