(* ===== verification/Program.v ===== *)
(** * The program as it runs

    The program thread, with the rounds of its loop, and the threads of the plain servers, with
    [start] and the rounds of their event loops, in any order: [program_step].  The invariants of the
    threads (ThreadInv.v) hold all the time, and the program refines the system of CentralProps.v,
    so that its theorems hold for the program. *)

From S2P Require Import Prelude Utility CString Cache CacheWatch ServerBase NonTls NonTlsLoop TcpServer WebBase WebSockets Http Callbacks WsProps BroadcastProps DataStore Central CentralProps ThreadProps ThreadInv.
From Stdlib Require Import ZArith Lia.
From stdpp Require Import base gmap strings list fin_maps sets.

#[local] Open Scope Z_scope.

(** * Specification *)

(** A thread starts or does a round of its event loop, the program thread does a round of its loop, or
    the program is told to end; the items of the data store are the memory behind the pointers.  A thread that was
    told to end is not active. *)
Inductive program_step (iter : gset Z → list Z) (e : env) : central unit → central unit → Prop :=
| program_round ev go c c' :
    central_legal c ev → len (ds_vec (c_store c)) < 2 ^ 31 - 2 →
    central_step iter ev c = Ok (go, c') → program_step iter e c c'
| program_killed c c' : Central.kill_server c = Ok (tt, c') → program_step iter e c c'
| program_start k s w s' w' c :
    c_threads c !! k = Some (s, w) → ran_server s = false →
    start (web_callbacks e) (web_mem (get_item (c_store c))) [] (s, w) = Ok (true, (s', w')) →
    program_step iter e c (put_thread k (s', w') c)
| program_thread k s w ev q go s' w' c :
    c_threads c !! k = Some (s, w) → ran_server s = true → is_active s = true →
    ring s !! cq_pos ev = Some q → completion_ok s w ev q →
    loop_step (web_callbacks e) (web_mem (get_item (c_store c))) ev (s, w) = Ok (go, (s', w')) →
    program_step iter e c (put_thread k (s', w') c).

(** The threads that were not told to end are in order. *)
Definition live_ok (t : srv * web_server) : Prop := is_active t.1 = true → thread_ok t.
Definition program_ok (c : central unit) : Prop := Forall live_ok (c_threads c).

(** * Lemmas *)

(** ** What the program thread does to the threads *)

Definition thread_kept : relation (srv * web_server) := preserves live_ok.
Definition threads_kept (c c' : central unit) : Prop := Forall2 thread_kept (c_threads c) (c_threads c').

#[export] Instance thread_kept_preorder : PreOrder thread_kept.
Proof. apply preserves_preorder. Qed.

#[export] Instance threads_kept_preorder : PreOrder threads_kept.
Proof.
  split; [intros c; by apply Forall_Forall2_diag, Forall_true|].
  unfold threads_kept. intros c1 c2 c3 H1. generalize (c_threads c3). induction H1; intros l3 H3.
  - done.
  - apply Forall2_cons_inv_l in H3 as (t3 & l3' & Ht & Hl & ->). constructor; [by etransitivity|auto].
Qed.

Lemma threads_kept_same c c' : c_threads c' = c_threads c → threads_kept c c'.
Proof. intros E. unfold threads_kept. rewrite E. by apply (reflexivity (R := threads_kept)). Qed.

Lemma threads_kept_ok c c' : threads_kept c c' → program_ok c → program_ok c'.
Proof.
  intros Hk Hok. unfold threads_kept, program_ok in *. induction Hk as [|t t' l l' Ht _ IH]; [done|].
  apply Forall_cons in Hok as [H1 H2]. constructor; [by apply Ht|by apply IH].
Qed.

Abbreviation cen_keeps := (keeps threads_kept).

Lemma cen_modify g : (∀ c, c_threads (g c) = c_threads c) → cen_keeps (mmodify g).
Proof. intros H. apply keeps_modify. intros c. by apply threads_kept_same. Qed.

Lemma on_thread_keeps {A} k (m : M (srv * web_server) A) : keeps thread_kept m → cen_keeps (on_thread k m).
Proof.
  intros Hm c a c' H. unfold on_thread in H. apply result_bind_Ok in H as (t & Hv & H).
  apply result_bind_Ok in H as ([b t'] & Ht & H). apply result_bind_Ok in H as (th & Hs & [= _ <-]).
  apply vset_Ok in Hs as [_ ->]. apply vget_lookup in Hv as [_ Hv]. unfold threads_kept. simpl.
  rewrite <-(list_insert_id (c_threads c) (Z.to_nat k) t) at 1 by done.
  apply Forall2_insert; [by apply (reflexivity (R := threads_kept))|by eapply Hm].
Qed.

Lemma c_submit_keeps q : cen_keeps (c_submit q).
Proof. intros c u c'. unfold c_submit. destruct (c_ring c); [|done]. intros [= _ <-]. by apply threads_kept_same. Qed.
Lemma new_req_keeps r : cen_keeps (new_req r).
Proof. intros c u c' [= _ <-]. by apply threads_kept_same. Qed.
Lemma get_req_keeps a : cen_keeps (get_req a).
Proof. intros c u c'. unfold get_req. destruct (_ !! _); [|done]. by intros [= _ <-]. Qed.
Lemma put_req_keeps a r : cen_keeps (put_req a r).
Proof. by apply cen_modify. Qed.
#[export] Hint Resolve c_submit_keeps new_req_keeps get_req_keeps put_req_keeps : keeps.
#[export] Hint Extern 1 (keeps threads_kept (mmodify _)) => by apply cen_modify : keeps.

Lemma delete_req_keeps a : cen_keeps (delete_req a).
Proof. unfold delete_req. solve_keeps. Qed.
#[export] Hint Resolve delete_req_keeps : keeps.

Lemma add_event_read_req_keeps fd ev i : cen_keeps (add_event_read_req fd ev i).
Proof. unfold add_event_read_req. solve_keeps. Qed.
Lemma add_timer_read_req_keeps fd : cen_keeps (add_timer_read_req fd).
Proof. unfold add_timer_read_req. solve_keeps. Qed.
Lemma read_req_continued_keeps a n : cen_keeps (read_req_continued a n).
Proof. unfold read_req_continued. solve_keeps. Qed.
Lemma write_req_continued_keeps a n : cen_keeps (write_req_continued a n).
Proof. unfold write_req_continued. solve_keeps. Qed.
Lemma c_close_keeps fd : cen_keeps (c_close fd).
Proof. unfold c_close. solve_keeps. Qed.
Lemma cqe_seen_keeps : cen_keeps cqe_seen.
Proof. intros c u c'. unfold cqe_seen. destruct (c_ring c); [|done]. by intros [= _ <-]. Qed.
#[export] Hint Resolve add_event_read_req_keeps add_timer_read_req_keeps read_req_continued_keeps
  write_req_continued_keeps c_close_keeps cqe_seen_keeps : keeps.

(** The queues of a web server change, but what is posted to it has a buffer. *)
Lemma queues_kept s w q :
  (Forall (λ m, mp_buff_ptr m ≠ PNull) (to_server_queue (web_queues w)) → Forall (λ m, mp_buff_ptr m ≠ PNull) (to_server_queue q)) →
  thread_kept (s, w) (s, set_web_queues q w).
Proof.
  intros Hq Hl Ha. destruct (Hl Ha) as [Hi Hm [Hset Hsk Hop Hms Hca]]. split; [done|done|].
  split; [done|by destruct Hsk; split|done|by apply Hq|done].
Qed.

Lemma observed_kept (s : srv) w cl ew wi : thread_kept (s, w) (srv_obs (ran_server s) (is_active s) cl ew wi s, w).
Proof. intros Hl Ha. destruct (Hl Ha) as [Hi Hm Hw]. split; [by apply write_inv_obs|done|done]. Qed.

Lemma post_kept p n i a : p ≠ PNull → keeps thread_kept (post_message_to_server_thread websocket_broadcast p n i a).
Proof.
  intros Hp [s w] u t' H. unfold post_message_to_server_thread in H. rewrite (on_web_bind _ _ _ _ w w) in H by done.
  destruct (negb (tcp_server_set w)); [by injection H as _ <-|].
  set (m := {| mp_type := _ |}) in H. rewrite (on_web_bind _ _ _ _ tt (push_to_server m w)) in H by done.
  destruct t' as [s' w']. apply on_tcp_Ok in H as [H ->]. injection H as _ <-.
  etransitivity; [|apply observed_kept]. apply queues_kept. intros Hf. apply Forall_app. by split; [|constructor].
Qed.

Lemma get_report_kept : keeps thread_kept (on_web get_from_to_program_queue).
Proof.
  intros [s w] m [s' w'] [H ->]%on_web_Ok. unfold get_from_to_program_queue in H.
  apply M_bind_Ok in H as (w0 & w1 & [= <- <-] & H). cbv zeta in H.
  destruct (to_program_queue (web_queues w)); [by injection H as _ <-|].
  injection H as _ <-. by apply queues_kept.
Qed.

(** ** The program's loop *)

Lemma reset_eventfd_keeps fd : cen_keeps (reset_eventfd fd).
Proof.
  intros c u c' H. unfold reset_eventfd in H. destruct (list_find _ _) as [[k x]|]; [|by injection H as _ <-].
  eapply on_thread_keeps; [|exact H]. apply keeps_on_web with (Q := λ w w', ∃ q, to_server_queue q = to_server_queue (web_queues w) ∧ w' = set_web_queues q w).
  - intros s w w' (q & Hq & ->). apply queues_kept. by rewrite Hq.
  - apply keeps_modify. intros w. by exists {| to_server_queue := to_server_queue (web_queues w); to_program_queue := to_program_queue (web_queues w); central_eventfd := 0 |}.
Qed.
#[export] Hint Resolve reset_eventfd_keeps : keeps.

Lemma c_kernel_io_keeps q res data : cen_keeps (c_kernel_io q res data).
Proof. unfold c_kernel_io. solve_keeps. Qed.

Lemma handle_tick_keeps iter : cen_keeps (handle_tick iter).
Proof.
  unfold handle_tick. repeat (first [apply keeps_mfor; intros ??|keeps_step]). by apply on_thread_keeps, post_kept.
Qed.

Lemma handle_report_keeps r : cen_keeps (handle_report r).
Proof. unfold handle_report. solve_keeps. by apply on_thread_keeps, get_report_kept. Qed.
#[export] Hint Resolve c_kernel_io_keeps handle_tick_keeps handle_report_keeps : keeps.

Lemma handle_event_keeps iter a res : cen_keeps (Central.handle_event iter a res).
Proof. unfold Central.handle_event. solve_keeps. Qed.
#[export] Hint Resolve handle_event_keeps : keeps.

Lemma central_step_keeps iter ev : cen_keeps (central_step iter ev).
Proof.
  destruct ev as [|pos res data]; unfold central_step; [solve_keeps|].
  intros c go c' H. rewrite (M_bind_run _ _ c c c) in H by done.
  destruct (c_ring c) as [l|]; [|done]. destruct (l !! pos) as [q|]; [|done].
  rewrite (M_bind_run _ _ c tt (set_c_ring (Some (delete pos l)) c)) in H by done.
  transitivity (set_c_ring (Some (delete pos l)) c); [by apply threads_kept_same|].
  eapply (λ Hm, (Hm : cen_keeps _) _ _ _ H). solve_keeps.
Qed.

Lemma kill_server_keeps : cen_keeps Central.kill_server.
Proof.
  unfold Central.kill_server, kill_all_servers. repeat (first [apply keeps_mfor; intros ??|keeps_step]).
  apply on_thread_keeps. intros [s w] u [s' w'] [[= _ <-] ->]%on_server_Ok. apply observed_kept.
Qed.

Lemma run_init_keeps timer : cen_keeps (run_init timer).
Proof.
  unfold run_init. repeat (first [apply keeps_mfor; intros ??|keeps_step]).
Qed.

(** ** What a thread does *)

Section Thread.
Context (e : env) `{!IterOrder (env_iter e)}.

(** The loop of a thread ends when it is told to. *)
Lemma loop_step_ended mem ev s w s' w' :
  loop_step (web_callbacks e) mem ev (s, w) = Ok (false, (s', w')) → is_active s' = false.
Proof.
  intros H. unfold loop_step in H. destruct (_ <? 0); [done|].
  apply M_bind_Ok in H as (s0 & [s1 w1] & [[= <- <-] ->]%on_server_Ok & H).
  destruct (ring s !! cq_pos ev) as [q|]; [|done].
  apply M_bind_Ok in H as (u & [s1 w1] & _ & H). apply M_bind_Ok in H as (r & [s2 w2] & _ & H).
  unfold ServerBase.handle_event in H. apply M_bind_Ok in H as (b & [s3 w3] & _ & H).
  destruct b; [by apply M_bind_Ok in H as (? & ? & _ & [=])|].
  destruct (rq_event r); try by (apply M_bind_Ok in H as (? & ? & _ & H); try apply M_bind_Ok in H as (? & ? & _ & H)).
  apply M_bind_Ok in H as (u2 & [s4 w4] & [Hk ->]%on_server_Ok & [= <- _]). by injection Hk as _ <-.
Qed.

(** The invariant is what the system asks of a thread. *)
Lemma thread_ready s w ev q :
  thread_ok (s, w) → ring s !! cq_pos ev = Some q → completion_ok s w ev q → round_ready s w ev.
Proof.
  intros [Hinv Hm Hw] Hq Hok. simpl in *. split; [done|done|]. intros q' Hq' Hn. rewrite Hq in Hq'. injection Hq' as <-.
  pose proof (cm_few _ _ _ _ Hok) as Hfew. pose proof (si_live _ _ (wo_sockets _ _ Hw)) as Hlive.
  assert (∀ i, i ∈ active_websocket_connections_client_idxs (web_sockets w) → 0 ≤ i < len (clients s)) as Hr.
  { intros i Hi. apply (ci_idx _ _ _ (proj1 Hinv)). set_solver. }
  split_and!; [by eapply wo_set| |by apply (cm_message _ _ _ _ Hok)]. split_and!; [done| |].
  - intros i Hi%Hr. lia.
  - assert (size (active_websocket_connections_client_idxs (web_sockets w)) ≤ length (clients s))%nat as Hs; [|unfold len in *; lia].
    etransitivity; [apply (subseteq_size _ (list_to_set (seqZ 0 (len (clients s))) : gset Z))|].
    + intros i Hi%Hr. apply elem_of_list_to_set, elem_of_seqZ. lia.
    + rewrite size_list_to_set by apply NoDup_seqZ. rewrite length_seqZ. unfold len. lia.
Qed.

(** [start] submits the request for the first connection. *)
Lemma start_ok mem s w go s' w' :
  live_ok (s, w) → ran_server s = false → start (web_callbacks e) mem [] (s, w) = Ok (go, (s', w')) →
  live_ok (s', w') ∧ rtc (thread_step e) (s, w) (s', w').
Proof.
  intros Hl Hr H. unfold start in H. rewrite (on_server_bind _ _ _ _ s s) in H by done.
  rewrite Hr in H. simpl in H. injection H as _ <- <-. split; [|by apply other_steps].
  intros Ha. destruct (Hl Ha) as [Hi Hm Hw]. split; [|done|done]. simpl in *.
  set (s1 := srv_obs _ _ _ _ _ s). assert (write_inv None s1) as [Hc Hh] by by apply write_inv_obs.
  apply (submit_inv None (ring s1) _ s1); [done|done| |done]. by repeat split.
Qed.

(** A round keeps a thread in order while it is active, and is one of the system. *)
Lemma round_ok mem ev q s w go s' w' :
  thread_ok (s, w) → ring s !! cq_pos ev = Some q → completion_ok s w ev q →
  loop_step (web_callbacks e) mem ev (s, w) = Ok (go, (s', w')) →
  live_ok (s', w') ∧ rtc (thread_step e) (s, w) (s', w').
Proof.
  intros Ht Hq Hok H. destruct (thread_ready s w ev q Ht Hq Hok) as [Hinv Hm Hn]. split; [|by eapply loop_step_steps].
  destruct go; [|intros Ha; simpl in Ha; by rewrite (loop_step_ended _ _ _ _ _ _ H) in Ha].
  intros _. by eapply loop_step_ok.
Qed.

(** ** The program *)

Context (iter : gset Z → list Z).

Lemma put_thread_ok k t (c : central unit) : program_ok c → live_ok t → program_ok (put_thread k t c).
Proof. intros Hc Ht. by apply Forall_insert. Qed.

(** A step of the program keeps its threads in order and is a sequence of steps of the system. *)
Lemma program_step_ok c c' :
  program_step iter e c c' → program_ok c → program_ok c' ∧ rtc (system_step iter e) c c'.
Proof.
  intros [ev go c1 c2 Hl Hlen H|c1 c2 H|k s w s' w' c1 Hk Hr H|k s w ev q go s' w' c1 Hk Hr Ha Hq Hok H] Hc.
  - split; [by eapply threads_kept_ok, Hc; apply central_step_keeps in H|by eapply rtc_once, step_program].
  - split; [by eapply threads_kept_ok, Hc; apply kill_server_keeps in H|by apply rtc_once, step_kill_server].
  - destruct (start_ok _ _ _ _ _ _ (Forall_lookup_1 _ _ _ _ Hc Hk) Hr H) as [Ht Hs].
    split; [by apply put_thread_ok|by eapply thread_steps_system].
  - destruct (round_ok _ _ _ _ _ _ _ _ (Forall_lookup_1 _ _ _ _ Hc Hk Ha) Hq Hok H) as [Ht Hs].
    split; [by apply put_thread_ok|by eapply thread_steps_system].
Qed.

Lemma program_steps_ok c c' :
  rtc (program_step iter e) c c' → program_ok c → program_ok c' ∧ rtc (system_step iter e) c c'.
Proof.
  induction 1 as [|c1 c2 c3 H _ IH]; [done|]. intros Hc. destruct (program_step_ok _ _ H Hc) as [H2 Hs].
  destruct (IH H2) as [H3 Hs']. split; [done|]. by transitivity c2.
Qed.
End Thread.

(** A new thread is in order once its web server is told of its server. *)
Lemma new_thread_ok l timer n k fd u t :
  set_tcp_server (new_server (X := unit) l timer n k, new_web_server fd) = Ok (u, t) → thread_ok t.
Proof.
  intros [= _ <-]. split; simpl.
  - split; split; simpl.
    + intros i. split; [unfold len; simpl; lia|set_solver].
    + set_solver.
    + intros i c [_ H]%vget_lookup. by rewrite lookup_nil in H.
    + repeat apply Forall_cons_2; [by apply read_sqe_ok..|done].
    + intros h. by rewrite lookup_empty.
    + intros h b u0. by rewrite lookup_empty.
    + intros h x. by rewrite lookup_empty.
    + intros wd. set_solver.
    + constructor.
  - constructor.
  - split; simpl; [done| | |done|apply new_cache_good; lia].
    + split; simpl; set_solver.
    + intros i c [_ H]%vget_lookup. by rewrite lookup_nil in H.
Qed.

(** * Properties *)

(** A thread stays in order: after a round of its event loop with the callbacks of the web server, its writes,
    its queued broadcasts, the cache and the websockets are in order again (each active websocket is on an active
    connection that it belongs to, no websocket in the list is marked as closed, the messages that are waiting have
    buffers); the loop ends only when the thread was told to end. *)
Theorem thread_stays_in_order e mem q ev s w go s' w' `{!IterOrder (env_iter e)} :
  thread_ok (s, w) → ring s !! cq_pos ev = Some q → completion_ok s w ev q →
  loop_step (web_callbacks e) mem ev (s, w) = Ok (go, (s', w')) →
  if go then thread_ok (s', w') else is_active s' = false.
Proof. intros Ht Hq Hok H. destruct go; [by eapply loop_step_ok|by eapply loop_step_ended]. Qed.

(** A new thread, to which the program posts a message, and which is notified. *)
Definition demo_new : result (unit * (srv * web_server)) := set_tcp_server (new_server 3 4 5 6, new_web_server 7).
Definition demo_posted : result (unit * (srv * web_server)) :=
  demo_new ≫= λ '(_, t), post_message_to_server_thread websocket_broadcast (PStoreItem 0) 6 0 (-1) t.
Definition demo_round : cqe :=
  {| cq_wait := 0; cq_pos := 1; cq_res := 8; cq_data := replicate 8 nul; cq_peek := λ _, -1; cq_iter := elements |}.

Lemma thread_stays_in_order_witness :
  ∃ s w s' w', demo_posted = Ok (tt, (s, w)) ∧
    loop_step (web_callbacks demo_env) (web_mem (λ _, Err NullDeref)) demo_round (s, w) = Ok (true, (s', w')) ∧
    thread_ok (s', w') ∧ to_server_queue (web_queues w') = [] ∧ len (to_program_queue (web_queues w')) = 1.
Proof.
  destruct demo_new as [[[] t]|] eqn:E1; [|vm_compute in E1; discriminate E1].
  pose proof (new_thread_ok _ _ _ _ _ _ _ E1) as Ht.
  destruct demo_posted as [[[] [s w]]|] eqn:E2; [|vm_compute in E2; discriminate E2].
  assert (thread_ok (s, w)) as Hsw.
  { pose proof E2 as Hp. unfold demo_posted in Hp. rewrite E1 in Hp. refine (post_kept _ _ _ _ _ _ _ _ Hp (λ _, Ht) _); [done|].
    vm_compute in E2. by injection E2 as <- _. }
  destruct (loop_step (web_callbacks demo_env) (web_mem (λ _, Err NullDeref)) demo_round (s, w)) as [[go [s' w']]|] eqn:E;
    [|exfalso; vm_compute in E2; injection E2 as <- <-; vm_compute in E; discriminate E].
  destruct (ring s !! 1%nat) as [q|] eqn:Hq; [|exfalso; vm_compute in E2; injection E2 as <- <-; vm_compute in Hq; discriminate Hq].
  assert (go = true ∧ to_server_queue (web_queues w') = [] ∧ len (to_program_queue (web_queues w')) = 1) as (-> & H1 & H2).
  { vm_compute in E2. injection E2 as <- <-. vm_compute in E. by injection E as <- _ <-. }
  exists s, w, s', w'. split; [reflexivity|]. split; [exact E|]. split; [|by split].
  apply (thread_stays_in_order demo_env (web_mem (λ _, Err NullDeref)) q demo_round s w true); [exact iter_elements|exact Hsw|exact Hq| |exact E].
  vm_compute in E2. injection E2 as <- <-. injection Hq as <-. split; done.
Defined.
