(* ===== verification/Progress.v ===== *)
(** * The rounds that do not look into requests

    A round of the event loop of a thread, with the callbacks of the web server, that accepts a
    connection, handles the end of a write, a failure, a message of the program, the timer or the end of the
    thread does not fault: whatever arrived at the thread before.  (What reads requests and files may: FileProps.v,
    WsFrame.v.)  The invariants are those of ThreadInv.v, and of CentralProps.v for the items of broadcasts. *)

From S2P Require Import Prelude Utility CString Bytes WsFrame Cache CacheWatch ServerBase NonTls NonTlsLoop TcpServer WebBase WebSockets Http Callbacks WsProps BroadcastProps DataStore Central CentralProps ThreadProps ThreadInv Program.
From Stdlib Require Import ZArith Lia.
From stdpp Require Import base gmap strings list fin_maps sets.

#[local] Open Scope Z_scope.

(** ** Broadcasts that are done *)

(** A write of the broadcast [i] (or of none) may be reported. *)
Definition info_ok (w : web_server) (i : Z) : Prop := i = -1 ∨ 0 ≤ i < len (broadcast_data w).

Definition infos_ok (s : srv) (w : web_server) : Prop := ∀ wd, wd ∈ all_queued s → info_ok w (additional_info wd).

(** The table of broadcasts keeps its size. *)
Definition same_items (w w' : web_server) : Prop := len (broadcast_data w') = len (broadcast_data w).

Lemma infos_ok_sub s s' w w' :
  (∀ wd, wd ∈ all_queued s' → wd ∈ all_queued s) → same_items w w' → infos_ok s w → infos_ok s' w'.
Proof. intros Hs Hw H wd Hwd. unfold info_ok. rewrite Hw. by apply H, Hs. Qed.

Lemma conns_queued s s' : conns s' = conns s → all_queued s' = all_queued s.
Proof.
  intros H. unfold all_queued. f_equal. apply (f_equal (fmap snd)) in H. unfold conns in H.
  by rewrite <-!list_fmap_compose in H.
Qed.

Lemma elem_of_concat {A} (x : A) ls : x ∈ concat ls ↔ ∃ l, l ∈ ls ∧ x ∈ l.
Proof.
  induction ls as [|l ls IH]; simpl; [set_solver|]. rewrite elem_of_app, IH. set_solver.
Qed.

(** A connection's queue gets shorter. *)
Lemma infos_ok_update (s s' : srv) i c c' w w' :
  vget (clients s) i = Ok c → clients s' = <[Z.to_nat i := c']> (clients s) → send_data c' ⊆ send_data c →
  same_items w w' → infos_ok s w → infos_ok s' w'.
Proof.
  intros [_ Hv]%vget_lookup Ec Hq. apply infos_ok_sub. intros wd. unfold all_queued.
  rewrite !elem_of_concat, Ec. intros (l & (x & -> & Hx)%list_elem_of_fmap & Hl).
  apply list_elem_of_lookup in Hx as [j Hj]. apply list_lookup_insert_Some in Hj as [(<- & <- & _)|[_ Hj]].
  - exists (send_data c). split; [apply list_elem_of_fmap_2; by eapply list_elem_of_lookup_2|by apply Hq].
  - exists (send_data x). split; [apply list_elem_of_fmap_2; by eapply list_elem_of_lookup_2|done].
Qed.

Lemma thread_infos s w : thread_inv (s, w) → all_marked s → infos_ok s w.
Proof.
  intros Ht Hm wd Hwd. unfold info_ok. destruct (decide (additional_info wd = -1)) as [|Hi]; [by left|right].
  assert ((wd_ptr_buff wd, wd_total_length wd, additional_info wd) ∈ broadcasts s) as Hin.
  { rewrite broadcasts_clients. pose proof (proj1 (all_marked_queued s) Hm wd Hwd) as Hmw.
    apply elem_of_concat in Hwd as (q & (c & -> & Hc)%list_elem_of_fmap & Hq). apply elem_of_concat.
    exists (entries c). split; [by apply list_elem_of_fmap_2|]. unfold entries. apply list_elem_of_bind. exists (msg_of wd).
    split; [|by apply list_elem_of_fmap_2]. rewrite marked_entry, (proj2 (Z.eqb_neq _ _)) by done. set_solver. }
  destruct (ti_uses _ Ht (additional_info wd)) as (_ & _ & Hu).
  - unfold item_writes. intros H0%length_zero_iff_nil. apply (not_elem_of_nil (wd_ptr_buff wd, wd_total_length wd, additional_info wd)).
    rewrite <-H0. by apply list_elem_of_filter.
  - by apply vget_range in Hu.
Qed.

Lemma broadcast_done_live i (s : srv) w :
  tcp_server_set w = true → info_ok w i → ∃ w', broadcast_done i (s, w) = Ok (tt, (s, w')) ∧ same_items w w'.
Proof.
  intros Hw Hi. unfold broadcast_done. destruct (Z.eqb_spec i (-1)) as [->|Hne]; [by exists w|]. simpl.
  destruct Hi as [?|Hi]; [done|]. destruct (vget_is_Ok _ _ Hi) as [it Hv]. unfold on_web.
  rewrite (M_bind_run _ _ w w w) by done. rewrite (vupd_is_Ok _ _ _ _ Hv). simpl.
  set (it1 := {| bd_uses := _ |}). set (l := <[Z.to_nat i := it1]> (broadcast_data w)).
  rewrite (M_bind_run _ _ w l w) by done. rewrite (M_bind_run _ _ w tt (set_broadcast_data l w)) by done.
  assert (vget l i = Ok it1) as Hv1 by by apply vget_insert_eq. rewrite Hv1.
  rewrite (M_bind_run _ _ (set_broadcast_data l w) it1 (set_broadcast_data l w)) by done.
  assert (same_items w (set_broadcast_data l w)) as Hl by (unfold same_items, l; simpl; apply len_insert).
  unfold mwhen. destruct (_ =? 0); [|by eexists].
  destruct (post_run broadcast_finished (bd_buff_ptr it1) (bd_data_len it1) i (to_u64 (-1)) (set_broadcast_data l w) Hw)
    as (w2 & E & _ & _ & Hb & _). rewrite E. exists w2. split; [done|]. unfold same_items in *. by rewrite Hb.
Qed.

(** ** Ending connections *)

Lemma kill_client_live i w :
  table_ok (web_cache w) → is_Some (tcp_clients w !! Z.to_nat i) → 0 ≤ i →
  ∃ w', kill_client i w = Ok (tt, w') ∧ same_items w w' ∧ tcp_server_set w' = tcp_server_set w.
Proof.
  intros Hc [t Ht] Hi. assert (vget (tcp_clients w) i = Ok t) as Hv by by apply vget_lookup.
  destruct (finished_run i t (web_cache w) Hc) as (c & Hf & _).
  exists (killed i t c w). split; [by apply kill_client_run|done].
Qed.

Lemma web_open_client act i w :
  web_open act i w → tcp_server_set w = true ∧ table_ok (web_cache w) ∧ is_Some (tcp_clients w !! Z.to_nat i) ∧ 0 ≤ i.
Proof.
  intros Hw. assert (∃ live, web_ok live w) as (live & [Hset _ _ _ [_ Ht]]) by (destruct Hw as [[? _]|[? _]]; eauto).
  split; [done|]. split; [done|]. assert (∃ t, vget (tcp_clients w) i = Ok t) as (t & [Hi Hv]%vget_lookup); [|by split; [eexists|]].
  destruct Hw as [[Hw Hi]|(_ & _ & t & Ht' & _)]; [|by exists t]. apply vget_is_Ok. by eapply (si_clients _ _ (wo_sockets _ _ Hw)).
Qed.

Lemma close_cb_live act i info (s : srv) w :
  web_open act i w → info_ok w info → ∃ w', close_cb i info (s, w) = Ok (tt, (s, w')) ∧ same_items w w'.
Proof.
  intros Hw Hi. destruct (web_open_client _ _ _ Hw) as (Hset & _).
  destruct (broadcast_done_live info s w Hset Hi) as (w1 & E1 & H1).
  assert (web_open act i w1) as Hw1 by (apply broadcast_done_same in E1 as [_ Hs]; by eapply stable).
  destruct (web_open_client _ _ _ Hw1) as (_ & Ht & Hc & Hi0). destruct (kill_client_live i w1 Ht Hc Hi0) as (w2 & E2 & H2 & _).
  exists w2. split; [|unfold same_items in *; congruence]. unfold close_cb. rewrite (M_bind_run _ _ _ _ _ E1). by apply on_web_run.
Qed.

Section Live.
Variable e : env.
Context `{!IterOrder (env_iter e)}.

Lemma drain_live act i : ∀ s w c,
  write_inv (Some i) s → all_marked s → web_open act i w → vget (clients s) i = Ok c → infos_ok s w →
  ∃ s' w', drain (web_callbacks e) (length (send_data c)) i (s, w) = Ok (tt, (s', w')) ∧ same_items w w'.
Proof.
  intros s w c. remember (send_data c) as l eqn:Hl. revert s w c Hl.
  induction l as [|wd l IH]; intros s w c Hl Hinv Hm Hw Hv Hi; simpl;
    rewrite (on_server_bind _ _ _ _ _ _ (get_client_run _ _ _ Hv)), <-Hl; [by exists s, w|].
  assert (wd ∈ all_queued s) as Hwd by (eapply queued_elem; [exact Hv|rewrite <-Hl; set_solver]).
  destruct (close_cb_live act i (additional_info wd) s w Hw (Hi wd Hwd)) as (w1 & E1 & Hs1).
  assert (web_open act i w1) as Hw1 by (right; by destruct (close_cb_closing e act i (additional_info wd) s w tt s w1 Hw E1)).
  cbn [web_callbacks ServerBase.close_cb call]. rewrite (M_bind_run _ _ _ _ _ E1).
  destruct (closing_no_writes i s c Hinv Hv) as [Hnw _].
  destruct (send_pop_inv (Some i) s i c wd l Hinv ltac:(by right) Hv (eq_sym Hl) Hnw) as (s2 & E2 & Hinv2 & Ho).
  rewrite (on_server_bind _ _ _ _ _ _ E2). destruct (only_heap_conn _ _ Ho) as (Ec & _). simpl in Ec.
  destruct (IH s2 w1 (cl_set_send_data l c)) as (s3 & w3 & E3 & Hs3); [done|done| |done| | |].
  - eapply marked_update; [exact Hm|exact Ec|]. pose proof (marked_client s i c Hm Hv) as Hf. rewrite <-Hl in Hf. by inversion Hf.
  - rewrite Ec. apply vget_insert_eq. by eapply vget_range.
  - eapply infos_ok_update; [exact Hv|exact Ec| |exact Hs1|exact Hi]. simpl. rewrite <-Hl. set_solver.
  - exists s3, w3. split; [done|]. unfold same_items in *. congruence.
Qed.

Lemma close_client_live i s w c :
  write_inv (Some i) s → all_marked s → web_ok (active_connections s) w → i ∈ active_connections s →
  vget (clients s) i = Ok c → infos_ok s w →
  ∃ s' w', close_client (web_callbacks e) i (s, w) = Ok (tt, (s', w')) ∧ same_items w w'.
Proof.
  intros Hinv Hm Hw Hi Hv Hio. unfold close_client. rewrite (on_server_bind _ _ _ _ _ _ (get_client_run _ _ _ Hv)).
  destruct (drain_live (active_connections s) i s w c) as (s1 & w1 & E1 & Hs1); [done|done|by left|done|done|].
  destruct (drain_ok e (active_connections s) i _ s w tt s1 w1 c Hinv Hm ltac:(by left) Hv E1)
    as (Hinv1 & Hm1 & Hw1 & Ha1 & (c1 & Hv1 & Hq1) & _).
  rewrite (M_bind_run _ _ _ _ _ E1), (on_server_bind _ _ _ _ _ _ (get_client_run _ _ _ Hv1)), Hq1.
  cbn [len length Z.of_nat Z.eqb mwhen web_callbacks ServerBase.close_cb call].
  destruct (close_cb_live (active_connections s) i (-1) s1 w1 Hw1) as (w2 & E2 & Hs2); [by left|].
  rewrite (M_bind_run _ _ _ _ _ E2).
  destruct (close_connection_inv s1 i c1 (closing_idle s1 i c1 Hinv1 Hv1 Hq1) Hv1) as (s3 & E3 & _).
  exists s3, w2. split; [by apply on_server_run|]. unfold same_items in *. congruence.
Qed.

Abbreviation returns m t := (∃ s' w', m t = Ok (tt, (s', w'))).

Lemma handle_failed_live q ev s w :
  thread_hole q s w → infos_ok s w → completion_ok s w ev q → is_client_event (rq_event (sq_req q)) = true → cq_res ev ≤ 0 →
  returns (handle_failed (web_callbacks e) (sq_req q) (cq_res ev)) (s, w).
Proof.
  intros Hhole Hio Hok He Hres. pose proof Hhole as [Hc Hh Hm Hw]. set (i := rq_client_idx (sq_req q)) in *.
  pose proof (ci_sqes _ _ _ Hc) as [Hq _]%Forall_cons. destruct (sqe_client _ _ Hq He) as [Hev Hr].
  unfold handle_failed. rewrite (proj2 (Z.leb_le _ _)) by done. fold i. destruct Hev as [[Hev Hop]|[Hev Hop]].
  - assert (is_write_for i q) as Hwf by done.
    destruct (in_flight_client _ _ _ Hc Hwf) as (c & wd & rest & Hv & Hn & Hi & Hsd & Hro & Hnw).
    rewrite (on_server_bind _ _ _ _ _ _ (get_client_run _ _ _ Hv)), (ro_ID _ _ _ _ Hro), Z.eqb_refl, Hev. simpl.
    rewrite (on_server_bind _ _ _ _ _ _ (upd_client_run _ _ _ _ Hv)), Hn. simpl.
    pose proof (complete_inv _ _ _ _ Hc Hh Hwf Hv Hn Hnw) as Hinv1.
    set (c1 := cl_set_num_write_reqs 0 c) in *. set (s1 := set_clients _ s) in *.
    assert (vget (clients s1) i = Ok c1) as Hv1 by by apply vget_insert_eq.
    rewrite (on_server_bind _ _ _ _ _ _ (get_client_run _ _ _ Hv1)). simpl.
    destruct (close_client_live i s1 w c1) as (s2 & w2 & E & _); [done| |done|done|done| |by exists s2, w2].
    + eapply marked_update; [exact Hm|done|]. exact (marked_client s i c Hm Hv).
    + by eapply (infos_ok_update s s1 i c c1).
  - pose proof (hole_drop _ _ _ Hop Hhole) as Ht. destruct (vget_is_Ok _ _ Hr) as [c Hv].
    rewrite (on_server_bind _ _ _ _ _ _ (get_client_run _ _ _ Hv)).
    destruct (Z.eqb_spec (cl_id c) (rq_ID (sq_req q))) as [Hid|Hid]; [|by exists s, w].
    rewrite Hev. cbn [is_write_event mwhen]. rewrite (M_bind_run _ _ (s, w) tt (s, w)) by done.
    rewrite (on_server_bind _ _ _ _ _ _ (get_client_run _ _ _ Hv)).
    destruct (Z.eqb_spec (num_write_reqs c) 0) as [Hn|Hn]; [|by exists s, w]. simpl.
    assert (i ∈ active_connections s) as Hi.
    { destruct (cm_read _ _ _ _ Hok Hev) as [?|(_ & c' & Hv' & Hid')]; [done|].
      rewrite Hv in Hv'. by injection Hv' as <-. }
    destruct (close_client_live i s w c) as (s2 & w2 & E & _); [|done..|by exists s2, w2].
    eapply idle_closing; [apply Ht|done|done].
Qed.

Lemma close_gone_live peek s0 i s w :
  (∀ c, vget (clients s0) i = Ok c → peek (cl_sockfd c) = 0 → send_data c = []) →
  thread_ok (s, w) → infos_ok s w → conns s = conns s0 → i ∈ active_connections s →
  ∃ s' w', close_gone e peek i (s, w) = Ok (tt, (s', w')) ∧ infos_ok s' w'.
Proof.
  intros Hidle Ht Hio Ec Hi. destruct (active_client _ _ _ _ (proj1 (th_write _ Ht)) Hi) as [c Hv].
  unfold close_gone. rewrite (on_server_bind _ _ _ _ _ _ (get_client_run _ _ _ Hv)).
  destruct (Z.eqb_spec (peek (cl_sockfd c)) 0) as [Hp|]; simpl; [|by exists s, w].
  destruct (conns_client s s0 i c (eq_sym Ec) Hv) as (c0 & Hv0 & Hfd & Hq).
  assert (send_data c = []) as Hnil by (rewrite <-Hq; apply Hidle; [done|by rewrite Hfd]).
  destruct Ht as [Hinv Hm Hw]. simpl in *. assert (write_inv (Some i) s) as Hcl.
  { eapply idle_closing; [done|done|]. destruct Hinv as [Hc _]. pose proof (ci_clients _ _ _ Hc i c Hv) as Hok.
    unfold client_ok in Hok. destruct (write_reqs (ring s) i) as [|q [|]]; [apply Hok| |done].
    destruct Hok as (_ & _ & _ & wd & rest & Hsd & _). congruence. }
  destruct (close_client_live i s w c Hcl Hm Hw Hi Hv Hio) as (s2 & w2 & E & Hs2). exists s2, w2. split; [done|].
  apply (close_client_ok e i s w tt s2 w2 c) in E as (_ & _ & Hsame); [|done..].
  eapply infos_ok_sub; [|exact Hs2|exact Hio]. intros wd. by rewrite (conns_queued _ _ (Hsame Hnil)).
Qed.

Lemma handle_timer_live peek iter s w :
  thread_ok (s, w) → infos_ok s w → IterOrder iter →
  (∀ i c, i ∈ active_connections s → vget (clients s) i = Ok c → peek (cl_sockfd c) = 0 → send_data c = []) →
  returns (handle_timer (web_callbacks e) peek iter) (s, w).
Proof.
  intros Ht Hio Hiter Hidle. unfold handle_timer. rewrite (on_server_bind _ _ _ _ _ s) by done.
  assert (∀ l s1 w1, thread_ok (s1, w1) → infos_ok s1 w1 → conns s1 = conns s → NoDup l →
    (∀ i, i ∈ l → i ∈ active_connections s1) → (∀ i, i ∈ l → i ∈ active_connections s) →
    returns (mfor l (close_gone e peek)) (s1, w1)) as Hloop.
  { induction l as [|i l IH]; intros s1 w1 Ht1 Hio1 Ec Hnd Ha Ha0; [by exists s1, w1|].
    apply NoDup_cons in Hnd as [Hil Hnd]. simpl.
    destruct (close_gone_live peek s i s1 w1) as (s2 & w2 & E & Hio2); [intros c; apply Hidle, Ha0; set_solver|done..|apply Ha; set_solver|].
    rewrite (M_bind_run _ _ _ _ _ E).
    apply (close_gone_ok e peek s i) in E as (Ht2 & Ec2 & Ha2); [|intros c; apply Hidle, Ha0; set_solver|done|done|apply Ha; set_solver].
    apply IH; [done|done|done|done| |intros j Hj; apply Ha0; set_solver].
    intros j Hj. apply Ha2; [by intros ->|apply Ha; set_solver]. }
  destruct (Hloop (iter (active_connections s)) s w) as (s1 & w1 & E); [done|done|done|by apply (iter_NoDup iter)|
    by intros i Hi%(iter_elem iter)..|].
  unfold close_gone in E. rewrite (M_bind_run _ _ _ _ _ E). eexists _, w1. by apply on_server_run.
Qed.

(** ** The other callbacks *)

Lemma accept_live res s w :
  thread_ok (s, w) → len (clients s) < 2 ^ 31 - 1 → returns (handle_accept (web_callbacks e) res) (s, w).
Proof.
  intros [Hinv Hm Hw] Hlen. simpl in *. unfold handle_accept. set (q := {| sq_op := IoAccept; sq_fd := listener_fd s; sq_src := None;
    sq_buf_off := 0; sq_len := 0; sq_off := 0; sq_req := new_request ACCEPT |}). set (s1 := set_ring (ring s ++ [q]) s).
  rewrite (on_server_bind _ _ s w tt s1) by done.
  assert (write_inv None s1) as Hinv1 by (destruct Hinv; by apply submit_inv).
  destruct (setup_client_inv s1 res Hinv1) as (i & s2 & Hs & _ & _ & Hinv2 & _ & c & Hv & _).
  rewrite (on_server_bind _ _ _ _ _ _ Hs). pose proof (setup_index e res s1 i s2 Hinv1 Hs) as Hi. change (clients s1) with (clients s) in Hi.
  set (s3 := set_active _ s2) in *. rewrite (on_server_bind _ _ _ _ tt s3) by done.
  destruct (new_tcp_client_run i w) as (l & E & _); [lia|].
  cbn [web_callbacks ServerBase.accept_cb call]. rewrite (M_bind_run _ _ (s3, w) tt (s3, set_tcp_clients l w)) by (by apply on_web_run).
  destruct (add_read_req_inv None s3 i c) as (n & s4 & E4 & _); [exact Hinv2|done|].
  rewrite (on_server_bind _ _ _ _ _ _ E4). by exists s4, (set_tcp_clients l w).
Qed.

Lemma web_close_live act k s w :
  both act (web_ok act) (s, w) → k ∈ act → returns (web_close_connection k) (s, w).
Proof.
  intros [[Hinv Hm <-] Hw] Hk. simpl in *. destruct (web_open_client (active_connections s) k w) as (Hset & Ht & Hc & Hk0); [by left|].
  destruct (kill_client_live k w Ht Hc Hk0) as (w1 & E1 & _ & Hset1).
  destruct (active_client _ _ _ _ (proj1 Hinv) Hk) as [c Hv].
  destruct (close_connection_inv s k c Hinv Hv) as (s2 & E2 & _). exists s2, w1. unfold web_close_connection.
  rewrite (on_web_bind _ _ _ _ _ _ E1). apply on_tcp_run; [by rewrite Hset1|exact E2].
Qed.

Lemma process_write_live act k s w :
  both act (web_ok act) (s, w) → k ∈ act →
  ∃ b s' w', websocket_process_write_cb k (s, w) = Ok (b, (s', w')) ∧ both act (web_ok act) (s', w').
Proof.
  intros Hb Hk. pose proof Hb as [Hs Hw]. simpl in Hw. destruct (vget_is_Ok (tcp_clients w) k) as [t Ht].
  { by eapply (si_clients _ _ (wo_sockets _ _ Hw)). }
  unfold websocket_process_write_cb. rewrite (on_web_bind _ _ _ _ _ _ (get_tcp_client_run _ _ _ Ht)). cbv zeta.
  rewrite (on_web_bind _ _ _ _ w w) by done. case_bool_decide as Hin; [|by exists false, s, w].
  destruct (vget_is_Ok (websocket_clients (web_sockets w)) (tc_ws_client_idx t)) as [c Hc].
  { apply (si_range _ _ (wo_sockets _ _ Hw)). set_solver. }
  assert (∃ b s' w', close_ws_connection_potential_confirm (tc_ws_client_idx t) (s, w) = Ok (b, (s', w'))) as (b & s1 & w1 & E).
  { unfold close_ws_connection_potential_confirm. rewrite (on_web_bind _ _ _ _ _ _ (get_ws_client_run _ _ _ Hc)).
    rewrite (wo_open _ _ Hw _ _ Hc). cbn [mwhen]. destruct (_ =? 1); [by exists true, s, w|].
    erewrite (on_web_bind _ _ _ _ _ _ (upd_ws_client_run _ _ _ _ Hc)). by eexists _, _, _. }
  rewrite (M_bind_run _ _ _ _ _ E). exists true, s1, w1. split; [done|]. by apply (potential_confirm_ok act _ _ _ _ E).
Qed.

Lemma write_cb_live k i s w :
  thread_ok (s, w) → info_ok w i → k ∈ active_connections s → returns (write_cb k i) (s, w).
Proof.
  intros Ht Hi Hk. set (act := active_connections s) in *. pose proof (thread_both _ _ Ht) as Hb. fold act in Hb.
  destruct (broadcast_done_live i s w) as (w1 & E1 & _); [apply (wo_set _ _ (th_web _ Ht))|done|].
  apply (broadcast_done_ok act i _ _ _ E1) in Hb. unfold write_cb. rewrite (M_bind_run _ _ _ _ _ E1).
  destruct (process_write_live act k s w1 Hb Hk) as (b & s2 & w2 & E2 & Hb2). rewrite (M_bind_run _ _ _ _ _ E2).
  destruct b; simpl; [by exists s2, w2|]. by eapply web_close_live.
Qed.

Lemma handle_write_live q ev s w :
  thread_hole q s w → infos_ok s w → completion_ok s w ev q → is_write_for (rq_client_idx (sq_req q)) q → 0 < cq_res ev →
  returns (handle_write (web_callbacks e) (sq_req q) (cq_res ev)) (s, w).
Proof.
  intros [Hc Hh Hm Hw] Hio Hok Hq Hres. destruct (in_flight_client _ _ _ Hc Hq) as (c & wd & rest & Hv & _ & Hi & Hsd & _).
  unfold handle_write. rewrite (on_server_bind _ _ _ _ _ _ (get_client_run _ _ _ Hv)).
  assert (cq_res ev ≤ sq_len q) as Hle by apply (cm_len _ _ _ _ Hok), Hq. destruct (unfinished _ _).
  - destruct (write_continued_inv _ q s (cq_res ev) Hc Hh Hq ltac:(lia)) as (c1 & wd1 & rest1 & q' & _ & _ & E & _).
    rewrite (on_server_bind _ _ _ _ _ _ E). by eexists _, w.
  - destruct (write_done_inv _ q s Hc Hh Hq) as (c1 & wd1 & rest1 & s1 & Hv1 & Hsd1 & E & Hinv & Ho & _).
    rewrite (on_server_bind _ _ _ _ _ _ E). pose proof (oc_active _ _ _ _ Ho) as Ea.
    cbn [web_callbacks ServerBase.write_cb call]. apply write_cb_live; [|apply Hio; by eapply queued_elem; [|rewrite Hsd1; left]|by rewrite Ea].
    split; simpl; [done| |by rewrite Ea].
    eapply only_client_marked; [exact Ho| |done]. pose proof (marked_client s _ c1 Hm Hv1) as Hf. rewrite Hsd1 in Hf. by inversion Hf.
Qed.

Lemma notification_live s w :
  thread_ok (s, w) → Forall (λ m, 0 ≤ mp_item_idx m < 2 ^ 31 - 1) (to_server_queue (web_queues w)) → may_take_up s w →
  returns (on_server (mget ≫= λ s, event_read (notification_efd s) NOTIFICATION) ≫= λ _, call (ServerBase.event_cb (web_callbacks e)) id) (s, w).
Proof.
  intros [[Hc Hh] Hm Hw] Hp (Hset & Hs & Hq). simpl in *.
  destruct (to_server_queue (web_queues w)) as [|m rest] eqn:Eq; [done|]. apply Forall_cons in Hp as [Hi _].
  set (q := prep_read (notification_efd s) 0 8 0 (rq_set_read_data (replicate 8 nul) (new_request NOTIFICATION))).
  set (s1 := set_ring (ring s ++ [q]) s). rewrite (on_server_bind _ _ s w tt s1) by done.
  assert (tcp_inv s1) as Hs1 by (apply submit_inv; [done|done|by apply read_sqe_ok|done]).
  assert (mp_buff_ptr m ≠ PNull) as Hm0 by (pose proof (wo_msgs _ _ Hw) as Hms; rewrite Eq in Hms; by inversion Hms).
  destruct (event_cb_run e s1 w m rest _ Hs1 Hset Hs Eq Hi Hm0) as (s2 & w2 & E & _). by exists s2, w2.
Qed.

(** ** One round *)

(** The completion is not one of data that a client sent, nor of a file. *)
Definition no_request (q : sqe) (ev : cqe) : Prop :=
  rq_event (sq_req q) ≠ CUSTOM_READ ∧ (rq_event (sq_req q) = ServerBase.READ → cq_res ev ≤ 0).

Lemma handle_event_live q r ev s w :
  thread_hole q s w → infos_ok s w → Forall (λ m, 0 ≤ mp_item_idx m < 2 ^ 31 - 1) (to_server_queue (web_queues w)) →
  (rq_event (sq_req q) = NOTIFICATION → may_take_up s w) → completion_ok s w ev q → no_request q ev →
  (cq_res ev ≤ 0 ∨ sq_op q ≠ IoRead → r = sq_req q) → (∃ d, r = rq_set_read_data d (sq_req q)) →
  ∃ go s' w', ServerBase.handle_event (web_callbacks e) r ev (s, w) = Ok (go, (s', w')).
Proof.
  intros Hhole Hio Hp Hn Hok [Hnc Hnr] Hr1 Hr. pose proof (ci_sqes _ _ _ (hl_conn _ _ _ Hhole)) as [Hsq _]%Forall_cons.
  destruct (failed_or_stale_run q s w r (cq_res ev) (hl_conn _ _ _ Hhole) ltac:(by right)) as (b & Eb & Hb1 & Hb2 & Hb3).
  destruct Hr as [d Hr]. assert (rq_event r = rq_event (sq_req q)) as Hev by by rewrite Hr.
  assert (∀ (m : M (srv * web_server) unit), returns m (s, w) → ∃ go s' w', (m ≫= λ _, mret true) (s, w) = Ok (go, (s', w'))) as Hgo.
  { intros m (s' & w' & E). exists true, s', w'. by rewrite (M_bind_run _ _ _ _ _ E). }
  assert (rq_event (sq_req q) ≠ ServerBase.WRITE → thread_ok (s, w)) as Ht.
  { intros Hne. eapply hole_drop; [|exact Hhole]. by intros ?%(so_write _ _ Hsq). }
  unfold ServerBase.handle_event. rewrite (M_bind_run _ _ _ _ _ Eb). destruct b.
  { apply Hgo. destruct (Z.leb_spec (cq_res ev) 0) as [Hle|Hpos].
    - rewrite Hr1 by by left. by apply handle_failed_live; [..|apply Hb1|].
    - exists s, w. unfold handle_failed. by rewrite (proj2 (Z.leb_gt _ _)). }
  specialize (Hb2 eq_refl). pose proof (cm_few _ _ _ _ Hok) as Hfew.
  rewrite Hev. destruct (rq_event (sq_req q)) eqn:He; try done; try apply Hgo;
    try (simpl req_event_handler; unfold non_tls_event_handler; rewrite Hev).
  - by apply accept_live; [apply Ht|].
  - by exists s, w.
  - by exists s, w.
  - destruct (Hb2 eq_refl) as [Hpos _]. specialize (Hnr eq_refl). lia.
  - assert (sq_op q = IoWrite) as Hop by by apply (so_write _ _ Hsq). destruct (Hb2 eq_refl) as [Hpos _].
    rewrite Hr1 by (right; congruence). by apply handle_write_live.
  - destruct (notification_live s w) as (s1 & w1 & E); [by apply Ht|done|by apply Hn|].
    exists true, s1, w1. revert E. intros (u & [s2 w2] & E1 & E2)%M_bind_Ok.
    rewrite (M_bind_run _ _ _ _ _ E1). by rewrite (M_bind_run _ _ _ _ _ E2).
  - destruct (cm_timer _ _ _ _ Hok He) as [Hiter Hidle]. by apply handle_timer_live; [apply Ht|..].
  - by eexists _, _, _.
Qed.

(** What the kernel does is the same for any callbacks. *)
Lemma no_callbacks_good (mem : web_server → char_ptr → result (list char)) :
  GoodCallbacks mem (λ _, True) {| ServerBase.accept_cb := None; ServerBase.close_cb := None; ServerBase.read_cb := None;
    ServerBase.write_cb := None; ServerBase.event_cb := None; ServerBase.custom_read_cb := None |}.
Proof. by split. Qed.

Lemma loop_step_live mem q ev s w :
  thread_ok (s, w) → thread_inv (s, w) → cqe_ok s ev q → completion_ok s w ev q → ptrs_ok mem s w → no_request q ev →
  ∃ go s' w', loop_step (web_callbacks e) mem ev (s, w) = Ok (go, (s', w')).
Proof.
  intros Ht Hti Hq Hok Hp Hno. pose proof (thread_ready e s w ev q Ht (eo_pos _ _ _ Hq) Hok) as Hready.
  pose proof Ht as [Hinv Hm Hw]. simpl in *.
  rewrite (loop_step_take _ mem ev s w q (eo_wait _ _ _ Hq) (eo_pos _ _ _ Hq)).
  destruct (take_write_inv s (cq_pos ev) q Hinv (eo_pos _ _ _ Hq)) as [Hc Hh]. set (s1 := set_ring (delete (cq_pos ev) (ring s)) s) in *.
  pose proof (no_callbacks_good mem) as Hcb.
  destruct (kernel_io_run mem (λ _, True) _ q s1 w ev s) as (r & s2 & E & _ & _ & _ & Hr0); [by split|done|].
  rewrite (M_bind_run _ _ _ _ _ E). apply kernel_io_effect in E as (_ & [wi ->] & Hr1 & Hr2).
  set (s2 := srv_obs _ _ _ _ _ s1) in *. apply (handle_event_live q r ev s2 w); [..|exact Hr2].
  - split; [by destruct Hc; split|by destruct Hh; split|done|done].
  - exact (thread_infos s w Hti Hm).
  - eapply Forall_impl; [exact (ti_posts _ Hti)|]. by intros m (i & -> & Hi).
  - intros Hn. exact (rr_take_up _ _ _ Hready q (eo_pos _ _ _ Hq) Hn).
  - by destruct Hok; split.
  - done.
  - intros [Hle|?]; [|by apply Hr1]. destruct Hr0 as [?|(_ & ? & _)]; [done|lia].
Qed.
End Live.
