(* ===== verification/Tls.v ===== *)
(** * tcp_server/server_tls.cpp and tcp_server/wolfssl_callbacks.cpp

    The TLS server: clients with a wolfSSL session, the callbacks wolfSSL does its
    I/O with, queued writes that go through [wolfSSL_write], and the handler of the
    request events.

    wolfSSL is a parameter, the record [wolfssl].  A call of it is a [wolf_io]: it
    may call the send and the receive callback any number of times, with what it
    makes of their results, before it returns.  What the library does inside is
    open; the theorems name what they rely on. *)

From S2P Require Import Prelude Utility ServerBase NonTls TcpServer.
From Stdlib Require Import ZArith Lia.
From stdpp Require Import base gmap strings list fin_maps sets.

#[local] Open Scope Z_scope.

(** ** wolfSSL *)

(** A call of the library: [WSend buff k] calls the send callback with [buff] and goes
    on with its result; [WRecv sz k] calls the receive callback for [sz] bytes and goes
    on with its result and the bytes it stored. *)
Inductive wolf_io (A : Type) :=
| WRet (a : A)
| WSend (buff : list char) (k : Z → wolf_io A)
| WRecv (sz : Z) (k : Z → list char → wolf_io A).
Arguments WRet {A} a. Arguments WSend {A} buff k. Arguments WRecv {A} sz k.

(** The functions the server calls, on the state [Ssl] of a session; [wolf_write]
    takes the place of the bytes and their number; [wolf_null] is what the functions
    return for the null pointer. *)
Record wolfssl (Ssl : Type) := {
  wolf_new : Ssl;
  wolf_accept : Ssl → wolf_io (Z * Ssl);
  wolf_read : Ssl → Z → wolf_io (Z * list char * Ssl);
  wolf_write : Ssl → write_src → Z → wolf_io (Z * Ssl);
  wolf_shutdown : Ssl → wolf_io (Z * Ssl);
  wolf_null : Z;
  want_read : Z;
  want_write : Z
}.
Arguments wolf_new {Ssl}. Arguments wolf_accept {Ssl}. Arguments wolf_read {Ssl}.
Arguments wolf_write {Ssl}. Arguments wolf_shutdown {Ssl}. Arguments wolf_null {Ssl}.
Arguments want_read {Ssl}. Arguments want_write {Ssl}.

(** ** Clients *)

(** What [client<server_type::TLS>] adds to [client_base]. *)
Record tls_client (Ssl : Type) := {
  ssl : option Ssl;
  accept_last_written : Z;
  recv_data : list char
}.
Arguments ssl {Ssl}. Arguments accept_last_written {Ssl}. Arguments recv_data {Ssl}.

Definition new_tls_client {Ssl} : tls_client Ssl :=
  {| ssl := None; accept_last_written := -1; recv_data := [] |}.

Section Tls.
Context {Ssl : Type}.
Variable wolf : wolfssl Ssl.
Abbreviation X := (tls_client Ssl).
Abbreviation Srv := (M (server_base X)).

Definition set_ssl (o : option Ssl) (x : X) : X :=
  {| ssl := o; accept_last_written := accept_last_written x; recv_data := recv_data x |}.
Definition set_accept_last_written (n : Z) (x : X) : X :=
  {| ssl := ssl x; accept_last_written := n; recv_data := recv_data x |}.
Definition set_recv_data (d : list char) (x : X) : X :=
  {| ssl := ssl x; accept_last_written := accept_last_written x; recv_data := d |}.

Definition cl_upd_ext (g : X → X) (c : client X) : client X :=
  {| cl_id := cl_id c; cl_sockfd := cl_sockfd c; send_data := send_data c;
     read_req_active := read_req_active c; num_write_reqs := num_write_reqs c; cl_ext := g (cl_ext c) |}.
Definition upd_ext (idx : Z) (g : X → X) : Srv unit := upd_client idx (cl_upd_ext g).

Definition wd_set_last_written (n : Z) (wd : write_data) : write_data :=
  {| wd_addr := wd_addr wd; wd_last_written := n; wd_custom_info := wd_custom_info wd;
     wd_buff := wd_buff wd; wd_broadcast := wd_broadcast wd; wd_ptr_buff := wd_ptr_buff wd;
     wd_total_length := wd_total_length wd; wd_multi := wd_multi wd |}.

(** [client.send_data.front().last_written = n] *)
Definition set_front_written (idx n : Z) : Srv unit :=
  get_client idx ≫= λ c,
  match send_data c with
  | [] => mfault EmptyFront
  | wd :: q => upd_client idx (cl_set_send_data (wd_set_last_written n wd :: q))
  end.

(** ** The callbacks of wolfSSL *)

Definition tls_send (client_idx : Z) (buff : list char) : Srv Z :=
  get_client client_idx ≫= λ client,
  mget ≫= λ s,
  if bool_decide (client_idx ∈ active_connections s) then
    send_front client_idx ≫= λ current,
    if wd_last_written current =? -1 then
      add_write_req client_idx WRITE (WSsl buff) (len buff) ≫= λ _, mret (want_write wolf)
    else
      set_front_written client_idx (-1) ≫= λ _, mret (wd_last_written current)
  else
    if accept_last_written (cl_ext client) =? -1 then
      add_write_req client_idx ACCEPT_WRITE (WSsl buff) (len buff) ≫= λ _, mret (want_write wolf)
    else
      upd_ext client_idx (set_accept_last_written (-1)) ≫= λ _,
      mret (accept_last_written (cl_ext client)).

(** The result of the callback, and what it stored. *)
Definition tls_recv_helper (client_idx sz : Z) (accept : bool) : Srv (Z * list char) :=
  get_client client_idx ≫= λ client,
  let data := recv_data (cl_ext client) in
  let recvd_amount := len data in
  if to_u64 sz <? recvd_amount then
    mlift (vslice data 0 (to_u64 sz)) ≫= λ buff,
    mlift (remove_first_n_elements data sz) ≫= λ data,
    upd_ext client_idx (set_recv_data data) ≫= λ _, mret (sz, buff)
  else if recvd_amount <? to_u64 sz then
    mwhen accept (add_read_req client_idx ACCEPT_READ ≫= λ _, mret tt) ≫= λ _,
    mret (want_read wolf, [])
  else
    mlift (vslice data 0 (to_u64 sz)) ≫= λ buff,
    upd_ext client_idx (set_recv_data []) ≫= λ _, mret (to_i32 recvd_amount, buff).

Definition tls_recv (client_idx sz : Z) : Srv (Z * list char) :=
  get_client client_idx ≫= λ client,
  mget ≫= λ s,
  let pending := 0 <? len (recv_data (cl_ext client)) in
  if bool_decide (client_idx ∈ active_connections s) then
    if pending then tls_recv_helper client_idx sz false
    else add_read_req client_idx READ ≫= λ _, mret (want_read wolf, [])
  else
    if pending then tls_recv_helper client_idx sz true
    else add_read_req client_idx ACCEPT_READ ≫= λ _, mret (want_read wolf, []).

(** A call of the library, which asks for an [int] of bytes: [wolfSSL_get_fd] is the index of the client. *)
Fixpoint run_wolf {A} (client_idx : Z) (io : wolf_io A) : Srv A :=
  match io with
  | WRet a => mret a
  | WSend buff k => tls_send client_idx buff ≫= λ n, run_wolf client_idx (k n)
  | WRecv sz k => tls_recv client_idx (to_i32 sz) ≫= λ '(n, b), run_wolf client_idx (k n b)
  end.

Definition with_ssl (client_idx : Z) (f : Ssl → wolf_io (Z * Ssl)) : Srv Z :=
  get_client client_idx ≫= λ c,
  match ssl (cl_ext c) with
  | None => mret (wolf_null wolf)
  | Some session =>
      run_wolf client_idx (f session) ≫= λ '(n, session),
      upd_ext client_idx (set_ssl (Some session)) ≫= λ _, mret n
  end.

Definition wolfSSL_accept (client_idx : Z) : Srv Z := with_ssl client_idx (wolf_accept wolf).
Definition wolfSSL_write (client_idx : Z) (data : write_src) (sz : Z) : Srv Z :=
  with_ssl client_idx (λ session, wolf_write wolf session data (to_i32 sz)).
Definition wolfSSL_shutdown (client_idx : Z) : Srv Z := with_ssl client_idx (wolf_shutdown wolf).

(** The result, and the bytes stored. *)
Definition wolfSSL_read (client_idx sz : Z) : Srv (Z * list char) :=
  get_client client_idx ≫= λ c,
  match ssl (cl_ext c) with
  | None => mret (wolf_null wolf, [])
  | Some session =>
      run_wolf client_idx (wolf_read wolf session sz) ≫= λ '(n, data, session),
      upd_ext client_idx (set_ssl (Some session)) ≫= λ _, mret (n, data)
  end.

(** ** Writing and closing *)

Definition tls_close_connection (client_idx : Z) : Srv unit :=
  get_client client_idx ≫= λ client,
  mwhen (num_write_reqs client =? 0) (
    wolfSSL_shutdown client_idx ≫= λ _,
    close_fd (cl_sockfd client) ≫= λ _,
    upd_ext client_idx (set_ssl None) ≫= λ _,
    mmodify (λ s, set_active (active_connections s ∖ {[client_idx]}) s) ≫= λ _,
    send_clear client_idx ≫= λ _,
    mmodify (λ s, set_freed ({[client_idx]} ∪ freed_indexes s) s)).

Definition send_size (client_idx : Z) : Srv Z := get_client client_idx ≫= λ c, mret (len (send_data c)).

Definition tls_write_connection (client_idx : Z) (buff : list char) : Srv unit :=
  emplace client_idx (write_data_vec buff) ≫= λ _,
  send_front client_idx ≫= λ data_ref,
  send_size client_idx ≫= λ n,
  mwhen (n =? 1) (
    wolfSSL_write client_idx (WOwn (wd_addr data_ref)) (len (wd_buff data_ref)) ≫= λ _, mret tt).

Definition tls_write_connection_ptr (client_idx : Z) (buff : char_ptr) (length : Z) : Srv unit :=
  emplace client_idx (write_data_ptr buff length false 0) ≫= λ _,
  send_front client_idx ≫= λ data_ref,
  send_size client_idx ≫= λ n,
  mwhen (n =? 1) (wolfSSL_write client_idx (WPtr (wd_ptr_buff data_ref)) length ≫= λ _, mret tt).

Definition tls_new_multi_write (buff : list char) (uses : Z) : Srv Z :=
  mget ≫= λ s,
  mput (set_heap (<[next_addr s := (buff, uses)]> (multi_heap s)) (next_addr s + 1) s) ≫= λ _,
  mret (next_addr s).

Definition tls_broadcast_message (idxs : list Z) (num_clients : Z) (buff : list char) : Srv unit :=
  mwhen (0 <? num_clients) (
    tls_new_multi_write buff num_clients ≫= λ data,
    mfor idxs (λ idx,
      emplace (to_i32 idx) (write_data_multi data) ≫= λ _,
      send_size (to_i32 idx) ≫= λ n,
      mwhen (n =? 1) (
        mget ≫= λ s,
        match multi_heap s !! data with
        | None => mfault UseAfterFree
        | Some (b, _) => wolfSSL_write (to_i32 idx) (WMulti data) (len b) ≫= λ _, mret tt
        end))).

Definition tls_broadcast_message_ptr (idxs : list Z) (num_clients : Z) (buff : char_ptr)
    (length custom_info : Z) : Srv unit :=
  mwhen (0 <? num_clients) (
    mfor idxs (λ idx,
      emplace (to_i32 idx) (write_data_ptr buff length true custom_info) ≫= λ _,
      send_size (to_i32 idx) ≫= λ n,
      mwhen (n =? 1) (wolfSSL_write (to_i32 idx) (WPtr buff) length ≫= λ _, mret tt))).

(** ** Request events *)

Definition tls_accept (client_idx : Z) : Srv unit :=
  get_client client_idx ≫= λ _,
  upd_ext client_idx (set_ssl (Some (wolf_new wolf))) ≫= λ _,
  wolfSSL_accept client_idx ≫= λ _, mret tt.

(** What a read delivered goes behind the data not yet consumed. *)
Definition append_received (client_idx : Z) (read_data : list char) (res : Z) : Srv unit :=
  get_client client_idx ≫= λ c,
  let old := recv_data (cl_ext c) in
  if len old =? 0 then upd_ext client_idx (set_recv_data (vresize nul read_data res))
  else mlift (vslice read_data 0 res) ≫= λ new, upd_ext client_idx (set_recv_data (old ++ new)).

(** The loop of lines 199 to 203. *)
Fixpoint read_loop (fuel : nat) (client_idx to_read_amount : Z) (buffer : list char) (total_read : Z)
  : Srv (list char * Z) :=
  get_client client_idx ≫= λ c,
  if len (recv_data (cl_ext c)) =? 0 then mret (buffer, total_read)
  else match fuel with
  | O => mfault OutOfFuel
  | S fuel =>
      wolfSSL_read client_idx (to_read_amount - total_read) ≫= λ '(this_time, data),
      if this_time <=? 0 then mret (buffer, total_read)
      else
        mlift (vsplice buffer total_read data) ≫= λ buffer,
        read_loop fuel client_idx to_read_amount buffer (to_i32 (total_read + this_time))
  end.

Section Handler.
Context {W : Type}.
Variable cb : callbacks X W.
Abbreviation Run := (M (server_base X * W)).

Definition tls_handle_accept (res : Z) : Run unit :=
  on_server (setup_client new_tls_client res) ≫= λ client_idx,
  on_server add_tcp_accept_req ≫= λ _,
  on_server (tls_accept client_idx).

Definition tls_handle_accept_read (req : request) (res : Z) : Run unit :=
  let idx := rq_client_idx req in
  on_server (upd_client idx (cl_set_read_req_active false)) ≫= λ _,
  on_server (append_received idx (rq_read_data req) res) ≫= λ _,
  on_server (wolfSSL_accept idx) ≫= λ done,
  mwhen (done =? 1) (
    call (accept_cb cb) (λ f, f idx) ≫= λ _,
    on_server (mmodify (λ s, set_active ({[idx]} ∪ active_connections s) s)) ≫= λ _,
    on_server (wolfSSL_read idx READ_SIZE) ≫= λ '(amount_read, data),
    on_server (mlift (vsplice (replicate (Z.to_nat READ_SIZE) nul) 0 data)) ≫= λ buffer,
    on_server (upd_ext idx (set_recv_data [])) ≫= λ _,
    mwhen (-1 <? amount_read) (
      on_server (upd_client idx (cl_set_read_req_active false)) ≫= λ _,
      call (read_cb cb) (λ f, f idx buffer (to_u32 amount_read)))).

Definition tls_handle_accept_write (req : request) (res : Z) : Run unit :=
  let idx := rq_client_idx req in
  on_server (upd_client idx (λ c, cl_set_num_write_reqs (num_write_reqs c - 1) c)) ≫= λ _,
  on_server (upd_ext idx (set_accept_last_written res)) ≫= λ _,
  on_server (wolfSSL_accept idx) ≫= λ _, mret tt.

(** The next queued write is handed to wolfSSL. *)
Definition write_front (idx : Z) : Srv Z :=
  send_front idx ≫= λ data_ref,
  get_ptr_and_size data_ref ≫= λ stuff, wolfSSL_write idx stuff.1 stuff.2.

Definition tls_handle_write (req : request) (res : Z) : Run unit :=
  let idx := rq_client_idx req in
  on_server (upd_client idx (λ c, cl_set_num_write_reqs (num_write_reqs c - 1) c)) ≫= λ _,
  on_server (send_size idx) ≫= λ n,
  mwhen (0 <? n) (
    on_server (send_front idx ≫= λ data_ref, get_ptr_and_size data_ref) ≫= λ stuff,
    on_server (set_front_written idx res) ≫= λ _,
    on_server (wolfSSL_write idx stuff.1 stuff.2) ≫= λ written,
    mwhen (-1 <? written) (
      on_server (send_front idx) ≫= λ wd,
      on_server (send_pop idx) ≫= λ _,
      call (write_cb cb) (λ f, f idx (additional_info wd)) ≫= λ _,
      on_server (send_size idx) ≫= λ n,
      mwhen (negb (n =? 0)) (on_server (write_front idx) ≫= λ _, mret tt))).

(** [std::vector<char> buffer(to_read_amount)] and the loop, for a round of fuel per byte. *)
Definition tls_read_all (idx to_read_amount : Z) : Srv (list char * Z) :=
  read_loop (S (Z.to_nat to_read_amount)) idx to_read_amount
    (replicate (Z.to_nat to_read_amount) nul) 0.

Definition tls_handle_read (req : request) (res : Z) : Run unit :=
  let idx := rq_client_idx req in
  on_server (upd_client idx (cl_set_read_req_active false)) ≫= λ _,
  on_server (get_client idx) ≫= λ c,
  on_server (append_received idx (rq_read_data req) res) ≫= λ _,
  on_server (get_client idx) ≫= λ c',
  let to_read_amount :=
    if len (recv_data (cl_ext c)) =? 0 then res else to_i32 (len (recv_data (cl_ext c'))) in
  on_server (tls_read_all idx to_read_amount) ≫= λ '(buffer, total_read),
  mwhen (total_read =? 0) (on_server (add_read_req idx READ) ≫= λ _, mret tt) ≫= λ _,
  mwhen (0 <? total_read) (
    call (read_cb cb) (λ f, f idx buffer (to_u32 total_read)) ≫= λ _,
    on_server (upd_ext idx (λ x, if len (recv_data x) =? 0 then set_recv_data [] x else x))).

Definition tls_event_handler (req : request) (res : Z) : Run unit :=
  match rq_event req with
  | ACCEPT => tls_handle_accept res
  | ACCEPT_READ => tls_handle_accept_read req res
  | ACCEPT_WRITE => tls_handle_accept_write req res
  | WRITE => tls_handle_write req res
  | READ => tls_handle_read req res
  | _ => mret tt
  end.

End Handler.

#[export] Instance tls_server : ServerType X :=
  {| ext_init := new_tls_client;
     req_event_handler := λ W cb req res, tls_event_handler cb req res;
     ServerBase.close_connection := tls_close_connection |}.

#[export] Instance tls_tcp : TcpServer X :=
  {| tcp_write := tls_write_connection;
     tcp_write_ptr := tls_write_connection_ptr;
     tcp_broadcast := tls_broadcast_message_ptr |}.

End Tls.
