(* ===== verification/TlsProps.v ===== *)
(** * Correctness of the TLS server

    The TLS server keeps the promises of [TcpServer], whatever wolfSSL does
    in its calls, so that the theorems on the web server hold on top of it.  What
    it does with the bytes received, and its own behaviour when wolfSSL works as documented,
    follow. *)

From S2P Require Import Prelude Utility ServerBase NonTls TcpServer Tls.
From Stdlib Require Import ZArith Lia.
From stdpp Require Import base gmap strings list fin_maps sets.

#[local] Open Scope Z_scope.

Section Effects.
Context {Ssl : Type}.
Variable wolf : wolfssl Ssl.
Abbreviation X := (tls_client Ssl).
Implicit Types (s : server_base X) (c : client X).

(** ** What a call of wolfSSL changes *)

(** No queue, no connection; the received data only get shorter. *)
Record wolf_effect s s' : Prop := {
  we_ring : only_ring s s';
  we_recv : ∀ j c', vget (clients s') j = Ok c' →
    ∃ c, vget (clients s) j = Ok c ∧ len (recv_data (cl_ext c')) ≤ len (recv_data (cl_ext c))
}.

#[export] Instance wolf_effect_preorder : PreOrder wolf_effect.
Proof.
  split.
  - intros s. split; [reflexivity|]. intros j c' Hc. by exists c'.
  - intros s1 s2 s3 [H1 R1] [H2 R2]. split; [by transitivity s2|]. intros j c3 H.
    destruct (R2 j c3 H) as (c2 & Hc2 & Hle2). destruct (R1 j c2 Hc2) as (c1 & Hc1 & Hle1).
    exists c1. split; [done|lia].
Qed.

(** Memory is bounded, and an active connection has its client. *)
Definition tls_inv s : Prop :=
  (∀ i, i ∈ active_connections s → 0 ≤ i < len (clients s)) ∧
  (∀ i c, vget (clients s) i = Ok c → len (recv_data (cl_ext c)) < 2 ^ 63).

(** Connection [i] can call wolfSSL: when it is active it has something to write. *)
Definition can_write i s : Prop :=
  (∃ c, vget (clients s) i = Ok c) ∧ (i ∈ active_connections s → tcp_queue s i ≠ []).

Lemma effect_inv s s' : tls_inv s → wolf_effect s s' → tls_inv s'.
Proof.
  intros [Ha Hr] [[Hc _] Hw]. split.
  - intros i. rewrite (sc_active _ _ Hc), (same_conns_len _ _ Hc). apply Ha.
  - intros i c Hv. destruct (Hw i c Hv) as (c0 & Hv0 & Hle). specialize (Hr i c0 Hv0). lia.
Qed.

Lemma effect_can_write i s s' : can_write i s → wolf_effect s s' → can_write i s'.
Proof.
  intros [[c Hv] Hq] [[Hc Hqs] _]. apply vget_range in Hv. rewrite <-(same_conns_len _ _ Hc) in Hv.
  split; [by apply vget_is_Ok|]. rewrite (sc_active _ _ Hc), Hqs. exact Hq.
Qed.

(** One client changes, in nothing that others rely on. *)
Lemma effect_update s s' i c c' :
  vget (clients s) i = Ok c → clients s' = <[Z.to_nat i := c']> (clients s) →
  active_connections s' = active_connections s → freed_indexes s' = freed_indexes s →
  client_id c' = client_id c → msg_of <$> send_data c' = msg_of <$> send_data c →
  len (recv_data (cl_ext c')) ≤ len (recv_data (cl_ext c)) → wolf_effect s s'.
Proof.
  intros Hv Ec Ha Hf [= Hid Hfd] Hq Hle. pose proof (vget_range _ _ _ Hv). split; [split|].
  - by eapply same_conns_update.
  - intros j. rewrite (tcp_queue_update s s' i c c') by done. case_decide; [subst j|done].
    by rewrite (tcp_queue_client s i c Hv), Hq.
  - intros j cj Hj. rewrite Ec in Hj. apply vget_insert_inv in Hj as [[-> ->]|[_ Hj]]; [by exists c|by exists cj|lia].
Qed.

Lemma add_write_effect i ev src n s c :
  vget (clients s) i = Ok c → ∃ s', add_write_req i ev src n s = Ok (0, s') ∧ wolf_effect s s'.
Proof.
  intros Hv. unfold add_write_req. rewrite (M_bind_run _ _ _ _ _ (get_client_run _ _ _ Hv)).
  rewrite (M_bind_run _ _ _ _ _ (upd_client_run _ _ _ _ Hv)). eexists. split; [done|].
  by apply (effect_update s _ i c (cl_set_num_write_reqs (num_write_reqs c + 1) c)).
Qed.

Lemma add_read_effect i ev s c :
  vget (clients s) i = Ok c → ∃ n s', add_read_req i ev s = Ok (n, s') ∧ wolf_effect s s'.
Proof.
  intros Hv. unfold add_read_req. rewrite (M_bind_run _ _ _ _ _ (get_client_run _ _ _ Hv)).
  destruct (read_req_active c) eqn:E; simpl; [by exists (-1), s|].
  set (sq := prep_read _ _ _ _ _). set (s1 := set_ring (ring s ++ [sq]) s).
  rewrite (M_bind_run _ _ s tt s1) by done.
  rewrite (M_bind_run _ _ s1 _ _ (upd_client_run i (cl_set_read_req_active true) s1 c Hv)).
  do 2 eexists. split; [done|]. by apply (effect_update s _ i c (cl_set_read_req_active true c)).
Qed.

Lemma upd_ext_effect i g s c :
  vget (clients s) i = Ok c → len (recv_data (g (cl_ext c))) ≤ len (recv_data (cl_ext c)) →
  ∃ s', upd_ext i g s = Ok (tt, s') ∧ wolf_effect s s'.
Proof.
  intros Hv Hle. unfold upd_ext. rewrite (upd_client_run _ _ _ _ Hv). eexists. split; [done|].
  by apply (effect_update s _ i c (cl_upd_ext g c)).
Qed.

Lemma set_front_effect i n s c wd q :
  vget (clients s) i = Ok c → send_data c = wd :: q →
  ∃ s', set_front_written i n s = Ok (tt, s') ∧ wolf_effect s s'.
Proof.
  intros Hv Hq. unfold set_front_written. rewrite (M_bind_run _ _ _ _ _ (get_client_run _ _ _ Hv)), Hq.
  rewrite (upd_client_run _ _ _ _ Hv). eexists. split; [done|].
  apply (effect_update s _ i c (cl_set_send_data (wd_set_last_written n wd :: q) c)); try done.
  by rewrite Hq.
Qed.

Lemma tls_send_effect i b s :
  can_write i s → ∃ n s', tls_send wolf i b s = Ok (n, s') ∧ wolf_effect s s'.
Proof.
  intros [[c Hv] Hq]. unfold tls_send. rewrite (M_bind_run _ _ _ _ _ (get_client_run _ _ _ Hv)).
  rewrite (M_bind_run _ _ s s s) by done. case_bool_decide as Ha.
  - specialize (Hq Ha). rewrite (tcp_queue_client s i c Hv) in Hq.
    destruct (send_data c) as [|wd q] eqn:Eq; [done|].
    rewrite (M_bind_run _ _ _ _ _ (send_front_run _ _ _ _ _ Hv Eq)). destruct (wd_last_written wd =? -1).
    + destruct (add_write_effect i WRITE (WSsl b) (len b) s c Hv) as (s' & E & He).
      rewrite (M_bind_run _ _ _ _ _ E). by exists (want_write wolf), s'.
    + destruct (set_front_effect i (-1) s c wd q Hv Eq) as (s' & E & He).
      rewrite (M_bind_run _ _ _ _ _ E). by exists (wd_last_written wd), s'.
  - destruct (accept_last_written (cl_ext c) =? -1).
    + destruct (add_write_effect i ACCEPT_WRITE (WSsl b) (len b) s c Hv) as (s' & E & He).
      rewrite (M_bind_run _ _ _ _ _ E). by exists (want_write wolf), s'.
    + destruct (upd_ext_effect i (set_accept_last_written (-1)) s c Hv) as (s' & E & He); [done|].
      rewrite (M_bind_run _ _ _ _ _ E). by eexists _, s'.
Qed.

(** ** Receiving *)

(** [recv_data] of client [i] becomes [d]. *)
Definition with_recv i d s : server_base X :=
  match vget (clients s) i with
  | Ok c => set_clients (<[Z.to_nat i := cl_upd_ext (set_recv_data d) c]> (clients s)) s
  | Err _ => s
  end.

Lemma set_recv_run i d s c :
  vget (clients s) i = Ok c → upd_ext i (set_recv_data d) s = Ok (tt, with_recv i d s).
Proof. intros Hv. unfold upd_ext, with_recv. rewrite Hv. by rewrite (upd_client_run _ _ _ _ Hv). Qed.

Lemma with_recv_effect i d s c :
  vget (clients s) i = Ok c → len d ≤ len (recv_data (cl_ext c)) → wolf_effect s (with_recv i d s).
Proof.
  intros Hv Hle. unfold with_recv. rewrite Hv. by apply (effect_update s _ i c (cl_upd_ext (set_recv_data d) c)).
Qed.

(** The bytes asked for are there. *)
Lemma tls_recv_helper_enough i sz accept s c :
  vget (clients s) i = Ok c → len (recv_data (cl_ext c)) < 2 ^ 63 → sz < 2 ^ 31 →
  0 ≤ sz ≤ len (recv_data (cl_ext c)) →
  tls_recv_helper wolf i sz accept s =
    Ok ((sz, take (Z.to_nat sz) (recv_data (cl_ext c))), with_recv i (drop (Z.to_nat sz) (recv_data (cl_ext c))) s).
Proof.
  intros Hv Hlen Hsz Hr. unfold tls_recv_helper. rewrite (M_bind_run _ _ _ _ _ (get_client_run _ _ _ Hv)).
  set (d := recv_data (cl_ext c)) in *. rewrite to_u64_small by lia.
  assert (vslice d 0 sz = Ok (take (Z.to_nat sz) d)) as Es.
  { apply vslice_Ok. split_and!; [lia..|]. by rewrite drop_0. }
  destruct (Z.ltb_spec sz (len d)) as [Hlt|Hge].
  - rewrite (M_bind_run _ _ _ _ _ (mlift_run _ s _ Es)).
    rewrite (M_bind_run _ _ _ _ _ (mlift_run _ s _ (remove_first_n_elements_spec d sz Hr ltac:(lia)))).
    by rewrite (M_bind_run _ _ _ _ _ (set_recv_run i _ s c Hv)).
  - rewrite (proj2 (Z.ltb_ge (len d) sz)) by lia. assert (len d = sz) as El by lia.
    rewrite (M_bind_run _ _ _ _ _ (mlift_run _ s _ Es)).
    rewrite (M_bind_run _ _ _ _ _ (set_recv_run i [] s c Hv)), El, to_i32_small by lia.
    by rewrite drop_ge by (unfold len in El; lia).
Qed.

(** They are not: nothing is taken. *)
Lemma tls_recv_helper_short i sz accept s c :
  vget (clients s) i = Ok c → len (recv_data (cl_ext c)) < 2 ^ 63 → - 2 ^ 31 ≤ sz < 2 ^ 31 →
  ¬ 0 ≤ sz ≤ len (recv_data (cl_ext c)) →
  tls_recv_helper wolf i sz accept s =
    (mwhen accept (add_read_req i ACCEPT_READ ≫= λ _, mret tt) ≫= λ _, mret (want_read wolf, [])) s.
Proof.
  intros Hv Hlen Hsz Hr. unfold tls_recv_helper. rewrite (M_bind_run _ _ _ _ _ (get_client_run _ _ _ Hv)).
  set (d := recv_data (cl_ext c)) in *. pose proof (len_nonneg d).
  assert (len d < to_u64 sz) as Hlt.
  { destruct (decide (0 ≤ sz)); [rewrite to_u64_small by lia; lia|].
    unfold to_u64. rewrite <-(Z_mod_plus_full sz 1), Z.mod_small by lia. lia. }
  by rewrite (proj2 (Z.ltb_ge (to_u64 sz) (len d))), (proj2 (Z.ltb_lt (len d) (to_u64 sz))) by lia.
Qed.

Lemma read_request_effect accept i s c :
  vget (clients s) i = Ok c →
  ∃ s', (mwhen accept (add_read_req i ACCEPT_READ ≫= λ _, mret tt) ≫= λ _, mret (want_read wolf, [] : list char)) s =
    Ok ((want_read wolf, []), s') ∧ wolf_effect s s'.
Proof.
  intros Hv. destruct accept; simpl; [|by exists s].
  destruct (add_read_effect i ACCEPT_READ s c Hv) as (n & s' & E & He). exists s'. split; [|done].
  unfold mbind, M_bind in *. by rewrite E.
Qed.

Lemma tls_recv_effect i sz s :
  tls_inv s → - 2 ^ 31 ≤ sz < 2 ^ 31 → (∃ c, vget (clients s) i = Ok c) →
  ∃ r s', tls_recv wolf i sz s = Ok (r, s') ∧ wolf_effect s s'.
Proof.
  intros [_ Hrecv] Hsz [c Hv]. specialize (Hrecv i c Hv).
  unfold tls_recv. rewrite (M_bind_run _ _ _ _ _ (get_client_run _ _ _ Hv)). rewrite (M_bind_run _ _ s s s) by done.
  assert (∀ ev, ∃ r s', (add_read_req i ev ≫= λ _, mret (want_read wolf, [] : list char)) s = Ok (r, s') ∧ wolf_effect s s') as Hread.
  { intros ev. destruct (add_read_effect i ev s c Hv) as (n & s' & E & He). rewrite (M_bind_run _ _ _ _ _ E). by do 2 eexists. }
  assert (∀ accept, ∃ r s', tls_recv_helper wolf i sz accept s = Ok (r, s') ∧ wolf_effect s s') as Hhelp.
  { intros accept. destruct (decide (0 ≤ sz ≤ len (recv_data (cl_ext c)))) as [Hr|Hr].
    - rewrite (tls_recv_helper_enough i sz accept s c Hv) by (done || lia). do 2 eexists. split; [done|].
      apply (with_recv_effect i _ s c Hv). unfold len. rewrite length_drop. lia.
    - rewrite (tls_recv_helper_short i sz accept s c Hv) by (done || lia).
      destruct (read_request_effect accept i s c Hv) as (s' & E & He). by exists (want_read wolf, []), s'. }
  case_bool_decide; destruct (0 <? len _); auto.
Qed.

(** A read is under way, and was already or is now. *)
Lemma read_request_run i ev s c :
  vget (clients s) i = Ok c →
  ∃ n s' c', add_read_req i ev s = Ok (n, s') ∧ vget (clients s') i = Ok c' ∧
    recv_data (cl_ext c') = recv_data (cl_ext c) ∧ read_req_active c' = true.
Proof.
  intros Hv. pose proof (vget_range _ _ _ Hv). unfold add_read_req.
  rewrite (M_bind_run _ _ _ _ _ (get_client_run _ _ _ Hv)).
  destruct (read_req_active c) eqn:E; simpl; [by exists (-1), s, c|].
  set (sq := prep_read _ _ _ _ _). set (s1 := set_ring (ring s ++ [sq]) s).
  rewrite (M_bind_run _ _ s tt s1) by done.
  rewrite (M_bind_run _ _ s1 _ _ (upd_client_run i (cl_set_read_req_active true) s1 c Hv)).
  do 2 eexists. exists (cl_set_read_req_active true c). split_and!; [done|by apply vget_insert_eq|done|done].
Qed.

(** What is left after [n] bytes went to wolfSSL. *)
Lemma with_recv_client i d s c :
  vget (clients s) i = Ok c → vget (clients (with_recv i d s)) i = Ok (cl_upd_ext (set_recv_data d) c).
Proof.
  intros Hv. pose proof (vget_range _ _ _ Hv). unfold with_recv. rewrite Hv. by apply vget_insert_eq.
Qed.

(** ** Calls of wolfSSL *)

(** Whatever the library does: the call returns, and leaves queues and connections
    alone. *)
Lemma run_wolf_effect {A} i (io : wolf_io A) : ∀ s, tls_inv s → can_write i s →
  ∃ a s', run_wolf wolf i io s = Ok (a, s') ∧ wolf_effect s s'.
Proof.
  induction io as [a|b k IH|sz k IH]; intros s Hinv Hcan; simpl; [by exists a, s| |].
  - destruct (tls_send_effect i b s Hcan) as (n & s1 & E & He). rewrite (M_bind_run _ _ _ _ _ E).
    destruct (IH n s1 (effect_inv _ _ Hinv He) (effect_can_write _ _ _ Hcan He)) as (a & s2 & E2 & He2).
    exists a, s2. split; [done|by transitivity s1].
  - destruct (tls_recv_effect i (to_i32 sz) s Hinv) as ([n d] & s1 & E & He);
      [pose proof (to_i32_range sz); lia|apply Hcan|]. rewrite (M_bind_run _ _ _ _ _ E).
    destruct (IH n d s1 (effect_inv _ _ Hinv He) (effect_can_write _ _ _ Hcan He)) as (a & s2 & E2 & He2).
    exists a, s2. split; [done|by transitivity s1].
Qed.

Lemma with_ssl_effect i f s :
  tls_inv s → can_write i s → ∃ n s', with_ssl wolf i f s = Ok (n, s') ∧ wolf_effect s s'.
Proof.
  intros Hinv Hcan. destruct Hcan as [[c Hv] Hq]. unfold with_ssl.
  rewrite (M_bind_run _ _ _ _ _ (get_client_run _ _ _ Hv)). destruct (ssl (cl_ext c)) as [session|]; [|by eexists _, s].
  destruct (run_wolf_effect i (f session) s Hinv) as ([n session'] & s1 & E & He); [split; [by exists c|done]|].
  rewrite (M_bind_run _ _ _ _ _ E).
  destruct (effect_can_write i s s1) as [[c1 Hv1] _]; [split; [by exists c|done]|done|].
  destruct (upd_ext_effect i (set_ssl (Some session')) s1 c1 Hv1) as (s2 & E2 & He2); [done|].
  rewrite (M_bind_run _ _ _ _ _ E2). exists n, s2. split; [done|by transitivity s1].
Qed.

(** ** Queueing *)

Lemma emplace_tls i mk s c :
  tls_inv s → vget (clients s) i = Ok c →
  ∃ s1 c1, emplace i mk s = Ok (tt, s1) ∧ tls_inv s1 ∧ queued_for [i] (msg_of (mk (next_addr s))) s s1 ∧
    vget (clients s1) i = Ok c1 ∧ send_data c1 = send_data c ++ [mk (next_addr s)].
Proof.
  intros [Ha Hrecv] Hv. pose proof (vget_range _ _ _ Hv). rewrite (emplace_run _ _ _ _ Hv).
  set (c1 := cl_set_send_data _ c). eexists _, c1. split; [done|]. split_and!; [split; simpl| | |done].
  - intros k Hk. rewrite len_insert. by apply Ha.
  - intros k ck Hk. apply vget_insert_inv in Hk as [[-> ->]|[_ Hk]]; [exact (Hrecv i c Hv)|exact (Hrecv k ck Hk)|done].
  - split; [by apply (same_conns_update s _ i c c1)|]. intros k.
    rewrite (tcp_queue_update s _ i c c1) by done. destruct (decide (k = i)) as [->|Hne].
    + rewrite decide_True by set_solver. rewrite (tcp_queue_client s i c Hv). simpl. by rewrite fmap_app.
    + rewrite decide_False by set_solver. by rewrite app_nil_r.
  - by apply vget_insert_eq.
Qed.

Lemma queued_then_effect idxs m s s1 s2 :
  queued_for idxs m s s1 → wolf_effect s1 s2 → queued_for idxs m s s2.
Proof.
  intros [Hc Hq] [[Hc2 Hq2] _]. split; [by transitivity s1|]. intros j. by rewrite Hq2.
Qed.

Lemma send_size_run i s c : vget (clients s) i = Ok c → send_size i s = Ok (len (send_data c), s).
Proof. intros H. unfold send_size. by rewrite (M_bind_run _ _ _ _ _ (get_client_run _ _ _ H)). Qed.

Lemma queue_can_write i s c : vget (clients s) i = Ok c → send_data c ≠ [] → can_write i s.
Proof.
  intros Hv Hq. split; [by exists c|]. intros _. rewrite (tcp_queue_client s i c Hv).
  by destruct (send_data c).
Qed.

(** The write is handed to wolfSSL when it is the only one. *)
Lemma hand_over_effect i src n s c :
  tls_inv s → vget (clients s) i = Ok c → send_data c ≠ [] →
  ∃ s', (mwhen (len (send_data c) =? 1) (wolfSSL_write wolf i src n ≫= λ _, mret tt)) s = Ok (tt, s') ∧
    wolf_effect s s'.
Proof.
  intros Hinv Hv Hq. destruct (_ =? 1); simpl; [|by exists s].
  destruct (with_ssl_effect i (λ session, wolf_write wolf session src (to_i32 n)) s Hinv) as (r & s' & E & He);
    [by eapply queue_can_write|]. unfold wolfSSL_write. rewrite (M_bind_run _ _ _ _ _ E). by exists s'.
Qed.

Lemma tls_enqueue i mk srcf n s c :
  tls_inv s → vget (clients s) i = Ok c →
  ∃ s', (emplace i mk ≫= λ _, send_front i ≫= λ data_ref, send_size i ≫= λ k,
         mwhen (k =? 1) (wolfSSL_write wolf i (srcf data_ref) (n data_ref) ≫= λ _, mret tt)) s = Ok (tt, s') ∧
    tls_inv s' ∧ queued_for [i] (msg_of (mk (next_addr s))) s s'.
Proof.
  intros Hinv Hv. destruct (emplace_tls i mk s c Hinv Hv) as (s1 & c1 & E & Hinv1 & Hq1 & Hv1 & Es).
  rewrite (M_bind_run _ _ _ _ _ E). assert (send_data c1 ≠ []) as Hne by (rewrite Es; by destruct (send_data c)).
  destruct (send_data c1) as [|wd q] eqn:Eq; [done|]. rewrite (M_bind_run _ _ _ _ _ (send_front_run _ _ _ _ _ Hv1 Eq)).
  rewrite (M_bind_run _ _ _ _ _ (send_size_run i s1 c1 Hv1)).
  destruct (hand_over_effect i (srcf wd) (n wd) s1 c1 Hinv1 Hv1) as (s2 & E2 & He2); [by rewrite Eq|].
  exists s2. split; [exact E2|]. split; [by eapply effect_inv|by eapply queued_then_effect].
Qed.

Lemma active_tls i s : tls_inv s → i ∈ active_connections s → ∃ c, vget (clients s) i = Ok c.
Proof. intros [Ha _] Hi. by apply vget_is_Ok, Ha. Qed.

(** One client of a broadcast. *)
Lemma tls_broadcast_one i p l info s :
  tls_inv s → i ∈ active_connections s → p ≠ PNull →
  ∃ s', (emplace i (write_data_ptr p l true info) ≫= λ _, send_size i ≫= λ k,
         mwhen (k =? 1) (wolfSSL_write wolf i (WPtr p) l ≫= λ _, mret tt)) s = Ok (tt, s') ∧
    tls_inv s' ∧ queued_for [i] (QPtr p l (to_i32 info)) s s'.
Proof.
  intros Hinv Hi Hp. destruct (active_tls i s Hinv Hi) as [c Hv].
  destruct (emplace_tls i (write_data_ptr p l true info) s c Hinv Hv) as (s1 & c1 & E & Hinv1 & Hq1 & Hv1 & Es).
  rewrite (M_bind_run _ _ _ _ _ E), (M_bind_run _ _ _ _ _ (send_size_run i s1 c1 Hv1)).
  destruct (hand_over_effect i (WPtr p) l s1 c1 Hinv1 Hv1) as (s2 & E2 & He2); [rewrite Es; by destruct (send_data c)|].
  exists s2. split; [exact E2|]. split; [by eapply effect_inv|]. eapply queued_then_effect; [|exact He2].
  revert Hq1. unfold msg_of. simpl. by rewrite decide_False.
Qed.

Lemma tls_broadcast_queued idxs n p l info s :
  tls_inv s → Forall (λ i, i ∈ active_connections s ∧ to_i32 i = i) idxs → NoDup idxs → 0 < n → p ≠ PNull →
  ∃ s', tls_broadcast_message_ptr wolf idxs n p l info s = Ok (tt, s') ∧ tls_inv s' ∧
        queued_for idxs (QPtr p l (to_i32 info)) s s'.
Proof.
  intros Hinv Hall Hnd Hn Hp. unfold tls_broadcast_message_ptr. rewrite (proj2 (Z.ltb_lt _ _)) by done.
  simpl. clear Hn. revert s Hinv Hall. induction Hnd as [|i idxs Hi Hnd IH]; intros s Hinv Hall; simpl.
  { exists s. split_and!; [done|done|]. split; [done|]. intros j.
    rewrite decide_False by set_solver. by rewrite app_nil_r. }
  apply Forall_cons in Hall as [[Ha Hi32] Hall]. rewrite Hi32.
  destruct (tls_broadcast_one i p l info s Hinv Ha Hp) as (s1 & E & Hinv1 & Hq1).
  rewrite (M_bind_run _ _ _ tt s1) by exact E.
  destruct (IH s1 Hinv1) as (s2 & E2 & Hinv2 & Hq2); [by rewrite (sc_active _ _ (qf_conns _ _ _ _ Hq1))|].
  exists s2. split_and!; [done|done|]. by eapply queued_for_cons.
Qed.

(** The TLS server keeps what the web server relies on. *)
#[export] Instance tls_laws : @TcpServerLaws X (tls_server wolf) (tls_tcp wolf).
Proof.
  refine (Build_TcpServerLaws X (tls_server wolf) (tls_tcp wolf) tls_inv _ _ _ _ _ _); simpl.
  - intros s i. apply active_tls.
  - intros s i b Hinv Hi. destruct (active_tls i s Hinv Hi) as [c Hv].
    exact (tls_enqueue i (write_data_vec b) (λ wd, WOwn (wd_addr wd)) (λ wd, len (wd_buff wd)) s c Hinv Hv).
  - intros s i p n Hinv Hi Hp. destruct (active_tls i s Hinv Hi) as [c Hv].
    destruct (tls_enqueue i (write_data_ptr p n false 0) (λ wd, WPtr (wd_ptr_buff wd)) (λ _, n) s c Hinv Hv)
      as (s' & E & Hinv' & Hq). exists s'. split_and!; [exact E|done|]. revert Hq. unfold msg_of. simpl.
    by rewrite decide_False.
  - intros s idxs n p l info. apply tls_broadcast_queued.
  - intros s i Hinv Hi. destruct (active_tls i s Hinv Hi) as [c Hv]. unfold read_connection.
    destruct (add_read_effect i READ s c Hv) as (n & s' & E & He). rewrite (M_bind_run _ _ _ _ _ E).
    exists s'. split_and!; [done|by eapply effect_inv|apply He].
  - intros s fd n i b a Hinv. eexists. split; [done|]. split; [exact Hinv|]. split; [by split|done].
Defined.

(** ** Reading *)

(** Every result of a call satisfies [P], whatever the callbacks return. *)
Fixpoint wolf_returns {A} (P : A → Prop) (io : wolf_io A) : Prop :=
  match io with
  | WRet a => P a
  | WSend _ k => ∀ n, wolf_returns P (k n)
  | WRecv _ k => ∀ n b, wolf_returns P (k n b)
  end.

(** The call does not send. *)
Fixpoint no_sends {A} (io : wolf_io A) : Prop :=
  match io with
  | WRet _ => True
  | WSend _ _ => False
  | WRecv _ k => ∀ n b, no_sends (k n b)
  end.

(** [wolfSSL_read] stores at most the bytes asked for, as many as it says. *)
Definition reads_at_most : Prop := ∀ session sz,
  no_sends (wolf_read wolf session sz) ∧
  wolf_returns (λ '(n, data, _), 0 < n → n ≤ sz ∧ len data = n) (wolf_read wolf session sz).

Lemma run_wolf_receives {A} i (io : wolf_io A) (P : A → Prop) : ∀ s,
  tls_inv s → (∃ c, vget (clients s) i = Ok c) → no_sends io → wolf_returns P io →
  ∃ a s', run_wolf wolf i io s = Ok (a, s') ∧ wolf_effect s s' ∧ P a.
Proof.
  induction io as [a|b k IH|sz k IH]; intros s Hinv Hv Hn HP; simpl; [by exists a, s|done|].
  destruct (tls_recv_effect i (to_i32 sz) s Hinv) as ([n d] & s1 & E & He);
    [pose proof (to_i32_range sz); lia|done|]. rewrite (M_bind_run _ _ _ _ _ E).
  assert (∃ c, vget (clients s1) i = Ok c) as Hv1.
  { destruct Hv as [c Hv]. apply vget_range in Hv. apply vget_is_Ok.
    by rewrite (same_conns_len _ _ (or_conns _ _ (we_ring _ _ He))). }
  destruct (IH n d s1 (effect_inv _ _ Hinv He) Hv1 (Hn n d) (HP n d)) as (a & s2 & E2 & He2 & Ha).
  exists a, s2. split_and!; [done|by transitivity s1|done].
Qed.

Lemma wolfSSL_read_run i sz s :
  reads_at_most → wolf_null wolf < 0 → tls_inv s → (∃ c, vget (clients s) i = Ok c) →
  ∃ n data s', wolfSSL_read wolf i sz s = Ok ((n, data), s') ∧ wolf_effect s s' ∧ (0 < n → n ≤ sz ∧ len data = n).
Proof.
  intros Hread Hnull Hinv [c Hv]. unfold wolfSSL_read. rewrite (M_bind_run _ _ _ _ _ (get_client_run _ _ _ Hv)).
  destruct (ssl (cl_ext c)) as [session|].
  - destruct (Hread session sz) as [Hn HP].
    destruct (run_wolf_receives i _ _ s Hinv ltac:(by exists c) Hn HP) as ([[n data] session'] & s1 & E & He & Hd).
    rewrite (M_bind_run _ _ _ _ _ E).
    assert (∃ c1, vget (clients s1) i = Ok c1) as [c1 Hv1].
    { apply vget_range in Hv. apply vget_is_Ok. by rewrite (same_conns_len _ _ (or_conns _ _ (we_ring _ _ He))). }
    destruct (upd_ext_effect i (set_ssl (Some session')) s1 c1 Hv1) as (s2 & E2 & He2); [done|].
    rewrite (M_bind_run _ _ _ _ _ E2). exists n, data, s2. split_and!; [done|by transitivity s1|done].
  - exists (wolf_null wolf), [], s. split_and!; [done|done|lia].
Qed.

Lemma read_loop_run i to_read fuel : ∀ buffer total s,
  reads_at_most → wolf_null wolf < 0 → tls_inv s → (∃ c, vget (clients s) i = Ok c) →
  0 ≤ total ≤ to_read → to_read < 2 ^ 31 → len buffer = to_read → to_read - total < Z.of_nat fuel →
  ∃ buffer' total' s', read_loop wolf fuel i to_read buffer total s = Ok ((buffer', total'), s') ∧
    wolf_effect s s' ∧ 0 ≤ total' ≤ to_read ∧ len buffer' = to_read.
Proof.
  induction fuel as [|fuel IH]; intros buffer total s Hread Hnull Hinv [c Hv] Ht Hto Hb Hf; [lia|].
  cbn [read_loop]. rewrite (M_bind_run _ _ _ _ _ (get_client_run _ _ _ Hv)).
  destruct (_ =? 0); [by exists buffer, total, s|].
  destruct (wolfSSL_read_run i (to_read - total) s Hread Hnull Hinv ltac:(by exists c))
    as (n & data & s1 & E & He & Hd). rewrite (M_bind_run _ _ _ _ _ E).
  destruct (Z.leb_spec n 0) as [Hn|Hn]; [by exists buffer, total, s1|]. destruct (Hd Hn) as [Hle Hd'].
  destruct (vsplice buffer total data) as [buffer1|f] eqn:Es.
  2: { unfold vsplice in Es. rewrite decide_True in Es by lia. done. }
  rewrite (M_bind_run _ _ _ _ _ (mlift_run _ s1 buffer1 eq_refl)). pose proof (vsplice_len _ _ _ _ Es).
  rewrite to_i32_small by lia. destruct (IH buffer1 (total + n) s1) as (b2 & t2 & s2 & E2 & He2 & H2 & H3);
    [done|done|by eapply effect_inv| |lia|done|lia|lia|].
  { apply vget_range in Hv. apply vget_is_Ok. by rewrite (same_conns_len _ _ (or_conns _ _ (we_ring _ _ He))). }
  exists b2, t2, s2. split_and!; [done|by transitivity s1|lia|lia|done].
Qed.

End Effects.

(** ** A library and a server that meet the hypotheses *)

(** [wolfSSL_write] sends the three bytes of [record], whatever the message, and goes on where
    it stopped. *)
Definition demo_record : list char := lit "rec".

Fixpoint demo_emit (fuel : nat) (chunk : list char) (sz : Z) : wolf_io (Z * option (list char)) :=
  WSend chunk (λ n,
    if n <? 0 then WRet (-1, Some chunk)
    else if len chunk <=? n then WRet (sz, None)
    else match fuel with
         | O => WRet (-1, None)
         | S fuel => demo_emit fuel (drop (Z.to_nat n) chunk) sz
         end).

Definition demo_wolf : wolfssl (option (list char)) :=
  {| wolf_new := None;
     wolf_accept := λ st, WRet (1, st);
     wolf_read := λ st sz, WRecv sz (λ n data,
       if (0 <? n) && (len data =? n) && (n <=? sz) then WRet (n, data, st) else WRet (-1, [], st));
     wolf_write := λ st _ sz,
       demo_emit 3 (match st with None => demo_record | Some chunk => chunk end) sz;
     wolf_shutdown := λ st, WSend (lit "bye") (λ _, WRet (0, st));
     wolf_null := -173; want_read := -2; want_write := -2 |}.

(** A server with one connection, the session of which is open, that received [d]. *)
Definition demo_tls (d : list char) : server_base (tls_client (option (list char))) :=
  set_active {[0]} (set_clients
    [{| cl_id := 0; cl_sockfd := 7; send_data := []; read_req_active := false; num_write_reqs := 0;
        cl_ext := {| ssl := Some None; accept_last_written := -1; recv_data := d |} |}] (new_server 3 4 5 6)).

Lemma demo_tls_inv d : len d < 2 ^ 63 → tls_inv (demo_tls d).
Proof.
  intros Hd. split.
  - intros i Hi. simpl in Hi. apply elem_of_singleton in Hi as ->. unfold len. simpl. lia.
  - intros i c Hv. pose proof (vget_range _ _ _ Hv) as Hr. unfold len in Hr; simpl in Hr.
    assert (i = 0) as -> by lia. injection Hv as <-. exact Hd.
Qed.

Lemma demo_reads : reads_at_most demo_wolf.
Proof.
  intros st sz. split; simpl; intros n b; destruct ((0 <? n) && (len b =? n) && (n <=? sz)) eqn:E; simpl; try done.
  apply andb_true_iff in E as [E ?]. apply andb_true_iff in E as [? ?]. lia.
Qed.

(** ** Data received with the end of the handshake *)

Section Handshake.
Context {Ssl : Type}.
Variable wolf : wolfssl Ssl.
Implicit Types (s : server_base (tls_client Ssl)) (c : client (tls_client Ssl)).

Definition put_client i c s : server_base (tls_client Ssl) := set_clients (<[Z.to_nat i := c]> (clients s)) s.

Lemma put_client_get i c0 c s : vget (clients s) i = Ok c0 → vget (clients (put_client i c s)) i = Ok c.
Proof. intros Hv. apply vget_insert_eq. by eapply vget_range. Qed.

Lemma upd_ext_run i g s c : vget (clients s) i = Ok c → upd_ext i g s = Ok (tt, put_client i (cl_upd_ext g c) s).
Proof. intros Hv. exact (upd_client_run i _ s c Hv). Qed.

Lemma append_received_first i data res s c :
  vget (clients s) i = Ok c → recv_data (cl_ext c) = [] →
  append_received i data res s = Ok (tt, put_client i (cl_upd_ext (set_recv_data (vresize nul data res)) c) s).
Proof.
  intros Hv Hd. unfold append_received. rewrite (M_bind_run _ _ _ _ _ (get_client_run i s c Hv)), Hd. by apply upd_ext_run.
Qed.

Lemma wolfSSL_accept_done i s c session st :
  vget (clients s) i = Ok c → ssl (cl_ext c) = Some session → wolf_accept wolf session = WRet (1, st) →
  wolfSSL_accept wolf i s = Ok (1, put_client i (cl_upd_ext (set_ssl (Some st)) c) s).
Proof.
  intros Hv Hs Ha. unfold wolfSSL_accept, with_ssl. rewrite (M_bind_run _ _ _ _ _ (get_client_run i s c Hv)), Hs, Ha.
  rewrite (M_bind_run _ _ s (1, st) s) by done. by rewrite (M_bind_run _ _ _ _ _ (upd_ext_run i _ s c Hv)).
Qed.

(** A read that needs more than what was received takes nothing. *)
Lemma wolfSSL_read_short i s c session need k st :
  vget (clients s) i = Ok c → i ∈ active_connections s → ssl (cl_ext c) = Some session →
  wolf_read wolf session READ_SIZE = WRecv need k → k (want_read wolf) [] = WRet (-1, [], st) →
  0 < len (recv_data (cl_ext c)) < need → need < 2 ^ 31 →
  wolfSSL_read wolf i READ_SIZE s = Ok ((-1, []), put_client i (cl_upd_ext (set_ssl (Some st)) c) s).
Proof.
  intros Hv Ha Hs Hread Hk Hd Hneed. unfold wolfSSL_read.
  rewrite (M_bind_run _ _ _ _ _ (get_client_run i s c Hv)), Hs, Hread. cbn [run_wolf].
  assert (tls_recv wolf i (to_i32 need) s = Ok ((want_read wolf, []), s)) as E.
  { unfold tls_recv. rewrite (M_bind_run _ _ _ _ _ (get_client_run i s c Hv)), (M_bind_run _ _ s s s) by done.
    rewrite bool_decide_true by done. rewrite (proj2 (Z.ltb_lt _ _)) by lia.
    rewrite to_i32_small by lia. by rewrite (tls_recv_helper_short wolf i need false s c) by (done || lia). }
  assert ((tls_recv wolf i (to_i32 need) ≫= λ '(n, b), run_wolf wolf i (k n b)) s = Ok ((-1, [], st), s)) as E2.
  { rewrite (M_bind_run _ _ _ _ _ E). by rewrite Hk. }
  rewrite (M_bind_run _ _ _ _ _ E2). by rewrite (M_bind_run _ _ _ _ _ (upd_ext_run i _ s c Hv)).
Qed.

(** The ACCEPT_READ handler throws away what wolfSSL has not taken of the data received: when
    the handshake is done and the first [wolfSSL_read] asks for more than the [res] bytes
    received, none is taken and none is kept. *)
Lemma accept_read_discards {W} (cb : callbacks (tls_client Ssl) W) req res s (w : W) c session st1 st2 need k :
  let i := rq_client_idx req in
  vget (clients s) i = Ok c → ssl (cl_ext c) = Some session → recv_data (cl_ext c) = [] →
  accept_cb cb = None → wolf_accept wolf session = WRet (1, st1) →
  wolf_read wolf st1 READ_SIZE = WRecv need k → k (want_read wolf) [] = WRet (-1, [], st2) →
  0 < res < need → need < 2 ^ 31 →
  ∃ s' c', tls_handle_accept_read wolf cb req res (s, w) = Ok (tt, (s', w)) ∧
    vget (clients s') i = Ok c' ∧ recv_data (cl_ext c') = [] ∧ ring s' = ring s.
Proof.
  intros i Hv Hs Hd Hcb Hacc Hread Hk Hres Hneed. unfold tls_handle_accept_read. fold i.
  rewrite (on_server_bind _ _ s w tt _ (upd_client_run i (cl_set_read_req_active false) s c Hv)).
  pose proof (put_client_get i c (cl_set_read_req_active false c) s Hv) as Hv1.
  rewrite (on_server_bind _ _ _ w tt _ (append_received_first i (rq_read_data req) res _ _ Hv1 Hd)).
  set (d := vresize nul (rq_read_data req) res). assert (len d = res) as Hlen by (apply vresize_len; lia).
  pose proof (put_client_get i _ (cl_upd_ext (set_recv_data d) (cl_set_read_req_active false c)) _ Hv1) as Hv2.
  rewrite (on_server_bind _ _ _ w 1 _ (wolfSSL_accept_done i _ _ session st1 Hv2 Hs Hacc)).
  pose proof (put_client_get i _ (cl_upd_ext (set_ssl (Some st1)) (cl_upd_ext (set_recv_data d) (cl_set_read_req_active false c))) _ Hv2) as Hv3.
  change (1 =? 1) with true. cbv iota beta. unfold mwhen. rewrite Hcb.
  match type of Hv3 with vget (clients ?s3) _ = Ok ?c3 =>
    set (s4 := set_active ({[i]} ∪ active_connections s3) s3);
    rewrite (M_bind_run _ _ (s3, w) tt (s3, w)) by done; rewrite (on_server_bind _ _ s3 w tt s4) by done;
    assert (i ∈ active_connections s4) as Ha4 by set_solver;
    pose proof (wolfSSL_read_short i s4 c3 st1 need k st2 Hv3 Ha4 eq_refl Hread Hk) as E;
    set (c5 := cl_upd_ext (set_ssl (Some st2)) c3) in E;
    pose proof (put_client_get i c3 c5 s4 Hv3 : vget (clients (put_client i c5 s4)) i = Ok c5) as Hv5
  end.
  simpl in E. rewrite Hlen in E. specialize (E Hres Hneed). set (s5 := put_client i c5 s4) in *.
  rewrite (on_server_bind _ _ s4 w (-1, []) s5 E).
  rewrite (on_server_bind _ _ s5 w (replicate (Z.to_nat READ_SIZE) nul) s5).
  2: { unfold mlift. by rewrite vsplice_nil by (unfold len; rewrite length_replicate; lia). }
  rewrite (on_server_bind _ _ s5 w tt _ (upd_ext_run i (set_recv_data []) s5 c5 Hv5)).
  change (-1 <? -1) with false. cbv iota. exists (put_client i (cl_upd_ext (set_recv_data []) c5) s5).
  exists (cl_upd_ext (set_recv_data []) c5). split_and!; [done|by apply (put_client_get i c5)|done|done].
Qed.

End Handshake.


(** * Properties *)

(** C26: the TLS server queues writes as the web server relies on, whatever wolfSSL does:
    in any call it may make any number of sends and receives; a message written to an
    active connection, or a broadcast to several, is queued exactly there and in order, no
    other queue and no connection changes, and nothing faults. *)
Theorem tls_write_queues {Ssl} (wolf : wolfssl Ssl) s :
  tls_inv s →
  (∀ i b, i ∈ active_connections s →
     ∃ s', tls_write_connection wolf i b s = Ok (tt, s') ∧ tls_inv s' ∧ queued_for [i] (QBytes b) s s') ∧
  (∀ idxs n p l info, Forall (λ i, i ∈ active_connections s ∧ to_i32 i = i) idxs → NoDup idxs → 0 < n → p ≠ PNull →
     ∃ s', tls_broadcast_message_ptr wolf idxs n p l info s = Ok (tt, s') ∧ tls_inv s' ∧
       queued_for idxs (QPtr p l (to_i32 info)) s s').
Proof.
  intros Hinv. split.
  - intros i b Hi. by apply (@law_write _ (tls_server wolf) (tls_tcp wolf) (tls_laws wolf)).
  - intros idxs n p l info Hall Hnd Hn Hp. by apply (tls_broadcast_queued wolf).
Qed.

Lemma tls_write_queues_witness :
  tls_inv (demo_tls []) ∧
  ∃ s', tls_write_connection demo_wolf 0 (lit "hello") (demo_tls []) = Ok (tt, s') ∧
    tcp_queue s' 0 = [QBytes (lit "hello")].
Proof.
  split; [by apply demo_tls_inv|].
  destruct (proj1 (tls_write_queues demo_wolf (demo_tls []) (demo_tls_inv [] eq_refl)) 0 (lit "hello"))
    as (s' & E & _ & [_ Hq]); [by apply elem_of_singleton|].
  exists s'. split; [exact E|]. rewrite (Hq 0). by rewrite decide_True by set_solver.
Defined.

(** C27: wolfSSL gets the bytes received in order and without loss: the receive callback
    hands out exactly as many bytes as asked for, from the front of what was received, and
    keeps the rest, or hands out none; when there are none, or the handshake needs more, a
    read of the connection is under way. *)
Theorem tls_recv_in_order {Ssl} (wolf : wolfssl Ssl) i sz s c :
  vget (clients s) i = Ok c → len (recv_data (cl_ext c)) < 2 ^ 63 → 0 ≤ sz < 2 ^ 31 →
  ∃ n b s' c', tls_recv wolf i sz s = Ok ((n, b), s') ∧ vget (clients s') i = Ok c' ∧
    recv_data (cl_ext c) = b ++ recv_data (cl_ext c') ∧
    ((recv_data (cl_ext c) ≠ [] ∧ sz ≤ len (recv_data (cl_ext c)) ∧ n = sz ∧ len b = sz) ∨
     ((recv_data (cl_ext c) = [] ∨ len (recv_data (cl_ext c)) < sz) ∧ n = want_read wolf ∧ b = [] ∧
      (recv_data (cl_ext c) = [] ∨ i ∉ active_connections s → read_req_active c' = true))).
Proof.
  intros Hv Hlen Hsz. unfold tls_recv. rewrite (M_bind_run _ _ _ _ _ (get_client_run _ _ _ Hv)), (M_bind_run _ _ s s s) by done.
  destruct (read_request_run i READ s c Hv) as (n1 & s1 & c1 & E1 & Hv1 & Er1 & Ha1).
  destruct (read_request_run i ACCEPT_READ s c Hv) as (n2 & s2 & c2 & E2 & Hv2 & Er2 & Ha2).
  destruct (recv_data (cl_ext c)) as [|x d] eqn:Ed.
  { change (0 <? len (@nil char)) with false. cbv beta zeta iota. case_bool_decide.
    - rewrite (M_bind_run _ _ _ _ _ E1). exists (want_read wolf), [], s1, c1. rewrite Er1. split_and!; auto 8.
    - rewrite (M_bind_run _ _ _ _ _ E2). exists (want_read wolf), [], s2, c2. rewrite Er2. split_and!; auto 8. }
  rewrite <-Ed in *. assert (0 < len (recv_data (cl_ext c))) as Hpos by (rewrite Ed; unfold len; simpl; lia).
  assert (recv_data (cl_ext c) ≠ []) as Hne by by rewrite Ed. clear Ed. rewrite (proj2 (Z.ltb_lt _ _)) by done.
  destruct (decide (sz ≤ len (recv_data (cl_ext c)))) as [Hle|Hgt].
  - exists sz, (take (Z.to_nat sz) (recv_data (cl_ext c))). do 2 eexists. split_and!.
    + case_bool_decide; apply tls_recv_helper_enough; (done || lia).
    + by apply with_recv_client.
    + simpl. by rewrite take_drop.
    + left. split_and!; [done|lia|done|]. unfold len in *. rewrite length_take. lia.
  - case_bool_decide as Ha; rewrite (tls_recv_helper_short wolf i sz _ s c) by (done || lia); simpl mwhen.
    + exists (want_read wolf), [], s, c. split_and!; [done..|]. right. split_and!; [right; lia|done|done|].
      by intros [?|?].
    + exists (want_read wolf), [], s2, c2. split_and!; [|done|by rewrite Er2|right; split_and!; auto; right; lia].
      unfold mbind, M_bind in *. by rewrite E2.
Qed.

Lemma tls_recv_in_order_witness :
  ∃ n b s' c', tls_recv demo_wolf 0 3 (demo_tls (lit "abcde")) = Ok ((n, b), s') ∧
    vget (clients s') 0 = Ok c' ∧ lit "abcde" = b ++ recv_data (cl_ext c') ∧ n = 3.
Proof.
  edestruct (tls_recv_in_order demo_wolf 0 3 (demo_tls (lit "abcde"))) as (n & b & s' & c' & E & Hv & Hd & Hn);
    [reflexivity|reflexivity|done|].
  exists n, b, s', c'. split_and!; [exact E|exact Hv|exact Hd|].
  destruct Hn as [(_ & _ & Hn & _)|([Hn|Hn] & _)]; [exact Hn|discriminate Hn|by vm_compute in Hn].
Defined.



(** C40: closing an idle TLS connection is undefined: [wolfSSL_shutdown] sends the
    close_notify alert through the send callback, which takes the connection for one that is
    writing and reads the front of its empty queue. *)
Theorem tls_close_faults {Ssl} (wolf : wolfssl Ssl) i s c session b k :
  vget (clients s) i = Ok c → i ∈ active_connections s → num_write_reqs c = 0 → send_data c = [] →
  ssl (cl_ext c) = Some session → wolf_shutdown wolf session = WSend b k →
  tls_close_connection wolf i s = Err EmptyFront.
Proof.
  intros Hv Ha Hn Hq Hs Hw. unfold tls_close_connection. rewrite (M_bind_run _ _ _ _ _ (get_client_run _ _ _ Hv)), Hn.
  simpl. unfold wolfSSL_shutdown, with_ssl. unfold mbind at 1, M_bind at 1.
  rewrite (M_bind_run _ _ _ _ _ (get_client_run _ _ _ Hv)), Hs, Hw. cbn [run_wolf]. unfold tls_send.
  assert (∀ A (g : write_data → M (server_base (tls_client Ssl)) A), (send_front i ≫= g) s = Err EmptyFront) as E.
  { intros A g. unfold send_front, mbind, M_bind. by rewrite (get_client_run _ _ _ Hv), Hq. }
  unfold mbind at 1, M_bind at 1. unfold mbind at 1, M_bind at 1.
  rewrite (M_bind_run _ _ _ _ _ (get_client_run _ _ _ Hv)), (M_bind_run _ _ s s s) by done.
  by rewrite bool_decide_true, E.
Qed.

Lemma tls_close_faults_witness : tls_close_connection demo_wolf 0 (demo_tls []) = Err EmptyFront.
Proof.
  eapply (tls_close_faults demo_wolf 0 (demo_tls [])); [reflexivity|by apply elem_of_singleton|reflexivity..].
Defined.
