(* ===== verification/TlsWrite.v ===== *)
(** * Sending a message over TLS

    A message of the TLS server goes to wolfSSL, which turns it into records and calls the
    send callback; the callback submits a write and says that it would block, and
    the completion of the write calls wolfSSL again, which gets the number of bytes
    written this time.  When wolfSSL works as documented, the bytes of the records
    reach the connection in order and without loss, whatever the kernel takes at a time, and the
    message is reported as written when they all did. *)

From S2P Require Import Prelude Utility ServerBase NonTls NonTlsLoop TcpServer Tls TlsProps.
From Stdlib Require Import ZArith Lia.
From stdpp Require Import base gmap strings list fin_maps sets.

#[local] Open Scope Z_scope.

(** The request that [add_write_req] submits. *)
Definition posted_write {X} (i : Z) (chunk : list char) (c : client X) : sqe :=
  prep_write (cl_sockfd c) (WSsl chunk) 0 (to_u32 (len chunk))
    {| rq_event := WRITE; rq_client_idx := i; rq_ID := cl_id c; rq_written := 0;
       rq_total_length := to_u32 (len chunk); rq_buffer := Some (WSsl chunk); rq_read_data := [];
       rq_read_amount := 0; rq_custom_info := 0 |}.

Section Protocol.
Context {Ssl : Type}.
Variable wolf : wolfssl Ssl.

(** The sessions that can take a message, and those that are in the middle of the message
    at [src] of [sz] bytes, with [chunk] to be sent now and [rest] after it. *)
Variable ready : Ssl → Prop.
Variable pend : Ssl → write_src → Z → list char → list char → Prop.

(** What [wolfSSL_write] is documented to do, from [chunk] on: a callback that would block
    ends the call with -1 and leaves the message where it is; what the callback wrote is not
    sent again; after the last byte the call returns the size of the message. *)
Inductive emits (src : write_src) (sz : Z) : list char → list char → wolf_io (Z * Ssl) → Prop :=
| Emits chunk rest k :
    chunk ≠ [] →
    (∃ st, k (want_write wolf) = WRet (-1, st) ∧ pend st src sz chunk rest) →
    (∀ n, 0 < n < len chunk → emits src sz (drop (Z.to_nat n) chunk) rest (k n)) →
    (rest = [] → ∃ st, k (len chunk) = WRet (sz, st) ∧ ready st) →
    (rest ≠ [] → ∃ chunk' rest', rest = chunk' ++ rest' ∧ emits src sz chunk' rest' (k (len chunk))) →
    emits src sz chunk rest (WSend chunk k).

Record write_protocol : Prop := {
  wp_start st src sz : ready st → 0 < sz → ∃ chunk rest, emits src sz chunk rest (wolf_write wolf st src sz);
  wp_resume st src sz chunk rest : pend st src sz chunk rest → emits src sz chunk rest (wolf_write wolf st src sz)
}.

Implicit Types (s : server_base (tls_client Ssl)) (c : client (tls_client Ssl)).

(** Connection [i] has handed the front of its queue to wolfSSL and waits for the write
    of [chunk], the last request submitted. *)
Record writing i wd q src sz chunk rest s : Prop := {
  wr_chunk : chunk ≠ [];
  wr_active : i ∈ active_connections s;
  wr_client : ∃ c session, vget (clients s) i = Ok c ∧ send_data c = wd :: q ∧
    ssl (cl_ext c) = Some session ∧ pend session src sz chunk rest ∧
    last (ring s) = Some (posted_write i chunk c)
}.

(** It has none to write. *)
Record idle i q s : Prop := {
  id_active : i ∈ active_connections s;
  id_client : ∃ c session, vget (clients s) i = Ok c ∧ send_data c = q ∧
    ssl (cl_ext c) = Some session ∧ ready session
}.

Lemma emits_nonempty src sz chunk rest io : emits src sz chunk rest io → chunk ≠ [].
Proof. by destruct 1. Qed.

Lemma set_last_written_same wd n :
  wd_last_written wd = -1 → wd_set_last_written (-1) (wd_set_last_written n wd) = wd.
Proof. destruct wd; simpl. by intros ->. Qed.

(** ** One call of the send callback *)

Lemma tls_send_submits i b s c wd q :
  vget (clients s) i = Ok c → i ∈ active_connections s → send_data c = wd :: q → wd_last_written wd = -1 →
  ∃ s' c', tls_send wolf i b s = Ok (want_write wolf, s') ∧ active_connections s' = active_connections s ∧
    vget (clients s') i = Ok c' ∧ send_data c' = wd :: q ∧ cl_ext c' = cl_ext c ∧
    last (ring s') = Some (posted_write i b c').
Proof.
  intros Hv Ha Hq Hl. pose proof (vget_range _ _ _ Hv). unfold tls_send.
  rewrite (M_bind_run _ _ _ _ _ (get_client_run _ _ _ Hv)), (M_bind_run _ _ s s s) by done.
  rewrite bool_decide_true by done. rewrite (M_bind_run _ _ _ _ _ (send_front_run _ _ _ _ _ Hv Hq)), Hl.
  change (-1 =? -1) with true. cbv iota. unfold add_write_req.
  set (c' := cl_set_num_write_reqs (num_write_reqs c + 1) c).
  set (s' := set_ring (ring s ++ [posted_write i b c']) (set_clients (<[Z.to_nat i := c']> (clients s)) s)).
  exists s', c'. split_and!; [|done|by apply vget_insert_eq|done|done|by apply last_snoc].
  rewrite (M_bind_run _ _ s 0 s'); [done|].
  rewrite (M_bind_run _ _ _ _ _ (get_client_run _ _ _ Hv)).
  by rewrite (M_bind_run _ _ _ _ _ (upd_client_run _ _ _ _ Hv)).
Qed.

Lemma tls_send_resumes i b n s c wd q :
  vget (clients s) i = Ok c → i ∈ active_connections s → send_data c = wd_set_last_written n wd :: q →
  wd_last_written wd = -1 → n ≠ -1 →
  ∃ s' c', tls_send wolf i b s = Ok (n, s') ∧ active_connections s' = active_connections s ∧
    vget (clients s') i = Ok c' ∧ send_data c' = wd :: q ∧ cl_ext c' = cl_ext c.
Proof.
  intros Hv Ha Hq Hl Hn. pose proof (vget_range _ _ _ Hv). unfold tls_send.
  rewrite (M_bind_run _ _ _ _ _ (get_client_run _ _ _ Hv)), (M_bind_run _ _ s s s) by done.
  rewrite bool_decide_true by done. rewrite (M_bind_run _ _ _ _ _ (send_front_run _ _ _ _ _ Hv Hq)).
  cbn [wd_last_written wd_set_last_written]. rewrite (proj2 (Z.eqb_neq _ _)) by done.
  set (c' := cl_set_send_data (wd_set_last_written (-1) (wd_set_last_written n wd) :: q) c).
  exists (set_clients (<[Z.to_nat i := c']> (clients s)) s), c'.
  split_and!; [|done|by apply vget_insert_eq|by rewrite <-(set_last_written_same wd n Hl)|done].
  erewrite M_bind_run; [done|]. unfold set_front_written.
  rewrite (M_bind_run _ _ _ _ _ (get_client_run _ _ _ Hv)), Hq. by rewrite (upd_client_run _ _ _ _ Hv).
Qed.

(** ** One call of [wolfSSL_write] *)

Lemma run_wolf_submits i src sz chunk rest io s c wd q :
  emits src sz chunk rest io → vget (clients s) i = Ok c → i ∈ active_connections s →
  send_data c = wd :: q → wd_last_written wd = -1 →
  ∃ st s' c', run_wolf wolf i io s = Ok ((-1, st), s') ∧ pend st src sz chunk rest ∧
    active_connections s' = active_connections s ∧ vget (clients s') i = Ok c' ∧ send_data c' = wd :: q ∧
    last (ring s') = Some (posted_write i chunk c').
Proof.
  intros He Hv Ha Hq Hl. destruct He as [chunk rest k _ (st & Hk & Hp) _ _ _]. cbn [run_wolf].
  destruct (tls_send_submits i chunk s c wd q Hv Ha Hq Hl) as (s' & c' & E & Ea & Hv' & Hq' & _ & Hr).
  rewrite (M_bind_run _ _ _ _ _ E), Hk. exists st, s', c'. by split_and!.
Qed.

Lemma set_ssl_run i st s c :
  vget (clients s) i = Ok c →
  ∃ s', upd_ext i (set_ssl (Some st)) s = Ok (tt, s') ∧ active_connections s' = active_connections s ∧
    ring s' = ring s ∧ vget (clients s') i = Ok (cl_upd_ext (set_ssl (Some st)) c).
Proof.
  intros Hv. pose proof (vget_range _ _ _ Hv). unfold upd_ext. rewrite (upd_client_run _ _ _ _ Hv).
  eexists. split_and!; [done|done|done|by apply vget_insert_eq].
Qed.

(** A call on a session comes down to the run of its callbacks. *)
Lemma wolfSSL_write_run i src n s c session r st s1 c1 :
  vget (clients s) i = Ok c → ssl (cl_ext c) = Some session →
  run_wolf wolf i (wolf_write wolf session src (to_i32 n)) s = Ok ((r, st), s1) → vget (clients s1) i = Ok c1 →
  ∃ s2, wolfSSL_write wolf i src n s = Ok (r, s2) ∧ active_connections s2 = active_connections s1 ∧
    ring s2 = ring s1 ∧ vget (clients s2) i = Ok (cl_upd_ext (set_ssl (Some st)) c1).
Proof.
  intros Hv Hs E Hv1. unfold wolfSSL_write, with_ssl.
  rewrite (M_bind_run _ _ _ _ _ (get_client_run _ _ _ Hv)), Hs, (M_bind_run _ _ _ _ _ E).
  destruct (set_ssl_run i st s1 c1 Hv1) as (s2 & E2 & Ha2 & Hr2 & Hv2).
  rewrite (M_bind_run _ _ _ _ _ E2). exists s2. by split_and!.
Qed.

Lemma writing_after i wd q src sz chunk rest st s1 s2 c1 :
  i ∈ active_connections s1 → active_connections s2 = active_connections s1 → ring s2 = ring s1 →
  vget (clients s2) i = Ok (cl_upd_ext (set_ssl (Some st)) c1) → send_data c1 = wd :: q →
  pend st src sz chunk rest → chunk ≠ [] → last (ring s1) = Some (posted_write i chunk c1) →
  writing i wd q src sz chunk rest s2.
Proof.
  intros Ha Ea Er Hv Hq Hp Hne Hl. split; [done|by rewrite Ea|]. exists (cl_upd_ext (set_ssl (Some st)) c1), st.
  split_and!; [done..|]. by rewrite Er, Hl.
Qed.

Hypothesis Hprot : write_protocol.

(** The first call on a message: its first bytes are submitted. *)
Lemma wolfSSL_write_starts i src n s wd q :
  idle i (wd :: q) s → wd_last_written wd = -1 → 0 < to_i32 n →
  ∃ r s' chunk rest, wolfSSL_write wolf i src n s = Ok (r, s') ∧ writing i wd q src (to_i32 n) chunk rest s'.
Proof.
  intros [Ha (c & session & Hv & Hq & Hs & Hr)] Hl Hn.
  destruct (wp_start Hprot session src (to_i32 n) Hr Hn) as (chunk & rest & He).
  destruct (run_wolf_submits i src (to_i32 n) chunk rest _ s c wd q He Hv Ha Hq Hl)
    as (st & s1 & c1 & E & Hp & Ea & Hv1 & Hq1 & Hr1).
  destruct (wolfSSL_write_run i src n s c session (-1) st s1 c1 Hv Hs E Hv1) as (s2 & E2 & Ha2 & Hr2 & Hv2).
  exists (-1), s2, chunk, rest. split; [done|].
  apply (writing_after i wd q src (to_i32 n) chunk rest st s1 s2 c1); try done; [by rewrite Ea|by eapply emits_nonempty].
Qed.

(** What the call returns, and leaves, when [left] is still to be sent. *)
Definition resumed i wd q src sz (left : list char) (r : Z) s : Prop :=
  (left ≠ [] ∧ r = -1 ∧ ∃ chunk rest, left = chunk ++ rest ∧ writing i wd q src sz chunk rest s) ∨
  (left = [] ∧ r = sz ∧ idle i (wd :: q) s).

(** After the send callback gave [io] the number of bytes written. *)
Lemma run_wolf_next i src sz left io s c wd q :
  (left ≠ [] ∧ (∃ chunk rest, left = chunk ++ rest ∧ emits src sz chunk rest io) ∨
   left = [] ∧ ∃ st, io = WRet (sz, st) ∧ ready st) →
  vget (clients s) i = Ok c → i ∈ active_connections s → send_data c = wd :: q → wd_last_written wd = -1 →
  ∃ r st s1 c1, run_wolf wolf i io s = Ok ((r, st), s1) ∧ vget (clients s1) i = Ok c1 ∧
    ∀ s2, active_connections s2 = active_connections s1 → ring s2 = ring s1 →
      vget (clients s2) i = Ok (cl_upd_ext (set_ssl (Some st)) c1) → resumed i wd q src sz left r s2.
Proof.
  intros [(Hne & chunk & rest & El & He)|(-> & st & -> & Hr)] Hv Ha Hq Hl.
  - destruct (run_wolf_submits i src sz chunk rest io s c wd q He Hv Ha Hq Hl)
      as (st & s1 & c1 & E & Hp & Ea & Hv1 & Hq1 & Hr1).
    exists (-1), st, s1, c1. split_and!; [done|done|]. intros s2 Ha2 Hr2 Hv2. left. split_and!; [done|done|].
    exists chunk, rest. split; [done|].
    apply (writing_after i wd q src sz chunk rest st s1 s2 c1); try done; [by rewrite Ea|by eapply emits_nonempty].
  - exists sz, st, s, c. split_and!; [done|done|]. intros s2 Ha2 Hr2 Hv2. right. split_and!; [done|done|].
    split; [by rewrite Ha2|]. by exists (cl_upd_ext (set_ssl (Some st)) c), st.
Qed.

Lemma emits_next src sz chunk rest k n :
  emits src sz chunk rest (WSend chunk k) → 0 < n ≤ len chunk →
  let left := drop (Z.to_nat n) chunk ++ rest in
  left ≠ [] ∧ (∃ chunk' rest', left = chunk' ++ rest' ∧ emits src sz chunk' rest' (k n)) ∨
  left = [] ∧ ∃ st, k n = WRet (sz, st) ∧ ready st.
Proof.
  intros He Hn left. inversion He as [? ? ? Hne _ Hpart Hend Hmore]; subst.
  destruct (decide (n = len chunk)) as [->|Hlt].
  - assert (left = rest) as -> by (unfold left, len; by rewrite Nat2Z.id, drop_all).
    destruct (decide (rest = [])) as [->|Hr]; [right; eauto|left; eauto].
  - assert (drop (Z.to_nat n) chunk ≠ []) as Hd.
    { intros E. apply (f_equal length) in E. rewrite length_drop in E. unfold len in *. simpl in E. lia. }
    left. split; [unfold left; by destruct (drop _ chunk)|]. exists (drop (Z.to_nat n) chunk), rest.
    split; [done|]. apply Hpart. lia.
Qed.

(** A later call, after [m] bytes of [chunk] were written. *)
Lemma wolfSSL_write_resumes i src n m s c session wd q chunk rest :
  vget (clients s) i = Ok c → i ∈ active_connections s → send_data c = wd_set_last_written m wd :: q →
  wd_last_written wd = -1 → ssl (cl_ext c) = Some session → pend session src (to_i32 n) chunk rest →
  0 < m ≤ len chunk →
  ∃ r s', wolfSSL_write wolf i src n s = Ok (r, s') ∧
    resumed i wd q src (to_i32 n) (drop (Z.to_nat m) chunk ++ rest) r s'.
Proof.
  intros Hv Ha Hq Hl Hs Hp Hm. pose proof (wp_resume Hprot _ _ _ _ _ Hp) as He.
  destruct (wolf_write wolf session src (to_i32 n)) as [|chunk' k|] eqn:Ew; [by inversion He| |by inversion He].
  assert (chunk' = chunk) as -> by (inversion He; done).
  destruct (tls_send_resumes i chunk m s c wd q Hv Ha Hq Hl ltac:(lia)) as (s1 & c1 & E1 & Ea1 & Hv1 & Hq1 & Ex1).
  destruct (run_wolf_next i src (to_i32 n) _ (k m) s1 c1 wd q (emits_next _ _ _ _ _ _ He Hm) Hv1)
    as (r & st & s2 & c2 & E2 & Hv2 & Hnext); [by rewrite Ea1|done|done|].
  destruct (wolfSSL_write_run i src n s c session r st s2 c2 Hv Hs) as (s3 & E3 & Ea3 & Er3 & Hv3); [|done|].
  { rewrite Ew. cbn [run_wolf]. by rewrite (M_bind_run _ _ _ _ _ E1). }
  exists r, s3. split; [done|]. by apply Hnext.
Qed.

(** ** The completion of a write *)

Context {W : Type}.
Variable cb : callbacks (tls_client Ssl) W.

(** What the handler does when a message is written: lines 171 to 179. *)
Definition message_written i wd : M (server_base (tls_client Ssl) * W) unit :=
  call (write_cb cb) (λ f, f i (additional_info wd)) ≫= λ _,
  on_server (send_size i) ≫= λ n,
  mwhen (negb (n =? 0)) (on_server (write_front wolf i) ≫= λ _, mret tt).

(** A message whose bytes do not move: of the queue, or of the web server. *)
Definition message_at wd src n : Prop :=
  wd_last_written wd = -1 ∧ wd_multi wd = None ∧ 0 < to_i32 n ∧
  ∀ s, get_ptr_and_size wd s = Ok ((src, n), s).

Lemma send_pop_run i s c wd q :
  vget (clients s) i = Ok c → send_data c = wd :: q → wd_multi wd = None →
  send_pop i s = Ok (tt, set_clients (<[Z.to_nat i := cl_set_send_data q c]> (clients s)) s).
Proof.
  intros Hv Hq Hm. unfold send_pop. rewrite (M_bind_run _ _ _ _ _ (get_client_run _ _ _ Hv)), Hq.
  rewrite (M_bind_run _ _ _ _ _ (upd_client_run _ _ _ _ Hv)). unfold destroy_write_data. by rewrite Hm.
Qed.

Lemma idle_pop i s wd q :
  idle i (wd :: q) s → wd_multi wd = None →
  ∃ s', (send_front i ≫= λ w, send_pop i ≫= λ _, mret w) s = Ok (wd, s') ∧ idle i q s'.
Proof.
  intros [Ha (c & session & Hv & Hq & Hs & Hr)] Hm. pose proof (vget_range _ _ _ Hv).
  rewrite (M_bind_run _ _ _ _ _ (send_front_run _ _ _ _ _ Hv Hq)), (M_bind_run _ _ _ _ _ (send_pop_run i s c wd q Hv Hq Hm)).
  eexists. split; [done|]. split; [done|]. exists (cl_set_send_data q c), session.
  split_and!; [by apply vget_insert_eq|done..].
Qed.

(** The handler up to the call of wolfSSL. *)
Lemma tls_handle_write_calls req m s w wd q src n chunk rest :
  let i := rq_client_idx req in
  writing i wd q src (to_i32 n) chunk rest s → message_at wd src n → 0 < m ≤ len chunk →
  ∃ r s1, tls_handle_write wolf cb req m (s, w) =
      mwhen (-1 <? r) (
        on_server (send_front i) ≫= λ wd,
        on_server (send_pop i) ≫= λ _, message_written i wd) (s1, w) ∧
    resumed i wd q src (to_i32 n) (drop (Z.to_nat m) chunk ++ rest) r s1.
Proof.
  intros i [_ Ha (c & session & Hv & Hq & Hs & Hp & _)] (Hl & Hm & Hn & Hget) Hmr. pose proof (vget_range _ _ _ Hv).
  set (c1 := cl_set_num_write_reqs (num_write_reqs c - 1) c).
  set (s1 := set_clients (<[Z.to_nat i := c1]> (clients s)) s).
  assert (vget (clients s1) i = Ok c1) as Hv1 by by apply vget_insert_eq.
  set (c2 := cl_set_send_data (wd_set_last_written m wd :: q) c1).
  set (s2 := set_clients (<[Z.to_nat i := c2]> (clients s1)) s1).
  assert (vget (clients s2) i = Ok c2) as Hv2 by (apply vget_insert_eq, (vget_range _ _ _ Hv1)).
  destruct (wolfSSL_write_resumes i src n m s2 c2 session wd q chunk rest Hv2 Ha eq_refl Hl Hs Hp Hmr)
    as (r & s3 & E3 & Hres).
  exists r, s3. split; [|done]. unfold tls_handle_write. fold i.
  rewrite (on_server_bind _ _ s w tt s1) by exact (upd_client_run i _ s c Hv).
  rewrite (on_server_bind _ _ s1 w _ s1 (send_size_run i s1 c1 Hv1)).
  assert (0 < len (send_data c1)) as Hpos by (simpl; rewrite Hq; unfold len; simpl; lia).
  rewrite (proj2 (Z.ltb_lt _ _)) by done. simpl mwhen.
  rewrite (on_server_bind _ _ s1 w (src, n) s1).
  2: { by rewrite (M_bind_run _ _ _ _ _ (send_front_run i s1 c1 wd q Hv1 Hq)), Hget. }
  rewrite (on_server_bind _ _ s1 w tt s2).
  2: { unfold set_front_written. rewrite (M_bind_run _ _ _ _ _ (get_client_run _ _ _ Hv1)).
       change (send_data c1) with (send_data c). rewrite Hq. apply (upd_client_run _ _ _ _ Hv1). }
  by rewrite (on_server_bind _ _ s2 w r s3 E3).
Qed.

Lemma tls_handle_write_run req m s w wd q src n chunk rest :
  let i := rq_client_idx req in
  let left := drop (Z.to_nat m) chunk ++ rest in
  writing i wd q src (to_i32 n) chunk rest s → message_at wd src n → 0 < m ≤ len chunk →
  (left ≠ [] → ∃ s' chunk' rest', tls_handle_write wolf cb req m (s, w) = Ok (tt, (s', w)) ∧
     left = chunk' ++ rest' ∧ writing i wd q src (to_i32 n) chunk' rest' s') ∧
  (left = [] → ∃ s', tls_handle_write wolf cb req m (s, w) = message_written i wd (s', w) ∧ idle i q s').
Proof.
  intros i left Hw Hmsg Hm. destruct (tls_handle_write_calls req m s w wd q src n chunk rest Hw Hmsg Hm) as (r & s1 & -> & Hres).
  fold i left in Hres |- *. destruct Hmsg as (_ & Hmulti & Hn & _). split; intros Hleft.
  - destruct Hres as [(_ & -> & chunk' & rest' & El & Hw')|[? _]]; [|done].
    exists s1, chunk', rest'. by split_and!.
  - destruct Hres as [[? _]|(_ & -> & Hid)]; [done|]. rewrite (proj2 (Z.ltb_lt _ _)) by lia. simpl mwhen.
    destruct (idle_pop i s1 wd q Hid Hmulti) as (s' & E & Hid'). exists s'. split; [|done].
    unfold mbind, M_bind in E. destruct (send_front i s1) as [[wd1 s2]|] eqn:E1; [|done].
    rewrite (on_server_bind _ _ _ _ _ _ E1). destruct (send_pop i s2) as [[[] s3]|] eqn:E2; [|done].
    rewrite (on_server_bind _ _ _ _ _ _ E2). by injection E as -> ->.
Qed.

(** The next message is handed over once the callback left it at the front of the queue. *)
Lemma message_written_next i wd s w s1 w1 wd1 q src n :
  call (write_cb cb) (λ f, f i (additional_info wd)) (s, w) = Ok (tt, (s1, w1)) →
  idle i (wd1 :: q) s1 → message_at wd1 src n →
  ∃ s2 chunk rest, message_written i wd (s, w) = Ok (tt, (s2, w1)) ∧ writing i wd1 q src (to_i32 n) chunk rest s2.
Proof.
  intros Ecb Hid (Hl & _ & Hn & Hget). destruct (wolfSSL_write_starts i src n s1 wd1 q Hid Hl Hn) as (r & s2 & chunk & rest & E2 & Hw).
  destruct Hid as [_ (c & session & Hv & Hq & _)]. exists s2, chunk, rest. split; [|done].
  unfold message_written. rewrite (M_bind_run _ _ _ _ _ Ecb), (on_server_bind _ _ s1 w1 _ s1 (send_size_run i s1 c Hv)).
  assert (0 < len (send_data c)) as Hpos by (rewrite Hq; unfold len; simpl; lia).
  rewrite (proj2 (Z.eqb_neq _ _)) by lia. simpl. erewrite (on_server_bind _ _ s1 w1 _ s2); [done|].
  unfold write_front. rewrite (M_bind_run _ _ _ _ _ (send_front_run _ _ _ _ _ Hv Hq)), (M_bind_run _ _ _ _ _ (Hget s1)). exact E2.
Qed.

(** ** The bytes on the wire *)

(** The kernel completes the last write submitted, of [chunk], having taken [m] bytes, again
    and again; [sent] is what it took. *)
Inductive writes_done (i : Z) : list char → server_base (tls_client Ssl) * W → server_base (tls_client Ssl) * W → Prop :=
| Done_none σ : writes_done i [] σ σ
| Done_write sent σ s w σ' c chunk m :
    writes_done i sent σ (s, w) → last (ring s) = Some (posted_write i chunk c) → 0 < m ≤ len chunk →
    tls_event_handler wolf cb (sq_req (posted_write i chunk c)) m (s, w) = Ok (tt, σ') →
    writes_done i (sent ++ take (Z.to_nat m) chunk) σ σ'.

Lemma posted_write_chunk {X} i (c c' : client X) chunk chunk' :
  posted_write i chunk c = posted_write i chunk' c' → chunk = chunk'.
Proof. by intros [=]. Qed.

Lemma take_drop_rest (chunk rest : list char) (m : Z) :
  0 < m ≤ len chunk → chunk ++ rest = take (Z.to_nat m) chunk ++ drop (Z.to_nat m) chunk ++ rest.
Proof. intros _. by rewrite app_assoc, take_drop. Qed.

(** Until everything is sent the connection goes on with the same message. *)
Lemma writes_done_writing i sent σ σ' wd q src n chunk rest :
  writes_done i sent σ σ' → writing i wd q src (to_i32 n) chunk rest σ.1 → message_at wd src n →
  len sent < len (chunk ++ rest) →
  σ'.2 = σ.2 ∧ ∃ chunk' rest', chunk ++ rest = sent ++ chunk' ++ rest' ∧ writing i wd q src (to_i32 n) chunk' rest' σ'.1.
Proof.
  intros Hd Hw Hmsg. induction Hd as [σ|sent σ s w σ' c chunk1 m Hd IH Hl Hm E]; intros Hlen.
  { split; [done|]. by exists chunk, rest. }
  assert (len (take (Z.to_nat m) chunk1) = m) as Etake by (unfold len in *; rewrite length_take; lia).
  destruct (IH Hw) as (Ew & chunk' & rest' & Eout & Hw'); [unfold len in *; rewrite length_app in Hlen; lia|].
  simpl in Ew, Hw'. assert (chunk' = chunk1) as ->.
  { destruct Hw' as [_ _ (c' & ? & _ & _ & _ & _ & Hl')]. rewrite Hl in Hl'. injection Hl' as Hl'. by symmetry. }
  pose proof (tls_handle_write_run (sq_req (posted_write i chunk1 c)) m s w wd q src n chunk1 rest' Hw' Hmsg Hm) as [Hmore _].
  rewrite (take_drop_rest chunk1 rest' m Hm) in Eout.
  destruct Hmore as (s' & chunk2 & rest2 & E' & Eleft & Hw2).
  { intros Enil. rewrite Eout, Enil, app_nil_r in Hlen. lia. }
  change (tls_event_handler wolf cb (sq_req (posted_write i chunk1 c)) m (s, w)) with
    (tls_handle_write wolf cb (sq_req (posted_write i chunk1 c)) m (s, w)) in E.
  rewrite E in E'. injection E' as ->. split; [done|]. exists chunk2, rest2. split; [|done].
  by rewrite Eout, Eleft, <-!app_assoc.
Qed.

End Protocol.

Lemma idle_emplace {Ssl} (ready : Ssl → Prop) i mk (s : server_base (tls_client Ssl)) q :
  idle ready i q s → ∃ s', emplace i mk s = Ok (tt, s') ∧ idle ready i (q ++ [mk (next_addr s)]) s'.
Proof.
  intros [Ha (c & session & Hv & Hq & Hs & Hr)]. pose proof (vget_range _ _ _ Hv). rewrite (emplace_run _ _ _ _ Hv).
  eexists. split; [done|]. split; [done|]. rewrite Hq.
  exists (cl_set_send_data (q ++ [mk (next_addr s)]) c), session. split_and!; [by apply vget_insert_eq|done..].
Qed.

Lemma message_at_vec {Ssl} b addr : 0 < len b < 2 ^ 31 → message_at (Ssl := Ssl) (write_data_vec b addr) (WOwn addr) (len b).
Proof. intros Hb. split_and!; try done. rewrite to_i32_small; lia. Qed.

(** Writing to an idle connection starts to send. *)
Lemma tls_write_connection_starts {Ssl} (wolf : wolfssl Ssl) ready pend i b s :
  write_protocol wolf ready pend → idle ready i [] s → 0 < len b < 2 ^ 31 →
  ∃ s1 chunk rest, tls_write_connection wolf i b s = Ok (tt, s1) ∧
    writing pend i (write_data_vec b (next_addr s)) [] (WOwn (next_addr s)) (to_i32 (len b)) chunk rest s1.
Proof.
  intros Hprot Hid Hb. destruct (idle_emplace ready i (write_data_vec b) s [] Hid) as (s1 & E1 & Hid1).
  destruct (message_at_vec (Ssl := Ssl) b (next_addr s) Hb) as (Hl & _ & Hn & _).
  destruct (wolfSSL_write_starts wolf ready pend Hprot i (WOwn (next_addr s)) (len b) s1 _ [] Hid1 Hl Hn)
    as (r & s2 & chunk & rest & E2 & Hw).
  destruct Hid1 as [_ (c & session & Hv & Hq & _)]. exists s2, chunk, rest. split; [|done].
  unfold tls_write_connection. rewrite (M_bind_run _ _ _ _ _ E1), (M_bind_run _ _ _ _ _ (send_front_run i s1 c _ [] Hv Hq)).
  rewrite (M_bind_run _ _ _ _ _ (send_size_run i s1 c Hv)), Hq. simpl. by rewrite (M_bind_run _ _ _ _ _ E2).
Qed.

(** [demo_wolf] works as documented. *)
Definition demo_ready (st : option (list char)) : Prop := st = None.
Definition demo_pend (st : option (list char)) (_ : write_src) (_ : Z) (chunk rest : list char) : Prop :=
  st = Some chunk ∧ rest = [] ∧ chunk ≠ [] ∧ (length chunk ≤ 4)%nat.

Lemma demo_emits src sz fuel : ∀ chunk,
  chunk ≠ [] → (length chunk ≤ S fuel)%nat → (fuel ≤ 3)%nat →
  emits demo_wolf demo_ready demo_pend src sz chunk [] (demo_emit fuel chunk sz).
Proof.
  induction fuel as [|fuel IH]; intros chunk Hne Hlen Hf; cbn [demo_emit].
  all: constructor; [done| | | |done].
  1, 4: exists (Some chunk); split; [done|split_and!; [done..|lia]].
  2, 4: intros _; exists None; split; [|done]; cbv beta; pose proof (len_nonneg chunk);
    by rewrite (proj2 (Z.ltb_ge _ _)), Z.leb_refl by lia.
  - intros n Hn. unfold len in Hn. lia.
  - intros n Hn. rewrite (proj2 (Z.ltb_ge _ _)), (proj2 (Z.leb_gt _ _)) by lia. unfold len in Hn. apply IH; [|rewrite length_drop; lia|lia].
    intros E. apply (f_equal length) in E. rewrite length_drop in E. simpl in E. lia.
Qed.

Lemma demo_protocol : write_protocol demo_wolf demo_ready demo_pend.
Proof.
  split.
  - intros st src sz -> _. exists demo_record, []. apply (demo_emits src sz 3); [done|simpl; lia|lia].
  - intros st src sz chunk rest (-> & -> & Hne & Hlen). by apply (demo_emits src sz 3).
Qed.

Lemma demo_idle : idle demo_ready 0 [] (demo_tls []).
Proof. split; [by apply elem_of_singleton|]. by do 2 eexists. Qed.

(** A program without callbacks. *)
Definition silent : callbacks (tls_client (option (list char))) unit :=
  {| accept_cb := None; close_cb := None; read_cb := None; write_cb := None; event_cb := None; custom_read_cb := None |}.

(** * Properties *)

(** C25: a message written over TLS reaches the connection whole and in order, when wolfSSL
    works as documented: however few bytes the kernel takes of each write, what it took so far is
    the beginning of what wolfSSL makes of the message, a write of what follows is
    submitted, and its completion goes on in silence, except for the one
    after which everything is sent: that takes the message off the queue and then
    reports it to the write callback. *)
Theorem tls_message_sent {Ssl W} (wolf : wolfssl Ssl) ready pend (cb : callbacks (tls_client Ssl) W) i b s (w : W) :
  write_protocol wolf ready pend → idle ready i [] s → 0 < len b < 2 ^ 31 →
  ∃ out s1, tls_write_connection wolf i b s = Ok (tt, s1) ∧ out ≠ [] ∧
    ∀ sent s2 w2, writes_done wolf cb i sent (s1, w) (s2, w2) → len sent < len out →
      w2 = w ∧ ∃ chunk (c : client (tls_client Ssl)), chunk ≠ [] ∧ last (ring s2) = Some (posted_write i chunk c) ∧ sent ++ chunk `prefix_of` out ∧
        ∀ m, 0 < m ≤ len chunk → ∃ s3,
          let completion := tls_event_handler wolf cb (sq_req (posted_write i chunk c)) m (s2, w2) in
          (sent ++ take (Z.to_nat m) chunk ≠ out → completion = Ok (tt, (s3, w))) ∧
          (sent ++ take (Z.to_nat m) chunk = out →
             completion = message_written wolf cb i (write_data_vec b (next_addr s)) (s3, w) ∧ idle ready i [] s3).
Proof.
  intros Hprot Hid Hb.
  destruct (tls_write_connection_starts wolf ready pend i b s Hprot Hid Hb) as (s1 & chunk0 & rest0 & E1 & Hw).
  pose proof (message_at_vec (Ssl := Ssl) b (next_addr s) Hb) as Hmsg. exists (chunk0 ++ rest0), s1. split_and!; [done| |].
  { pose proof (wr_chunk _ _ _ _ _ _ _ _ _ Hw). by destruct chunk0. }
  intros sent s2 w2 Hd Hlen.
  destruct (writes_done_writing wolf ready pend Hprot cb i sent _ _ _ [] _ (len b) chunk0 rest0 Hd Hw Hmsg Hlen)
    as (Ew & chunk & rest & Eout & Hw2). simpl in Ew, Hw2. subst w2.
  pose proof Hw2 as [Hne _ (c & _ & _ & _ & _ & _ & Hl)]. split; [done|]. exists chunk, c.
  split_and!; [done|done|by exists rest; rewrite <-app_assoc|]. intros m Hm.
  pose proof (tls_handle_write_run wolf ready pend Hprot cb (sq_req (posted_write i chunk c)) m s2 w _ [] _ (len b)
    chunk rest Hw2 Hmsg Hm) as [Hmore Hend].
  rewrite (take_drop_rest chunk rest m Hm), (app_assoc sent) in Eout. rewrite Eout. cbn [tls_event_handler rq_event posted_write sq_req prep_write].
  destruct (decide (drop (Z.to_nat m) chunk ++ rest = [])) as [Enil|Hleft].
  - destruct (Hend Enil) as (s3 & E & Hid3). exists s3. split; [|done]. intros Hn. destruct Hn. by rewrite Enil, app_nil_r.
  - destruct (Hmore Hleft) as (s3 & _ & _ & E & _). exists s3. split; [done|]. intros En. destruct Hleft.
    apply (app_inv_head (sent ++ take (Z.to_nat m) chunk)). by rewrite app_nil_r, <-En.
Qed.


Lemma tls_message_sent_witness :
  ∃ (out : list char) s1 chunk (c : client (tls_client (option (list char)))),
    tls_write_connection demo_wolf 0 (lit "hello") (demo_tls []) = Ok (tt, s1) ∧ out ≠ [] ∧
    last (ring s1) = Some (posted_write 0 chunk c) ∧ chunk `prefix_of` out.
Proof.
  destruct (tls_message_sent demo_wolf demo_ready demo_pend silent 0 (lit "hello") (demo_tls []) tt)
    as (out & s1 & E & Hne & Hrun); [exact demo_protocol|exact demo_idle|done|].
  destruct (Hrun [] s1 tt (Done_none _ _ _ _)) as (_ & chunk & c & _ & Hl & Hpre & _);
    [by destruct out|]. exists out, s1, chunk, c. split_and!; [exact E|exact Hne|exact Hl|exact Hpre].
Defined.
