(* ===== verification/Setup.v ===== *)
(** * Starting the servers

    The constructors of the servers and what a thread does before its event loop: the
    listening socket ([setup_listener]), the io_uring instance that shares the workers of
    the first one, the three reads every server starts with, the context of wolfSSL, and
    [thread_server_runner].  What the system calls return is an argument: of a socket call
    per address that [getaddrinfo] found, and of wolfSSL's functions on a context.

    The constructors hold a lock on what the threads share, so that each is one step on
    it: [shared_ring_fd] and the vector of servers (in Central.v). *)

From S2P Require Import Prelude CString Utility ServerBase NonTls Tls TlsProps WebBase Callbacks Config TcpServer.
From Stdlib Require Import ZArith Lia.
From stdpp Require Import base gmap strings list fin_maps.

#[local] Open Scope Z_scope.

(** ** The listening socket *)

(** The calls for one address: [socket], the two of [setsockopt], and [bind]. *)
Record attempt := { at_socket : Z; at_reuseaddr : Z; at_reuseport : Z; at_bind : Z }.

Record listen_env := { le_getaddrinfo : Z; le_addrs : list attempt; le_listen : Z }.

(** The loop over the addresses: the socket that was bound, and all that were opened. *)
Fixpoint try_addresses (addrs : list attempt) (opened : list Z) : result (option Z * list Z) :=
  match addrs with
  | [] => mret (None, opened)
  | a :: addrs =>
      if at_socket a =? -1 then fatal_error (lit "socket construction")
      else if at_reuseaddr a =? -1 then fatal_error (lit "setsockopt SO_REUSEADDR")
      else if at_reuseport a =? -1 then fatal_error (lit "setsockopt SO_REUSEPORT")
      else
        let opened := opened ++ [at_socket a] in
        if at_bind a =? -1 then try_addresses addrs opened
        else mret (Some (at_socket a), opened)
  end.

(** The listening socket, and the sockets left open. *)
Definition setup_listener (e : listen_env) : result (Z * list Z) :=
  if negb (le_getaddrinfo e =? 0) then fatal_error (lit "getaddrinfo")
  else
    try_addresses (le_addrs e) [] ≫= λ '(traverser, opened),
    match traverser with
    | None => fatal_error (lit "no socket made")
    | Some listener_fd =>
        if le_listen e =? -1 then fatal_error (lit "listen") else mret (listener_fd, opened)
    end.

(** ** The constructor of [server_base] *)

(** What the calls of one constructor return; [be_listen] depends on the port. *)
Record base_env := {
  be_ring_fd : Z;
  be_timerfd : Z;
  be_notification : Z;
  be_kill : Z;
  be_listen : Z → listen_env
}.

(** [io_uring_queue_init], or with the workers of [shared_ring_fd]: the descriptor in
    [params.wq_fd], and [shared_ring_fd] then. *)
Definition init_ring (shared_ring_fd ring_fd : Z) : option Z * Z :=
  if shared_ring_fd =? -1 then (None, ring_fd) else (Some shared_ring_fd, shared_ring_fd).

(** The members as they are initialised. *)
Definition blank_server {X} (e : base_env) : server_base X :=
  {| clients := []; active_connections := ∅; freed_indexes := ∅; ring := []; multi_heap := ∅;
     next_addr := 0; listener_fd := 0; timerfd := be_timerfd e; notification_efd := be_notification e;
     kill_efd := be_kill e; ran_server := false; is_active := true; closed := [];
     eventfd_writes := []; wire := [] |}.

Definition set_listener {X} (fd : Z) (s : server_base X) : server_base X :=
  {| clients := clients s; active_connections := active_connections s; freed_indexes := freed_indexes s;
     ring := ring s; multi_heap := multi_heap s; next_addr := next_addr s; listener_fd := fd;
     timerfd := timerfd s; notification_efd := notification_efd s; kill_efd := kill_efd s;
     ran_server := ran_server s; is_active := is_active s; closed := closed s;
     eventfd_writes := eventfd_writes s; wire := wire s |}.

(** The body of the constructor but for the ring itself. *)
Definition base_constructor {X} (e : base_env) (listen_port : Z) : M (server_base X) unit :=
  mget ≫= λ s, event_read (kill_efd s) KILL ≫= λ _,
  mget ≫= λ s, event_read (notification_efd s) NOTIFICATION ≫= λ _,
  mlift (setup_listener (be_listen e listen_port)) ≫= λ '(listener, _),
  mmodify (set_listener listener) ≫= λ _, add_timerfd_read_req.

(** A server, the descriptor of the workers it was attached to, and [shared_ring_fd]. *)
Definition construct_base {X} (shared_ring_fd : Z) (e : base_env) (listen_port : Z)
  : result (server_base X * option Z * Z) :=
  let '(wq, shared_ring_fd) := init_ring shared_ring_fd (be_ring_fd e) in
  base_constructor e listen_port (blank_server e) ≫= λ '(_, s), mret (s, wq, shared_ring_fd).

(** ** The constructors of [server] *)

(** Whether there is a new context, what loading a certificate chain and a key returns, and
    the library's constant [SSL_SUCCESS]. *)
Record wolf_ctx := {
  ctx_new : bool;
  ctx_chain : list char → Z;
  ctx_key : list char → Z;
  ssl_success : Z
}.

Definition tls_context (w : wolf_ctx) (fullchain_location pkey_location : list char) : result unit :=
  if negb (ctx_new w) then fatal_error (lit "Failed to create the WOLFSSL_CTX")
  else if negb (ctx_chain w fullchain_location =? ssl_success w)
  then fatal_error (lit "Failed to load the certificate files")
  else if negb (ctx_key w pkey_location =? ssl_success w)
  then fatal_error (lit "Failed to load the private key file")
  else mret tt.

(** The constructors take the callbacks and keep them for the event loop; what [custom_obj]
    points to has the type [W]. *)
Section Constructors.
Context {X W : Type}.
Abbreviation callback := (M (server_base X * W) unit).

Definition construct_server (shared_ring_fd : Z) (e : base_env) (listen_port : Z)
    (a_cb : option (Z → callback)) (c_cb : option (Z → Z → callback))
    (r_cb : option (Z → list char → Z → callback)) (w_cb : option (Z → Z → callback))
    (e_cb : option callback) (cr_cb : option (Z → Z → list char → callback))
  : result (server_base X * callbacks X W * option Z * Z) :=
  construct_base shared_ring_fd e listen_port ≫= λ '(s, wq, shared_ring_fd),
  mret (s, {| ServerBase.accept_cb := a_cb; ServerBase.close_cb := c_cb; ServerBase.read_cb := r_cb; ServerBase.write_cb := w_cb; ServerBase.event_cb := e_cb;
              ServerBase.custom_read_cb := cr_cb |}, wq, shared_ring_fd).

Definition construct_tls (shared_ring_fd : Z) (e : base_env) (w : wolf_ctx) (listen_port : Z)
    (fullchain_location pkey_location : list char)
    (a_cb : option (Z → callback)) (c_cb : option (Z → Z → callback))
    (r_cb : option (Z → list char → Z → callback)) (w_cb : option (Z → Z → callback))
    (e_cb : option callback) (cr_cb : option (Z → Z → list char → callback))
  : result (server_base X * callbacks X W * option Z * Z) :=
  construct_server shared_ring_fd e listen_port a_cb c_cb r_cb w_cb e_cb cr_cb ≫= λ r,
  tls_context w fullchain_location pkey_location ≫= λ _, mret r.
End Constructors.

(** ** The threads *)

(** What a thread constructs, and the map of settings when it is done: the arguments look
    settings up with [operator[]]. *)
Definition construct_plain_of (env : env) (m : config_map) (shared_ring_fd : Z) (e : base_env)
  : result (server_base unit * callbacks unit web_server * option Z * Z * config_map) :=
  let '(port, m) := map_index (lit "PORT") m in
  stoi port ≫= λ port,
  construct_server shared_ring_fd e port (Some accept_cb) (Some close_cb) (Some (read_cb env)) (Some write_cb)
    (Some (event_cb env)) (Some (custom_read_cb env)) ≫= λ r, mret (r, m).

Definition construct_tls_of {Ssl : Type} `{!ServerType (tls_client Ssl), !TcpServer (tls_client Ssl)} (env : env)
    (w : wolf_ctx) (m : config_map) (shared_ring_fd : Z) (e : base_env)
  : result (server_base (tls_client Ssl) * callbacks (tls_client Ssl) web_server * option Z * Z * config_map) :=
  let '(port, m) := map_index (lit "TLS_PORT") m in
  let '(fullchain, m) := map_index (lit "FULLCHAIN") m in
  let '(pkey, m) := map_index (lit "PKEY") m in
  stoi port ≫= λ port,
  construct_tls shared_ring_fd e w port fullchain pkey (Some accept_cb) (Some close_cb) (Some (read_cb env))
    (Some write_cb) (Some (event_cb env)) (Some (custom_read_cb env)) ≫= λ r, mret (r, m).

(** What follows the construction in [thread_server_runner], for the completions [es]. *)
Definition run_thread {X} `{!ServerType X} (cb : callbacks X web_server) mem (es : list cqe)
  : M (server_base X * web_server) bool :=
  set_tcp_server ≫= λ _, start cb mem es.

(** * Lemmas *)

(** The socket calls of an address all work, but for [bind]. *)
Definition refused (a : attempt) : Prop :=
  at_socket a ≠ -1 ∧ at_reuseaddr a ≠ -1 ∧ at_reuseport a ≠ -1 ∧ at_bind a = -1.
Definition accepted (a : attempt) : Prop :=
  at_socket a ≠ -1 ∧ at_reuseaddr a ≠ -1 ∧ at_reuseport a ≠ -1 ∧ at_bind a ≠ -1.

Lemma try_addresses_refused pre addrs : ∀ opened,
  Forall refused pre → try_addresses (pre ++ addrs) opened = try_addresses addrs (opened ++ (at_socket <$> pre)).
Proof.
  induction pre as [|a pre IH]; intros opened Hpre; [by rewrite app_nil_r|].
  apply Forall_cons in Hpre as [(H1 & H2 & H3 & H4) Hpre]. simpl.
  rewrite !(proj2 (Z.eqb_neq _ _)), H4, IH by done. by rewrite <-app_assoc.
Qed.

Lemma try_addresses_accepted a addrs opened :
  accepted a → try_addresses (a :: addrs) opened = Ok (Some (at_socket a), opened ++ [at_socket a]).
Proof. intros (H1 & H2 & H3 & H4). simpl. by rewrite !(proj2 (Z.eqb_neq _ _)). Qed.

(** Either an address is bound, or all are refused, or a call fails for good. *)
Lemma try_addresses_cases addrs : ∀ opened,
  (∃ pre a post, addrs = pre ++ a :: post ∧ Forall refused pre ∧ accepted a) ∨ Forall refused addrs ∨
  ∃ msg, try_addresses addrs opened = Err (FatalError msg).
Proof.
  induction addrs as [|a addrs IH]; intros opened; [by right; left|]. cbn [try_addresses].
  destruct (Z.eqb_spec (at_socket a) (-1)); [by right; right; eexists|].
  destruct (Z.eqb_spec (at_reuseaddr a) (-1)); [by right; right; eexists|].
  destruct (Z.eqb_spec (at_reuseport a) (-1)); [by right; right; eexists|].
  destruct (Z.eqb_spec (at_bind a) (-1)); [|by left; exists [], a, addrs].
  destruct (IH (opened ++ [at_socket a])) as [(pre & b & post & -> & Hp & Hb)|[Hall|Hfail]].
  - left. exists (a :: pre), b, post. split_and!; [done| |done]. by constructor.
  - right. left. by constructor.
  - by right; right.
Qed.

Lemma map_count_is_Some key m : map_count key m = true ↔ is_Some (m !! key).
Proof. apply bool_decide_eq_true. Qed.

Lemma map_index_present key m : map_count key m = true → map_index key m = ((map_index key m).1, m).
Proof. rewrite map_count_is_Some. unfold map_index. by intros [v ->]. Qed.

Lemma map_index_count key key' m : map_count key m = true → map_count key (map_index key' m).2 = true.
Proof.
  rewrite !map_count_is_Some. unfold map_index. intros [v Hv]. destruct (m !! key') eqn:E; simpl; [by exists v|].
  destruct (decide (key = key')) as [->|]; [by rewrite Hv in E|by rewrite lookup_insert_ne; [exists v|]].
Qed.

(** What the check lets through. *)
Lemma check_config_settings m :
  check_config m = Ok tt →
  (map_index (lit "TLS") m).1 = lit "yes" ∧ map_count (lit "FULLCHAIN") m = true ∧
    map_count (lit "PKEY") m = true ∧ map_count (lit "TLS_PORT") m = true ∨
  (map_index (lit "TLS") m).1 ≠ lit "yes" ∧ map_count (lit "PORT") m = true.
Proof.
  unfold check_config. case_bool_decide as Hyes.
  - destruct (map_count (lit "TLS") m) eqn:Et; cbn [andb].
    + destruct (map_count (lit "FULLCHAIN") m), (map_count (lit "PKEY") m), (map_count (lit "TLS_PORT") m);
        simpl; try discriminate. by left.
    + revert Hyes. unfold map_index. destruct (m !! lit "TLS") eqn:E; [|by intros].
      apply not_true_iff_false in Et. destruct Et. apply map_count_is_Some. by rewrite E.
  - rewrite andb_false_r. destruct (map_count (lit "PORT") m); simpl; [by right|discriminate].
Qed.

(** The settings the servers take from the map are there when the threads start. *)
Lemma started_settings f m tls n m' :
  start_server f m = Ok (tls, n, m') →
  if tls : bool then map_count (lit "FULLCHAIN") m' = true ∧ map_count (lit "PKEY") m' = true ∧ map_count (lit "TLS_PORT") m' = true
  else map_count (lit "PORT") m' = true.
Proof.
  unfold start_server. intros (m1 & _ & H)%result_bind_Ok. apply result_bind_Ok in H as ([] & Hc & H).
  apply result_bind_Ok in H as (num & _ & H). pose proof (map_index_count (lit "PORT") (lit "TLS") m1) as Hp.
  pose proof (map_index_count (lit "FULLCHAIN") (lit "TLS") m1) as Hf. pose proof (map_index_count (lit "PKEY") (lit "TLS") m1) as Hk.
  pose proof (map_index_count (lit "TLS_PORT") (lit "TLS") m1) as Ht.
  apply check_config_settings in Hc. destruct (map_index (lit "TLS") m1) as [v m2]. injection H as <- <- <-. simpl in *.
  destruct Hc as [(-> & Hf' & Hk' & Ht')|[Hv Hp']]; [rewrite bool_decide_true by done; auto|rewrite bool_decide_false by done; auto].
Qed.

(** The constructor makes the server the event loop starts with. *)
Lemma base_constructor_run {X} e port l opened :
  setup_listener (be_listen e port) = Ok (l, opened) →
  base_constructor e port (blank_server e) = Ok (tt, new_server (X := X) l (be_timerfd e) (be_notification e) (be_kill e)).
Proof.
  intros Hl. unfold base_constructor, mlift, mbind, M_bind. simpl. by rewrite Hl.
Qed.

Lemma construct_base_inv {X} sh e port (s : server_base X) wq sh' :
  construct_base sh e port = Ok (s, wq, sh') →
  (∃ l opened, setup_listener (be_listen e port) = Ok (l, opened) ∧
     s = new_server l (be_timerfd e) (be_notification e) (be_kill e)) ∧ (wq, sh') = init_ring sh (be_ring_fd e).
Proof.
  unfold construct_base. destruct (init_ring sh (be_ring_fd e)) as [wq0 sh0]. intros ([u s'] & E & H)%result_bind_Ok.
  injection H as <- <- <-. split; [|done]. destruct (setup_listener (be_listen e port)) as [[l opened]|f] eqn:El.
  - rewrite (base_constructor_run e port l opened El) in E. injection E as _ <-. by exists l, opened.
  - exfalso. revert E. unfold base_constructor, mlift, mbind, M_bind. simpl. by rewrite El.
Qed.

Lemma construct_server_inv {X W} sh e port a c r w ev cr (s : server_base X) (cb : callbacks X W) wq sh' :
  construct_server sh e port a c r w ev cr = Ok (s, cb, wq, sh') →
  (∃ l opened, setup_listener (be_listen e port) = Ok (l, opened) ∧
     s = new_server l (be_timerfd e) (be_notification e) (be_kill e)) ∧ (wq, sh') = init_ring sh (be_ring_fd e) ∧
  cb = {| ServerBase.accept_cb := a; ServerBase.close_cb := c; ServerBase.read_cb := r; ServerBase.write_cb := w;
          ServerBase.event_cb := ev; ServerBase.custom_read_cb := cr |}.
Proof.
  unfold construct_server. intros ([[s1 wq1] sh1] & H & [= <- <- <- <-])%result_bind_Ok.
  apply construct_base_inv in H as [H E]. by split_and!.
Qed.

Lemma construct_tls_inv {X W} sh e ctx port chain key a c r w ev cr (x : server_base X * callbacks X W * option Z * Z) :
  construct_tls sh e ctx port chain key a c r w ev cr = Ok x → construct_server sh e port a c r w ev cr = Ok x.
Proof.
  unfold construct_tls. intros (y & H & E)%result_bind_Ok. apply result_bind_Ok in E as (? & _ & E).
  by injection E as <-.
Qed.

(** The event loop of a thread runs with the callbacks of the web server. *)
Lemma constructed_callbacks env m sh e s cb wq sh' m' :
  construct_plain_of env m sh e = Ok (s, cb, wq, sh', m') → cb = web_callbacks env.
Proof.
  unfold construct_plain_of. destruct (map_index _ m) as [port m1]. intros (n & _ & H)%result_bind_Ok.
  apply result_bind_Ok in H as ([[[s1 cb1] wq1] sh1] & Hc & [= <- <- <- <- <-]).
  by apply construct_server_inv in Hc as (_ & _ & ->).
Qed.

(** * Properties *)

(** C37: the listening socket is the first address that can be bound: sockets that cannot be bound
    are passed over, and left open; when no address can be bound, [getaddrinfo] or
    [listen] fails, or a socket cannot be made or set up, the program ends with a fatal
    error. *)
Theorem listens_on_first_address e :
  (∀ fd opened, setup_listener e = Ok (fd, opened) ↔
     le_getaddrinfo e = 0 ∧ le_listen e ≠ -1 ∧ ∃ pre a post, le_addrs e = pre ++ a :: post ∧
       Forall refused pre ∧ accepted a ∧ fd = at_socket a ∧ opened = (at_socket <$> pre) ++ [fd]) ∧
  ((∃ r, setup_listener e = Ok r) ∨ ∃ msg, setup_listener e = Err (FatalError msg)).
Proof.
  assert (∀ pre a post, le_addrs e = pre ++ a :: post → Forall refused pre → accepted a →
    try_addresses (le_addrs e) [] = Ok (Some (at_socket a), (at_socket <$> pre) ++ [at_socket a])) as Hrun.
  { intros pre a post -> Hpre Ha. by rewrite try_addresses_refused, try_addresses_accepted. }
  unfold setup_listener. destruct (Z.eqb_spec (le_getaddrinfo e) 0) as [->|Hg]; simpl.
  2: { split; [|by right; eexists]. intros fd opened. split; [done|by intros [? _]]. }
  destruct (try_addresses_cases (le_addrs e) []) as [(pre & a & post & E & Hpre & Ha)|[Hall|[msg E]]].
  - rewrite (Hrun pre a post E Hpre Ha). simpl. destruct (Z.eqb_spec (le_listen e) (-1)) as [->|Hl].
    + split; [|by right; eexists]. intros fd opened. split; [done|by intros (_ & ? & _)].
    + split; [|by left; eexists]. intros fd opened. split.
      * intros [= <- <-]. split_and!; [done|done|]. by exists pre, a, post.
      * intros (_ & _ & pre' & a' & post' & E' & Hpre' & Ha' & -> & ->).
        pose proof (Hrun pre a post E Hpre Ha) as H1. rewrite (Hrun pre' a' post' E' Hpre' Ha') in H1.
        by injection H1 as -> ->.
  - assert (try_addresses (le_addrs e) [] = Ok (None, [] ++ (at_socket <$> le_addrs e))) as ->.
    { rewrite <-(app_nil_r (le_addrs e)) at 1. by rewrite try_addresses_refused. }
    simpl. split; [|by right; eexists]. intros fd opened. split; [done|].
    intros (_ & _ & pre & a & post & E & _ & (_ & _ & _ & Ha) & _). rewrite E in Hall.
    apply Forall_app in Hall as [_ [(_ & _ & _ & ?) _]%Forall_cons]. by destruct Ha.
  - rewrite E. simpl. split; [|by right; eexists]. intros fd opened. split; [done|].
    intros (_ & _ & pre & a & post & E' & Hpre & Ha & _). by rewrite (Hrun pre a post E' Hpre Ha) in E.
Qed.

(** The threads only read the settings they share: every setting that the construction of a
    server looks up with [operator[]], which adds what is not there, was checked by
    [start_server] before the threads were started. *)
Theorem threads_only_read_config {Ssl} `{!ServerType (tls_client Ssl), !TcpServer (tls_client Ssl)} f m tls n m' :
  start_server f m = Ok (tls, n, m') →
  (tls = false → ∀ env sh e r m'', construct_plain_of env m' sh e = Ok (r, m'') → m'' = m') ∧
  (tls = true → ∀ env w sh e r m'', construct_tls_of (Ssl := Ssl) env w m' sh e = Ok (r, m'') → m'' = m').
Proof.
  intros H. apply started_settings in H. split; intros ->; cbv iota in H.
  - intros env sh e r m''. unfold construct_plain_of. rewrite (map_index_present _ _ H).
    intros (p & _ & H1)%result_bind_Ok. apply result_bind_Ok in H1 as (r' & _ & H1). by injection H1.
  - destruct H as (Hf & Hk & Ht). intros env w sh e r m''. unfold construct_tls_of.
    rewrite (map_index_present _ _ Ht), (map_index_present _ _ Hf), (map_index_present _ _ Hk).
    intros (p & _ & H1)%result_bind_Ok. apply result_bind_Ok in H1 as (r' & _ & H1). by injection H1.
Qed.

Lemma threads_only_read_config_witness :
  let f := demo_file (write_settings readme_settings) in
  ∃ m', start_server f ∅ = Ok (true, 10, m') ∧
    ∀ env w sh e r m'',
      @construct_tls_of _ (tls_server demo_wolf) (tls_tcp demo_wolf) env w m' sh e = Ok (r, m'') → m'' = m'.
Proof.
  intros f. destruct (start_server f ∅) as [[[tls n] m']|] eqn:E; [|exfalso; vm_compute in E; discriminate E].
  assert (tls = true ∧ n = 10) as [-> ->].
  { assert ((λ r, r.1) <$> start_server f ∅ = Ok (true, 10)) as H by (vm_compute; reflexivity).
    rewrite E in H. by injection H. }
  exists m'. split; [reflexivity|]. exact (proj2 (@threads_only_read_config _ (tls_server demo_wolf) (tls_tcp demo_wolf) f ∅ true 10 m' E) eq_refl).
Defined.

(** The servers of a program share the workers of the first one's ring, and each starts as the
    server that the theorems on the event loop start from. *)
Theorem servers_share_workers {X} e1 p1 (s1 : server_base X) wq1 sh1 e2 p2 (s2 : server_base X) wq2 sh2 :
  construct_base (-1) e1 p1 = Ok (s1, wq1, sh1) → be_ring_fd e1 ≠ -1 →
  construct_base sh1 e2 p2 = Ok (s2, wq2, sh2) →
  wq1 = None ∧ wq2 = Some (be_ring_fd e1) ∧ sh2 = sh1 ∧
  ∃ l1 l2, s1 = new_server l1 (be_timerfd e1) (be_notification e1) (be_kill e1) ∧
    s2 = new_server l2 (be_timerfd e2) (be_notification e2) (be_kill e2).
Proof.
  intros H1 Hfd H2. apply construct_base_inv in H1 as ((l1 & o1 & _ & ->) & [= -> ->]).
  apply construct_base_inv in H2 as ((l2 & o2 & _ & ->) & H2). revert H2. unfold init_ring.
  rewrite (proj2 (Z.eqb_neq _ _)) by done. intros [= -> ->]. split_and!; [done..|]. by exists l1, l2.
Qed.
