(* ===== verification/Serve.v ===== *)
(** * A request from its arrival to the closed connection

    The event loop of the plain server with the callbacks of the web server: the request
    arrives, the file is read in pieces, the response goes out in partial writes, and the
    connection is closed.  The lemmas give the effect of one completion on the
    state of the connection; Serve.v needs no invariant of the other connections but
    that the addresses of their queued writes are not used again. *)

From S2P Require Import Prelude Bytes Utility CString WsFrame Cache ServerBase NonTls NonTlsLoop NonTlsProps TcpServer WebBase WebSockets Http Callbacks WsProps FileProps.
From Stdlib Require Import ZArith Lia.
From stdpp Require Import base gmap strings list fin_maps sets.

#[local] Open Scope Z_scope.

(** ** Requests and completions *)

(** A completed read or write, at position [pos] of the requests in progress. *)
Definition io_done (pos : nat) (res : Z) (data : list char) : cqe :=
  {| cq_wait := 0; cq_pos := pos; cq_res := res; cq_data := data; cq_peek := λ _, -1; cq_iter := elements |}.

(** [q] is the read submitted for connection [k], which is [c]. *)
Record read_req_of (k : Z) (c : client unit) (q : sqe) : Prop := {
  rr_op : sq_op q = IoRead;
  rr_off : sq_buf_off q = 0;
  rr_event : rq_event (sq_req q) = READ;
  rr_idx : rq_client_idx (sq_req q) = k;
  rr_ID : rq_ID (sq_req q) = cl_id c;
  rr_data : rq_read_data (sq_req q) = replicate (Z.to_nat READ_SIZE) nul
}.

(** The write of a message of [total] bytes at [src], after [off] of them. *)
Definition part_sqe (k : Z) (c : client unit) (src : write_src) (total off : Z) : sqe :=
  prep_write (cl_sockfd c) src off (to_u32 (total - off))
    {| rq_event := WRITE; rq_client_idx := k; rq_ID := cl_id c; rq_written := off;
       rq_total_length := total; rq_buffer := Some src; rq_read_data := []; rq_read_amount := 0;
       rq_custom_info := 0 |}.

(** Connection [k] has one message to write, of which [off] bytes are written; [r] are the
    other requests. *)
Record write_state (k : Z) (c : client unit) (wd : write_data) (total off : Z) (r : list sqe) (s : srv) : Prop := {
  ws_client : vget (clients s) k = Ok c;
  ws_queue : send_data c = [wd];
  ws_reqs : num_write_reqs c = 1;
  ws_active : k ∈ active_connections s;
  ws_plain : wd_multi wd = None ∧ wd_broadcast wd = false;
  ws_ring : ring s = r ++ [part_sqe k c (wd_src wd) total off]
}.

(** [bytes] were written to descriptor [fd]. *)
Definition put_wire (fd : Z) (bytes : list char) (s : srv) : srv :=
  srv_obs (ran_server s) (is_active s) (closed s) (eventfd_writes s) (wire s ++ [(fd, bytes)]) s.

(** Everything else of the server, and of the other connections, stays. *)
Record serves_only (k : Z) (c' : client unit) (r : list sqe) (s s' : srv) : Prop := {
  vo_clients : clients s' = <[Z.to_nat k := c']> (clients s);
  vo_active : active_connections s' = active_connections s;
  vo_freed : freed_indexes s' = freed_indexes s;
  vo_closed : closed s' = closed s;
  vo_ring : ring s' = r
}.

Section Writes.
Context {W : Type}.
Variable cb : callbacks unit W.
Variable mem : W → char_ptr → result (list char).

Lemma loop_app es1 es2 s (w : W) :
  loop cb mem (es1 ++ es2) (s, w) = (loop cb mem es1 ≫= λ go : bool, if go then loop cb mem es2 else mret false) (s, w).
Proof.
  revert s w. induction es1 as [|x es IH]; intros s w; [done|]. cbn [app loop]. unfold mbind, M_bind.
  destruct (loop_step cb mem x (s, w)) as [[[] [s1 w1]]|]; [apply IH|done..].
Qed.

Lemma kernel_write s (w : W) q n data b src :
  sq_op q = IoWrite → sq_src q = Some src → src_bytes mem s w src = Ok b →
  0 < n → 0 ≤ sq_buf_off q → sq_buf_off q + n ≤ len b →
  kernel_io mem q n data (s, w) =
    Ok (sq_req q, (put_wire (sq_fd q) (take (Z.to_nat n) (drop (Z.to_nat (sq_buf_off q)) b)) s, w)).
Proof.
  intros Hop Hsrc Hb Hn Hoff Hle. unfold kernel_io. rewrite (proj2 (Z.leb_gt _ _)), Hop, Hsrc, Hb by done.
  assert (vslice b (sq_buf_off q) n = Ok (take (Z.to_nat n) (drop (Z.to_nat (sq_buf_off q)) b))) as E
    by (apply vslice_Ok; split_and!; [lia..|done]).
  simpl. by rewrite E.
Qed.

Lemma get_part_run wd (s : srv) : wd_multi wd = None → ∃ n, get_ptr_and_size wd s = Ok ((wd_src wd, n), s).
Proof. intros H. unfold get_ptr_and_size, wd_src. rewrite H. case_decide; by eexists. Qed.

(** The round up to the handler. *)
Lemma write_round k c wd total off r s (w : W) n b :
  write_state k c wd total off r s → src_bytes mem s w (wd_src wd) = Ok b → len b = total →
  0 ≤ off → 0 < n → off + n ≤ total →
  loop_step cb mem (io_done (length r) n []) (s, w) =
    ((if unfinished (sq_req (part_sqe k c (wd_src wd) total off)) n
      then on_server (add_write_req_continued (sq_req (part_sqe k c (wd_src wd) total off)) n) ≫= λ rc,
           (if rc =? 0 then mret tt else mfault NullDeref)
      else on_server (write_done (sq_req (part_sqe k c (wd_src wd) total off))) ≫= λ info,
           call (ServerBase.write_cb cb) (λ f, f k info)) ≫= λ _, mret true)
      (put_wire (cl_sockfd c) (take (Z.to_nat n) (drop (Z.to_nat off) b)) (set_ring r s), w).
Proof.
  intros [Hv Hq Hnum Ha _ Hr] Hb Hlen Hoff Hn Hle. set (q := part_sqe k c (wd_src wd) total off).
  rewrite (loop_step_take cb mem (io_done (length r) n []) s w q) by
    (done || (rewrite Hr; simpl; by rewrite lookup_app_r, Nat.sub_diag by lia)).
  cbn [io_done cq_pos cq_res cq_data]. rewrite Hr, delete_middle, app_nil_r.
  rewrite (M_bind_run _ _ _ _ _ (kernel_write (set_ring r s) w q n [] b (wd_src wd) eq_refl eq_refl Hb Hn Hoff ltac:(simpl; lia))).
  by rewrite (write_event_run cb _ w q k c (io_done (length r) n [])).
Qed.

(** Some bytes are left: they are submitted again. *)
Lemma write_part k c wd total off r s (w : W) n b :
  write_state k c wd total off r s → src_bytes mem s w (wd_src wd) = Ok b → len b = total →
  total < 2 ^ 32 → 0 ≤ off → 0 < n → off + n < total →
  let s' := set_ring (r ++ [part_sqe k c (wd_src wd) total (off + n)])
              (put_wire (cl_sockfd c) (take (Z.to_nat n) (drop (Z.to_nat off) b)) (set_ring r s)) in
  loop_step cb mem (io_done (length r) n []) (s, w) = Ok (true, (s', w)) ∧
  write_state k c wd total (off + n) r s'.
Proof.
  intros Hs Hb Hlen Hmax Hoff Hn Hlt s'. split; [|by destruct Hs].
  rewrite (write_round k c wd total off r s w n b Hs Hb Hlen Hoff Hn) by lia.
  unfold unfinished. cbn [part_sqe prep_write sq_req rq_written rq_total_length].
  rewrite to_u64_small, (proj2 (Z.ltb_lt (n + off) total)), (proj2 (Z.ltb_lt 0 n)) by lia. cbn [andb].
  set (s1 := put_wire _ _ _) in *. destruct Hs as [Hv Hq _ _ [Hm _] _].
  set (req := {| rq_event := WRITE |}).
  assert (add_write_req_continued req n s1 = Ok (0, s')) as E.
  { unfold add_write_req_continued. change (rq_client_idx req) with k.
    rewrite (M_bind_run _ _ s1 c s1) by by apply get_client_run.
    rewrite (M_bind_run _ _ s1 wd s1) by by apply (send_front_run k s1 c wd []).
    destruct (get_part_run wd s1 Hm) as [m Em]. by rewrite (M_bind_run _ _ _ _ _ Em). }
  unfold mbind at 1, M_bind at 1. by rewrite (on_server_bind _ _ s1 w _ _ E).
Qed.

(** The last bytes are written: the message leaves the queue and the callback runs. *)
Lemma write_last k c wd total off r s (w : W) n b :
  write_state k c wd total off r s → src_bytes mem s w (wd_src wd) = Ok b → len b = total →
  total < 2 ^ 32 → 0 ≤ off → 0 < n → off + n = total →
  ∃ s', loop_step cb mem (io_done (length r) n []) (s, w) =
      (call (ServerBase.write_cb cb) (λ f, f k (-1)) ≫= λ _, mret true) (s', w) ∧
    serves_only k (cl_set_send_data [] (cl_set_num_write_reqs 0 c)) r s s' ∧
    wire s' = wire s ++ [(cl_sockfd c, drop (Z.to_nat off) b)].
Proof.
  intros Hs Hb Hlen Hmax Hoff Hn Heq. rewrite (write_round k c wd total off r s w n b Hs Hb Hlen Hoff Hn) by lia.
  unfold unfinished. cbn [part_sqe prep_write sq_req rq_written rq_total_length].
  rewrite to_u64_small, (proj2 (Z.ltb_ge (n + off) total)) by lia. cbn [andb].
  set (req := {| rq_event := WRITE |}). set (s1 := put_wire _ _ _).
  destruct Hs as [Hv Hq Hnum Ha [Hm Hbc] Hr]. pose proof (vget_range _ _ _ Hv) as Hrange.
  set (c1 := cl_set_num_write_reqs 0 c). set (s2 := set_clients (<[Z.to_nat k := c1]> (clients s1)) s1).
  assert (vget (clients s2) k = Ok c1) as Hv2 by by apply vget_insert_eq.
  set (c2 := cl_set_send_data [] c1). set (s3 := set_clients (<[Z.to_nat k := c2]> (clients s2)) s2).
  assert (vget (clients s3) k = Ok c2) as Hv3 by (apply vget_insert_eq; by apply vget_range in Hv2).
  assert (write_done req s1 = Ok (-1, s3)) as E.
  { unfold write_done. change (rq_client_idx req) with k. change (rq_ID req) with (cl_id c).
    rewrite (M_bind_run _ _ s1 tt s2) by
      (rewrite (upd_client_run k _ s1 c) by done; by rewrite Hnum).
    rewrite (M_bind_run _ _ _ _ _ (get_client_run k s2 c1 Hv2)), (M_bind_run _ _ s2 s2 s2) by done.
    rewrite bool_decide_true, Z.eqb_refl by done. cbn [andb].
    rewrite (M_bind_run _ _ _ _ _ (send_front_run k s2 c1 wd [] Hv2 Hq)).
    rewrite (M_bind_run _ _ s2 tt s3).
    2: { unfold send_pop. rewrite (M_bind_run _ _ _ _ _ (get_client_run k s2 c1 Hv2)).
         change (send_data c1) with (send_data c). rewrite Hq.
         rewrite (M_bind_run _ _ _ _ _ (upd_client_run k _ s2 c1 Hv2)). unfold destroy_write_data. by rewrite Hm. }
    rewrite (M_bind_run _ _ _ _ _ (queue_size_run k s3 c2 Hv3)). unfold additional_info. by rewrite Hbc. }
  exists s3. split; [|split].
  - unfold mbind at 1, M_bind at 1. rewrite (on_server_bind _ _ s1 w _ _ E). done.
  - split; [|done..]. simpl. by rewrite list_insert_insert_eq.
  - simpl. do 3 f_equal. rewrite take_ge; [done|]. rewrite length_drop. unfold len in *. lia.
Qed.

(** All the writes of a message. *)
Lemma writes_all k wd total r (w : W) b ns : ∀ c off s,
  write_state k c wd total off r s → src_bytes mem s w (wd_src wd) = Ok b → len b = total →
  total < 2 ^ 32 → 0 ≤ off → Forall (λ n, 0 < n) ns → ns ≠ [] → off + foldr Z.add 0 ns = total →
  ∃ s' new, loop cb mem ((λ n, io_done (length r) n []) <$> ns) (s, w) =
      (call (ServerBase.write_cb cb) (λ f, f k (-1)) ≫= λ _, mret true) (s', w) ∧
    serves_only k (cl_set_send_data [] (cl_set_num_write_reqs 0 c)) r s s' ∧
    wire s' = wire s ++ new ∧ Forall (λ x, x.1 = cl_sockfd c) new ∧ concat (new.*2) = drop (Z.to_nat off) b.
Proof.
  induction ns as [|n ns IH]; intros c off s Hs Hb Hlen Hmax Hoff Hpos Hne Hsum; [done|].
  apply Forall_cons in Hpos as [Hn Hpos]. cbn [foldr] in Hsum. cbn [fmap list_fmap loop].
  destruct (decide (ns = [])) as [->|Hne'].
  - destruct (write_last k c wd total off r s w n b Hs Hb Hlen Hmax Hoff Hn) as (s' & E & Hs' & Hw); [simpl in Hsum; lia|].
    exists s', [(cl_sockfd c, drop (Z.to_nat off) b)]. split_and!; [|done|done|by repeat constructor|simpl; by rewrite app_nil_r].
    unfold mbind at 1, M_bind at 1. rewrite E. unfold mbind, M_bind. by destruct (call _ _ _) as [[[] ?]|].
  - assert (0 < foldr Z.add 0 ns) as Hrest.
    { destruct ns as [|m ns]; [done|]. apply Forall_cons in Hpos as [Hm Hpos]. simpl.
      enough (0 ≤ foldr Z.add 0 ns) by lia. clear -Hpos. induction Hpos; simpl; lia. }
    destruct (write_part k c wd total off r s w n b Hs Hb Hlen Hmax Hoff Hn ltac:(lia)) as [E Hs1].
    set (s1 := set_ring (r ++ _) _) in *. rewrite (M_bind_run _ _ _ _ _ E). cbv iota.
    destruct (IH c (off + n) s1 Hs1 Hb Hlen Hmax ltac:(lia) Hpos Hne' ltac:(lia)) as (s' & new & E' & Hs' & Hw & Hfd & Hcat).
    exists s', ((cl_sockfd c, take (Z.to_nat n) (drop (Z.to_nat off) b)) :: new).
    split_and!; [exact E'|by destruct Hs'; split| |by constructor|].
    + rewrite Hw. simpl. by rewrite <-app_assoc.
    + rewrite fmap_cons. cbn [concat snd]. rewrite Hcat. rewrite <-(take_drop (Z.to_nat n) (drop (Z.to_nat off) b)) at 2.
      rewrite drop_drop. do 2 f_equal. lia.
Qed.

(** A message for a connection without others is submitted. *)
Lemma enqueue_starts k mk src n s c :
  let wd := mk (next_addr s) in
  vget (clients s) k = Ok c → send_data c = [] → num_write_reqs c = 0 → k ∈ active_connections s →
  wd_src wd = src → wd_multi wd = None → wd_broadcast wd = false → 0 ≤ n < 2 ^ 32 →
  ∃ s' c', enqueue k mk src n s = Ok (tt, s') ∧ write_state k c' wd n 0 (ring s) s' ∧
    serves_only k c' (ring s') s s' ∧ wire s' = wire s ∧ cl_sockfd c' = cl_sockfd c.
Proof.
  intros wd Hv Hq Hnum Ha Hsrc Hm Hb Hn. pose proof (vget_range _ _ _ Hv) as Hr. unfold enqueue.
  rewrite (M_bind_run _ _ _ _ _ (emplace_run k mk s c Hv)). fold wd.
  set (c1 := cl_set_send_data (send_data c ++ [wd]) c). set (s1 := srv_set _ _ _ _ _ _ s).
  assert (vget (clients s1) k = Ok c1) as Hv1 by by apply vget_insert_eq.
  rewrite (M_bind_run _ _ _ _ _ (queue_size_run k s1 c1 Hv1)). subst c1. rewrite Hq in *. cbn [app].
  set (c1 := cl_set_send_data [wd] c) in *. change (len (send_data c1) =? 1) with true. simpl mwhen.
  rewrite (M_bind_run _ _ _ _ _ (add_write_req_run k src n s1 c1 Hv1)).
  eexists _, (cl_set_num_write_reqs (num_write_reqs c1 + 1) c1). split; [done|].
  assert (0 ≤ k < len (clients s1)) as Hr1 by (simpl; by rewrite len_insert).
  split_and!; [split|split|done|done]; try done.
  - by apply vget_insert_eq.
  - simpl. lia.
  - simpl. unfold write_sqe, part_sqe. by rewrite Hsrc, Z.sub_0_r, to_u32_small by lia.
  - simpl. by rewrite list_insert_insert_eq.
Qed.

(** A buffer of its own is found at its address. *)
Lemma own_bytes k c c' wd (cls : list (client unit)) :
  vget cls k = Ok c → send_data c = [] → send_data c' = [wd] →
  (∀ x, x ∈ concat (send_data <$> cls) → wd_addr x < wd_addr wd) →
  queued_bytes (<[Z.to_nat k := c']> cls) (wd_addr wd) = Some (wd_buff wd).
Proof.
  intros Hv Hq Hq' Hlt. destruct (queued_update cls k c Hv) as (rest & Hp & Hp'). rewrite Hq in Hp. simpl in Hp.
  specialize (Hp' c'). rewrite Hq' in Hp'. unfold queued_bytes.
  assert (filter (λ x, wd_addr x = wd_addr wd) (concat (send_data <$> <[Z.to_nat k := c']> cls)) = [wd]) as ->; [|done].
  apply Permutation_singleton_r. rewrite Hp'. simpl. rewrite filter_cons_True by done. apply Permutation_skip.
  assert (filter (λ x, wd_addr x = wd_addr wd) rest = []) as ->; [|done].
  assert (∀ x, x ∈ rest → wd_addr x ≠ wd_addr wd) as Hne by (intros x Hx; pose proof (Hlt x); rewrite Hp in *; naive_solver lia).
  clear -Hne. induction rest as [|x rest IH]; [done|]. rewrite filter_cons_False by (apply Hne; set_solver).
  apply IH. intros y Hy. apply Hne. set_solver.
Qed.
End Writes.

(** ** The callbacks of the web server *)

Section Web.
Variable e : env.
Variable store : Z → result (list char).
Abbreviation cbs := (web_callbacks (X := unit) e).
Abbreviation wmem := (web_mem store).
Implicit Types (s : srv) (w : web_server).

(** The request arrives. *)
Lemma request_round s w p q k c text :
  vget (clients s) k = Ok c → ring s !! p = Some q → read_req_of k c q → 0 < len text < READ_SIZE →
  loop_step cbs wmem (io_done p (len text) text) (s, w) =
    (read_cb e k (text ++ nul :: replicate (Z.to_nat (READ_SIZE - len text - 1)) nul) (len text) ≫= λ _, mret true)
      (set_clients (<[Z.to_nat k := cl_set_read_req_active false c]> (clients s)) (set_ring (delete p (ring s)) s), w).
Proof.
  intros Hv Hp [Hop Hoff Hev Hidx HID Hdata] Hlen.
  rewrite (loop_step_take cbs wmem (io_done p (len text) text) s w q) by done.
  set (s1 := set_ring _ s). cbn [io_done cq_res cq_data].
  set (d := text ++ nul :: _).
  rewrite (M_bind_run _ _ (s1, w) (rq_set_read_data d (sq_req q)) (s1, w)).
  2: { unfold kernel_io. rewrite (proj2 (Z.leb_gt _ _)), Hop, Hoff, Hdata by lia.
       rewrite (replicate_split_at (length text)) by (unfold len, READ_SIZE in *; lia).
       pose proof (vsplice_app [] (replicate (length text) nul)
         (replicate (Z.to_nat READ_SIZE - length text) nul) text 0) as E. rewrite !app_nil_l in E.
       rewrite E by (done || by rewrite length_replicate). simpl. do 4 f_equal. unfold d. f_equal.
       replace (Z.to_nat READ_SIZE - length text)%nat with (S (Z.to_nat (READ_SIZE - len text - 1)))
         by (unfold len, READ_SIZE in *; lia). done. }
  unfold handle_event. change (rq_event (rq_set_read_data d (sq_req q))) with (rq_event (sq_req q)).
  rewrite (M_bind_run _ _ (s1, w) false (s1, w)).
  2: { unfold failed_or_stale. cbn [rq_set_read_data rq_event rq_client_idx rq_ID]. rewrite Hev, Hidx, HID.
       cbn [is_client_event negb io_done cq_res]. rewrite (proj2 (Z.leb_gt _ _)) by lia. destruct (0 <? k); [|done].
       by rewrite (on_server_bind _ _ _ _ _ _ (get_client_run k s1 c Hv)), Z.eqb_refl. }
  cbv iota. rewrite Hev. simpl req_event_handler. unfold non_tls_event_handler. cbn [rq_set_read_data rq_event].
  rewrite Hev. unfold handle_read. cbn [rq_set_read_data rq_client_idx rq_read_data]. rewrite Hidx.
  unfold mbind at 1, M_bind at 1. rewrite (on_server_bind _ _ s1 w _ _ (upd_client_run k _ s1 c Hv)).
  cbn [io_done cq_res]. by rewrite to_u32_small by (unfold READ_SIZE in *; lia).
Qed.

(** The response is written: the connection ends. *)
Lemma write_cb_closes s w k t cache' c :
  vget (tcp_clients w) k = Ok t → tcp_server_set w = true →
  tc_ws_client_idx t ∉ all_websocket_connections (web_sockets w) →
  finished_with_item k t (web_cache w) = Ok (set_using_file false t, cache') →
  vget (clients s) k = Ok c → send_data c = [] → num_write_reqs c = 0 →
  ∃ s', write_cb (X := unit) k (-1) (s, w) = Ok (tt, (s', killed k t cache' w)) ∧
    clients s' = clients s ∧ active_connections s' = active_connections s ∖ {[k]} ∧
    freed_indexes s' = {[k]} ∪ freed_indexes s ∧ closed s' = closed s ++ [cl_sockfd c] ∧ wire s' = wire s ∧
    ring s' = ring s.
Proof.
  intros Hv Hset Hws Hfin Hc Hq Hnum. unfold write_cb, broadcast_done. change (negb (-1 =? -1)) with false. simpl mwhen.
  rewrite (M_bind_run _ _ (s, w) tt (s, w)) by done.
  rewrite (M_bind_run _ _ (s, w) false (s, w)).
  2: { unfold websocket_process_write_cb. rewrite (on_web_bind _ _ _ _ t w) by by apply get_tcp_client_run.
       cbv zeta. rewrite (on_web_bind _ _ _ _ w w) by done. by rewrite bool_decide_false. }
  simpl mwhen. unfold web_close_connection.
  rewrite (on_web_bind _ _ _ _ _ _ (kill_client_run k w t cache' Hv Hfin)).
  set (s1 := set_active (active_connections s ∖ {[k]}) s).
  eexists. split.
  - apply on_tcp_run; [exact Hset|]. unfold ServerBase.close_connection, non_tls, close_connection.
    rewrite (M_bind_run _ _ _ _ _ (get_client_run k s c Hc)), Hnum. simpl mwhen.
    rewrite (M_bind_run _ _ s tt s1) by done.
    assert (send_clear k s1 = Ok (tt, s1)) as E by by apply (send_clear_nil k s1 c).
    rewrite (M_bind_run _ _ _ _ _ E). done.
  - by split_and!.
Qed.

(** ** The file was read *)

(** What is left of the web server when the response for [k] is queued. *)
Record responded (k fd : Z) (t : tcp_client) (w w' : web_server) : Prop := {
  rs_set : tcp_server_set w' = true;
  rs_sockets : web_sockets w' = web_sockets w;
  rs_fd : fd ∉ open_fds w';
  rs_client : ∃ t' cache', vget (tcp_clients w') k = Ok t' ∧ tc_ws_client_idx t' = tc_ws_client_idx t ∧
    finished_with_item k t' (web_cache w') = Ok (set_using_file false t', cache')
}.

Lemma finish_cached k t i c data :
  client_idx_to_cache_idx c !! k = Some i → content c i = Ok data →
  ∃ c', finished_with_item k (set_using_file true t) c = Ok (set_using_file false (set_using_file true t), c').
Proof.
  intros Hm Hc. unfold finished_with_item. simpl. rewrite Hm. simpl. unfold content in Hc.
  destruct (vget (cache_buffer c) i) as [it|] eqn:Hv; [|done].
  erewrite upd_item_run; [|exact Hv]. by eexists.
Qed.

(** The request, and the pieces of its file, up to the callback. *)
Lemma request_read k path tail more text p q pieces es s w c fd n line t N o l :
  get_text path tail more text → 16 ≤ len text < READ_SIZE → vget (clients s) k = Ok c →
  ring s !! p = Some q → read_req_of k c q → tcp_server_set w = true → vget (tcp_clients w) k = Ok t →
  k ∉ active_websocket_connections_client_idxs (web_sockets w) → cache_rel N (web_cache w) o l →
  filepath_to_cache_idx (web_cache w) !! public_path path = None → n = len (concat pieces) →
  file_opens e w (public_path path) fd n line → pieces ≠ [] → Forall piece_ok pieces →
  let headers := response_headers 200 (wants_bytes path tail more) false line (to_string n) in
  n + len headers < 2 ^ 63 →
  let r := delete p (ring s) in
  let s1 := set_clients (<[Z.to_nat k := cl_set_read_req_active false c]> (clients s)) (set_ring r s) in
  loop cbs wmem (io_done p (len text) text :: file_cqes (length r) pieces ++ es) (s, w) =
    (custom_read_cb e k fd (headers ++ concat pieces) ≫= λ _, loop cbs wmem es)
      (s1, waiting fd k t (public_path path) w).
Proof.
  intros Hg Htext Hc Hp Hread Hset Hv Hact Hrel Hf Hn Hfo Hne Hps headers Hmax r s1.
  set (w1 := waiting fd k t (public_path path) w). set (s2 := set_ring (ring s1 ++ [file_sqe fd k n headers []]) s1).
  cbn [loop]. rewrite (M_bind_run _ _ _ true (s2, w1)).
  2: { rewrite (request_round s w p q k c text Hc Hp Hread) by lia.
       rewrite (M_bind_run _ _ _ tt (s2, w1)); [done|].
       rewrite (read_get_run e k path tail more text _ _ w Hg) by (unfold READ_SIZE in *; lia).
       rewrite (M_bind_run _ _ _ _ _ (send_file_miss e k (public_path path) (wants_bytes path tail more) 200 s1 w
         fd n line t N o l Hfo Hrel Hset Hf Hv Hmax)).
       simpl. fold headers w1 s2. rewrite (on_web_bind _ _ _ _ w1 w1) by done. by rewrite bool_decide_false. }
  cbv iota. rewrite loop_app.
  pose proof (file_loop cbs wmem s1 w1 fd k n headers pieces [] (fo_fd _ _ _ _ _ _ Hfo) ltac:(lia) Hps Hne) as E.
  rewrite app_nil_l in E. specialize (E (eq_sym Hn)).
  unfold mbind at 1, M_bind at 1. change (length r) with (length (ring s1)). unfold s2. rewrite E.
  cbn [web_callbacks ServerBase.custom_read_cb call]. unfold mbind, M_bind.
  by destruct (custom_read_cb _ _ _ _ _) as [[[] ?]|].
Qed.

(** The response is queued and its first write submitted. *)
Lemma response_queued k fd data s w t N o l path c :
  IterOrder (env_iter e) → tcp_server_set w = true → vget (tcp_clients w) k = Ok t →
  last_requested_read_filepath t = path → using_file t = false → cache_rel N (web_cache w) o l →
  filepath_to_cache_idx (web_cache w) !! path = None → fd ≠ inotify_fd (web_cache w) →
  vget (clients s) k = Ok c → send_data c = [] → num_write_reqs c = 0 → k ∈ active_connections s →
  (∀ x, x ∈ all_queued s → wd_addr x < next_addr s) → len data < 2 ^ 32 →
  ∃ s' w' c' wd, custom_read_cb e k fd data (s, w) = Ok (tt, (s', w')) ∧ responded k fd t w w' ∧
    write_state k c' wd (len data) 0 (ring s) s' ∧ src_bytes wmem s' w' (wd_src wd) = Ok data ∧
    serves_only k c' (ring s') s s' ∧ wire s' = wire s ∧ cl_sockfd c' = cl_sockfd c.
Proof.
  intros Hiter Hset Hv Hpath Huse Hrel Hf Hfd Hc Hq Hnum Ha Haddr Hlen. pose proof (len_nonneg data).
  destruct (file_read_calls e k fd data s w t N o l path Hiter Hset Hv Hpath Hrel Hf Hfd)
    as (w' & Hset' & Hsock & Hcl & [(i & -> & Hi & Hv' & Hm)|[-> Hv']]).
  - destruct (enqueue_starts k (write_data_ptr (PCacheItem i) (len data) false 0) (WPtr (PCacheItem i)) (len data) s c)
      as (s' & c' & E & Hws & Hso & Hw & Hfd'); try done.
    exists s', w', c', (write_data_ptr (PCacheItem i) (len data) false 0 (next_addr s)).
    split_and!; try done; [by apply on_tcp_run|].
    destruct (finish_cached k t i (web_cache w') data Hm Hi) as [cache' Hfin]. split; try done.
    by exists (set_using_file true t), cache'.
  - destruct (enqueue_starts k (write_data_vec data) (WOwn (next_addr s)) (len data) s c)
      as (s' & c' & E & Hws & Hso & Hw & Hfd'); try done.
    exists s', w', c', (write_data_vec data (next_addr s)). split_and!; try done.
    + apply on_tcp_run; [done|]. simpl. by rewrite (write_connection_enqueue k data s c Hc).
    + split; try done. exists t, (web_cache w'). unfold finished_with_item. rewrite Huse.
      split_and!; [done|done|]. do 2 f_equal. destruct t; simpl in *; by subst.
    + change (src_bytes wmem s' w' (wd_src (write_data_vec data (next_addr s)))) with (src_bytes wmem s' w' (WOwn (next_addr s))).
      unfold src_bytes. rewrite (vo_clients _ _ _ _ _ Hso).
      pose proof (own_bytes k c c' (write_data_vec data (next_addr s)) (clients s) Hc Hq (ws_queue _ _ _ _ _ _ _ Hws) Haddr) as Eb.
      simpl in Eb. by rewrite Eb.
Qed.

(** The response goes out and the connection ends. *)
Lemma response_written k fd t w w' c wd b r s ns :
  responded k fd t w w' → tc_ws_client_idx t ∉ all_websocket_connections (web_sockets w) →
  write_state k c wd (len b) 0 r s → src_bytes wmem s w' (wd_src wd) = Ok b → len b < 2 ^ 32 →
  Forall (λ n, 0 < n) ns → ns ≠ [] → foldr Z.add 0 ns = len b →
  ∃ s' w2 new c', loop cbs wmem ((λ n, io_done (length r) n []) <$> ns) (s, w') = Ok (true, (s', w2)) ∧
    wire s' = wire s ++ new ∧ Forall (λ x, x.1 = cl_sockfd c) new ∧ concat (new.*2) = b ∧
    clients s' = <[Z.to_nat k := c']> (clients s) ∧ active_connections s' = active_connections s ∖ {[k]} ∧
    freed_indexes s' = {[k]} ∪ freed_indexes s ∧ closed s' = closed s ++ [cl_sockfd c] ∧ ring s' = r ∧
    open_fds w2 = open_fds w'.
Proof.
  intros [Hset Hsock _ (t' & cache' & Hv & Hidx & Hfin)] Hws Hs Hb Hmax Hpos Hne Hsum.
  destruct (writes_all cbs wmem k wd (len b) r w' b ns c 0 s Hs Hb eq_refl Hmax ltac:(lia) Hpos Hne Hsum)
    as (s1 & new & E & [Ec Ea Ef Ecl Er] & Hw & Hfd & Hcat).
  set (c1 := cl_set_send_data [] (cl_set_num_write_reqs 0 c)) in *.
  destruct (write_cb_closes s1 w' k t' cache' c1) as (s2 & E2 & Hcls & Hact & Hfr & Hclosed & Hwire & Hring); try done.
  { by rewrite Hidx, Hsock. }
  { rewrite Ec. apply vget_insert_eq. apply (vget_range _ _ _ (ws_client _ _ _ _ _ _ _ Hs)). }
  exists s2, (killed k t' cache' w'), new, c1. split_and!; try done; try congruence; [|by rewrite Hclosed, Ecl].
  rewrite E. cbn [web_callbacks ServerBase.write_cb call]. by rewrite (M_bind_run _ _ _ _ _ E2).
Qed.

End Web.

(** * Properties *)

(** C1: a GET request is answered in full and its connection closed, over the event loop of the
    plain server: the request arrives on an idle connection, the file it names, not cached, is
    read in any pieces, the response goes out in writes of any sizes; what reaches the
    connection's descriptor is the headers and the whole file, no other descriptor is
    written to, no other connection and no other request changes, the file is closed and
    so is the connection, once, and its index is free. *)
Theorem request_served_and_closed e store k path tail more text pieces sizes p q (s : srv) w c fd line t N o l :
  IterOrder (env_iter e) → get_text path tail more text → 16 ≤ len text < READ_SIZE →
  heap_inv no_extra s → vget (clients s) k = Ok c → send_data c = [] → num_write_reqs c = 0 →
  k ∈ active_connections s → ring s !! p = Some q → read_req_of k c q →
  tcp_server_set w = true → vget (tcp_clients w) k = Ok t → using_file t = false →
  k ∉ active_websocket_connections_client_idxs (web_sockets w) →
  tc_ws_client_idx t ∉ all_websocket_connections (web_sockets w) →
  cache_rel N (web_cache w) o l → filepath_to_cache_idx (web_cache w) !! public_path path = None →
  let n := len (concat pieces) in
  let headers := response_headers 200 (wants_bytes path tail more) false line (to_string n) in
  file_opens e w (public_path path) fd n line → fd ≠ inotify_fd (web_cache w) →
  pieces ≠ [] → Forall piece_ok pieces → n + len headers < 2 ^ 31 →
  Forall (λ m, 0 < m) sizes → sizes ≠ [] → foldr Z.add 0 sizes = len (headers ++ concat pieces) →
  let r := delete p (ring s) in
  ∃ s' w' new c', loop (web_callbacks e) (web_mem store)
      (io_done p (len text) text :: file_cqes (length r) pieces ++ ((λ m, io_done (length r) m []) <$> sizes)) (s, w) =
        Ok (true, (s', w')) ∧
    wire s' = wire s ++ new ∧ Forall (λ x, x.1 = cl_sockfd c) new ∧ concat (new.*2) = headers ++ concat pieces ∧
    clients s' = <[Z.to_nat k := c']> (clients s) ∧ ring s' = r ∧ active_connections s' = active_connections s ∖ {[k]} ∧
    freed_indexes s' = {[k]} ∪ freed_indexes s ∧ closed s' = closed s ++ [cl_sockfd c] ∧ fd ∉ open_fds w'.
Proof.
  intros Hiter Hg Htext Hheap Hc Hq Hnum Ha Hp Hread Hset Hv Huse Hact Hws Hrel Hf n headers Hfo Hfd Hne Hps Hmax Hpos Hnes Hsum r.
  set (c1 := cl_set_read_req_active false c).
  set (s1 := set_clients (<[Z.to_nat k := c1]> (clients s)) (set_ring r s)).
  set (w1 := waiting fd k t (public_path path) w). set (b := headers ++ concat pieces).
  assert (vget (clients s1) k = Ok c1) as Hc1 by (apply vget_insert_eq; by eapply vget_range).
  assert (vget (tcp_clients w1) k = Ok (tc_set_filepath (public_path path) t)) as Hv1
    by (apply vget_insert_eq; by eapply vget_range).
  assert (all_queued s1 = all_queued s) as Hall by
    (unfold all_queued; simpl; rewrite list_fmap_insert, list_insert_id; [done|];
     apply vget_lookup in Hc as [_ Hc']; by rewrite list_lookup_fmap, Hc').
  destruct (response_queued e store k fd b s1 w1 _ N o l (public_path path) c1 Hiter Hset Hv1 eq_refl Huse
    Hrel Hf Hfd Hc1 Hq Hnum Ha) as (s2 & w2 & c2 & wd & E2 & Hresp & Hst & Hsrc & Hso & Hw2 & Hfd2).
  { intros x Hx. rewrite Hall in Hx. exact (proj1 (hi_addrs _ _ Hheap x Hx)). }
  { unfold b. len_lia. }
  destruct (response_written e store k fd _ w1 w2 c2 wd b (ring s1) s2 sizes Hresp Hws Hst Hsrc)
    as (s3 & w3 & new & c3 & E3 & Hw3 & Hfds & Hcat & Hcl & Hact3 & Hfr & Hclosed & Hring & Hopen); try done.
  { unfold b. len_lia. }
  destruct Hso as [Ecl Eact Efr Eclosed _].
  exists s3, w3, new, c3. split_and!; try done; try congruence.
  - rewrite (request_read e store k path tail more text p q pieces _ s w c fd n line t N o l) by (done || (fold headers; lia)).
    fold headers r c1 s1 w1 b. by rewrite (M_bind_run _ _ _ _ _ E2).
  - by rewrite Hw3, Hw2.
  - by rewrite Hfd2 in Hfds.
  - rewrite Hcl, Ecl. simpl. by rewrite !list_insert_insert_eq.
  - by rewrite Hact3, Eact.
  - by rewrite Hfr, Efr.
  - by rewrite Hclosed, Eclosed, Hfd2.
  - rewrite Hopen. apply Hresp.
Qed.

(** [two_conns] with a read of each connection in progress. *)
Definition demo_reading : server_base unit :=
  match (read_connection 0 ≫= λ _, read_connection 1) two_conns with Ok (_, s) => s | Err _ => two_conns end.

Definition demo_conn : client unit := cl_set_read_req_active true (fresh_client (-1) 9).
Definition demo_read (k fd : Z) : sqe :=
  prep_read fd 0 READ_SIZE 0
    {| rq_event := READ; rq_client_idx := k; rq_ID := -1; rq_written := 0; rq_total_length := READ_SIZE;
       rq_buffer := None; rq_read_data := replicate (Z.to_nat READ_SIZE) nul; rq_read_amount := 0;
       rq_custom_info := 0 |}.

Lemma demo_reading_heap : heap_inv no_extra demo_reading.
Proof. destruct (proj2 two_conns_inv). by split. Qed.

Definition demo_headers : list char :=
  response_headers 200 false false (lit "Content-Type: text/plain" ++ crlf) (lit "3").

Lemma request_served_and_closed_witness :
  ∃ s' w' new, loop (web_callbacks demo_env) (web_mem (λ _, Err NullDeref))
      (io_done 0 (len demo_text) demo_text :: file_cqes 1 [lit "ab"; lit "c"] ++
       ((λ m, io_done 1 m []) <$> [50; len demo_headers - 47])) (demo_reading, demo_web0) = Ok (true, (s', w')) ∧
    wire s' = new ∧ concat (new.*2) = demo_headers ++ lit "abc" ∧ closed s' = [9] ∧
    ring s' = [demo_read 1 10].
Proof.
  assert (get_content_type (lit "public/a.txt") = Ok (lit "Content-Type: text/plain" ++ crlf)) as Hty
    by (vm_compute; reflexivity).
  destruct (request_served_and_closed demo_env (λ _, Err NullDeref) 0 (lit "a.txt") (lit "HTTP/1.1")
    (lit "Host: localhost" ++ crlf ++ crlf) demo_text [lit "ab"; lit "c"] [50; len demo_headers - 47] 0
    (demo_read 0 9) demo_reading demo_web0 demo_conn 20
    (lit "Content-Type: text/plain" ++ crlf) new_tcp_client_data 5 [] [])
    as (s' & w' & new & c' & E & Hw & _ & Hcat & _ & Hring & _ & _ & Hcl & _).
  - exact iter_elements.
  - exact demo_get_text.
  - vm_compute. split; [discriminate|reflexivity].
  - exact demo_reading_heap.
  - reflexivity.
  - reflexivity.
  - reflexivity.
  - apply (bool_decide_unpack _). vm_compute. exact I.
  - reflexivity.
  - by split.
  - reflexivity.
  - reflexivity.
  - reflexivity.
  - apply (bool_decide_unpack _). vm_compute. exact I.
  - apply (bool_decide_unpack _). vm_compute. exact I.
  - exact demo_cache_rel.
  - reflexivity.
  - exact (demo_opens _ _ Hty).
  - discriminate.
  - discriminate.
  - repeat (apply Forall_cons; split); [vm_compute; split; discriminate..|constructor].
  - vm_compute. reflexivity.
  - repeat (apply Forall_cons; split); [vm_compute; reflexivity..|constructor].
  - discriminate.
  - vm_compute. reflexivity.
  - exists s', w', new. split_and!; [exact E|exact Hw|exact Hcat|exact Hcl|exact Hring].
Defined.

(** A wait that fails ends the program: io_uring_wait_cqe returns a negative number also
    when a signal interrupts it, and start() takes every one of them for fatal. *)
Lemma wait_failure_fatal {X W} `{!ServerType X} (cb : callbacks X W) mem es e (sw : server_base X * W) :
  -128 ≤ cq_wait e < 0 → loop cb mem (e :: es) sw = Err (FatalError (lit "io_uring_wait_cqe")).
Proof.
  intros H. cbn [loop]. unfold mbind, M_bind, loop_step.
  assert (to_i8 (cq_wait e) = cq_wait e) as -> by (apply to_i8_small; lia).
  by rewrite (proj2 (Z.ltb_lt _ _)) by lia.
Qed.

(** A file that became shorter after fstat is read for ever: the read at its end gives 0, and
    the same read is submitted again, whatever number of times. *)
Lemma truncated_file_read_for_ever cb mem (s : srv) (w : web_server) fd k n headers got m :
  0 ≤ fd < 2 ^ 31 → len got < n → len headers + n < 2 ^ 63 →
  let st := (set_ring (ring s ++ [file_sqe fd k n headers got]) s, w) in
  loop cb mem (replicate m (io_done (length (ring s)) 0 [])) st = Ok (true, st).
Proof.
  intros Hfd Hn Hmax st. induction m as [|m IH]; [done|]. cbn [replicate loop].
  rewrite (M_bind_run _ _ _ true st); [exact IH|].
  unfold st. set (q := file_sqe fd k n headers got). rewrite (loop_step_take cb mem _ _ w q) by
    (done || (simpl; by rewrite lookup_app_r, Nat.sub_diag by lia)).
  cbn [io_done cq_pos cq_res cq_data]. change (ring (set_ring (ring s ++ [q]) s)) with (ring s ++ [q]).
  rewrite drop_last_request, set_ring_same.
  rewrite (M_bind_run _ _ (s, w) (sq_req q) (s, w)) by done.
  unfold handle_event. rewrite (M_bind_run _ _ (s, w) false (s, w)) by done. cbv iota.
  change (rq_event (sq_req q)) with CUSTOM_READ. unfold handle_custom_read. cbn [io_done cq_res].
  change (rq_read_amount (sq_req q)) with (len headers + len got).
  assert (sq_req q = file_req fd k n headers got []) as ->.
  { unfold file_req. rewrite app_nil_r. done. }
  pose proof (file_continue s fd k n headers got [] ltac:(simpl; unfold len in *; simpl; lia) Hmax Hfd) as E.
  rewrite app_nil_r in E. len_facts.
  assert (len (rq_read_data (file_req fd k n headers got [])) = len headers + n) as ->.
  { simpl. rewrite app_nil_r. rewrite !len_app. unfold len. rewrite length_replicate. unfold len in *. lia. }
  rewrite !to_u64_small by lia. rewrite (proj2 (Z.eqb_neq _ _)) by lia.
  change (len []) with 0 in E.
  by rewrite (on_server_bind _ _ s w _ _ E).
Qed.

(** The file read for a connection that was replaced in the meantime is sent to the connection that took its
    index: nothing below asks whether [c] is the connection whose request was read, since
    start() exempts CUSTOM_READ from the test of the IDs, and the request has none. *)
Lemma file_reaches_replacement e store (s : srv) w fd k n headers pieces t N o l c :
  IterOrder (env_iter e) → tcp_server_set w = true → vget (tcp_clients w) k = Ok t → using_file t = false →
  cache_rel N (web_cache w) o l → filepath_to_cache_idx (web_cache w) !! last_requested_read_filepath t = None →
  fd ≠ inotify_fd (web_cache w) → heap_inv no_extra s → vget (clients s) k = Ok c → send_data c = [] →
  num_write_reqs c = 0 → k ∈ active_connections s → 0 ≤ fd < 2 ^ 31 → n = len (concat pieces) →
  pieces ≠ [] → Forall piece_ok pieces → len headers + n < 2 ^ 32 →
  ∃ s' w' q src, loop (web_callbacks e) (web_mem store) (file_cqes (length (ring s)) pieces)
      (set_ring (ring s ++ [file_sqe fd k n headers []]) s, w) = Ok (true, (s', w')) ∧
    ring s' = ring s ++ [q] ∧ sq_op q = IoWrite ∧ sq_fd q = cl_sockfd c ∧ sq_src q = Some src ∧
    src_bytes (web_mem store) s' w' src = Ok (headers ++ concat pieces).
Proof.
  intros Hiter Hset Hv Huse Hrel Hf Hfd Hheap Hc Hq Hnum Ha Hfdr Hn Hne Hps Hmax.
  destruct (response_queued e store k fd (headers ++ concat pieces) s w t N o l _ c Hiter Hset Hv eq_refl Huse Hrel Hf
    Hfd Hc Hq Hnum Ha) as (s' & w' & c' & wd & E & _ & Hst & Hsrc & _ & _ & Hsock).
  { intros x Hx. exact (proj1 (hi_addrs _ _ Hheap x Hx)). }
  { len_lia. }
  exists s', w', (part_sqe k c' (wd_src wd) (len (headers ++ concat pieces)) 0), (wd_src wd).
  split_and!; [|apply Hst|done|done|done|exact Hsrc].
  rewrite file_loop by (done || lia). cbn [web_callbacks ServerBase.custom_read_cb call].
  by rewrite app_nil_l, (M_bind_run _ _ _ _ _ E).
Qed.
