(* ===== verification/Main.v ===== *)
(** * main.cpp: the program from its entry point

    [main] sets what two signals do, reads the configuration and starts the threads, each
    with a server and a web server of its own; the program thread goes on in [run]
    (Central.v).  The functions end where the threads are running, in the state
    from which the theorems of CentralProps.v follow every interleaving of them.

    The threads' constructors exclude each other: each is one step, and they are taken in the order of the
    vector.  What the system calls return is the record [program_os]. *)

From S2P Require Import Prelude Utility CString DataStore Cache ServerBase NonTls NonTlsLoop TcpServer WebBase WsProps Callbacks Config Central CentralProps ThreadProps ThreadInv Program Progress Tls TlsProps Setup.
From Stdlib Require Import ZArith Lia.
From stdpp Require Import base gmap strings list fin_maps sets.

#[local] Open Scope Z_scope.

(** ** Signals *)

Inductive signal_number := SIGINT | SIGPIPE.
Inductive disposition := SIG_DFL | SIG_IGN | SIGINT_HANDLER.

#[export] Instance disposition_eq_dec : EqDecision disposition.
Proof. solve_decision. Defined.

(** The process: what its signals do, and the settings that all threads share. *)
Record process := { on_sigint : disposition; on_sigpipe : disposition; config_data_map : config_map }.

Definition new_process : process := {| on_sigint := SIG_DFL; on_sigpipe := SIG_DFL; config_data_map := ∅ |}.

Definition set_signal (sig : signal_number) (d : disposition) (p : process) : process :=
  match sig with
  | SIGINT => {| on_sigint := d; on_sigpipe := on_sigpipe p; config_data_map := config_data_map p |}
  | SIGPIPE => {| on_sigint := on_sigint p; on_sigpipe := d; config_data_map := config_data_map p |}
  end.

Definition set_config (m : config_map) (p : process) : process :=
  {| on_sigint := on_sigint p; on_sigpipe := on_sigpipe p; config_data_map := m |}.

(** ** The threads *)

(** The descriptors of the web server of a thread, and what the constructor of its server is
    given. *)
Record thread_os := { to_inotify : Z; to_eventfd : Z; to_base : base_env }.

Record program_os := {
  po_files : list char → config_file;
  po_event_fd : Z;
  po_kill_server_efd : Z;
  po_web : env;
  po_wolf : wolf_ctx;
  po_threads : nat → thread_os
}.

(** [central_web_server::instance()] *)
Definition new_central {X} (event_fd kill_server_efd : Z) : central X :=
  {| c_ring := None; c_reqs := ∅; c_next := 0; c_store := empty_store; c_event_fd := event_fd;
     c_kill_server_efd := kill_server_efd; c_timer_fd := -1; c_closed := []; c_eventfd_writes := [];
     c_comm_fds := []; c_servers := []; c_threads := [] |}.

Definition push_thread {X} (eventfd : Z) (t : server_base X * web_server) (c : central X) : central X :=
  {| c_ring := c_ring c; c_reqs := c_reqs c; c_next := c_next c; c_store := c_store c;
     c_event_fd := c_event_fd c; c_kill_server_efd := c_kill_server_efd c; c_timer_fd := c_timer_fd c;
     c_closed := c_closed c; c_eventfd_writes := c_eventfd_writes c;
     c_comm_fds := c_comm_fds c ++ [eventfd]; c_servers := c_servers c;
     c_threads := c_threads c ++ [t] |}.

Section Threads.
Context {X : Type}.

(** The constructor of [server<T>] with the settings of a thread: Setup.v. *)
Variable construct : config_map → Z → base_env → result (server_base X * callbacks X web_server * option Z * Z * config_map).

(** [server_data<T>()] and its thread up to [start]: the settings, [shared_ring_fd] and
    the program. *)
Definition server_data (o : thread_os) : M (config_map * Z * central X) unit := λ '(m, shared, c),
  construct m shared (to_base o) ≫= λ '(s, _, _, shared, m),
  let c := push_thread (to_eventfd o) (s, new_web_server (to_inotify o)) c in
  thread_server_runner (len (c_threads c) - 1) c ≫= λ '(_, c),
  Ok (tt, (m, shared, c)).

(** [thread_data_container.resize(num_threads)]: a negative number is a size no vector can
    have. *)
Definition resize_threads (oss : nat → thread_os) (num_threads : Z) : M (config_map * Z * central X) unit :=
  if num_threads <? 0 then mfault (Uncaught (lit "std::length_error"))
  else mfor (seq 0 (Z.to_nat num_threads)) (λ k, server_data (oss k)).

(** [run<T>] up to its loop; [shared_ring_fd] is -1 at first. *)
Definition run_threads (oss : nat → thread_os) (num_threads : Z) (m : config_map) (c : central X)
  : result (config_map * central X) :=
  resize_threads oss num_threads (m, -1, c) ≫= λ '(_, (m, _, c)), Ok (m, c).

End Threads.

(** ** main *)

(** A program runs servers of one of the types. *)
Inductive program (Ssl : Type) :=
| RunTls (c : central (tls_client Ssl))
| RunNonTls (c : central unit).
Arguments RunTls {Ssl}. Arguments RunNonTls {Ssl}.

Section Main.
Context {Ssl : Type} `{!ServerType (tls_client Ssl), !TcpServer (tls_client Ssl)}.

Definition main (os : program_os) : result (process * program Ssl) :=
  let p := set_signal SIGINT SIGINT_HANDLER new_process in
  let p := set_signal SIGPIPE SIG_IGN p in
  start_server (po_files os (lit ".config")) (config_data_map p) ≫= λ '(tls, num_threads, m),
  if tls : bool then
    run_threads (construct_tls_of (po_web os) (po_wolf os)) (po_threads os) num_threads m
      (new_central (po_event_fd os) (po_kill_server_efd os)) ≫= λ '(m, c),
    Ok (set_config m p, RunTls c)
  else
    run_threads (construct_plain_of (po_web os)) (po_threads os) num_threads m
      (new_central (po_event_fd os) (po_kill_server_efd os)) ≫= λ '(m, c),
    Ok (set_config m p, RunNonTls c).

(** What a signal does to the program. *)
Definition signal_arrives {X} (d : disposition) : M (central X) unit :=
  match d with
  | SIGINT_HANDLER => sigint_handler
  | SIG_IGN => mret tt
  | SIG_DFL => mfault (Uncaught (lit "terminated by a signal"))
  end.
End Main.

(** * Lemmas *)

Section Started.
Context {X : Type}.
Implicit Types (c : central X) (oss : nat → thread_os).

(** The read of the events of inotify. *)
Definition inotify_sqe (fd : Z) : sqe :=
  prep_read fd 0 READ_SIZE 0
    {| rq_event := CUSTOM_READ; rq_client_idx := -1; rq_ID := -1; rq_written := 0;
       rq_total_length := inotify_event_size; rq_buffer := None; rq_read_data := replicate 16 nul;
       rq_read_amount := 0; rq_custom_info := fd |}.

(** A thread before [start]: the new server that listens on [l], with a fourth request. *)
Definition ready_thread (o : thread_os) (l : Z) : server_base X * web_server :=
  let e := to_base o in
  let s := new_server l (be_timerfd e) (be_notification e) (be_kill e) in
  (set_ring (ring s ++ [inotify_sqe (to_inotify o)]) s, set_tcp_set true (new_web_server (to_inotify o))).

(** The program with the threads that listen on [ls]. *)
Definition with_threads oss (ls : list Z) c : central X :=
  {| c_ring := c_ring c; c_reqs := c_reqs c; c_next := c_next c; c_store := c_store c;
     c_event_fd := c_event_fd c; c_kill_server_efd := c_kill_server_efd c; c_timer_fd := c_timer_fd c;
     c_closed := c_closed c; c_eventfd_writes := c_eventfd_writes c;
     c_comm_fds := (λ k, to_eventfd (oss k)) <$> seq 0 (length ls); c_servers := seqZ 0 (len ls);
     c_threads := imap (λ k l, ready_thread (oss k) l) ls |}.

(** [l] is what [setup_listener] finds for the configured port. *)
Definition listening (tls : bool) (m : config_map) (o : thread_os) (l : Z) : Prop :=
  ∃ port opened, listen_port tls m = Ok port ∧ setup_listener (be_listen (to_base o) port) = Ok (l, opened).

(** The program with its threads, before the loop of [run]. *)
Definition started (tls : bool) (m : config_map) oss (num_threads : Z) c0 c : Prop :=
  ∃ ls, len ls = num_threads ∧ c = with_threads oss ls c0 ∧
    ∀ k l, ls !! k = Some l → listening tls m (oss k) l.

(** What the constructors of both types do with the settings. *)
Definition builds (tls : bool) (m : config_map)
    (construct : config_map → Z → base_env → result (server_base X * callbacks X web_server * option Z * Z * config_map)) : Prop :=
  ∀ sh e s cb wq sh' m', construct m sh e = Ok (s, cb, wq, sh', m') → m' = m ∧
    ∃ l port opened, listen_port tls m = Ok port ∧ setup_listener (be_listen e port) = Ok (l, opened) ∧
      s = new_server l (be_timerfd e) (be_notification e) (be_kill e).

Lemma server_data_run construct tls m oss sh ls c0 u st :
  builds tls m construct → server_data construct (oss (length ls)) (m, sh, with_threads oss ls c0) = Ok (u, st) →
  ∃ l sh', st = (m, sh', with_threads oss (ls ++ [l]) c0) ∧ listening tls m (oss (length ls)) l.
Proof.
  intros Hb H. unfold server_data in H. set (o := oss (length ls)) in *.
  apply result_bind_Ok in H as ([[[[s cb] wq] sh'] m'] & Ec & H).
  apply Hb in Ec as [-> (l & port & opened & Hport & Hl & ->)]. exists l, sh'. split; [|by exists port, opened].
  set (c1 := push_thread _ _ _) in H. assert (len (c_threads c1) - 1 = len ls) as Hlen.
  { simpl. rewrite len_app. unfold len. rewrite length_imap. simpl. lia. }
  rewrite Hlen in H. revert H. unfold thread_server_runner, register_server.
  set (c2 := set_c_data (c_store c1) (c_closed c1) (c_eventfd_writes c1) (c_servers c1 ++ [len ls]) (c_threads c1) c1).
  rewrite (M_bind_run _ _ c1 tt c2) by done.
  rewrite (on_thread_run (len ls) (new_server l (be_timerfd (to_base o)) (be_notification (to_base o)) (be_kill (to_base o)),
    new_web_server (to_inotify o)) set_tcp_server tt (ready_thread o l)).
  - intros [= <- <-]. do 2 f_equal. unfold put_thread, set_c_threads, set_c_data, with_threads, c2. simpl.
    rewrite imap_app, length_app. simpl. rewrite Nat.add_0_r, seq_app, fmap_app. f_equal.
    + rewrite len_app. unfold len. simpl. rewrite seqZ_app by lia. simpl. by rewrite Z.add_0_l.
    + rewrite insert_app_r_alt by (rewrite length_imap; unfold len; lia).
      rewrite length_imap. unfold len. by rewrite Nat2Z.id, Nat.sub_diag.
  - simpl. rewrite vget_app_r by (unfold len; rewrite length_imap; lia).
    unfold len. by rewrite length_imap, Z.sub_diag.
  - done.
Qed.

Lemma server_datas_run construct tls m oss c0 n : ∀ sh ls u st,
  builds tls m construct →
  mfor (seq (length ls) n) (λ k, server_data construct (oss k)) (m, sh, with_threads oss ls c0) = Ok (u, st) →
  (∀ k l, ls !! k = Some l → listening tls m (oss k) l) →
  ∃ ls' sh', st = (m, sh', with_threads oss ls' c0) ∧ length ls' = (length ls + n)%nat ∧
    ∀ k l, ls' !! k = Some l → listening tls m (oss k) l.
Proof.
  induction n as [|n IH]; intros sh ls u st Hb H Hls; simpl in H.
  - injection H as _ <-. exists ls, sh. split_and!; [done|lia|done].
  - apply M_bind_Ok in H as (u1 & s1 & E & H).
    apply (server_data_run construct tls m oss sh ls c0) in E as (l & sh' & -> & Hl); [|done].
    replace (S (length ls)) with (length (ls ++ [l])) in H by (rewrite length_app; simpl; lia).
    apply IH in H as (ls' & sh'' & -> & Hlen & Hls'); [|done|].
    + exists ls', sh''. split_and!; [done| |done]. rewrite length_app in Hlen. simpl in Hlen. lia.
    + intros k x [Hk|[Hk H0]]%lookup_app_Some; [by apply Hls|].
      apply list_lookup_singleton_Some in H0 as [H0 <-]. by replace k with (length ls) by lia.
Qed.

Lemma run_threads_started construct tls m oss n ev kill m' c :
  builds tls m construct → run_threads construct oss n m (new_central ev kill) = Ok (m', c) →
  m' = m ∧ 0 ≤ n ∧ started tls m oss n (new_central ev kill) c.
Proof.
  intros Hb H. unfold run_threads in H. apply result_bind_Ok in H as ([u [[m1 sh] c1]] & E & H).
  injection H as <- <-. unfold resize_threads in E. destruct (Z.ltb_spec n 0) as [|Hn]; [done|].
  apply (server_datas_run construct tls m oss (new_central ev kill) (Z.to_nat n) (-1) []) in E
    as (ls & sh' & [= -> -> ->] & Hlen & Hls); [|done|done].
  split_and!; [done|done|]. exists ls. split_and!; [|done|done]. simpl in Hlen. unfold len. lia.
Qed.

(** The state that the theorems on the running program start from. *)
Lemma started_threads tls m oss n ev kill c t :
  started tls m oss n (new_central ev kill) c → t ∈ c_threads c →
  ∃ k l, t = ready_thread (oss k) l ∧ listening tls m (oss k) l.
Proof.
  intros (ls & _ & -> & Hls) (k & Hk)%list_elem_of_lookup. simpl in Hk. rewrite list_lookup_imap in Hk.
  apply fmap_Some in Hk as (l & Hl & ->). exists k, l. split; [done|by apply Hls].
Qed.

Lemma started_not_started tls m oss n ev kill c :
  1 ≤ n < 2 ^ 31 → started tls m oss n (new_central ev kill) c →
  not_started c ∧ Forall (λ t, tcp_server_set t.2 = true) (c_threads c).
Proof.
  intros Hn Hst. pose proof (started_threads tls m oss n ev kill c) as Ht. split.
  - destruct Hst as (ls & Hlen & Ec & Hls). split; [by subst c..| |].
    + apply Forall_forall. intros t Hin. destruct (Ht t) as (k & l & -> & _); [by exists ls|done|done].
    + subst c. simpl. unfold len in *. rewrite length_fmap, length_seq, length_imap. lia.
  - apply Forall_forall. intros t Hin. by destruct (Ht t Hst Hin) as (k & l & -> & _).
Qed.
End Started.

Lemma plain_builds env m : map_count (lit "PORT") m = true → builds false m (construct_plain_of env).
Proof.
  intros H sh e s cb wq sh' m'. unfold construct_plain_of. pose proof (map_index_present _ _ H) as E. rewrite E.
  intros (port & Hp & H1)%result_bind_Ok. apply result_bind_Ok in H1 as ([[[s1 cb1] wq1] sh1] & Hc & [= <- _ <- <- <-]).
  split; [done|]. apply construct_server_inv in Hc as [(l & opened & Hl & ->) _]. by exists l, port, opened.
Qed.

Lemma tls_builds {Ssl} `{!ServerType (tls_client Ssl), !TcpServer (tls_client Ssl)} env w m :
  map_count (lit "FULLCHAIN") m = true → map_count (lit "PKEY") m = true → map_count (lit "TLS_PORT") m = true →
  builds true m (construct_tls_of env w).
Proof.
  intros Hf Hk Ht sh e s cb wq sh' m'. unfold construct_tls_of.
  rewrite (map_index_present _ _ Ht), (map_index_present _ _ Hf), (map_index_present _ _ Hk).
  intros (port & Hp & H1)%result_bind_Ok. apply result_bind_Ok in H1 as ([[[s1 cb1] wq1] sh1] & Hc & [= <- _ <- <- <-]).
  split; [done|]. apply construct_tls_inv in Hc.
  apply construct_server_inv in Hc as [(l & opened & Hl & ->) _]. by exists l, port, opened.
Qed.

Lemma stoi_range l n : stoi l = Ok n → - 2 ^ 31 ≤ n < 2 ^ 31.
Proof.
  unfold stoi. destruct (match skip_spaces l with [] => _ | _ => _ end) as [sign t].
  destruct (digits_value t 0 false); [|done]. case_bool_decide as Hb; [|done]. intros E. injection E as <-. exact Hb.
Qed.

Lemma started_range f m tls n m' : start_server f m = Ok (tls, n, m') → n < 2 ^ 31.
Proof.
  unfold start_server. intros (m1 & _ & H)%result_bind_Ok. apply result_bind_Ok in H as ([] & _ & H).
  apply result_bind_Ok in H as (num & Hn & H). destruct (map_index (lit "TLS") m1). injection H as _ <- _.
  unfold server_threads in Hn. destruct (map_count _ _); [apply stoi_range in Hn; lia|injection Hn as <-; lia].
Qed.

(** The program from [c] on: [run] gets to its loop, and whatever the threads and the program
    do then, every completion is handled and the loop goes on. *)
Definition loop_safe {X} `{!ServerType X, !TcpServer X, !TcpServerLaws X} (iter : gset Z → list Z) (e : env) timer (c : central X) : Prop :=
  ∃ c1, run_init timer c = Ok (tt, c1) ∧
    ∀ c2 ev, rtc (system_step iter e) c1 c2 → central_legal c2 ev → len (ds_vec (c_store c2)) < 2 ^ 31 - 2 →
      ∃ c3, central_step iter ev c2 = Ok (true, c3).

(** [run] gets to its loop. *)
Lemma started_runs {X} `{!ServerType X, !TcpServer X, !TcpServerLaws X} tls m oss n ev kill timer (c : central X) :
  1 ≤ n < 2 ^ 31 → started tls m oss n (new_central ev kill) c →
  NoDup (timer :: kill :: ((λ k, to_eventfd (oss k)) <$> seq 0 (Z.to_nat n))) →
  ∃ c1, run_init timer c = Ok (tt, c1) ∧ ∀ iter e c2, rtc (system_step iter e) c1 c2 → reachable iter e c c2.
Proof.
  intros Hn Hst Hnd. destruct (started_not_started tls m oss n ev kill c Hn Hst) as [Hns _].
  destruct Hst as (ls & Hlen & Ec & _). assert (Z.to_nat n = length ls) as El by (unfold len in Hlen; lia).
  assert (NoDup (timer :: c_kill_server_efd c :: c_comm_fds c)) as Hnd' by (subst c; simpl; by rewrite <-El).
  destruct (run_init_run timer c Hns Hnd') as (c1 & E & Hinv). exists c1. split; [done|]. intros iter e c2 Hsteps.
  split; [done|]. by exists timer, c1.
Qed.

Lemma started_loop_safe {X} `{!ServerType X, !TcpServer X, !TcpServerLaws X} iter e
    `{!IterOrder iter, !IterOrder (env_iter e)} tls m oss n ev kill timer (c : central X) :
  1 ≤ n < 2 ^ 31 → started tls m oss n (new_central ev kill) c →
  NoDup (timer :: kill :: ((λ k, to_eventfd (oss k)) <$> seq 0 (Z.to_nat n))) → loop_safe iter e timer c.
Proof.
  intros Hn Hst Hnd. destruct (started_runs tls m oss n ev kill timer c Hn Hst Hnd) as (c1 & E & Hr).
  exists c1. split; [done|]. intros c2 x Hsteps Hl Hvec.
  destruct (central_round _ iter c2 x (reachable_system iter e c c2 (Hr _ _ _ Hsteps)) Hl Hvec) as (c3 & E3 & _). by exists c3.
Qed.

(** The threads of a program of plain servers are in order when [run] gets to its loop. *)
Lemma started_in_order tls m oss n ev kill timer c c1 :
  started tls m oss n (new_central ev kill) c → run_init timer c = Ok (tt, c1) → program_ok c1.
Proof.
  intros Hst Hrun. eapply threads_kept_ok; [by eapply run_init_keeps|]. apply Forall_forall. intros t Ht _.
  destruct (started_threads tls m oss n ev kill c t Hst Ht) as (k & l & -> & _). set (o := to_base (oss k)).
  exact (new_thread_ok l (be_timerfd o) (be_notification o) (be_kill o) (to_inotify (oss k)) tt _ eq_refl).
Qed.

(** [kill_server] of a thread's server. *)
Definition kill_thread {X} (t : server_base X * web_server) : server_base X * web_server :=
  let '(s, w) := t in
  (srv_obs (ran_server s) (is_active s) (closed s) (eventfd_writes s ++ [kill_efd s]) (wire s) s, w).

Section MainProps.
Context {Ssl : Type} `{!ServerType (tls_client Ssl), !TcpServer (tls_client Ssl)}.

(** What [main] started. *)
Definition main_started (os : program_os) (tls : bool) (n : Z) (m : config_map) (prog : program Ssl) : Prop :=
  let c0 {X} : central X := new_central (po_event_fd os) (po_kill_server_efd os) in
  match prog with
  | RunTls c => tls = true ∧ started tls m (po_threads os) n c0 c
  | RunNonTls c => tls = false ∧ started tls m (po_threads os) n c0 c
  end.

Lemma main_run (os : program_os) p (prog : program Ssl) :
  main os = Ok (p, prog) →
  on_sigint p = SIGINT_HANDLER ∧ on_sigpipe p = SIG_IGN ∧
  ∃ tls n, start_server (po_files os (lit ".config")) ∅ = Ok (tls, n, config_data_map p) ∧ 0 ≤ n ∧
    main_started os tls n (config_data_map p) prog.
Proof.
  unfold main. cbv zeta. intros ([[tls n] m] & Hs & H)%result_bind_Ok. pose proof (started_settings _ _ _ _ _ Hs) as Hm.
  destruct tls; apply result_bind_Ok in H as ([m' c] & Hr & [= <- <-]).
  - destruct Hm as (Hf & Hk & Ht).
    apply (run_threads_started _ true m) in Hr as (-> & Hn & Hst); [|by apply tls_builds].
    split_and!; [done|done|]. by exists true, n.
  - apply (run_threads_started _ false m) in Hr as (-> & Hn & Hst); [|by apply plain_builds].
    split_and!; [done|done|]. by exists false, n.
Qed.
End MainProps.

(** * Properties *)


(** C12: the program never faults after [main] started it with at least one thread: [run]
    reaches its loop, and however the threads, their connections and the program thread
    interleave, every completion of the timer or an eventfd is handled and the
    loop goes on. *)
Theorem program_never_faults {Ssl} `{!ServerType (tls_client Ssl), !TcpServer (tls_client Ssl), !TcpServerLaws (tls_client Ssl)}
    os p (prog : program Ssl) iter e timer tls n m `{!IterOrder iter, !IterOrder (env_iter e)} :
  main os = Ok (p, prog) → start_server (po_files os (lit ".config")) ∅ = Ok (tls, n, m) → 1 ≤ n →
  NoDup (timer :: po_kill_server_efd os :: ((λ k, to_eventfd (po_threads os k)) <$> seq 0 (Z.to_nat n))) →
  match prog with RunTls c => loop_safe iter e timer c | RunNonTls c => loop_safe iter e timer c end.
Proof.
  intros Hmain Hs Hn Hnd. apply started_range in Hs as Hr.
  apply main_run in Hmain as (_ & _ & tls' & n' & Hs' & _ & Hst). rewrite Hs in Hs'. injection Hs' as <- <- ->.
  destruct prog as [c|c]; destruct Hst as [_ Hst]; by eapply started_loop_safe.
Qed.




(** SIGINT signals the server of every thread, and none of their states changes otherwise. *)
Lemma sigint_signals_every_server {X : Type} (c : central X) :
  c_servers c = seqZ 0 (len (c_threads c)) →
  signal_arrives SIGINT_HANDLER c = Ok (tt,
    set_c_threads (kill_thread <$> c_threads c)
      (set_c_data (c_store c) (c_closed c) (c_eventfd_writes c ++ [(c_event_fd c, kill_sig_size)]) (c_servers c)
         (c_threads c) c)).
Proof.
  intros Hc. unfold signal_arrives, sigint_handler, Central.kill_server. set (c1 := set_c_data _ _ _ _ _ c).
  rewrite (M_bind_run _ _ c tt c1) by done. unfold kill_all_servers. rewrite (M_bind_run _ _ c1 c1 c1) by done.
  change (c_servers c1) with (c_servers c). rewrite Hc.
  apply (on_all_threads (on_server ServerBase.kill_server) kill_thread) with (l1 := []); [|done].
  by intros [s w].
Qed.

(** A configuration with two threads, and its descriptors. *)
Definition demo_config : list char :=
  lit "TLS: no" ++ newline ++ lit "PORT: 8080" ++ newline ++ lit "SERVER_THREADS: 2".

Definition demo_os : program_os :=
  {| po_files := λ _, demo_file demo_config; po_event_fd := 20; po_kill_server_efd := 21;
     po_web := demo_env;
     po_wolf := {| ctx_new := false; ctx_chain := λ _, 0; ctx_key := λ _, 0; ssl_success := 1 |};
     po_threads := λ k, let k := Z.of_nat k in
       {| to_inotify := 100 + k; to_eventfd := 200 + k;
          to_base := {| be_ring_fd := 300 + k; be_timerfd := 400 + k; be_notification := 500 + k; be_kill := 600 + k;
                        be_listen := λ _, {| le_getaddrinfo := 0; le_listen := 0;
                          le_addrs := [{| at_socket := 700 + k; at_reuseaddr := 0; at_reuseport := 0; at_bind := 0 |}] |} |} |} |}.

Definition demo_main : result (process * program (option (list char))) :=
  @main _ (tls_server demo_wolf) (tls_tcp demo_wolf) demo_os.

Lemma demo_settings : (λ r, r.1) <$> start_server (po_files demo_os (lit ".config")) ∅ = Ok (false, 2).
Proof. vm_compute. reflexivity. Qed.

Lemma demo_main_plain : ∃ p c, demo_main = Ok (p, RunNonTls c).
Proof.
  destruct demo_main as [[p [c|c]]|f] eqn:E; [|by exists p, c|]; exfalso; vm_compute in E; discriminate E.
Qed.


Lemma program_never_faults_witness :
  ∃ p c, demo_main = Ok (p, RunNonTls c) ∧ loop_safe elements demo_env 30 c.
Proof.
  destruct demo_main_plain as (p & c & E). exists p, c. split; [exact E|].
  destruct (start_server (po_files demo_os (lit ".config")) ∅) as [[[tls n] m]|] eqn:Hs;
    pose proof demo_settings as Hd; rewrite Hs in Hd; [|discriminate Hd]. injection Hd as -> ->.
  refine (@program_never_faults _ (tls_server demo_wolf) (tls_tcp demo_wolf) (tls_laws demo_wolf) demo_os p (RunNonTls c)
    elements demo_env 30 false 2 m _ _ E Hs _ _); [lia|].
  apply (bool_decide_unpack _). vm_compute. exact I.
Defined.


(** The first thread starts and accepts a connection. *)
Definition demo_running : result (unit * central unit) :=
  demo_main ≫= λ '(_, prog), match prog with RunNonTls c => run_init 30 c | RunTls _ => Err NullDeref end.
Definition demo_thread (c : central unit) : srv * web_server :=
  match c_threads c with t :: _ => t | [] => (new_server 0 0 0 0, new_web_server 0) end.
Definition demo_start (c : central unit) : result (bool * (srv * web_server)) :=
  start (web_callbacks demo_env) (web_mem (get_item (c_store c))) [] (demo_thread c).
Definition demo_accept : cqe :=
  {| cq_wait := 0; cq_pos := 4; cq_res := 9; cq_data := []; cq_peek := λ _, -1; cq_iter := elements |}.
Definition demo_accepted (c : central unit) : result (bool * (srv * web_server)) :=
  loop_step (web_callbacks demo_env) (web_mem (get_item (c_store c))) demo_accept (demo_thread c).

Lemma demo_thread_in (c : central unit) : c_threads c ≠ [] → c_threads c !! 0%nat = Some ((demo_thread c).1, (demo_thread c).2).
Proof. unfold demo_thread. destruct (c_threads c) as [|[]]; [done|]. done. Qed.

(** It accepted the connection, and is about to. *)
Lemma demo_thread_accepts :
  ∃ p c0 c1 c s w q s' w', demo_main = Ok (p, RunNonTls c0) ∧ run_init 30 c0 = Ok (tt, c1) ∧
    rtc (program_step elements demo_env) c1 c ∧ c_threads c !! 0%nat = Some (s, w) ∧
    (ran_server s = true ∧ is_active s = true ∧ clients s = []) ∧ ring s !! 4%nat = Some q ∧ rq_event (sq_req q) = ACCEPT ∧
    completion_ok s w demo_accept q ∧ sq_op q = IoAccept ∧
    loop_step (web_callbacks demo_env) (web_mem (get_item (c_store c))) demo_accept (s, w) = Ok (true, (s', w')) ∧
    active_connections s' = {[0]} ∧ len (tcp_clients w') = 1 ∧ is_active s' = true.
Proof.
  destruct demo_main_plain as (p & c0 & E0). destruct demo_running as [[[] c1]|] eqn:E1; [|exfalso; vm_compute in E1; discriminate E1].
  destruct (demo_start c1) as [[b1 [s1 w1]]|] eqn:E2; [|exfalso; vm_compute in E1; injection E1 as <-; vm_compute in E2; discriminate E2].
  set (c2 := put_thread 0 (s1, w1) c1).
  destruct (demo_accepted c2) as [[b2 [s2 w2]]|] eqn:E3.
  2: { exfalso. vm_compute in E1. injection E1 as <-. vm_compute in E2. injection E2 as _ <- <-. vm_compute in E3. discriminate E3. }
  assert (c_threads c1 ≠ [] ∧ ran_server (demo_thread c1).1 = false) as [Hne Hr] by
    (vm_compute in E1; injection E1 as <-; split; [discriminate|reflexivity]).
  assert (b1 = true ∧ (ran_server s1 = true ∧ is_active s1 = true ∧ clients s1 = []) ∧ c_threads c2 ≠ [] ∧
    demo_thread c2 = (s1, w1) ∧ ∃ q, ring s1 !! 4%nat = Some q ∧ rq_event (sq_req q) = ACCEPT ∧
    completion_ok s1 w1 demo_accept q ∧ sq_op q = IoAccept) as (-> & Hs1 & Hne2 & Hd & q & Hq & Hev & Hok & Hop).
  { subst c2. vm_compute in E1. injection E1 as <-. vm_compute in E2. injection E2 as <- <- <-.
    split_and!; try reflexivity; [discriminate|]. eexists. split; [reflexivity|]. split; [reflexivity|]. split; [split; done|reflexivity]. }
  assert (b2 = true ∧ active_connections s2 = {[0]} ∧ len (tcp_clients w2) = 1 ∧ is_active s2 = true) as (-> & Hact & Hlen & Ha2).
  { subst c2. vm_compute in E1. injection E1 as <-. vm_compute in E2. injection E2 as <- <-. vm_compute in E3.
    injection E3 as <- <- <-. split_and!; reflexivity. }
  exists p, c0, c1, c2, s1, w1, q, s2, w2. unfold demo_running in E1. rewrite E0 in E1. unfold demo_accepted in E3. rewrite Hd in E3.
  split_and!; try done; [|by rewrite (demo_thread_in c2 Hne2), Hd|apply Hs1..].
  apply rtc_once. eapply (program_start elements demo_env 0 _ _ s1 w1 c1); [by apply demo_thread_in|exact Hr|].
  unfold demo_start in E2. by rewrite (surjective_pairing (demo_thread c1)) in E2.
Qed.


